(** * A page file, a buffer pool, a record manager and a flat B-index

    Shallow embedding of [storage_mgr.c], [buffer_mgr.c], [record_mgr.c] and
    [btree_mgr.c].  Every C function becomes a Rocq function of the same name
    that takes the state it reads (file system, pool, table) and returns the
    return code together with the state it leaves behind.

    Modelling conventions, used throughout:
    - a [char] buffer is a [list byte]; a page buffer has [PAGE_SIZE] bytes;
    - a C [int] is a [Z]; counters ([pinCount], [globalTimer], ...) are not
      wrapped, because signed overflow is undefined in C; the one product
      that a large but legal input can overflow, [pageNum * PAGE_SIZE], is
      computed with 32-bit wrap-around ([int_wrap]);
    - pointer arguments are values, so the null guards at the top of the C
      functions have no counterpart here;
    - [malloc] and [calloc] succeed;
    - a loop that the C code does not bound takes a [fuel : nat] and answers
      [None] when the fuel runs out;
    - a step that C leaves undefined has no result either ([None]): following
      a null or uninitialised pointer, or a [memcpy] that leaves one of its
      two buffers. *)

From stdpp Require Import gmap strings list.
From Stdlib Require Import ZArith Strings.Byte Lia.
Open Scope Z_scope.

(** ** Return codes *)

(** Modelled from the spec: [dberror.h] is not part of the sources at hand.
    The codes are the ones the four C files name; they are pairwise distinct,
    as in the error-code list of the specification. *)
Inductive RC : Set :=
| RC_OK
| RC_FILE_NOT_FOUND
| RC_FILE_HANDLE_NOT_INIT
| RC_WRITE_FAILED
| RC_READ_NON_EXISTING_PAGE
| RC_FILE_CLOSE_FAILED
| RC_ERROR
| RC_PINNED_PAGES_IN_BUFFER
| RC_INVALID_PARAMETER
| RC_MEMORY_ALLOCATION_ERROR
| RC_MALLOC_FAILED
| RC_NULL_POINTER
| RC_RM_NO_TUPLE_WITH_GIVEN_RID
| RC_RM_NO_MORE_TUPLES
| RC_RM_COMPARE_VALUE_OF_DIFFERENT_DATATYPE
| RC_RM_UNKOWN_DATATYPE
| RC_SCAN_CONDITION_NOT_FOUND
| RC_IM_KEY_NOT_FOUND
| RC_IM_NO_MORE_ENTRIES.

Global Instance RC_eq_dec : EqDecision RC.
Proof. solve_decision. Defined.

Definition is_ok (rc : RC) : bool := bool_decide (rc = RC_OK).

(** ** Machine integers and bytes *)

(** Modelled from the spec: [PAGE_SIZE] comes from [dberror.h]; the
    specification fixes the reference value 4096. *)
Definition PAGE_SIZE : Z := 4096.

Definition PAGE_LEN : nat := Z.to_nat PAGE_SIZE.

Definition INT_MAX : Z := 2147483647.

(** Two's-complement reduction of a mathematical integer to 32 bits. *)
Definition int_wrap (z : Z) : Z := (z + 2 ^ 31) mod 2 ^ 32 - 2 ^ 31.

Definition zero_bytes (n : nat) : list byte := replicate n x00.

Definition byte_of_Z (z : Z) : byte := default x00 (Byte.of_N (Z.to_N (z mod 256))).

Global Arguments PAGE_SIZE : simpl never.
Global Arguments PAGE_LEN : simpl never.
Global Arguments zero_bytes : simpl never.

(** [memcpy (dst + off, src, n)] on buffers held as lists. *)
Definition memcpy_at (dst : list byte) (off : nat) (src : list byte) (n : nat) : list byte :=
  take off dst ++ take n src ++ drop (off + n) dst.

(** ** storage_mgr.c *)

Module StorageMgr.

Definition SM_PageHandle := list byte.

(** [mgmtInfo] is the [FILE *]: the stream is identified by the path it was
    opened on, [None] is the null pointer. *)
Record SM_FileHandle : Type := mkFileHandle {
  fileName : string;
  totalNumPages : Z;
  curPagePos : Z;
  mgmtInfo : option string
}.

(** The part of the operating system the page file sees: the files by
    name, and whether the device currently refuses writes (a full disk),
    which is how [fwrite] comes to return a short count. *)
Record FileSystem : Type := mkFS {
  files : gmap string (list byte);
  write_error : bool
}.

Definition set_file (fs : FileSystem) (name : string) (c : list byte) : FileSystem :=
  {| files := <[name := c]> (files fs); write_error := write_error fs |}.

Definition remove_file (fs : FileSystem) (name : string) : FileSystem :=
  {| files := delete name (files fs); write_error := write_error fs |}.

(** *** stdio *)

(** [fseek (fp, off, SEEK_SET)] is refused for a negative offset. *)
Definition fseek_set_ok (off : Z) : bool := 0 <=? off.

(** Bytes that [fread (buf, n, 1, fp)] can transfer from offset [off]. *)
Definition fread_at (c : list byte) (off : Z) (n : nat) : list byte :=
  take n (drop (Z.to_nat off) c).

(** Contents after [fwrite (buf, 1, length buf, fp)] at offset [off]; a gap
    between the end of the file and [off] reads as zeros. *)
Definition fwrite_at (c : list byte) (off : Z) (buf : list byte) : list byte :=
  let o := Z.to_nat off in
  take o c ++ zero_bytes (o - length c) ++ buf ++ drop (o + length buf) c.

(** [fwrite] through stream [fp] at offset [off]: [None] when nothing could
    be written. *)
Definition fwrite (fs : FileSystem) (fp : option string) (off : Z) (buf : list byte)
  : option FileSystem :=
  match fp with
  | None => None
  | Some name =>
      match files fs !! name with
      | None => None
      | Some c =>
          if write_error fs then None
          else Some (set_file fs name (fwrite_at c off buf))
      end
  end.

(** [fseek (fp, 0, SEEK_END)]: the offset of the end of the file. *)
Definition fseek_end (fs : FileSystem) (fp : option string) : Z :=
  match fp with
  | Some name =>
      match files fs !! name with
      | Some c => Z.of_nat (length c)
      | None => 0
      end
  | None => 0
  end.

(** *** Helper functions *)

Definition get_file_size (fs : FileSystem) (filename : string) : Z :=
  match files fs !! filename with
  | Some c => Z.of_nat (length c)
  | None => -1
  end.

Definition validate_read (fh : SM_FileHandle) (pageNum : Z) (memPage : SM_PageHandle) : RC :=
  if (pageNum <? 0) || (pageNum >=? totalNumPages fh) then RC_READ_NON_EXISTING_PAGE
  else RC_OK.

(** *** Core functions *)

Definition createPageFile (fs : FileSystem) (filename : string) : RC * FileSystem :=
  (* fopen (filename, "w") creates or truncates the file *)
  let fs0 := set_file fs filename [] in
  match fwrite fs0 (Some filename) 0 (zero_bytes PAGE_LEN) with
  | Some fs1 => (RC_OK, fs1)
  | None => (RC_WRITE_FAILED, fs0)
  end.

Definition openPageFile (fs : FileSystem) (filename : string) : RC * option SM_FileHandle :=
  let file_size := get_file_size fs filename in
  if file_size <? 0 then (RC_FILE_NOT_FOUND, None)
  else
    (RC_OK,
     Some {| fileName := filename;
             totalNumPages := (file_size + PAGE_SIZE - 1) / PAGE_SIZE;
             curPagePos := 0;
             mgmtInfo := Some filename |}).

Definition closePageFile (fh : SM_FileHandle) : RC * SM_FileHandle :=
  (RC_OK,
   {| fileName := fileName fh; totalNumPages := totalNumPages fh;
      curPagePos := curPagePos fh; mgmtInfo := None |}).

Definition destroyPageFile (fs : FileSystem) (filename : string) : RC * FileSystem :=
  match files fs !! filename with
  | Some _ => (RC_OK, remove_file fs filename)
  | None => (RC_FILE_NOT_FOUND, fs)
  end.

Definition set_curPagePos (fh : SM_FileHandle) (p : Z) : SM_FileHandle :=
  {| fileName := fileName fh; totalNumPages := totalNumPages fh;
     curPagePos := p; mgmtInfo := mgmtInfo fh |}.

Definition set_totalNumPages (fh : SM_FileHandle) (n : Z) : SM_FileHandle :=
  {| fileName := fileName fh; totalNumPages := n;
     curPagePos := curPagePos fh; mgmtInfo := mgmtInfo fh |}.

(** *** Block reads *)

(** The buffer is returned as [fread] leaves it: on a short read its prefix
    holds the bytes that were transferred. *)
Definition readBlock (fs : FileSystem) (pageNum : Z) (fh : SM_FileHandle) (memPage : SM_PageHandle)
  : RC * SM_FileHandle * SM_PageHandle :=
  let valid := validate_read fh pageNum memPage in
  if negb (is_ok valid) then (valid, fh, memPage)
  else
    let off := int_wrap (pageNum * PAGE_SIZE) in
    if negb (fseek_set_ok off) then (RC_READ_NON_EXISTING_PAGE, fh, memPage)
    else
      let c := match mgmtInfo fh with
               | Some name => default [] (files fs !! name)
               | None => []
               end in
      let got := fread_at c off PAGE_LEN in
      let memPage' := got ++ drop (length got) memPage in
      if bool_decide (length got = PAGE_LEN) then (RC_OK, set_curPagePos fh pageNum, memPage')
      else (RC_READ_NON_EXISTING_PAGE, fh, memPage').

Definition getBlockPos (fh : SM_FileHandle) : Z := curPagePos fh.

Definition readFirstBlock fs fh memPage := readBlock fs 0 fh memPage.

Definition readPreviousBlock (fs : FileSystem) (fh : SM_FileHandle) (memPage : SM_PageHandle) :=
  let curr := curPagePos fh in
  if curr >? 0 then readBlock fs (curr - 1) fh memPage
  else (RC_READ_NON_EXISTING_PAGE, fh, memPage).

Definition readCurrentBlock fs fh memPage := readBlock fs (curPagePos fh) fh memPage.

Definition readNextBlock (fs : FileSystem) (fh : SM_FileHandle) (memPage : SM_PageHandle) :=
  let next := curPagePos fh + 1 in
  if next <? totalNumPages fh then readBlock fs next fh memPage
  else (RC_READ_NON_EXISTING_PAGE, fh, memPage).

Definition readLastBlock fs fh memPage := readBlock fs (totalNumPages fh - 1) fh memPage.

(** *** Block writes *)

Definition writeBlock (fs : FileSystem) (pageNum : Z) (fh : SM_FileHandle) (memPage : SM_PageHandle)
  : RC * FileSystem * SM_FileHandle :=
  if (pageNum <? 0) || (pageNum >=? totalNumPages fh) then (RC_READ_NON_EXISTING_PAGE, fs, fh)
  else
    let off := int_wrap (pageNum * PAGE_SIZE) in
    if negb (fseek_set_ok off) then (RC_WRITE_FAILED, fs, fh)
    else
      match fwrite fs (mgmtInfo fh) off (take PAGE_LEN memPage) with
      | Some fs' => (RC_OK, fs', set_curPagePos fh pageNum)
      | None => (RC_WRITE_FAILED, fs, fh)
      end.

Definition writeCurrentBlock fs fh memPage := writeBlock fs (curPagePos fh) fh memPage.

Definition appendEmptyBlock (fs : FileSystem) (fh : SM_FileHandle) : RC * FileSystem * SM_FileHandle :=
  match fwrite fs (mgmtInfo fh) (fseek_end fs (mgmtInfo fh)) (zero_bytes PAGE_LEN) with
  | Some fs' => (RC_OK, fs', set_totalNumPages fh (totalNumPages fh + 1))
  | None => (RC_WRITE_FAILED, fs, fh)
  end.

Definition ensureCapacity (fs : FileSystem) (numPages : Z) (fh : SM_FileHandle)
  : RC * FileSystem * SM_FileHandle :=
  if numPages <=? 0 then (RC_READ_NON_EXISTING_PAGE, fs, fh)
  else if totalNumPages fh >=? numPages then (RC_OK, fs, fh)
  else
    let needed := numPages - totalNumPages fh in
    match fwrite fs (mgmtInfo fh) (fseek_end fs (mgmtInfo fh))
                 (zero_bytes (Z.to_nat needed * PAGE_LEN)) with
    | Some fs' => (RC_OK, fs', set_totalNumPages fh numPages)
    | None => (RC_WRITE_FAILED, fs, fh)
    end.

End StorageMgr.
Export StorageMgr.

(** ** buffer_mgr.c *)

Module BufferMgr.

(** Modelled from the spec: the enumeration lives in [buffer_mgr.h]. *)
Inductive ReplacementStrategy : Set := RS_FIFO | RS_LRU | RS_CLOCK | RS_LFU | RS_LRU_K.

Definition NO_PAGE : Z := -1.

(** A page frame.  The [next] and [prev] pointers of the C struct are the
    list that holds the node; [accessHistory] and [historySize] are never
    read or written by the code. *)
Record DLNode : Type := mkNode {
  data : SM_PageHandle;
  pageNum : Z;
  isDirty : bool;
  pinCount : Z;
  accessCount : Z;
  lastAccessed : Z
}.

(** [head] is the frame list from head to tail.  A node pointer is the
    position of the node in that list: nodes are appended and overwritten
    but never unlinked.  The field [freed] is not in the C struct: it is
    the number of leading nodes whose memory a failed [shutdownBufferPool]
    has released while [metadata->head] still points at the first of them.
    Only the nodes from position [freed] on are allocated; a pool with
    [freed > 0] has a dangling list head, and C leaves every later call on
    it undefined. *)
Record BufferPoolMetadata : Type := mkMeta {
  head : list DLNode;
  fifoHead : option nat;
  numFramesUsed : Z;
  totalFrames : Z;
  readCount : Z;
  writeCount : Z;
  clockHand : Z;
  globalTimer : Z;
  freed : nat
}.

Record BM_BufferPool : Type := mkPool {
  pageFile : string;
  numPages : Z;
  strategy : ReplacementStrategy;
  mgmtData : option BufferPoolMetadata
}.

(** [hData] is the pointer into the frame's buffer: the frame's position,
    so that a write through the handle is a write to the frame. *)
Record BM_PageHandle : Type := mkPageHandle {
  hPageNum : Z;
  hData : option nat
}.

Definition set_data (f : DLNode) (d : SM_PageHandle) : DLNode :=
  mkNode d (pageNum f) (isDirty f) (pinCount f) (accessCount f) (lastAccessed f).
Definition set_isDirty (f : DLNode) (b : bool) : DLNode :=
  mkNode (data f) (pageNum f) b (pinCount f) (accessCount f) (lastAccessed f).
Definition set_pinCount (f : DLNode) (n : Z) : DLNode :=
  mkNode (data f) (pageNum f) (isDirty f) n (accessCount f) (lastAccessed f).
Definition set_accessCount (f : DLNode) (n : Z) : DLNode :=
  mkNode (data f) (pageNum f) (isDirty f) (pinCount f) n (lastAccessed f).

Definition set_head (m : BufferPoolMetadata) (l : list DLNode) : BufferPoolMetadata :=
  mkMeta l (fifoHead m) (numFramesUsed m) (totalFrames m) (readCount m) (writeCount m)
         (clockHand m) (globalTimer m) (freed m).
Definition set_fifoHead (m : BufferPoolMetadata) (p : option nat) : BufferPoolMetadata :=
  mkMeta (head m) p (numFramesUsed m) (totalFrames m) (readCount m) (writeCount m)
         (clockHand m) (globalTimer m) (freed m).
Definition set_clockHand (m : BufferPoolMetadata) (h : Z) : BufferPoolMetadata :=
  mkMeta (head m) (fifoHead m) (numFramesUsed m) (totalFrames m) (readCount m) (writeCount m)
         h (globalTimer m) (freed m).
Definition set_writeCount (m : BufferPoolMetadata) (n : Z) : BufferPoolMetadata :=
  mkMeta (head m) (fifoHead m) (numFramesUsed m) (totalFrames m) (readCount m) n
         (clockHand m) (globalTimer m) (freed m).
Definition set_freed (m : BufferPoolMetadata) (k : nat) : BufferPoolMetadata :=
  mkMeta (head m) (fifoHead m) (numFramesUsed m) (totalFrames m) (readCount m) (writeCount m)
         (clockHand m) (globalTimer m) k.
Definition set_mgmtData (bm : BM_BufferPool) (m : option BufferPoolMetadata) : BM_BufferPool :=
  mkPool (pageFile bm) (numPages bm) (strategy bm) m.

Definition createNode (d : SM_PageHandle) (p : Z) : DLNode :=
  {| data := d; pageNum := p; isDirty := false; pinCount := 1;
     accessCount := 1; lastAccessed := 0 |}.

(** The node found, with its position: the first one holding [p]. *)
Definition findPage (metadata : BufferPoolMetadata) (p : Z) : option (nat * DLNode) :=
  list_find (fun f => pageNum f = p) (head metadata).

(** [current->next], wrapped to the head at the end of the list. *)
Definition next_wrap (l : list DLNode) (current : nat) : nat :=
  if bool_decide (S current < length l)%nat then S current else 0%nat.

(** *** Victim selection *)

(** The [do ... while (current != startNode)] loop of [replaceFIFO]; one
    turn of the list takes [length l] steps. *)
Fixpoint fifo_search (l : list DLNode) (startNode current : nat) (steps : nat) : option nat :=
  match steps with
  | O => None
  | S k =>
      match l !! current with
      | None => None
      | Some f =>
          if pinCount f =? 0 then Some current
          else
            let nxt := next_wrap l current in
            if bool_decide (nxt = startNode) then None
            else fifo_search l startNode nxt k
      end
  end.

(** [None]: on an empty list [fifoHead] stays null and the loop
    dereferences it in [current->pinCount]. *)
Definition replaceFIFO (metadata : BufferPoolMetadata)
  : option (BufferPoolMetadata * option nat) :=
  let m1 := match fifoHead metadata with
            | None => set_fifoHead metadata (if head metadata is [] then None else Some 0%nat)
            | Some _ => metadata
            end in
  match fifoHead m1 with
  | None => None
  | Some start =>
      match fifo_search (head m1) start start (length (head m1)) with
      | Some v => Some (set_fifoHead m1 (Some (next_wrap (head m1) v)), Some v)
      | None => Some (m1, None)
      end
  end.

(** One pass from head to tail, carrying [(victim, minAccess)]. *)
Fixpoint lru_scan (l : list DLNode) (i : nat) (victim : option nat) (minAccess : Z) : option nat :=
  match l with
  | [] => victim
  | f :: l' =>
      if (pinCount f =? 0) && (lastAccessed f <? minAccess)
      then lru_scan l' (S i) (Some i) (lastAccessed f)
      else lru_scan l' (S i) victim minAccess
  end.

Definition replaceLRU (metadata : BufferPoolMetadata) : option nat :=
  lru_scan (head metadata) 0 None (globalTimer metadata + 1).

(** One pass from head to tail, carrying [(victim, minCount, oldestTimestamp)]. *)
Fixpoint lfu_scan (l : list DLNode) (i : nat) (victim : option nat) (minCount oldest : Z)
  : option nat :=
  match l with
  | [] => victim
  | f :: l' =>
      if pinCount f =? 0 then
        match victim with
        | None => lfu_scan l' (S i) (Some i) (accessCount f) (lastAccessed f)
        | Some _ =>
            if accessCount f <? minCount
            then lfu_scan l' (S i) (Some i) (accessCount f) (lastAccessed f)
            else if (accessCount f =? minCount) && (lastAccessed f <? oldest)
            then lfu_scan l' (S i) (Some i) minCount (lastAccessed f)
            else lfu_scan l' (S i) victim minCount oldest
        end
      else lfu_scan l' (S i) victim minCount oldest
  end.

Definition replaceLFU (metadata : BufferPoolMetadata) : option nat :=
  lfu_scan (head metadata) 0 None INT_MAX INT_MAX.

(** The [for] loop that walks to the clock hand. *)
Fixpoint clock_walk (l : list DLNode) (current : nat) (steps : nat) : nat :=
  match steps with
  | O => current
  | S k => clock_walk l (next_wrap l current) k
  end.

(** The [while (true)] loop of [replaceCLOCK]; [None] when [fuel] turns of
    the loop have not produced a victim. *)
Fixpoint clock_loop (fuel : nat) (metadata : BufferPoolMetadata) (current : nat)
  : option (BufferPoolMetadata * option nat) :=
  match fuel with
  | O => None
  | S k =>
      match head metadata !! current with
      | None => None
      | Some f =>
          let hand' := Z.rem (clockHand metadata + 1) (totalFrames metadata) in
          if (pinCount f =? 0) && (accessCount f =? 0)
          then Some (set_clockHand metadata hand', Some current)
          else
            let l1 := if accessCount f >? 0
                      then <[current := set_accessCount f 0]> (head metadata)
                      else head metadata in
            clock_loop k (set_clockHand (set_head metadata l1) hand') (next_wrap l1 current)
      end
  end.

Definition replaceCLOCK (fuel : nat) (metadata : BufferPoolMetadata)
  : option (BufferPoolMetadata * option nat) :=
  let current := clock_walk (head metadata) 0 (Z.to_nat (clockHand metadata)) in
  clock_loop fuel metadata current.

(** *** Pool life cycle *)

Definition initBufferPool (pageFileName : string) (numPages : Z) (strategy : ReplacementStrategy)
  : RC * BM_BufferPool :=
  (RC_OK,
   {| pageFile := pageFileName; numPages := numPages; strategy := strategy;
      mgmtData := Some {| head := []; fifoHead := None; numFramesUsed := 0;
                          totalFrames := numPages; readCount := 0; writeCount := 0;
                          clockHand := 0; globalTimer := 0; freed := 0 |} |}).

(** The body of the loop of [forceFlushPool] for one node.  The return
    codes of [openPageFile] and [writeBlock] are not looked at.  [None]:
    when the file cannot be opened the handle stays uninitialised, and
    [writeBlock] and [closePageFile] work on what its memory happens to
    hold. *)
Definition flush_node (fs : FileSystem) (file : string) (f : DLNode)
  : option (FileSystem * DLNode * bool) :=
  if isDirty f && (pinCount f =? 0) then
    match openPageFile fs file with
    | (_, Some fh) =>
        Some ((writeBlock fs (pageNum f) fh (data f)).1.2, set_isDirty f false, true)
    | (_, None) => None
    end
  else Some (fs, f, false).

Fixpoint flush_nodes (fs : FileSystem) (file : string) (l : list DLNode)
  : option (FileSystem * list DLNode * Z) :=
  match l with
  | [] => Some (fs, [], 0)
  | f :: l' =>
      match flush_node fs file f with
      | None => None
      | Some (fs1, f', written) =>
          match flush_nodes fs1 file l' with
          | None => None
          | Some (fs2, l'', n) => Some (fs2, f' :: l'', (if written then 1 else 0) + n)
          end
      end
  end.

Definition forceFlushPool (fs : FileSystem) (bm : BM_BufferPool)
  : option (RC * FileSystem * BM_BufferPool) :=
  match mgmtData bm with
  | None => None
  | Some metadata =>
      match flush_nodes fs (pageFile bm) (head metadata) with
      | None => None
      | Some (fs', l', n) =>
          Some (RC_OK, fs',
                set_mgmtData bm
                  (Some (set_writeCount (set_head metadata l') (writeCount metadata + n))))
      end
  end.

(** Position of the first node with a positive pin count. *)
Definition first_pinned (l : list DLNode) : option nat :=
  fst <$> list_find (fun f => 0 < pinCount f) l.

Definition shutdownBufferPool (fs : FileSystem) (bm : BM_BufferPool)
  : option (RC * FileSystem * BM_BufferPool) :=
  match forceFlushPool fs bm with
  | None => None
  | Some (_, fs', bm') =>
      match mgmtData bm' with
      | None => None
      | Some metadata =>
          match first_pinned (head metadata) with
          | Some k =>
              (* the loop has freed the [k] nodes in front of the pinned one
                 and returns without resetting [head] *)
              Some (RC_PINNED_PAGES_IN_BUFFER, fs', set_mgmtData bm' (Some (set_freed metadata k)))
          | None => Some (RC_OK, fs', set_mgmtData bm' None)
          end
      end
  end.

Definition markDirty (bm : BM_BufferPool) (page : BM_PageHandle) : option (RC * BM_BufferPool) :=
  match mgmtData bm with
  | None => None
  | Some metadata =>
      match findPage metadata (hPageNum page) with
      | Some (i, node) =>
          Some (RC_OK,
                set_mgmtData bm (Some (set_head metadata
                  (<[i := set_isDirty node true]> (head metadata)))))
      | None => Some (RC_ERROR, bm)
      end
  end.

Definition unpinPage (bm : BM_BufferPool) (page : BM_PageHandle) : option (RC * BM_BufferPool) :=
  match mgmtData bm with
  | None => None
  | Some metadata =>
      match findPage metadata (hPageNum page) with
      | Some (i, node) =>
          if pinCount node >? 0 then
            Some (RC_OK,
                  set_mgmtData bm (Some (set_head metadata
                    (<[i := set_pinCount node (pinCount node - 1)]> (head metadata)))))
          else Some (RC_ERROR, bm)
      | None => Some (RC_ERROR, bm)
      end
  end.

Definition forcePage (fs : FileSystem) (bm : BM_BufferPool) (page : BM_PageHandle)
  : option (RC * FileSystem * BM_BufferPool) :=
  match mgmtData bm with
  | None => None
  | Some metadata =>
      match findPage metadata (hPageNum page) with
      | Some (i, node) =>
          match openPageFile fs (pageFile bm) with
          | (_, Some fh) =>
              Some (RC_OK, (writeBlock fs (pageNum node) fh (data node)).1.2,
                    set_mgmtData bm (Some (set_writeCount
                      (set_head metadata (<[i := set_isDirty node false]> (head metadata)))
                      (writeCount metadata + 1))))
          | (_, None) =>
              (* [writeBlock] and [closePageFile] on an uninitialised handle *)
              None
          end
      | None => Some (RC_ERROR, fs, bm)
      end
  end.

(** *** pinPage *)

(** Decimal rendering of [%i].  The argument is an [int], which has at
    most ten digits. *)
Fixpoint digits (count : nat) (n : Z) (acc : list byte) : list byte :=
  match count with
  | O => acc
  | S k =>
      let acc' := byte_of_Z (48 + n mod 10) :: acc in
      if n / 10 =? 0 then acc' else digits k (n / 10) acc'
  end.

Definition decimal (n : Z) : list byte :=
  let i := int_wrap n in
  if i <? 0 then "-"%byte :: digits 10 (- i) [] else digits 10 i [].

(** [sprintf (buf, "Page-%i", n)]: the text and its terminating nul
    overwrite the start of the buffer. *)
Definition sprintf_page (buf : SM_PageHandle) (n : Z) : SM_PageHandle :=
  let text := String.list_byte_of_string "Page-" ++ decimal n ++ [x00] in
  memcpy_at buf 0 text (length text).

(** The code both branches of [pinPage] share once the file is open:
    extend the file, then read the page or synthesise its content. *)
Definition load_page (fs : FileSystem) (fh : SM_FileHandle) (p : Z) (buf : SM_PageHandle)
  : RC * FileSystem * SM_PageHandle :=
  let '(rc, fs1, fh1) := ensureCapacity fs (p + 1) fh in
  if negb (is_ok rc) then (rc, fs1, buf)
  else if p <? totalNumPages fh1 then
    let '(rc2, _, buf') := readBlock fs1 p fh1 buf in
    if negb (is_ok rc2) then (RC_OK, fs1, sprintf_page buf' p)
    else (RC_OK, fs1, buf')
  else (RC_OK, fs1, sprintf_page buf p).

Definition pin_hit (bm : BM_BufferPool) (metadata : BufferPoolMetadata) (i : nat) (f : DLNode)
  (p : Z) : BM_BufferPool * BM_PageHandle :=
  let t := globalTimer metadata + 1 in
  let f' := mkNode (data f) (pageNum f) (isDirty f) (pinCount f + 1) (accessCount f + 1) t in
  (set_mgmtData bm (Some
     (mkMeta (<[i := f']> (head metadata)) (fifoHead metadata) (numFramesUsed metadata)
             (totalFrames metadata) (readCount metadata) (writeCount metadata)
             (clockHand metadata) t (freed metadata))),
   {| hPageNum := p; hData := Some i |}).

Definition pin_new_frame (fs : FileSystem) (bm : BM_BufferPool) (metadata : BufferPoolMetadata)
  (page : BM_PageHandle) (p : Z) : RC * FileSystem * BM_BufferPool * BM_PageHandle :=
  match openPageFile fs (pageFile bm) with
  | (rc, None) => (rc, fs, bm, page)
  | (_, Some fh) =>
      let '(rc, fs1, newData) := load_page fs fh p (zero_bytes PAGE_LEN) in
      if negb (is_ok rc) then (rc, fs1, bm, page)
      else
        let t := globalTimer metadata + 1 in
        let n := createNode newData p in
        let newNode := mkNode (data n) (pageNum n) (isDirty n) (pinCount n) (accessCount n) t in
        let i := length (head metadata) in
        (RC_OK, fs1,
         set_mgmtData bm (Some
           (mkMeta (head metadata ++ [newNode])
                   (match fifoHead metadata with None => Some i | Some h => Some h end)
                   (numFramesUsed metadata + 1) (totalFrames metadata)
                   (readCount metadata + 1) (writeCount metadata)
                   (clockHand metadata) t (freed metadata))),
         {| hPageNum := p; hData := Some i |})
  end.

Definition select_victim (fuel : nat) (s : ReplacementStrategy) (metadata : BufferPoolMetadata)
  : option (BufferPoolMetadata * option nat) :=
  match s with
  | RS_FIFO => replaceFIFO metadata
  | RS_LRU => Some (metadata, replaceLRU metadata)
  | RS_CLOCK => replaceCLOCK fuel metadata
  | RS_LRU_K => Some (metadata, None)
  | RS_LFU => Some (metadata, replaceLFU metadata)
  end.

Definition pin_replace (fs : FileSystem) (bm : BM_BufferPool) (metadata : BufferPoolMetadata)
  (page : BM_PageHandle) (p : Z) (v : nat) (victim : DLNode)
  : RC * FileSystem * BM_BufferPool * BM_PageHandle :=
  let with_nodes m l := set_mgmtData bm (Some (set_head m l)) in
  (* write the victim back when it is dirty *)
  let step1 :=
    if isDirty victim then
      match openPageFile fs (pageFile bm) with
      | (rc, None) => inl rc
      | (_, Some fh) =>
          inr ((writeBlock fs (pageNum victim) fh (data victim)).1.2,
               set_writeCount metadata (writeCount metadata + 1))
      end
    else inr (fs, metadata) in
  match step1 with
  | inl rc => (rc, fs, set_mgmtData bm (Some metadata), page)
  | inr (fs1, m1) =>
      (* memset (victim->data, 0, PAGE_SIZE) *)
      let zeroed := set_data victim (zero_bytes PAGE_LEN) in
      let l1 := <[v := zeroed]> (head m1) in
      match openPageFile fs1 (pageFile bm) with
      | (rc, None) => (rc, fs1, with_nodes m1 l1, page)
      | (_, Some fh) =>
          let '(rc, fs2, buf) := load_page fs1 fh p (data zeroed) in
          if negb (is_ok rc) then (rc, fs2, with_nodes m1 l1, page)
          else
            let t := globalTimer m1 + 1 in
            let victim' := mkNode buf p false 1 (accessCount victim) t in
            (RC_OK, fs2,
             set_mgmtData bm (Some
               (mkMeta (<[v := victim']> (head m1)) (fifoHead m1) (numFramesUsed m1)
                       (totalFrames m1) (readCount m1 + 1) (writeCount m1)
                       (clockHand m1) t (freed m1))),
             {| hPageNum := p; hData := Some v |})
      end
  end.

Definition pinPage (fuel : nat) (fs : FileSystem) (bm : BM_BufferPool) (page : BM_PageHandle)
  (p : Z) : option (RC * FileSystem * BM_BufferPool * BM_PageHandle) :=
  match mgmtData bm with
  | None => None
  | Some metadata =>
      match findPage metadata p with
      | Some (i, node) =>
          let '(bm', page') := pin_hit bm metadata i node p in Some (RC_OK, fs, bm', page')
      | None =>
          if numFramesUsed metadata <? totalFrames metadata
          then Some (pin_new_frame fs bm metadata page p)
          else
            match select_victim fuel (strategy bm) metadata with
            | None => None
            | Some (m1, None) => Some (RC_ERROR, fs, set_mgmtData bm (Some m1), page)
            | Some (m1, Some v) =>
                match head m1 !! v with
                | None => Some (RC_ERROR, fs, set_mgmtData bm (Some m1), page)
                | Some victim =>
                    if pinCount victim >? 0
                    then Some (RC_ERROR, fs, set_mgmtData bm (Some m1), page)
                    else Some (pin_replace fs bm m1 page p v victim)
                end
            end
      end
  end.

(** *** Statistics *)

(** The three snapshot functions fill an array of [totalFrames] entries
    from the list, in list order. *)
Definition snapshot {A : Type} (dflt : A) (get : DLNode -> A) (metadata : BufferPoolMetadata)
  : list A :=
  let n := Z.to_nat (totalFrames metadata) in
  let used := take n (get <$> head metadata) in
  used ++ replicate (n - length used) dflt.

Definition getFrameContents (metadata : BufferPoolMetadata) : list Z :=
  snapshot NO_PAGE pageNum metadata.
Definition getDirtyFlags (metadata : BufferPoolMetadata) : list bool :=
  snapshot false isDirty metadata.
Definition getFixCounts (metadata : BufferPoolMetadata) : list Z :=
  snapshot 0 pinCount metadata.
Definition getNumReadIO (metadata : BufferPoolMetadata) : Z := readCount metadata.
Definition getNumWriteIO (metadata : BufferPoolMetadata) : Z := writeCount metadata.

End BufferMgr.
Export BufferMgr.

(** ** Sequencing calls that return a code *)

(** A C function body over a mutable state [S]: it either falls through
    with a value ([inr]) or executes [return rc] ([inl]); the state reached
    is kept in both cases.  [None] means that no result is produced: a
    victim search that ran out of fuel, or a dereference that C leaves
    undefined. *)
Definition M (S A : Type) : Type := S -> option (S * (RC + A)).

Definition ret {S A : Type} (a : A) : M S A := fun s => Some (s, inr a).

(** [return rc;] *)
Definition raise {S A : Type} (rc : RC) : M S A := fun s => Some (s, inl rc).

Definition bind {S A B : Type} (m : M S A) (k : A -> M S B) : M S B :=
  fun s =>
    match m s with
    | None => None
    | Some (s', inl rc) => Some (s', inl rc)
    | Some (s', inr a) => k a s'
    end.

Notation "x <- m ;; k" := (bind m (fun x => k))
  (at level 20, m at level 99, k at level 200, only parsing).
Notation "m ;;; k" := (bind m (fun _ => k))
  (at level 100, k at level 200, only parsing, right associativity).

Definition gets {S A : Type} (f : S -> A) : M S A := fun s => Some (s, inr (f s)).

Definition modify {S : Type} (f : S -> S) : M S unit := fun s => Some (f s, inr tt).

(** [result = call (...); if (result != RC_OK) return result;] *)
Definition check {S : Type} (call : S -> option (RC * S)) : M S unit :=
  fun s =>
    match call s with
    | None => None
    | Some (rc, s') => Some (s', if is_ok rc then inr tt else inl rc)
    end.

(** A call whose return code is not looked at. *)
Definition ignore {S : Type} (call : S -> option (RC * S)) : M S unit :=
  fun s =>
    match call s with
    | None => None
    | Some (_, s') => Some (s', inr tt)
    end.

(** An access that has a result only when [o] is defined. *)
Definition defined {S A : Type} (o : S -> option A) : M S A :=
  fun s => match o s with Some a => Some (s, inr a) | None => None end.

(** A store that has an effect only when [f] is defined. *)
Definition update {S : Type} (f : S -> option S) : M S unit :=
  fun s => match f s with Some s' => Some (s', inr tt) | None => None end.

(** The return code of a body that ends in [return RC_OK;]. *)
Definition run {S : Type} (m : M S unit) (s : S) : option (RC * S) :=
  match m s with
  | None => None
  | Some (s', inl rc) => Some (rc, s')
  | Some (s', inr _) => Some (RC_OK, s')
  end.

(** ** record_mgr.c *)

Module RecordMgr.

(** Modelled from the spec: [tables.h] is not part of the sources at hand.
    The enumeration is numbered in declaration order; the header page stores
    these numbers, and [getAttr] assigns the number 1, which the
    specification reads as [DT_STRING]. *)
Definition DT_INT : Z := 0.
Definition DT_STRING : Z := 1.
Definition DT_FLOAT : Z := 2.
Definition DT_BOOL : Z := 3.

(** Sizes of the C types on the reference platform. *)
Definition sizeof_int : Z := 4.
Definition sizeof_float : Z := 4.
Definition sizeof_bool : Z := 1.

Definition MAX_BUFFER_SIZE : Z := 100.
Definition ATTR_NAME_MAX_LENGTH : Z := 15.

Definition PLUS : byte := "+"%byte.
Definition MINUS : byte := "-"%byte.

Record Schema : Type := mkSchema {
  numAttr : Z;
  attrNames : list (list byte);
  dataTypes : list Z;
  typeLength : list Z;
  keyAttrs : list Z;
  keySize : Z
}.

Record RID : Type := mkRID { page : Z; slot : Z }.

(** The C struct [Record]. *)
Record RecordT : Type := mkRecord { id : RID; rdata : list byte }.

(** The payload of the C struct [Value]; a [float] is kept as its four
    bytes. *)
Inductive Value : Type :=
| IntV (i : Z)
| StringV (s : list byte)
| FloatV (bits : list byte)
| BoolV (b : bool).

(** Modelled from the spec: the expression evaluator ([expr.c]) is an
    external collaborator.  A scan condition is represented by the function
    [evalExpr] computes from it: whether the [boolV] it stores for a record
    is [TRUE]. *)
Definition Expr : Type := RecordT -> Schema -> bool.

Definition evalExpr (record : RecordT) (schema : Schema) (cond : Expr) : bool :=
  cond record schema.

Record TableInfo : Type := mkTableInfo {
  pageInfo : BM_PageHandle;
  dataPool : BM_BufferPool;
  recordID : RID;
  conditionExpr : option Expr;
  tupleCount : Z;
  freePageIndex : Z;
  scanIndex : Z
}.

(** [mgmtData] always points at the global [tableInfo], so it is not a
    field here. *)
Record RM_TableData : Type := mkTableData {
  name : list byte;
  schema : Schema
}.

(** The memory the record manager works on: the files and the table
    singleton [tableInfo]. *)
Record World : Type := mkWorld {
  w_fs : FileSystem;
  tableInfo : TableInfo
}.

Definition set_pageInfo (t : TableInfo) (h : BM_PageHandle) : TableInfo :=
  mkTableInfo h (dataPool t) (recordID t) (conditionExpr t) (tupleCount t) (freePageIndex t)
              (scanIndex t).
Definition set_dataPool (t : TableInfo) (bm : BM_BufferPool) : TableInfo :=
  mkTableInfo (pageInfo t) bm (recordID t) (conditionExpr t) (tupleCount t) (freePageIndex t)
              (scanIndex t).
Definition set_recordID (t : TableInfo) (r : RID) : TableInfo :=
  mkTableInfo (pageInfo t) (dataPool t) r (conditionExpr t) (tupleCount t) (freePageIndex t)
              (scanIndex t).
Definition set_tupleCount (t : TableInfo) (n : Z) : TableInfo :=
  mkTableInfo (pageInfo t) (dataPool t) (recordID t) (conditionExpr t) n (freePageIndex t)
              (scanIndex t).
Definition set_freePageIndex (t : TableInfo) (n : Z) : TableInfo :=
  mkTableInfo (pageInfo t) (dataPool t) (recordID t) (conditionExpr t) (tupleCount t) n
              (scanIndex t).
Definition set_scanIndex (t : TableInfo) (n : Z) : TableInfo :=
  mkTableInfo (pageInfo t) (dataPool t) (recordID t) (conditionExpr t) (tupleCount t)
              (freePageIndex t) n.

Definition with_table (w : World) (f : TableInfo -> TableInfo) : World :=
  mkWorld (w_fs w) (f (tableInfo w)).

(** *** Integers in page and record buffers *)

(** The four bytes of an [int], least significant first. *)
Definition bytes_of_int (z : Z) : list byte :=
  let u := z mod 2 ^ 32 in
  [byte_of_Z u; byte_of_Z (u / 2 ^ 8); byte_of_Z (u / 2 ^ 16); byte_of_Z (u / 2 ^ 24)].

Definition Z_of_byte (b : byte) : Z := Z.of_N (Byte.to_N b).

(** [*(int * ) (buf + off)] *)
Definition int_at (buf : list byte) (off : nat) : Z :=
  let b i := Z_of_byte (default x00 (buf !! (off + i)%nat)) in
  int_wrap (b 0%nat + 2 ^ 8 * b 1%nat + 2 ^ 16 * b 2%nat + 2 ^ 24 * b 3%nat).

(** [strncpy (dst, src, n)]: the bytes of [src] up to its first nul, at
    most [n] of them, padded with nuls to [n] bytes. *)
Fixpoint strncpy (src : list byte) (n : nat) : list byte :=
  match n with
  | O => []
  | S k =>
      match src with
      | [] => zero_bytes (S k)
      | b :: src' => if Byte.eqb b x00 then zero_bytes (S k) else b :: strncpy src' k
      end
  end.

(** *** Calls on the table's pool *)

Definition pin (fuel : nat) (p : Z) (w : World) : option (RC * World) :=
  let mgr := tableInfo w in
  match pinPage fuel (w_fs w) (dataPool mgr) (pageInfo mgr) p with
  | None => None
  | Some (rc, fs', bm', h') => Some (rc, mkWorld fs' (set_pageInfo (set_dataPool mgr bm') h'))
  end.

Definition unpin (w : World) : option (RC * World) :=
  let mgr := tableInfo w in
  match unpinPage (dataPool mgr) (pageInfo mgr) with
  | None => None
  | Some (rc, bm') => Some (rc, with_table w (fun t => set_dataPool t bm'))
  end.

Definition mark_dirty (w : World) : option (RC * World) :=
  let mgr := tableInfo w in
  match markDirty (dataPool mgr) (pageInfo mgr) with
  | None => None
  | Some (rc, bm') => Some (rc, with_table w (fun t => set_dataPool t bm'))
  end.

Definition force_page (w : World) : option (RC * World) :=
  let mgr := tableInfo w in
  match forcePage (w_fs w) (dataPool mgr) (pageInfo mgr) with
  | None => None
  | Some (rc, fs', bm') => Some (rc, mkWorld fs' (set_dataPool mgr bm'))
  end.

(** The buffer a page handle points into. *)
Definition handle_buffer (bm : BM_BufferPool) (h : BM_PageHandle) : option (list byte) :=
  m ← mgmtData bm; i ← hData h; f ← head m !! i; Some (data f).

(** A store through the pointer of a page handle. *)
Definition store_buffer (bm : BM_BufferPool) (h : BM_PageHandle) (buf : list byte)
  : option BM_BufferPool :=
  m ← mgmtData bm; i ← hData h; f ← head m !! i;
  Some (set_mgmtData bm (Some (set_head m (<[i := set_data f buf]> (head m))))).

Definition page_content (w : World) : option (list byte) :=
  handle_buffer (dataPool (tableInfo w)) (pageInfo (tableInfo w)).

Definition store_page (buf : list byte) (w : World) : option World :=
  bm' ← store_buffer (dataPool (tableInfo w)) (pageInfo (tableInfo w)) buf;
  Some (with_table w (fun t => set_dataPool t bm')).

(** Byte offset of a slot, defined when its first byte, the mark, lies in
    the page; whether the rest of the slot does is the matter of
    [slot_fits]. *)
Definition slot_offset (slot recordSize : Z) : option nat :=
  let off := slot * recordSize in
  if (0 <=? off) && (off <? PAGE_SIZE) then Some (Z.to_nat off) else None.

(** *** The functions of the record manager *)

(** The loop of [locateEmptySlot]: slots [slotIndex], [slotIndex + 1], ...
    while [slotIndex < maxSlots]. *)
Fixpoint locate_from (pageContent : list byte) (recordSize : Z) (slotIndex : Z) (remaining : nat)
  : Z :=
  match remaining with
  | O => -1
  | S k =>
      match pageContent !! Z.to_nat (slotIndex * recordSize) with
      | Some b =>
          if Byte.eqb b PLUS then locate_from pageContent recordSize (slotIndex + 1) k
          else slotIndex
      | None => slotIndex
      end
  end.

Definition locateEmptySlot (pageContent : list byte) (recordSize : Z) : Z :=
  let maxSlots := PAGE_SIZE ÷ recordSize in
  locate_from pageContent recordSize 0 (Z.to_nat maxSlots).

(** The loop of [getRecordSize] from attribute [i] on. *)
Fixpoint record_size_from (s : Schema) (i : nat) (remaining : nat) (size : Z) : Z :=
  match remaining with
  | O => size + 1
  | S k =>
      let dt := default (-1) (dataTypes s !! i) in
      if dt =? DT_STRING then record_size_from s (S i) k (size + default 0 (typeLength s !! i))
      else if dt =? DT_INT then record_size_from s (S i) k (size + sizeof_int)
      else if dt =? DT_FLOAT then record_size_from s (S i) k (size + sizeof_float)
      else if dt =? DT_BOOL then record_size_from s (S i) k (size + sizeof_bool)
      else -1
  end.

Definition getRecordSize (s : Schema) : Z :=
  record_size_from s 0 (Z.to_nat (numAttr s)) 0.

Definition getNumTuples (w : World) : Z := tupleCount (tableInfo w).

(** [result = call (...); if (result != RC_OK) { cleanup; return result; }] *)
Definition check_or {S : Type} (call : S -> option (RC * S)) (cleanup : M S unit) : M S unit :=
  fun s =>
    match call s with
    | None => None
    | Some (rc, s') =>
        if is_ok rc then Some (s', inr tt)
        else match cleanup s' with
             | None => None
             | Some (s'', _) => Some (s'', inl rc)
             end
    end.

(** A call on the world, in a state that pairs the world with the caller's
    object. *)
Definition onW {X : Type} (call : World -> option (RC * World)) (s : World * X)
  : option (RC * (World * X)) :=
  match call s.1 with
  | None => None
  | Some (rc, w') => Some (rc, (w', s.2))
  end.

Definition set_rid_page (p : Z) (r : RecordT) : RecordT :=
  mkRecord (mkRID p (slot (id r))) (rdata r).
Definition set_rid_slot (sl : Z) (r : RecordT) : RecordT :=
  mkRecord (mkRID (page (id r)) sl) (rdata r).

Definition on_record (f : RecordT -> RecordT) (s : World * RecordT) : World * RecordT :=
  (s.1, f s.2).
Definition on_world {X : Type} (f : World -> World) (s : World * X) : World * X :=
  (f s.1, s.2).

(** Whether the [recordSize - 1] bytes behind the mark byte of the slot at
    [off] lie inside the page buffer, and as many bytes behind byte 0 inside
    the record's buffer: what the [memcpy] between the two needs. *)
Definition slot_fits (pageContent : list byte) (off : nat) (record : RecordT) (recordSize : Z)
  : bool :=
  let n := Z.to_nat (recordSize - 1) in
  bool_decide (S off + n <= length pageContent)%nat
  && bool_decide (S n <= length (rdata record))%nat.

(** [*slotPtr = '+'; memcpy (slotPtr + 1, record->data + 1, recordSize - 1);]
    [None] when the copy would leave one of the two buffers. *)
Definition write_slot (pageContent : list byte) (off : nat) (record : RecordT) (recordSize : Z)
  : option (list byte) :=
  if slot_fits pageContent off record recordSize then
    Some (memcpy_at (<[off := PLUS]> pageContent) (S off) (drop 1 (rdata record))
                    (Z.to_nat (recordSize - 1)))
  else None.

(** [memcpy (record->data + 1, data + 1, recordSize - 1);]
    [None] when the copy would leave one of the two buffers. *)
Definition read_slot (pageContent : list byte) (off : nat) (record : RecordT) (recordSize : Z)
  : option (list byte) :=
  if slot_fits pageContent off record recordSize then
    Some (memcpy_at (rdata record) 1 (drop (S off) pageContent) (Z.to_nat (recordSize - 1)))
  else None.

Global Arguments write_slot : simpl never.
Global Arguments read_slot : simpl never.

(** The [while (rid->slot == -1)] loop of [insertRecord]. *)
Fixpoint insert_search (fuel : nat) (turns : nat) (recordSize : Z) : M (World * RecordT) unit :=
  sl <- gets (fun s => slot (id s.2));;
  if sl =? -1 then
    match turns with
    | O => fun _ => None
    | S k =>
        check (onW unpin);;;
        modify (on_record (fun r => set_rid_page (page (id r) + 1) r));;;
        p <- gets (fun s => page (id s.2));;
        check (onW (pin fuel p));;;
        pageContent <- defined (fun s => page_content s.1);;
        modify (on_record (set_rid_slot (locateEmptySlot pageContent recordSize)));;;
        insert_search fuel k recordSize
    end
  else ret tt.

Definition insertRecord_body (fuel : nat) (rel : RM_TableData) : M (World * RecordT) unit :=
  let recordSize := getRecordSize (schema rel) in
  if recordSize <=? 0 then raise RC_MEMORY_ALLOCATION_ERROR
  else
    free <- gets (fun s => freePageIndex (tableInfo s.1));;
    modify (on_record (set_rid_page free));;;
    check (onW (pin fuel free));;;
    pageContent <- defined (fun s => page_content s.1);;
    modify (on_record (set_rid_slot (locateEmptySlot pageContent recordSize)));;;
    insert_search fuel fuel recordSize;;;
    check_or (onW mark_dirty) (ignore (onW unpin));;;
    pageContent <- defined (fun s => page_content s.1);;
    off <- defined (fun s => slot_offset (slot (id s.2)) recordSize);;
    record <- gets snd;;
    update (fun s => buf ← write_slot pageContent off record recordSize;
                     w' ← store_page buf s.1;
                     Some (w', s.2));;;
    check (onW unpin);;;
    modify (on_world (fun w => with_table w (fun t => set_tupleCount t (tupleCount t + 1))));;;
    check (onW (pin fuel 0)).

Definition insertRecord (fuel : nat) (w : World) (rel : RM_TableData) (record : RecordT)
  : option (RC * (World * RecordT)) :=
  run (insertRecord_body fuel rel) (w, record).

Definition deleteRecord_body (fuel : nat) (rel : RM_TableData) (rid : RID) : M World unit :=
  check (pin fuel (page rid));;;
  modify (fun w => with_table w (fun t => set_freePageIndex t (page rid)));;;
  let recordSize := getRecordSize (schema rel) in
  if recordSize <=? 0 then ignore unpin;;; raise RC_MEMORY_ALLOCATION_ERROR
  else
    pageContent <- defined page_content;;
    off <- defined (fun _ => slot_offset (slot rid) recordSize);;
    update (store_page (<[off := MINUS]> pageContent));;;
    check_or mark_dirty (ignore unpin);;;
    check unpin.

Definition deleteRecord (fuel : nat) (w : World) (rel : RM_TableData) (rid : RID)
  : option (RC * World) :=
  run (deleteRecord_body fuel rel rid) w.

Definition updateRecord_body (fuel : nat) (rel : RM_TableData) (record : RecordT) : M World unit :=
  check (pin fuel (page (id record)));;;
  let recordSize := getRecordSize (schema rel) in
  if recordSize <=? 0 then ignore unpin;;; raise RC_MEMORY_ALLOCATION_ERROR
  else
    pageContent <- defined page_content;;
    off <- defined (fun _ => slot_offset (slot (id record)) recordSize);;
    update (fun w => buf ← write_slot pageContent off record recordSize;
                     store_page buf w);;;
    check_or mark_dirty (ignore unpin);;;
    check unpin.

Definition updateRecord (fuel : nat) (w : World) (rel : RM_TableData) (record : RecordT)
  : option (RC * World) :=
  run (updateRecord_body fuel rel record) w.

Definition getRecord_body (fuel : nat) (rel : RM_TableData) (rid : RID)
  : M (World * RecordT) unit :=
  check (onW (pin fuel (page rid)));;;
  let recordSize := getRecordSize (schema rel) in
  if recordSize <=? 0 then ignore (onW unpin);;; raise RC_MEMORY_ALLOCATION_ERROR
  else
    pageContent <- defined (fun s => page_content s.1);;
    off <- defined (fun _ => slot_offset (slot rid) recordSize);;
    tombstone <- defined (fun _ => pageContent !! off);;
    if negb (Byte.eqb tombstone PLUS) then
      check (onW unpin);;; raise RC_RM_NO_TUPLE_WITH_GIVEN_RID
    else
      update (fun s => buf ← read_slot pageContent off s.2 recordSize;
                       Some (s.1, mkRecord rid buf));;;
      check (onW unpin).

Definition getRecord (fuel : nat) (w : World) (rel : RM_TableData) (rid : RID) (record : RecordT)
  : option (RC * (World * RecordT)) :=
  run (getRecord_body fuel rel rid) (w, record).

(** *** Tables *)

(** The header page that [createTable] builds: four integers, then for
    each attribute its name in 15 bytes, its type and its type length.  The
    rest of the (uninitialised) stack buffer is taken to be zero. *)
Fixpoint header_attrs (s : Schema) (i : nat) (remaining : nat) : list byte :=
  match remaining with
  | O => []
  | S k =>
      strncpy (default [] (attrNames s !! i)) (Z.to_nat ATTR_NAME_MAX_LENGTH)
      ++ bytes_of_int (default 0 (dataTypes s !! i))
      ++ bytes_of_int (default 0 (typeLength s !! i))
      ++ header_attrs s (S i) k
  end.

Definition header_page (s : Schema) : list byte :=
  let hdr := bytes_of_int 0 ++ bytes_of_int 1 ++ bytes_of_int (numAttr s)
             ++ bytes_of_int (keySize s) ++ header_attrs s 0 (Z.to_nat (numAttr s)) in
  take PAGE_LEN (hdr ++ zero_bytes PAGE_LEN).

(** The [TableInfo] that [malloc] returns; the fields the code has not set
    yet hold zeros. *)
Definition fresh_tableInfo (bm : BM_BufferPool) : TableInfo :=
  {| pageInfo := {| hPageNum := 0; hData := None |}; dataPool := bm;
     recordID := mkRID 0 0; conditionExpr := None; tupleCount := 0;
     freePageIndex := 0; scanIndex := 0 |}.

(** The file name of a table is the C string [name]. *)
Definition file_of (tname : list byte) : string := String.string_of_list_byte tname.

Definition createTable (fs : FileSystem) (tname : list byte) (s : Schema) : RC * World :=
  let '(_, bm) := initBufferPool (file_of tname) MAX_BUFFER_SIZE RS_LRU in
  let t := fresh_tableInfo bm in
  let pageData := header_page s in
  let '(rc1, fs1) := createPageFile fs (file_of tname) in
  if negb (is_ok rc1) then (rc1, mkWorld fs1 t)
  else
    match openPageFile fs1 (file_of tname) with
    | (rc2, None) => (rc2, mkWorld fs1 t)
    | (_, Some fh) =>
        let '(rc3, fs2, _) := writeBlock fs1 0 fh pageData in
        if negb (is_ok rc3) then (rc3, mkWorld fs2 t)
        else (RC_OK, mkWorld fs2 t)
    end.

(** The loop of [openTable] that reads the attributes, from byte [off] of
    the header page. *)
Fixpoint parse_attrs (pageContent : list byte) (off : nat) (remaining : nat)
  : list (list byte) * list Z * list Z :=
  match remaining with
  | O => ([], [], [])
  | S k =>
      let n := Z.to_nat ATTR_NAME_MAX_LENGTH in
      let nm := strncpy (drop off pageContent) n in
      let dt := int_at pageContent (off + n) in
      let len := int_at pageContent (off + n + 4) in
      let '(names, types, lens) := parse_attrs pageContent (off + n + 8) k in
      (nm :: names, dt :: types, len :: lens)
  end.

(** [openTable] reads three integers and then the attributes: the
    attribute loop starts at byte 12 of the page. *)
Definition openTable_body (fuel : nat) (tname : list byte) : M (World * RM_TableData) unit :=
  modify (fun s => (s.1, mkTableData tname (schema s.2)));;;
  check (onW (pin fuel 0));;;
  pageContent <- defined (fun s => page_content s.1);;
  modify (on_world (fun w => with_table w (fun t =>
            set_freePageIndex (set_tupleCount t (int_at pageContent 0)) (int_at pageContent 4))));;;
  let attrCount := int_at pageContent 8 in
  let '(names, types, lens) := parse_attrs pageContent 12 (Z.to_nat attrCount) in
  let tableSchema := {| numAttr := attrCount; attrNames := names; dataTypes := types;
                        typeLength := lens; keyAttrs := []; keySize := 0 |} in
  modify (fun s => (s.1, mkTableData (name s.2) tableSchema));;;
  check (onW unpin);;;
  check (onW force_page).

Definition openTable (fuel : nat) (w : World) (rel : RM_TableData) (tname : list byte)
  : option (RC * (World * RM_TableData)) :=
  run (openTable_body fuel tname) (w, rel).

Definition closeTable (w : World) : option (RC * World) :=
  match shutdownBufferPool (w_fs w) (dataPool (tableInfo w)) with
  | None => None
  | Some (_, fs', bm') => Some (RC_OK, mkWorld fs' (set_dataPool (tableInfo w) bm'))
  end.

Definition deleteTable (fs : FileSystem) (tname : list byte) : RC * FileSystem :=
  destroyPageFile fs (file_of tname).

(** *** Scans *)

(** The state [next] works on: the world, the scan's own [TableInfo] and
    the caller's record. *)
Definition ScanState : Type := World * TableInfo * RecordT.

Definition scan_info (s : ScanState) : TableInfo := s.1.2.
Definition on_scan (f : TableInfo -> TableInfo) (s : ScanState) : ScanState :=
  (s.1.1, f s.1.2, s.2).

(** [pinPage (&relInfo->dataPool, &scanInfo->pageInfo, page)] *)
Definition scan_pin (fuel : nat) (p : Z) (s : ScanState) : option (RC * ScanState) :=
  let w := s.1.1 in
  match pinPage fuel (w_fs w) (dataPool (tableInfo w)) (pageInfo (scan_info s)) p with
  | None => None
  | Some (rc, fs', bm', h') =>
      Some (rc, (mkWorld fs' (set_dataPool (tableInfo w) bm'), set_pageInfo (scan_info s) h', s.2))
  end.

(** [unpinPage (&relInfo->dataPool, &scanInfo->pageInfo)] *)
Definition scan_unpin (s : ScanState) : option (RC * ScanState) :=
  let w := s.1.1 in
  match unpinPage (dataPool (tableInfo w)) (pageInfo (scan_info s)) with
  | None => None
  | Some (rc, bm') => Some (rc, (with_table w (fun t => set_dataPool t bm'), scan_info s, s.2))
  end.

Definition startScan_body (fuel : nat) (cond : option Expr)
  : M (World * RM_TableData) TableInfo :=
  match cond with
  | None => raise RC_SCAN_CONDITION_NOT_FOUND
  | Some c =>
      openTable_body fuel (String.list_byte_of_string "ScanTable");;;
      bm <- gets (fun s => dataPool (tableInfo s.1));;
      let scanManager :=
        {| pageInfo := {| hPageNum := 0; hData := None |}; dataPool := bm;
           recordID := mkRID 0 0; conditionExpr := Some c; tupleCount := 0;
           freePageIndex := 0; scanIndex := 0 |} in
      modify (on_world (fun w => with_table w (fun t => set_tupleCount t ATTR_NAME_MAX_LENGTH)));;;
      ret scanManager
  end.

(** The return code, the state, and the scan manager when one was made. *)
Definition startScan (fuel : nat) (w : World) (rel : RM_TableData) (cond : option Expr)
  : option (RC * (World * RM_TableData) * option TableInfo) :=
  match startScan_body fuel cond (w, rel) with
  | None => None
  | Some (s', inl rc) => Some (rc, s', None)
  | Some (s', inr scanManager) => Some (RC_OK, s', Some scanManager)
  end.

(** The [while (scanCount <= totalRecords)] loop of [next]; it is entered
    with [remaining] turns left before the test fails. *)
Fixpoint next_loop (fuel : nat) (sch : Schema) (cond : Expr) (recordSize slotsPerPage : Z)
    (scanCount : Z) (remaining : nat) : M ScanState unit :=
  match remaining with
  | O => ret tt
  | S k =>
      modify (on_scan (fun t =>
        if scanCount <=? 0 then set_recordID t (mkRID 1 0)
        else
          let sl := slot (recordID t) + 1 in
          if sl >=? slotsPerPage then set_recordID t (mkRID (page (recordID t) + 1) 0)
          else set_recordID t (mkRID (page (recordID t)) sl)));;;
      rid <- gets (fun s => recordID (scan_info s));;
      check (scan_pin fuel (page rid));;;
      pageContent <- defined (fun s =>
        handle_buffer (dataPool (tableInfo s.1.1)) (pageInfo (scan_info s)));;
      off <- defined (fun _ => slot_offset (slot rid) recordSize);;
      update (fun s =>
        buf ← read_slot pageContent off (mkRecord rid (<[0%nat := MINUS]> (rdata s.2)))
                        recordSize;
        Some (s.1, mkRecord rid buf));;;
      modify (on_scan (fun t => set_scanIndex t (scanIndex t + 1)));;;
      record <- gets snd;;
      if evalExpr record sch cond then
        check scan_unpin;;; raise RC_OK
      else next_loop fuel sch cond recordSize slotsPerPage (scanCount + 1) k
  end.

Definition next_body (fuel : nat) (rel : RM_TableData) : M ScanState unit :=
  cond <- gets (fun s => conditionExpr (scan_info s));;
  match cond with
  | None => raise RC_SCAN_CONDITION_NOT_FOUND
  | Some c =>
      let recordSize := getRecordSize (schema rel) in
      if recordSize <=? 0 then raise RC_ERROR
      else
        let slotsPerPage := PAGE_SIZE ÷ recordSize in
        scanCount <- gets (fun s => scanIndex (scan_info s));;
        totalRecords <- gets (fun s => tupleCount (tableInfo s.1.1));;
        if totalRecords =? 0 then raise RC_RM_NO_MORE_TUPLES
        else
          next_loop fuel (schema rel) c recordSize slotsPerPage scanCount
                    (Z.to_nat (totalRecords - scanCount + 1));;;
          check scan_unpin;;;
          modify (on_scan (fun t => set_scanIndex (set_recordID t (mkRID 1 0)) 0));;;
          raise RC_RM_NO_MORE_TUPLES
  end.

Definition next (fuel : nat) (w : World) (rel : RM_TableData) (scan : TableInfo)
    (record : RecordT) : option (RC * ScanState) :=
  run (next_body fuel rel) (w, scan, record).

Definition closeScan (scan : TableInfo) : RC * TableInfo :=
  (RC_OK, set_scanIndex (set_recordID scan (mkRID 1 0)) 0).

(** *** Schemas, records and attribute values *)

Definition createSchema (numAttr : Z) (attrNames : list (list byte)) (dataTypes typeLength : list Z)
    (keySize : Z) (keys : list Z) : option Schema :=
  if numAttr <=? 0 then None
  else Some {| numAttr := numAttr; attrNames := attrNames; dataTypes := dataTypes;
               typeLength := typeLength; keyAttrs := keys; keySize := keySize |}.

Definition createRecord (s : Schema) : RC * option RecordT :=
  let recordSize := getRecordSize s in
  if recordSize <=? 0 then (RC_ERROR, None)
  else
    (RC_OK,
     Some {| id := mkRID (-1) (-1);
             rdata := take (Z.to_nat recordSize) (MINUS :: zero_bytes (Z.to_nat recordSize)) |}).

(** The loop of [getAttributeOffset] from attribute [i] on. *)
Fixpoint attr_offset_from (s : Schema) (i : nat) (remaining : nat) (result : Z) : RC * Z :=
  match remaining with
  | O => (RC_OK, result)
  | S k =>
      let dt := default (-1) (dataTypes s !! i) in
      if dt =? DT_STRING then attr_offset_from s (S i) k (result + default 0 (typeLength s !! i))
      else if dt =? DT_INT then attr_offset_from s (S i) k (result + sizeof_int)
      else if dt =? DT_FLOAT then attr_offset_from s (S i) k (result + sizeof_float)
      else if dt =? DT_BOOL then attr_offset_from s (S i) k (result + sizeof_bool)
      else (RC_RM_COMPARE_VALUE_OF_DIFFERENT_DATATYPE, result)
  end.

Definition getAttributeOffset (s : Schema) (attrNum : Z) : RC * Z :=
  if (attrNum <? 0) || (attrNum >=? numAttr s) then (RC_ERROR, 0)
  else attr_offset_from s 0 (Z.to_nat attrNum) 1.

(** The bytes of a C string: those before the first nul. *)
Fixpoint c_string (l : list byte) : list byte :=
  match l with
  | [] => []
  | b :: l' => if Byte.eqb b x00 then [] else b :: c_string l'
  end.

(** [getAttr] also assigns to the schema: the type of attribute 1 becomes
    the number 1. *)
Definition getAttr (record : RecordT) (s : Schema) (attrNum : Z) : RC * Schema * option Value :=
  if (attrNum <? 0) || (attrNum >=? numAttr s) then (RC_RM_NO_MORE_TUPLES, s, None)
  else
    let '(result, offset) := getAttributeOffset s attrNum in
    if negb (is_ok result) then (result, s, None)
    else
      let i := Z.to_nat attrNum in
      let s' :=
        if attrNum =? 1
        then mkSchema (numAttr s) (attrNames s) (<[i := 1]> (dataTypes s)) (typeLength s)
                      (keyAttrs s) (keySize s)
        else s in
      let bytes := drop (Z.to_nat offset) (rdata record) in
      let dt := default (-1) (dataTypes s' !! i) in
      if dt =? DT_STRING then
        let len := Z.to_nat (default 0 (typeLength s' !! i)) in
        (RC_OK, s', Some (StringV (c_string (take len bytes))))
      else if dt =? DT_INT then (RC_OK, s', Some (IntV (int_at bytes 0)))
      else if dt =? DT_FLOAT then (RC_OK, s', Some (FloatV (take 4 bytes)))
      else if dt =? DT_BOOL then
        (RC_OK, s', Some (BoolV (negb (Byte.eqb (default x00 (bytes !! 0%nat)) x00))))
      else (RC_RM_COMPARE_VALUE_OF_DIFFERENT_DATATYPE, s', None).

(** [setAttr] stores the member of the [Value] union that the schema's
    type selects; a value of another kind is a type-punned read that the
    model does not define. *)
Definition setAttr (record : RecordT) (s : Schema) (attrNum : Z) (value : Value)
  : option (RC * RecordT) :=
  if (attrNum <? 0) || (attrNum >=? numAttr s) then Some (RC_RM_NO_MORE_TUPLES, record)
  else
    let '(result, offset) := getAttributeOffset s attrNum in
    if negb (is_ok result) then Some (result, record)
    else
      let i := Z.to_nat attrNum in
      let off := Z.to_nat offset in
      let store src n := Some (RC_OK, mkRecord (id record) (memcpy_at (rdata record) off src n)) in
      let dt := default (-1) (dataTypes s !! i) in
      if dt =? DT_STRING then
        let len := Z.to_nat (default 0 (typeLength s !! i)) in
        match value with StringV str => store (strncpy str len) len | _ => None end
      else if dt =? DT_INT then
        match value with IntV z => store (bytes_of_int z) 4%nat | _ => None end
      else if dt =? DT_FLOAT then
        match value with FloatV bits => store bits 4%nat | _ => None end
      else if dt =? DT_BOOL then
        match value with BoolV b => store [if b then x01 else x00] 1%nat | _ => None end
      else Some (RC_RM_COMPARE_VALUE_OF_DIFFERENT_DATATYPE, record).

End RecordMgr.
Export RecordMgr.

(** ** btree_mgr.c *)

Module BTreeMgr.

(** The C struct [Node] on the reference platform (4-byte [int], 1-byte
    [bool], 4-byte alignment): [mother] at 0, [leaf] at 4, [left] at 8,
    [value1] at 16, [mid] at 20, [value2] at 28, [right] at 32. *)
Definition sizeof_Node : nat := 40.
Definition off_mother : nat := 0.
Definition off_leaf : nat := 4.
Definition off_left : nat := 8.
Definition off_value1 : nat := 16.
Definition off_mid : nat := 20.
Definition off_value2 : nat := 28.
Definition off_right : nat := 32.

(** The expression [(Node * ) data + sizeof (bool)] adds to a pointer to
    [Node]: the node lies [sizeof (bool)] nodes, that is 40 bytes, into the
    page. *)
Definition node_at : nat := 1 * sizeof_Node.

Definition INIT_RID : RID := mkRID (-1) (-1).

Record TreeInfo : Type := mkTreeInfo {
  bm : BM_BufferPool;
  page : BM_PageHandle;
  root : Z;
  globalCount : Z;
  maxCount : Z
}.

(** The memory the index manager works on: the files, the globals
    [lastPage] and [scanCount], and the [TreeInfo] of the open index. *)
Record IndexWorld : Type := mkIndexWorld {
  x_fs : FileSystem;
  lastPage : Z;
  scanCount : Z;
  trInfo : TreeInfo
}.

Definition set_bm (t : TreeInfo) (b : BM_BufferPool) : TreeInfo :=
  mkTreeInfo b (page t) (root t) (globalCount t) (maxCount t).
Definition set_page (t : TreeInfo) (h : BM_PageHandle) : TreeInfo :=
  mkTreeInfo (bm t) h (root t) (globalCount t) (maxCount t).
Definition set_root (t : TreeInfo) (r : Z) : TreeInfo :=
  mkTreeInfo (bm t) (page t) r (globalCount t) (maxCount t).
Definition set_globalCount (t : TreeInfo) (n : Z) : TreeInfo :=
  mkTreeInfo (bm t) (page t) (root t) n (maxCount t).
Definition set_maxCount (t : TreeInfo) (n : Z) : TreeInfo :=
  mkTreeInfo (bm t) (page t) (root t) (globalCount t) n.

Definition set_lastPage (x : IndexWorld) (n : Z) : IndexWorld :=
  mkIndexWorld (x_fs x) n (scanCount x) (trInfo x).
Definition set_scanCount (x : IndexWorld) (n : Z) : IndexWorld :=
  mkIndexWorld (x_fs x) (lastPage x) n (trInfo x).
Definition with_tree (x : IndexWorld) (f : TreeInfo -> TreeInfo) : IndexWorld :=
  mkIndexWorld (x_fs x) (lastPage x) (scanCount x) (f (trInfo x)).

(** *** Fields of a page *)

(** A store of an [int] through a pointer into the page. *)
Definition store_int (buf : list byte) (off : nat) (z : Z) : list byte :=
  memcpy_at buf off (bytes_of_int z) 4.

(** A store of a [bool]. *)
Definition store_bool (buf : list byte) (off : nat) (b : bool) : list byte :=
  <[off := if b then x01 else x00]> buf.

(** The test [b == true] on a stored [bool]. *)
Definition load_bool (buf : list byte) (off : nat) : bool :=
  Byte.eqb (default x00 (buf !! off)) x01.

Definition store_rid (buf : list byte) (off : nat) (r : RID) : list byte :=
  store_int (store_int buf off (RecordMgr.page r)) (off + 4) (slot r).

Definition load_rid (buf : list byte) (off : nat) : RID :=
  mkRID (int_at buf off) (int_at buf (off + 4)).

(** The byte at the start of a page: whether both slots are taken. *)
Definition full_of (buf : list byte) : bool := load_bool buf 0.
Definition value1_of (buf : list byte) : Z := int_at buf (node_at + off_value1).
Definition value2_of (buf : list byte) : Z := int_at buf (node_at + off_value2).
Definition left_of (buf : list byte) : RID := load_rid buf (node_at + off_left).
Definition mid_of (buf : list byte) : RID := load_rid buf (node_at + off_mid).

(** [node->left = r; node->value1 = v;] *)
Definition set_first (r : RID) (v : Z) (buf : list byte) : list byte :=
  store_int (store_rid buf (node_at + off_left) r) (node_at + off_value1) v.

(** [node->mid = r; node->value2 = v;] *)
Definition set_second (r : RID) (v : Z) (buf : list byte) : list byte :=
  store_int (store_rid buf (node_at + off_mid) r) (node_at + off_value2) v.

(** The first byte of the page is assigned [b]. *)
Definition set_full (b : bool) (buf : list byte) : list byte := store_bool buf 0 b.

Definition checkDataType (keyType : Z) : RC :=
  if negb (keyType =? DT_INT) then RC_RM_UNKOWN_DATATYPE else RC_OK.

(** [node] is the offset of the node in the page [buf]; it is never the
    null pointer. *)
Definition initializeNewNode (buf : list byte) (node : nat) (mother : Z) (isLeaf : bool)
    (leftRID : RID) (value1 : Z) (midRID : RID) (value2 : Z) (rightRID : RID)
  : RC * list byte :=
  let b1 := store_int buf (node + off_mother) mother in
  let b2 := store_bool b1 (node + off_leaf) isLeaf in
  let b3 := store_rid b2 (node + off_left) leftRID in
  let b4 := store_int b3 (node + off_value1) value1 in
  let b5 := store_rid b4 (node + off_mid) midRID in
  let b6 := store_int b5 (node + off_value2) value2 in
  let b7 := store_rid b6 (node + off_right) rightRID in
  (RC_OK, b7).

(** *** Calls on the index's pool *)

Definition pinI (fuel : nat) (p : Z) (x : IndexWorld) : option (RC * IndexWorld) :=
  let t := trInfo x in
  match pinPage fuel (x_fs x) (bm t) (page t) p with
  | None => None
  | Some (rc, fs', bm', h') =>
      Some (rc, mkIndexWorld fs' (lastPage x) (scanCount x) (set_page (set_bm t bm') h'))
  end.

Definition unpinI (x : IndexWorld) : option (RC * IndexWorld) :=
  let t := trInfo x in
  match unpinPage (bm t) (page t) with
  | None => None
  | Some (rc, bm') => Some (rc, with_tree x (fun t => set_bm t bm'))
  end.

Definition markI (x : IndexWorld) : option (RC * IndexWorld) :=
  let t := trInfo x in
  match markDirty (bm t) (page t) with
  | None => None
  | Some (rc, bm') => Some (rc, with_tree x (fun t => set_bm t bm'))
  end.

(** [trInfo->page->data] *)
Definition page_data (x : IndexWorld) : option (list byte) :=
  handle_buffer (bm (trInfo x)) (page (trInfo x)).

(** Assignments through [trInfo->page->data] that turn the page [buf] into
    [g buf]. *)
Definition store_data (g : list byte -> list byte) (x : IndexWorld) : option IndexWorld :=
  buf ← page_data x;
  bm' ← store_buffer (bm (trInfo x)) (page (trInfo x)) (g buf);
  Some (with_tree x (fun t => set_bm t bm')).

(** A call that works on the page and returns a code. *)
Definition on_page (f : list byte -> RC * list byte) (x : IndexWorld)
  : option (RC * IndexWorld) :=
  buf ← page_data x;
  x' ← store_data (fun _ => (f buf).2) x;
  Some ((f buf).1, x').

Definition handlePagePinning (fuel : nat) (pageNum : Z) (shouldMarkDirty : bool)
    (x : IndexWorld) : option (RC * IndexWorld) :=
  run (check (pinI fuel pageNum);;;
       if shouldMarkDirty then check_or markI (ignore unpinI) else ret tt) x.

Definition shutdownI (x : IndexWorld) : option (RC * IndexWorld) :=
  match shutdownBufferPool (x_fs x) (bm (trInfo x)) with
  | None => None
  | Some (rc, fs', bm') =>
      Some (rc, mkIndexWorld fs' (lastPage x) (scanCount x) (set_bm (trInfo x) bm'))
  end.

(** *** Create, open and close *)

(** The page [malloc] returns is taken to hold zeros. *)
Definition createBtree (fs : FileSystem) (idxId : string) (keyType : Z) (n : Z)
  : RC * FileSystem :=
  let result := checkDataType keyType in
  if negb (is_ok result) then (result, fs)
  else
    let '(rc1, fs1) := createPageFile fs idxId in
    if negb (is_ok rc1) then (rc1, fs1)
    else
      match openPageFile fs1 idxId with
      | (rc2, None) => (rc2, fs1)
      | (_, Some fh) =>
          let '(rc3, fs2, fh2) := ensureCapacity fs1 1 fh in
          if negb (is_ok rc3) then (rc3, fs2)
          else
            let ph := store_int (zero_bytes PAGE_LEN) 0 n in
            let '(rc4, fs3, fh3) := writeCurrentBlock fs2 fh2 ph in
            if negb (is_ok rc4) then (rc4, fs3)
            else ((closePageFile fh3).1, fs3)
      end.

(** The [TreeInfo] and page handle that [malloc] returns, with the two
    fields [openBtree] sets at once. *)
Definition fresh_treeInfo (b : BM_BufferPool) : TreeInfo :=
  {| bm := b; page := {| hPageNum := 0; hData := None |}; root := 0; globalCount := 0;
     maxCount := 0 |}.

(** [maxCount] is read from the page that was pinned, page 1. *)
Definition openBtree_body (fuel : nat) : M IndexWorld unit :=
  check_or (pinI fuel 1) (ignore shutdownI);;;
  buf <- defined page_data;;
  modify (fun x => with_tree x (fun t => set_maxCount t (int_at buf 0)));;;
  check_or unpinI (ignore shutdownI).

(** [x] gives the files and the two globals as the call finds them. *)
Definition openBtree (fuel : nat) (x : IndexWorld) (idxId : string) : option (RC * IndexWorld) :=
  let '(rc, b) := initBufferPool idxId 10 RS_FIFO in
  let x0 := mkIndexWorld (x_fs x) (lastPage x) (scanCount x) (fresh_treeInfo b) in
  if negb (is_ok rc) then Some (rc, x0) else run (openBtree_body fuel) x0.

Definition closeBtree (x : IndexWorld) : option (RC * IndexWorld) :=
  match shutdownBufferPool (x_fs x) (bm (trInfo x)) with
  | None => None
  | Some (_, fs', bm') => Some (RC_OK, mkIndexWorld fs' 0 0 (set_bm (trInfo x) bm'))
  end.

Definition deleteBtree (fs : FileSystem) (idxId : string) : RC * FileSystem :=
  match files fs !! idxId with
  | Some _ => (RC_OK, remove_file fs idxId)
  | None => (RC_FILE_NOT_FOUND, fs)
  end.

Definition getNumNodes (x : IndexWorld) : RC * Z := (RC_OK, lastPage x + 1).
Definition getNumEntries (x : IndexWorld) : RC * Z := (RC_OK, globalCount (trInfo x)).
Definition getKeyType (x : IndexWorld) : RC * Z := (RC_OK, DT_INT).

(** *** Index access *)

(** The loop of [findKey] for the [n] pages from [i] on.  The result is
    the value of [i] at the end of the loop, [find], and what [result]
    points to. *)
Fixpoint find_search (fuel : nat) (n : nat) (i : Z) (findKey : Z) (result : RID)
  : M IndexWorld (Z * bool * RID) :=
  match n with
  | O => ret (i, false, result)
  | S k =>
      check (handlePagePinning fuel i false);;;
      buf <- defined page_data;;
      if findKey =? value1_of buf then ret (i, true, left_of buf)
      else if findKey =? value2_of buf then ret (i, true, mid_of buf)
      else check unpinI;;; find_search fuel k (i + 1) findKey result
  end.

Definition findKey_body (fuel : nat) (key : Z) (result : RID) : M IndexWorld RID :=
  lp <- gets lastPage;;
  r <- find_search fuel (Z.to_nat lp) 1 key result;;
  let '(i, find, result') := r in
  (if i <=? lp then check unpinI else ret tt);;;
  if negb find then raise RC_IM_KEY_NOT_FOUND else ret result'.

(** The code, the memory and the [RID] stored through [result] when the
    code is [RC_OK]. *)
Definition findKey (fuel : nat) (x : IndexWorld) (key : Z) (result : RID)
  : option (RC * IndexWorld * RID) :=
  match findKey_body fuel key result x with
  | None => None
  | Some (x', inl rc) => Some (rc, x', result)
  | Some (x', inr r) => Some (RC_OK, x', r)
  end.

(** The page just pinned becomes a page with the one entry [(key, rid)]. *)
Definition new_page_entry (key : Z) (rid : RID) : M IndexWorld unit :=
  update (store_data (set_full false));;;
  check_or (on_page (fun buf => initializeNewNode buf node_at (-1) true rid key
                                                  INIT_RID (-1) INIT_RID))
           (ignore unpinI);;;
  check unpinI.

Definition insertKey_body (fuel : nat) (key : Z) (rid : RID) : M IndexWorld unit :=
  lp <- gets lastPage;;
  (if lp =? 0 then
     modify (fun x => set_lastPage x 1);;;
     modify (fun x => with_tree x (fun t => set_root t 1));;;
     check (handlePagePinning fuel 1 true);;;
     new_page_entry key rid
   else
     check (handlePagePinning fuel lp true);;;
     buf <- defined page_data;;
     if full_of buf then
       modify (fun x => set_lastPage x (lp + 1));;;
       check unpinI;;;
       check (handlePagePinning fuel (lp + 1) true);;;
       new_page_entry key rid
     else
       update (store_data (set_second rid key));;;
       update (store_data (set_full true));;;
       check unpinI);;;
  modify (fun x => with_tree x (fun t => set_globalCount t (globalCount t + 1))).

Definition insertKey (fuel : nat) (x : IndexWorld) (key : Z) (rid : RID)
  : option (RC * IndexWorld) :=
  run (insertKey_body fuel key rid) x.

(** The search loop of [deleteKey] for the [n] pages from [i] on: the
    value of [i] at the end of the loop, [valueNum] and [find].  The page
    on which the key is found stays pinned. *)
Fixpoint delete_search (fuel : nat) (n : nat) (i : Z) (findKey : Z)
  : M IndexWorld (Z * Z * bool) :=
  match n with
  | O => ret (i, 0, false)
  | S k =>
      check (handlePagePinning fuel i true);;;
      buf <- defined page_data;;
      if findKey =? value1_of buf then ret (i, 1, true)
      else if findKey =? value2_of buf then ret (i, 2, true)
      else check unpinI;;; delete_search fuel k (i + 1) findKey
  end.

(** The second slot is cleared and the page marked as not full. *)
Definition drop_second (buf : list byte) : list byte :=
  set_full false (set_second INIT_RID (-1) buf).

(** The second entry moves to the first slot. *)
Definition second_to_first (buf : list byte) : list byte :=
  let moveRID := mid_of buf in
  let b1 := store_rid buf (node_at + off_left) moveRID in
  let moveValue := value2_of b1 in
  let b2 := store_int b1 (node_at + off_value1) moveValue in
  set_full false (set_second INIT_RID (-1) b2).

(** The last page gives up its second entry: the entry, and the page
    that is left. *)
Definition give_second (buf : list byte) : RID * Z * list byte :=
  let b1 := set_full false buf in
  (mid_of b1, value2_of b1, set_second INIT_RID (-1) b1).

(** The last page gives up its only entry. *)
Definition give_first (buf : list byte) : RID * Z * list byte :=
  (left_of buf, value1_of buf, set_first INIT_RID (-1) buf).

(** The entry taken from the last page replaces the deleted one on page
    [i]. *)
Definition put_moved (fuel : nat) (i valueNum : Z) (moveRID : RID) (moveValue : Z)
  : M IndexWorld unit :=
  check (handlePagePinning fuel i true);;;
  update (store_data (if valueNum =? 1 then set_first moveRID moveValue
                      else set_second moveRID moveValue));;;
  check unpinI.

Definition deleteKey_body (fuel : nat) (findKey : Z) : M IndexWorld unit :=
  lp <- gets lastPage;;
  r <- delete_search fuel (Z.to_nat lp) 1 findKey;;
  let '(i, valueNum, find) := r in
  if negb find then raise RC_IM_KEY_NOT_FOUND
  else
    check (handlePagePinning fuel lp true);;;
    (if i =? 0 then ignore unpinI;;; raise RC_ERROR
     else if i =? lp then
       (if valueNum =? 2 then update (store_data drop_second)
        else
          buf <- defined page_data;;
          if full_of buf then update (store_data second_to_first)
          else
            update (store_data (set_first INIT_RID (-1)));;;
            modify (fun x => set_lastPage x (lp - 1)));;;
       check unpinI
     else
       buf <- defined page_data;;
       if full_of buf then
         let '(moveRID, moveValue, buf') := give_second buf in
         update (store_data (fun _ => buf'));;;
         check unpinI;;;
         put_moved fuel i valueNum moveRID moveValue
       else
         let '(moveRID, moveValue, buf') := give_first buf in
         update (store_data (fun _ => buf'));;;
         modify (fun x => set_lastPage x (lp - 1));;;
         check unpinI;;;
         put_moved fuel i valueNum moveRID moveValue);;;
    modify (fun x => with_tree x (fun t => set_globalCount t (globalCount t - 1))).

Definition deleteKey (fuel : nat) (x : IndexWorld) (key : Z) : option (RC * IndexWorld) :=
  run (deleteKey_body fuel key) x.

End BTreeMgr.

(** ** Concrete inputs used by the examples *)

Module Examples.

Definition empty_fs : FileSystem := {| files := ∅; write_error := false |}.

(** A file system holding the freshly created one-page file ["t.bin"]. *)
Definition fs1 : FileSystem := (createPageFile empty_fs "t.bin").2.

Definition fh1 : SM_FileHandle :=
  {| fileName := "t.bin"; totalNumPages := 1; curPagePos := 0; mgmtInfo := Some "t.bin"%string |}.

(** A page whose first bytes are the text ["Page-7"]. *)
Definition page7 : SM_PageHandle := sprintf_page (zero_bytes PAGE_LEN) 7.

Definition no_handle : BM_PageHandle := {| hPageNum := 0; hData := None |}.

(** Pin [p] and unpin it again. *)
Definition load_and_release (fuel : nat) (st : option (FileSystem * BM_BufferPool)) (p : Z)
  : option (FileSystem * BM_BufferPool) :=
  match st with
  | Some (fs, bm) =>
      match pinPage fuel fs bm no_handle p with
      | Some (RC_OK, fs', bm', h) =>
          match unpinPage bm' h with
          | Some (RC_OK, bm'') => Some (fs', bm'')
          | _ => None
          end
      | _ => None
      end
  | None => None
  end.

(** Pin [p] and keep it pinned. *)
Definition load_and_hold (fuel : nat) (st : option (FileSystem * BM_BufferPool)) (p : Z)
  : option (FileSystem * BM_BufferPool) :=
  match st with
  | Some (fs, bm) =>
      match pinPage fuel fs bm no_handle p with
      | Some (RC_OK, fs', bm', h) => Some (fs', bm')
      | _ => None
      end
  | None => None
  end.

Definition fresh_pool (n : Z) (s : ReplacementStrategy) : option (FileSystem * BM_BufferPool) :=
  Some (fs1, (initBufferPool "t.bin" n s).2).

(** Pool of three frames under CLOCK after pages 1, 2, 3 were loaded and
    released. *)
Definition clock_pool : option (FileSystem * BM_BufferPool) :=
  foldl (load_and_release 0) (fresh_pool 3 RS_CLOCK) [1; 2; 3].

(** Pool of one frame under CLOCK whose only frame holds page 1, pinned. *)
Definition clock_pinned_pool : option (FileSystem * BM_BufferPool) :=
  foldl (load_and_hold 0) (fresh_pool 1 RS_CLOCK) [1].

(** What a test can see of the outcome of [pinPage]: the return code, the
    frame contents, the access counts, the pin counts, the clock hand and
    the handle. *)
Definition observe (r : option (RC * FileSystem * BM_BufferPool * BM_PageHandle))
  : option (RC * list Z * list Z * list Z * Z * BM_PageHandle) :=
  match r with
  | Some (rc, _, bm, h) =>
      match mgmtData bm with
      | Some m => Some (rc, getFrameContents m, accessCount <$> head m, getFixCounts m,
                        clockHand m, h)
      | None => None
      end
  | None => None
  end.

(** Pool of three frames under FIFO: page 1 loaded, marked dirty and
    released; page 2 loaded and still pinned. *)
Definition mixed_pool : option (FileSystem * BM_BufferPool) :=
  match fresh_pool 3 RS_FIFO with
  | Some (fs, bm) =>
      match pinPage 0 fs bm no_handle 1 with
      | Some (RC_OK, fs', bm', h) =>
          match markDirty bm' h with
          | Some (RC_OK, bm'') =>
              match unpinPage bm'' h with
              | Some (RC_OK, bm3) => load_and_hold 0 (Some (fs', bm3)) 2
              | _ => None
              end
          | _ => None
          end
      | _ => None
      end
  | None => None
  end.

Definition empty_meta : BufferPoolMetadata :=
  {| head := []; fifoHead := None; numFramesUsed := 0; totalFrames := 0; readCount := 0;
     writeCount := 0; clockHand := 0; globalTimer := 0; freed := 0 |}.

(** Projections of a scenario's final state. *)
Definition fs_of (st : option (FileSystem * BM_BufferPool)) : FileSystem :=
  default empty_fs (fst <$> st).
Definition pool_of (st : option (FileSystem * BM_BufferPool)) : BM_BufferPool :=
  default (mkPool "" 0 RS_FIFO None) (snd <$> st).
Definition meta_of (st : option (FileSystem * BM_BufferPool)) : BufferPoolMetadata :=
  default empty_meta (mgmtData (pool_of st)).

(** *** A table with the rows id = 1, 2, 3 *)

(** The schema with the single attribute [id : INT]. *)
Definition id_schema : Schema :=
  {| numAttr := 1; attrNames := [String.list_byte_of_string "id"]; dataTypes := [DT_INT];
     typeLength := [0]; keyAttrs := [0]; keySize := 1 |}.

Definition table_name : list byte := String.list_byte_of_string "tbl".

(** [createRecord] followed by [setAttr] of attribute 0. *)
Definition make_row (s : Schema) (i : Z) : option RecordT :=
  match createRecord s with
  | (RC_OK, Some r) =>
      match setAttr r s 0 (IntV i) with
      | Some (RC_OK, r') => Some r'
      | _ => None
      end
  | _ => None
  end.

Definition blank_row : RecordT := default (mkRecord (mkRID (-1) (-1)) []) (make_row id_schema 0).

(** [createTable] followed by [openTable]. *)
Definition opened_table : option (World * RM_TableData) :=
  match createTable empty_fs table_name id_schema with
  | (RC_OK, w) =>
      match openTable 0 w (mkTableData [] id_schema) table_name with
      | Some (RC_OK, s) => Some s
      | _ => None
      end
  | _ => None
  end.

(** The schema of the example record [(42, hello)]: [id : INT] and
    [name : STRING (10)]. *)
Definition pair_schema : Schema :=
  {| numAttr := 2;
     attrNames := [String.list_byte_of_string "id"; String.list_byte_of_string "name"];
     dataTypes := [DT_INT; DT_STRING]; typeLength := [0; 10]; keyAttrs := [0]; keySize := 1 |}.

(** [createTable] with [pair_schema], followed by [openTable]. *)
Definition opened_pairs : option (World * RM_TableData) :=
  match createTable empty_fs table_name pair_schema with
  | (RC_OK, w) =>
      match openTable 0 w (mkTableData [] pair_schema) table_name with
      | Some (RC_OK, s) => Some s
      | _ => None
      end
  | _ => None
  end.

(** What [createRecord] returns for [pair_schema]. *)
Definition blank_pair : RecordT :=
  default (mkRecord (mkRID (-1) (-1)) []) (createRecord pair_schema).2.

(** The record [(42, hello)]: [createRecord], then [setAttr] of both
    attributes, all with [pair_schema]. *)
Definition hello_row : RecordT :=
  match setAttr blank_pair pair_schema 0 (IntV 42) with
  | Some (RC_OK, r) =>
      match setAttr r pair_schema 1 (StringV (String.list_byte_of_string "hello")) with
      | Some (RC_OK, r') => r'
      | _ => blank_pair
      end
  | _ => blank_pair
  end.

Definition insert_row (fuel : nat) (st : option (World * RM_TableData)) (i : Z)
  : option (World * RM_TableData) :=
  match st with
  | Some (w, rel) =>
      match make_row (schema rel) i with
      | Some r =>
          match insertRecord fuel w rel r with
          | Some (RC_OK, (w', _)) => Some (w', rel)
          | _ => None
          end
      | None => None
      end
  | None => None
  end.

Definition table123 : option (World * RM_TableData) :=
  foldl (insert_row 1) opened_table [1; 2; 3].

Definition delete_row (st : option (World * RM_TableData)) (rid : RID)
  : option (World * RM_TableData) :=
  match st with
  | Some (w, rel) =>
      match deleteRecord 1 w rel rid with
      | Some (RC_OK, w') => Some (w', rel)
      | _ => None
      end
  | None => None
  end.

(** The table with the rows id = 1, 2, 3 after a fourth row, with id = 2,
    was inserted (it went to slot 3 of page 1) and deleted again. *)
Definition table123_deleted : option (World * RM_TableData) :=
  delete_row (insert_row 1 table123 2) (mkRID 1 3).

Definition empty_world : World :=
  mkWorld empty_fs (fresh_tableInfo (mkPool "" 0 RS_LRU None)).

Definition world_of (st : option (World * RM_TableData)) : World :=
  default empty_world (fst <$> st).
Definition rel_of (st : option (World * RM_TableData)) : RM_TableData :=
  default (mkTableData [] id_schema) (snd <$> st).

(** The scan condition [id == 2]: attribute 0, read with [getAttr], is the
    integer 2. *)
Definition id_is_2 : Expr :=
  fun r s =>
    match getAttr r s 0 with
    | (RC_OK, _, Some (IntV 2)) => true
    | _ => false
    end.

(** The sum of the pin counts of the frames of the table's pool. *)
Definition pins_of (w : World) : Z :=
  match mgmtData (dataPool (tableInfo w)) with
  | Some m => foldr Z.add 0 (pinCount <$> head m)
  | None => 0
  end.

(** *** An index *)

Definition no_index : BTreeMgr.IndexWorld :=
  BTreeMgr.mkIndexWorld empty_fs 0 0 (BTreeMgr.fresh_treeInfo (mkPool "" 0 RS_FIFO None)).

(** [createBtree] followed by [openBtree], in a process that has not used
    an index before. *)
Definition fresh_index : option BTreeMgr.IndexWorld :=
  match BTreeMgr.createBtree empty_fs "idx" DT_INT 2 with
  | (RC_OK, fs) =>
      match BTreeMgr.openBtree 0 (BTreeMgr.mkIndexWorld fs 0 0 (BTreeMgr.trInfo no_index)) "idx" with
      | Some (RC_OK, x) => Some x
      | _ => None
      end
  | _ => None
  end.

(** The entry of key [k] in the examples points at slot [k] of page 1. *)
Definition rid_of (k : Z) : RID := mkRID 1 k.

Definition insert_key (st : option BTreeMgr.IndexWorld) (k : Z) : option BTreeMgr.IndexWorld :=
  match st with
  | Some x =>
      match BTreeMgr.insertKey 0 x k (rid_of k) with
      | Some (RC_OK, x') => Some x'
      | _ => None
      end
  | None => None
  end.

Definition index_of (st : option BTreeMgr.IndexWorld) : BTreeMgr.IndexWorld :=
  default no_index st.

(** The index that holds the key 5. *)
Definition index5 : BTreeMgr.IndexWorld := index_of (insert_key fresh_index 5).

End Examples.

(** * Theorems *)

(** ** The page file *)

Section PageFile.

Lemma int_wrap_small (z : Z) : - 2 ^ 31 <= z <= INT_MAX -> int_wrap z = z.
Proof.
  intros Hz. unfold int_wrap, INT_MAX in *.
  rewrite Z.mod_small by lia. lia.
Qed.

Lemma length_zero_bytes (n : nat) : length (zero_bytes n) = n.
Proof. apply length_replicate. Qed.

Lemma length_fwrite_at_inside (c buf : list byte) (off : Z) :
  0 <= off ->
  (Z.to_nat off + length buf <= length c)%nat ->
  length (fwrite_at c off buf) = length c.
Proof.
  intros Hoff Hin. unfold fwrite_at.
  rewrite !length_app, length_take, length_zero_bytes, length_drop. lia.
Qed.

Lemma fwrite_at_window (c buf : list byte) (off : Z) :
  (Z.to_nat off <= length c)%nat ->
  take (length buf) (drop (Z.to_nat off) (fwrite_at c off buf)) = buf.
Proof.
  intros Hoff. unfold fwrite_at.
  replace (Z.to_nat off - length c)%nat with 0%nat by lia. unfold zero_bytes; simpl.
  rewrite drop_app_length'; [| rewrite length_take; lia].
  by rewrite take_app_length.
Qed.

Lemma fwrite_at_before (c buf : list byte) (off : Z) (i : nat) :
  (i < Z.to_nat off)%nat -> (Z.to_nat off <= length c)%nat ->
  fwrite_at c off buf !! i = c !! i.
Proof.
  intros Hi Hoff. unfold fwrite_at.
  rewrite lookup_app_l by (rewrite length_take; lia).
  by rewrite lookup_take_lt.
Qed.

Lemma fwrite_at_after (c buf : list byte) (off : Z) (i : nat) :
  (Z.to_nat off + length buf <= i)%nat -> (Z.to_nat off <= length c)%nat ->
  fwrite_at c off buf !! i = c !! i.
Proof.
  intros Hi Hoff. unfold fwrite_at.
  replace (Z.to_nat off - length c)%nat with 0%nat by lia. unfold zero_bytes; simpl.
  rewrite lookup_app_r by (rewrite length_take; lia).
  rewrite length_take, Nat.min_l by lia.
  rewrite lookup_app_r by lia.
  rewrite lookup_drop. f_equal. lia.
Qed.

(** The same facts for a write at any offset: the file grows when the
    write ends behind its end, and a gap in front of the write reads as
    zeros. *)
Lemma fwrite_at_window_any (c buf : list byte) (off : Z) :
  take (length buf) (drop (Z.to_nat off) (fwrite_at c off buf)) = buf.
Proof.
  unfold fwrite_at. rewrite app_assoc.
  rewrite drop_app_length' by (rewrite length_app, length_take, length_zero_bytes; lia).
  by rewrite take_app_length.
Qed.

Lemma length_fwrite_at (c buf : list byte) (off : Z) :
  length (fwrite_at c off buf) = Nat.max (length c) (Z.to_nat off + length buf).
Proof.
  unfold fwrite_at.
  rewrite !length_app, length_take, length_zero_bytes, length_drop. lia.
Qed.

Lemma fwrite_at_old_byte (c buf : list byte) (off : Z) (i : nat) :
  (i < Z.to_nat off)%nat -> (i < length c)%nat ->
  fwrite_at c off buf !! i = c !! i.
Proof.
  intros Hi Hc. unfold fwrite_at.
  rewrite lookup_app_l by (rewrite length_take; lia).
  by rewrite lookup_take_lt.
Qed.

Lemma fwrite_at_gap (c buf : list byte) (off : Z) (i : nat) :
  (length c <= i < Z.to_nat off)%nat ->
  fwrite_at c off buf !! i = Some x00.
Proof.
  intros Hi. unfold fwrite_at.
  rewrite lookup_app_r by (rewrite length_take; lia).
  rewrite length_take, Nat.min_r by lia.
  rewrite lookup_app_l by (rewrite length_zero_bytes; lia).
  unfold zero_bytes. apply lookup_replicate_2. lia.
Qed.

Lemma fwrite_at_behind (c buf : list byte) (off : Z) (i : nat) :
  (Z.to_nat off + length buf <= i)%nat ->
  fwrite_at c off buf !! i = c !! i.
Proof.
  intros Hi. unfold fwrite_at. rewrite !app_assoc.
  rewrite lookup_app_r
    by (rewrite !length_app, length_take, length_zero_bytes; lia).
  rewrite !length_app, length_take, length_zero_bytes, lookup_drop.
  destruct (decide (i < length c)%nat) as [Hin | Hout].
  - f_equal. lia.
  - rewrite !lookup_ge_None_2 by lia. done.
Qed.

End PageFile.

Section WriteBlock.

Variables (fs : FileSystem) (fh : SM_FileHandle) (buf : SM_PageHandle).
Variables (name : string) (c : list byte).
Hypothesis Hstream : mgmtInfo fh = Some name.
Hypothesis Hfile : files fs !! name = Some c.
Hypothesis Hbuf : length buf = PAGE_LEN.

Lemma writeBlock_out_of_range (n : Z) :
  n < 0 \/ totalNumPages fh <= n ->
  writeBlock fs n fh buf = (RC_READ_NON_EXISTING_PAGE, fs, fh).
Proof.
  intros Hn. unfold writeBlock.
  destruct (Z.ltb_spec n 0), (Z.geb_spec n (totalNumPages fh)); simpl; try reflexivity; lia.
Qed.

Lemma writeBlock_in_range_test (n : Z) :
  0 <= n < totalNumPages fh ->
  (n <? 0) || (n >=? totalNumPages fh) = false.
Proof.
  intros Hn. destruct (Z.ltb_spec n 0), (Z.geb_spec n (totalNumPages fh)); simpl; try reflexivity; lia.
Qed.

Lemma writeBlock_io_error (n : Z) :
  0 <= n < totalNumPages fh ->
  int_wrap (n * PAGE_SIZE) < 0 \/ write_error fs = true ->
  writeBlock fs n fh buf = (RC_WRITE_FAILED, fs, fh).
Proof.
  intros Hn Herr. unfold writeBlock. rewrite writeBlock_in_range_test by done.
  unfold fseek_set_ok.
  destruct (Z.leb_spec 0 (int_wrap (n * PAGE_SIZE))) as [Hseek | Hseek]; simpl; [| reflexivity].
  destruct Herr as [Hneg | Hdev]; [lia |].
  unfold fwrite. by rewrite Hstream, Hfile, Hdev.
Qed.

Lemma writeBlock_success (n : Z) :
  0 <= n < totalNumPages fh ->
  (n + 1) * PAGE_SIZE <= Z.of_nat (length c) ->
  n * PAGE_SIZE <= INT_MAX ->
  write_error fs = false ->
  exists c',
    writeBlock fs n fh buf = (RC_OK, set_file fs name c', set_curPagePos fh n) /\
    length c' = length c /\
    take PAGE_LEN (drop (Z.to_nat (n * PAGE_SIZE)) c') = buf /\
    forall i : nat,
      (i < Z.to_nat (n * PAGE_SIZE) \/ Z.to_nat ((n + 1) * PAGE_SIZE) <= i)%nat ->
      c' !! i = c !! i.
Proof.
  intros Hn Hlen Hmax Hdev.
  assert (Hps : PAGE_SIZE = 4096) by reflexivity.
  assert (Hpl : PAGE_LEN = 4096%nat) by reflexivity.
  exists (fwrite_at c (n * PAGE_SIZE) buf).
  assert (Hoff : (Z.to_nat (n * PAGE_SIZE) + length buf <= length c)%nat) by lia.
  split; [| split; [| split]].
  - unfold writeBlock. rewrite writeBlock_in_range_test by done.
    rewrite int_wrap_small by (unfold INT_MAX in *; lia).
    unfold fseek_set_ok. destruct (Z.leb_spec 0 (n * PAGE_SIZE)); [simpl | lia].
    unfold fwrite. rewrite Hstream, Hfile, Hdev.
    by rewrite take_ge by lia.
  - apply length_fwrite_at_inside; lia.
  - rewrite <- Hbuf. apply fwrite_at_window. lia.
  - intros i [Hi | Hi].
    + apply fwrite_at_before; lia.
    + apply fwrite_at_after; lia.
Qed.

(** A successful write of page [n], whatever the size of the file. *)
Lemma writeBlock_success_any (n : Z) :
  0 <= n < totalNumPages fh ->
  n * PAGE_SIZE <= INT_MAX ->
  write_error fs = false ->
  exists c',
    writeBlock fs n fh buf = (RC_OK, set_file fs name c', set_curPagePos fh n) /\
    take PAGE_LEN (drop (Z.to_nat (n * PAGE_SIZE)) c') = buf /\
    length c' = Nat.max (length c) (Z.to_nat ((n + 1) * PAGE_SIZE)) /\
    (forall i : nat,
       (i < length c)%nat ->
       (i < Z.to_nat (n * PAGE_SIZE) \/ Z.to_nat ((n + 1) * PAGE_SIZE) <= i)%nat ->
       c' !! i = c !! i) /\
    (forall i : nat, (length c <= i < Z.to_nat (n * PAGE_SIZE))%nat -> c' !! i = Some x00).
Proof.
  intros Hn Hmax Hdev.
  assert (Hps : PAGE_SIZE = 4096) by reflexivity.
  assert (Hpl : PAGE_LEN = 4096%nat) by reflexivity.
  exists (fwrite_at c (n * PAGE_SIZE) buf).
  split; [| split; [| split; [| split]]].
  - unfold writeBlock. rewrite writeBlock_in_range_test by done.
    rewrite int_wrap_small by (unfold INT_MAX in *; lia).
    unfold fseek_set_ok. destruct (Z.leb_spec 0 (n * PAGE_SIZE)); [simpl | lia].
    unfold fwrite. rewrite Hstream, Hfile, Hdev.
    by rewrite take_ge by lia.
  - rewrite <- Hbuf. apply fwrite_at_window_any.
  - rewrite length_fwrite_at, Hbuf. f_equal. lia.
  - intros i Hi [Hlo | Hhi].
    + by apply fwrite_at_old_byte.
    + apply fwrite_at_behind. lia.
  - intros i Hi. by apply fwrite_at_gap.
Qed.

End WriteBlock.

(** C8, as amended.  On an open stream over an existing file and a buffer
    of one page: [writeBlock] answers [RC_READ_NON_EXISTING_PAGE] (not
    [RC_WRITE_FAILED]) for a page number out of range and changes nothing;
    it answers [RC_WRITE_FAILED] when the seek is refused or the device
    rejects the write, again changing nothing; otherwise, when
    [n * PAGE_SIZE] is an [int], it answers [RC_OK], puts the buffer into
    the [PAGE_SIZE] bytes at offset [n * PAGE_SIZE], leaves every byte the
    file had outside that page as it was, and sets the cursor to [n].  The
    file keeps its length unless the page ends behind its end (a last page
    that was not whole, or a handle that counts more pages than the file
    has): then the file ends with the page, and bytes between its old end
    and the page are zeros. *)
Theorem writeBlock_amended (fs : FileSystem) (fh : SM_FileHandle) (buf : SM_PageHandle)
    (name : string) (c : list byte) (n : Z) :
  mgmtInfo fh = Some name ->
  files fs !! name = Some c ->
  length buf = PAGE_LEN ->
  (n < 0 \/ totalNumPages fh <= n ->
     writeBlock fs n fh buf = (RC_READ_NON_EXISTING_PAGE, fs, fh)) /\
  (0 <= n < totalNumPages fh ->
   int_wrap (n * PAGE_SIZE) < 0 \/ write_error fs = true ->
     writeBlock fs n fh buf = (RC_WRITE_FAILED, fs, fh)) /\
  (0 <= n < totalNumPages fh ->
   n * PAGE_SIZE <= INT_MAX ->
   write_error fs = false ->
     exists c',
       writeBlock fs n fh buf = (RC_OK, set_file fs name c', set_curPagePos fh n) /\
       curPagePos (set_curPagePos fh n) = n /\
       take PAGE_LEN (drop (Z.to_nat (n * PAGE_SIZE)) c') = buf /\
       length c' = Nat.max (length c) (Z.to_nat ((n + 1) * PAGE_SIZE)) /\
       (forall i : nat,
          (i < length c)%nat ->
          (i < Z.to_nat (n * PAGE_SIZE) \/ Z.to_nat ((n + 1) * PAGE_SIZE) <= i)%nat ->
          c' !! i = c !! i) /\
       (forall i : nat,
          (length c <= i < Z.to_nat (n * PAGE_SIZE))%nat -> c' !! i = Some x00)).
Proof.
  intros Hstream Hfile Hbuf. split; [| split].
  - by apply writeBlock_out_of_range.
  - by eapply writeBlock_io_error.
  - intros Hn Hmax Hdev.
    destruct (writeBlock_success_any fs fh buf name c Hstream Hfile Hbuf n Hn Hmax Hdev)
      as (c' & Hw & Hwin & Hl & Hrest & Hgap).
    exists c'. by repeat split.
Qed.

(** The theorem above at page 1 of a file of one page and 100 bytes, which
    [openPageFile] counts as two pages: the write returns [RC_OK] and the
    file grows to two whole pages. *)
Lemma writeBlock_amended_witness :
  let c := zero_bytes (PAGE_LEN + 100) in
  let fs := set_file Examples.empty_fs "t.bin" c in
  let fh := default Examples.fh1 (openPageFile fs "t.bin").2 in
  (mgmtInfo fh = Some "t.bin"%string /\
   files fs !! "t.bin"%string = Some c /\
   length Examples.page7 = PAGE_LEN /\
   0 <= 1 < totalNumPages fh /\ 1 * PAGE_SIZE <= INT_MAX /\ write_error fs = false) /\
  exists c',
    writeBlock fs 1 fh Examples.page7 = (RC_OK, set_file fs "t.bin" c', set_curPagePos fh 1) /\
    curPagePos (set_curPagePos fh 1) = 1 /\
    take PAGE_LEN (drop (Z.to_nat (1 * PAGE_SIZE)) c') = Examples.page7 /\
    length c' = Nat.max (length c) (Z.to_nat ((1 + 1) * PAGE_SIZE)) /\
    (forall i : nat,
       (i < length c)%nat ->
       (i < Z.to_nat (1 * PAGE_SIZE) \/ Z.to_nat ((1 + 1) * PAGE_SIZE) <= i)%nat ->
       c' !! i = c !! i) /\
    (forall i : nat,
       (length c <= i < Z.to_nat (1 * PAGE_SIZE))%nat -> c' !! i = Some x00).
Proof.
  intros c fs fh.
  assert (H1 : mgmtInfo fh = Some "t.bin"%string) by (vm_compute; reflexivity).
  assert (H2 : files fs !! "t.bin"%string = Some c) by (vm_compute; reflexivity).
  assert (H3 : length Examples.page7 = PAGE_LEN) by (vm_compute; reflexivity).
  assert (H4 : 0 <= 1 < totalNumPages fh).
  { assert (Hpages : totalNumPages fh = 2) by (vm_compute; reflexivity). lia. }
  assert (H5 : 1 * PAGE_SIZE <= INT_MAX) by (vm_compute; discriminate).
  assert (H6 : write_error fs = false) by reflexivity.
  split; [exact (conj H1 (conj H2 (conj H3 (conj H4 (conj H5 H6))))) |].
  destruct (writeBlock_amended fs fh Examples.page7 "t.bin" c 1 H1 H2 H3) as (_ & _ & Hok).
  exact (Hok H4 H5 H6).
Defined.

(** C8 as stated fails: page 1 of a one-page file is out of range, and the
    code answers [RC_READ_NON_EXISTING_PAGE], which is not [RC_WRITE_FAILED]. *)
Lemma writeBlock_out_of_range_not_WRITE_FAILED :
  totalNumPages Examples.fh1 <= 1 /\
  (writeBlock Examples.fs1 1 Examples.fh1 Examples.page7).1.1 = RC_READ_NON_EXISTING_PAGE /\
  (writeBlock Examples.fs1 1 Examples.fh1 Examples.page7).1.1 <> RC_WRITE_FAILED.
Proof.
  split; [simpl; lia |]. split; [reflexivity | discriminate].
Qed.

(** ** Victim selection when every frame is pinned *)

Section AllPinned.

Definition all_pinned (l : list DLNode) : Prop := Forall (fun f => 0 < pinCount f) l.

Lemma all_pinned_lookup (l : list DLNode) (i : nat) (f : DLNode) :
  all_pinned l -> l !! i = Some f -> (pinCount f =? 0) = false.
Proof.
  intros Hall Hi. apply Z.eqb_neq.
  pose proof (Forall_lookup_1 _ _ _ _ Hall Hi) as Hf. simpl in Hf. lia.
Qed.

Lemma fifo_search_all_pinned (l : list DLNode) (start current steps : nat) :
  all_pinned l -> fifo_search l start current steps = None.
Proof.
  intros Hall. revert current.
  induction steps as [| k IH]; intros current; simpl; [done |].
  destruct (l !! current) as [f |] eqn:Hf; [| done].
  rewrite (all_pinned_lookup l current f Hall Hf).
  case_bool_decide; [done | apply IH].
Qed.

Lemma replaceFIFO_all_pinned (m : BufferPoolMetadata) :
  all_pinned (head m) -> head m <> [] ->
  exists m1, replaceFIFO m = Some (m1, None) /\ head m1 = head m.
Proof.
  intros Hall Hne. unfold replaceFIFO.
  destruct (fifoHead m) as [h |] eqn:Hh; cbn -[fifo_search].
  - rewrite Hh. rewrite fifo_search_all_pinned by done. by eexists.
  - destruct (head m) as [| f l] eqn:Hl; cbn -[fifo_search]; [done |].
    rewrite fifo_search_all_pinned by done. eexists. split; [reflexivity |]. by cbn.
Qed.

Lemma lru_scan_all_pinned (l : list DLNode) (i : nat) (v : option nat) (t : Z) :
  all_pinned l -> lru_scan l i v t = v.
Proof.
  intros Hall. revert i v t.
  induction Hall as [| f l Hf _ IH]; intros i v t; simpl; [done |].
  replace (pinCount f =? 0) with false by (symmetry; apply Z.eqb_neq; lia).
  simpl. apply IH.
Qed.

Lemma lfu_scan_all_pinned (l : list DLNode) (i : nat) (v : option nat) (c t : Z) :
  all_pinned l -> lfu_scan l i v c t = v.
Proof.
  intros Hall. revert i v c t.
  induction Hall as [| f l Hf _ IH]; intros i v c t; simpl; [done |].
  replace (pinCount f =? 0) with false by (symmetry; apply Z.eqb_neq; lia).
  apply IH.
Qed.

(** The loop of [replaceCLOCK] has no exit when no frame is unpinned. *)
Lemma clock_loop_all_pinned (fuel : nat) (m : BufferPoolMetadata) (current : nat) :
  all_pinned (head m) -> clock_loop fuel m current = None.
Proof.
  revert m current.
  induction fuel as [| k IH]; intros m current Hall; simpl; [done |].
  destruct (head m !! current) as [f |] eqn:Hf; [| done].
  rewrite (all_pinned_lookup _ _ _ Hall Hf). simpl.
  apply IH. simpl.
  destruct (accessCount f >? 0); [| done].
  apply Forall_insert; [done |]. simpl.
  pose proof (Forall_lookup_1 _ _ _ _ Hall Hf) as Hp. by simpl in Hp.
Qed.

Lemma replaceCLOCK_all_pinned (fuel : nat) (m : BufferPoolMetadata) :
  all_pinned (head m) -> replaceCLOCK fuel m = None.
Proof. intros Hall. unfold replaceCLOCK. by apply clock_loop_all_pinned. Qed.

Variables (fs : FileSystem) (bm : BM_BufferPool) (m : BufferPoolMetadata).
Variables (page : BM_PageHandle) (p : Z).
Hypothesis Hlive : mgmtData bm = Some m.
Hypothesis Hfull : totalFrames m <= numFramesUsed m.
Hypothesis Habsent : findPage m p = None.
Hypothesis Hpinned : all_pinned (head m).

(** FIFO, LRU and LFU (and the unimplemented LRU-K) find no victim, and
    [pinPage] answers [RC_ERROR] with every frame as it was. *)
Lemma pinPage_all_pinned_error (fuel : nat) :
  strategy bm <> RS_CLOCK -> head m <> [] ->
  exists m',
    pinPage fuel fs bm page p = Some (RC_ERROR, fs, set_mgmtData bm (Some m'), page) /\
    head m' = head m.
Proof.
  intros Hs Hne. unfold pinPage. rewrite Hlive, Habsent.
  destruct (Z.ltb_spec (numFramesUsed m) (totalFrames m)); [lia |].
  destruct (strategy bm) eqn:Hstrat; simpl; try done.
  - destruct (replaceFIFO_all_pinned m Hpinned Hne) as (m1 & -> & Hh). eauto.
  - unfold replaceLRU. rewrite lru_scan_all_pinned by done. eauto.
  - unfold replaceLFU. rewrite lfu_scan_all_pinned by done. eauto.
  - eauto.
Qed.

(** C1, the CLOCK case: with every frame pinned, [pinPage] of a page that
    is not resident never returns, however many turns of the victim loop
    are allowed. *)
Theorem pinPage_clock_all_pinned_no_return (fuel : nat) :
  strategy bm = RS_CLOCK ->
  pinPage fuel fs bm page p = None.
Proof.
  intros Hs. unfold pinPage. rewrite Hlive, Habsent.
  destruct (Z.ltb_spec (numFramesUsed m) (totalFrames m)); [lia |].
  rewrite Hs. simpl. by rewrite replaceCLOCK_all_pinned.
Qed.

End AllPinned.

(** The theorem above on a pool of one frame that holds page 1, pinned,
    when page 2 is asked for. *)
Lemma pinPage_clock_all_pinned_no_return_witness :
  let st := Examples.clock_pinned_pool in
  (mgmtData (Examples.pool_of st) = Some (Examples.meta_of st) /\
   totalFrames (Examples.meta_of st) <= numFramesUsed (Examples.meta_of st) /\
   findPage (Examples.meta_of st) 2 = None /\
   all_pinned (head (Examples.meta_of st)) /\
   strategy (Examples.pool_of st) = RS_CLOCK) /\
  forall fuel : nat,
    pinPage fuel (Examples.fs_of st) (Examples.pool_of st) Examples.no_handle 2 = None.
Proof.
  intros st.
  assert (H1 : mgmtData (Examples.pool_of st) = Some (Examples.meta_of st))
    by (vm_compute; reflexivity).
  assert (H2 : totalFrames (Examples.meta_of st) <= numFramesUsed (Examples.meta_of st))
    by (vm_compute; discriminate).
  assert (H3 : findPage (Examples.meta_of st) 2 = None) by (vm_compute; reflexivity).
  assert (H4 : all_pinned (head (Examples.meta_of st))).
  { replace (head (Examples.meta_of st))
      with [mkNode (zero_bytes PAGE_LEN) 1 false 1 1 1] by (vm_compute; reflexivity).
    repeat constructor. }
  assert (H5 : strategy (Examples.pool_of st) = RS_CLOCK) by (vm_compute; reflexivity).
  split; [repeat split; assumption |].
  intros fuel.
  exact (pinPage_clock_all_pinned_no_return (Examples.fs_of st) (Examples.pool_of st)
           (Examples.meta_of st) Examples.no_handle 2 H1 H2 H3 H4 fuel H5).
Defined.

(** ** What a flush leaves in the frames *)

Section Shutdown.

(** What [forceFlushPool] leaves in a node. *)
Definition flushed (f : DLNode) : DLNode :=
  if isDirty f && (pinCount f =? 0) then set_isDirty f false else f.

Lemma flush_node_node (fs fs' : FileSystem) (file : string) (f f' : DLNode) (w : bool) :
  flush_node fs file f = Some (fs', f', w) -> f' = flushed f.
Proof.
  unfold flush_node, flushed. destruct (isDirty f && (pinCount f =? 0)).
  - destruct (openPageFile fs file) as [rc [fh |]]; [| done]. by intros [= _ <- _].
  - by intros [= _ <- _].
Qed.

Lemma flush_nodes_nodes (fs fs' : FileSystem) (file : string) (l l' : list DLNode) (n : Z) :
  flush_nodes fs file l = Some (fs', l', n) -> l' = flushed <$> l.
Proof.
  revert fs fs' l' n.
  induction l as [| f l IH]; intros fs fs' l' n; simpl; [by intros [= _ <- _] |].
  destruct (flush_node fs file f) as [[[fs1 f'] w] |] eqn:Hf; [| done].
  apply flush_node_node in Hf as ->.
  destruct (flush_nodes fs1 file l) as [[[fs2 l''] k] |] eqn:Hl; [| done].
  apply IH in Hl as ->. by intros [= _ <- _].
Qed.

Lemma flushed_pinCount (f : DLNode) : pinCount (flushed f) = pinCount f.
Proof. unfold flushed. by destruct (isDirty f && (pinCount f =? 0)). Qed.


Lemma flushed_dirty_unpinned (f : DLNode) :
  pinCount f = 0 -> isDirty f = true -> flushed f = set_isDirty f false.
Proof. intros Hp Hd. unfold flushed. by rewrite Hd, Hp. Qed.

(** What a [forceFlushPool] that returns has done to the pool. *)
Lemma forceFlushPool_frames (fs fs' : FileSystem) (bm bm' : BM_BufferPool)
    (m : BufferPoolMetadata) (rc : RC) :
  mgmtData bm = Some m ->
  forceFlushPool fs bm = Some (rc, fs', bm') ->
  rc = RC_OK /\
  exists m',
    bm' = set_mgmtData bm (Some m') /\ head m' = flushed <$> head m /\
    totalFrames m' = totalFrames m /\ numFramesUsed m' = numFramesUsed m /\
    freed m' = freed m.
Proof.
  intros Hlive. unfold forceFlushPool. rewrite Hlive.
  destruct (flush_nodes fs (pageFile bm) (head m)) as [[[fs1 l'] n] |] eqn:Hn; [| done].
  apply flush_nodes_nodes in Hn as ->. intros [= <- <- <-].
  split; [done |]. by eexists.
Qed.

End Shutdown.


(** ** The CLOCK scenario *)

Section Clock.

Lemma clock_loop_fuel_mono (n k : nat) (m : BufferPoolMetadata) (current : nat)
    (r : BufferPoolMetadata * option nat) :
  clock_loop n m current = Some r -> clock_loop (n + k) m current = Some r.
Proof.
  revert m current. induction n as [| n IH]; intros m current; simpl; [done |].
  destruct (head m !! current) as [f |]; [| done].
  destruct ((pinCount f =? 0) && (accessCount f =? 0)); [done |]. apply IH.
Qed.

Lemma pinPage_fuel_mono (n k : nat) (fs : FileSystem) (bm : BM_BufferPool)
    (page : BM_PageHandle) (p : Z) (r : RC * FileSystem * BM_BufferPool * BM_PageHandle) :
  pinPage n fs bm page p = Some r -> pinPage (n + k) fs bm page p = Some r.
Proof.
  unfold pinPage.
  destruct (mgmtData bm) as [m |]; [| done].
  destruct (findPage m p) as [[i node] |]; [done |].
  destruct (numFramesUsed m <? totalFrames m); [done |].
  destruct (strategy bm); simpl; try done.
  unfold replaceCLOCK.
  destruct (clock_loop n m _) as [r' |] eqn:Hloop; [| done].
  by rewrite (clock_loop_fuel_mono _ k _ _ _ Hloop).
Qed.

(** C3.  In a pool of three frames under CLOCK that holds pages 1, 2, 3,
    each with access count 1 and unpinned, hand at 0: three turns of the
    victim loop clear the three access counts without finding a victim, and
    with a fourth turn (or more) [pinPage] of page 4 answers [RC_OK], the
    frames hold [4; 2; 3] in list order, all access counts are 0, the
    clock hand is 1 and the handle points at the first frame. *)
Theorem clock_second_chance (k : nat) :
  let fs := Examples.fs_of Examples.clock_pool in
  let bm := Examples.pool_of Examples.clock_pool in
  let m := Examples.meta_of Examples.clock_pool in
  (strategy bm, totalFrames m, getFrameContents m, accessCount <$> head m,
   getFixCounts m, clockHand m) = (RS_CLOCK, 3, [1; 2; 3], [1; 1; 1], [0; 0; 0], 0) /\
  pinPage 3 fs bm Examples.no_handle 4 = None /\
  Examples.observe (pinPage (4 + k) fs bm Examples.no_handle 4)
    = Some (RC_OK, [4; 2; 3], [0; 0; 0], [1; 0; 0], 1, {| hPageNum := 4; hData := Some 0%nat |}).
Proof.
  intros fs bm m. split; [vm_compute; reflexivity |].
  split; [vm_compute; reflexivity |].
  pose proof (pinPage_fuel_mono 4 k fs bm Examples.no_handle 4) as Hmono.
  destruct (pinPage 4 fs bm Examples.no_handle 4) as [r |] eqn:H4.
  - rewrite (Hmono r eq_refl), <- H4. vm_compute. reflexivity.
  - vm_compute in H4. discriminate.
Qed.

End Clock.

(** ** Pinning a page beyond the end of the file *)

Section BeyondExtent.

Variables (fs : FileSystem) (name : string) (c : list byte) (k p : Z).
Hypothesis Hfile : files fs !! name = Some c.
Hypothesis Haligned : Z.of_nat (length c) = k * PAGE_SIZE.
Hypothesis Hbeyond : k <= p.
Hypothesis Hmax : p * PAGE_SIZE <= INT_MAX.
Hypothesis Hdev : write_error fs = false.

Lemma openPageFile_aligned :
  openPageFile fs name
  = (RC_OK, Some {| fileName := name; totalNumPages := k; curPagePos := 0;
                    mgmtInfo := Some name |}).
Proof.
  unfold openPageFile, get_file_size. rewrite Hfile.
  destruct (Z.ltb_spec (Z.of_nat (length c)) 0); [lia |].
  do 3 f_equal. rewrite Haligned. unfold PAGE_SIZE.
  symmetry. apply (Z.div_unique _ _ _ 4095); lia.
Qed.

(** The file after [ensureCapacity (p + 1)]. *)
Definition extended : list byte := c ++ zero_bytes (Z.to_nat (p + 1 - k) * PAGE_LEN).

Lemma load_page_beyond_extent :
  load_page fs {| fileName := name; totalNumPages := k; curPagePos := 0; mgmtInfo := Some name |}
            p (zero_bytes PAGE_LEN)
  = (RC_OK, set_file fs name extended, zero_bytes PAGE_LEN).
Proof.
  assert (Hps : PAGE_SIZE = 4096) by reflexivity.
  assert (Hpl : PAGE_LEN = 4096%nat) by reflexivity.
  assert (Hk : 0 <= k) by lia.
  unfold load_page, ensureCapacity. simpl.
  destruct (Z.leb_spec (p + 1) 0); [lia |].
  destruct (Z.geb_spec k (p + 1)); [lia |].
  rewrite Hfile, Hdev.
  assert (Hw : fwrite_at c (Z.of_nat (length c)) (zero_bytes (Z.to_nat (p + 1 - k) * PAGE_LEN))
               = extended).
  { unfold fwrite_at, extended. rewrite Nat2Z.id, Nat.sub_diag, take_ge by lia.
    rewrite drop_ge by lia. simpl. by rewrite app_nil_r. }
  rewrite Hw. simpl.
  destruct (Z.ltb_spec p (p + 1)); [| lia].
  unfold readBlock, validate_read. simpl.
  destruct (Z.ltb_spec p 0); [lia |].
  destruct (Z.geb_spec p (p + 1)); [lia |]. simpl.
  rewrite int_wrap_small by (unfold INT_MAX in *; lia).
  unfold fseek_set_ok. destruct (Z.leb_spec 0 (p * PAGE_SIZE)); [| lia]. simpl.
  rewrite lookup_insert_eq. simpl.
  assert (Hgot : fread_at extended (p * PAGE_SIZE) PAGE_LEN = zero_bytes PAGE_LEN).
  { unfold fread_at, extended, zero_bytes.
    rewrite drop_app_ge by lia.
    rewrite drop_replicate, take_replicate. f_equal. lia. }
  rewrite Hgot, length_zero_bytes.
  rewrite bool_decide_eq_true_2 by done.
  change (negb (is_ok RC_OK)) with false. cbv iota.
  rewrite drop_ge by (rewrite length_zero_bytes; lia). by rewrite app_nil_r.
Qed.

Lemma sprintf_page_not_zero (buf : SM_PageHandle) (n : Z) :
  sprintf_page buf n <> zero_bytes PAGE_LEN.
Proof.
  intros Heq. apply (f_equal (fun l => l !! 0%nat)) in Heq.
  unfold sprintf_page, memcpy_at in Heq.
  rewrite take_0 in Heq. cbn in Heq. discriminate.
Qed.

Variables (bm : BM_BufferPool) (m : BufferPoolMetadata) (page : BM_PageHandle).
Hypothesis Hname : pageFile bm = name.
Hypothesis Hlive : mgmtData bm = Some m.
Hypothesis Habsent : findPage m p = None.
Hypothesis Hroom : numFramesUsed m < totalFrames m.

(** C7 on the code.  A pin of a page beyond the end of a page-aligned file,
    in a pool that has room, extends the file to [p + 1] pages and answers
    [RC_OK]; the new frame's buffer is the zero page that was just
    appended to the file, and not the text ["Page-<p>"]: after
    [ensureCapacity] the page always exists, so the branch that writes the
    text is not taken. *)
Theorem pinPage_beyond_extent_zero_page (fuel : nat) :
  exists m',
    pinPage fuel fs bm page p
      = Some (RC_OK, set_file fs name extended, set_mgmtData bm (Some m'),
              {| hPageNum := p; hData := Some (length (head m)) |}) /\
    head m' = head m ++ [mkNode (zero_bytes PAGE_LEN) p false 1 1 (globalTimer m + 1)] /\
    zero_bytes PAGE_LEN <> sprintf_page (zero_bytes PAGE_LEN) p.
Proof.
  unfold pinPage. rewrite Hlive, Habsent.
  destruct (Z.ltb_spec (numFramesUsed m) (totalFrames m)); [| lia].
  unfold pin_new_frame. rewrite Hname, openPageFile_aligned, load_page_beyond_extent.
  simpl. eexists. split; [reflexivity |]. split; [reflexivity |].
  intros Heq. by apply (sprintf_page_not_zero (zero_bytes PAGE_LEN) p).
Qed.

End BeyondExtent.

(** The theorem above on the one-page file and an empty pool of three
    frames, when page 2 is asked for. *)
Lemma pinPage_beyond_extent_zero_page_witness :
  let fs := Examples.fs1 in
  let bm := (initBufferPool "t.bin" 3 RS_FIFO).2 in
  let m := Examples.meta_of (Some (fs, bm)) in
  (files fs !! "t.bin"%string = Some (zero_bytes PAGE_LEN) /\
   Z.of_nat (length (zero_bytes PAGE_LEN)) = 1 * PAGE_SIZE /\
   1 <= 2 /\ 2 * PAGE_SIZE <= INT_MAX /\ write_error fs = false /\
   pageFile bm = "t.bin"%string /\ mgmtData bm = Some m /\ findPage m 2 = None /\
   numFramesUsed m < totalFrames m) /\
  exists m',
    pinPage 0 fs bm Examples.no_handle 2
      = Some (RC_OK, set_file fs "t.bin" (extended (zero_bytes PAGE_LEN) 1 2),
              set_mgmtData bm (Some m'),
              {| hPageNum := 2; hData := Some (length (head m)) |}) /\
    head m' = head m ++ [mkNode (zero_bytes PAGE_LEN) 2 false 1 1 (globalTimer m + 1)] /\
    zero_bytes PAGE_LEN <> sprintf_page (zero_bytes PAGE_LEN) 2.
Proof.
  intros fs bm m.
  assert (H1 : files fs !! "t.bin"%string = Some (zero_bytes PAGE_LEN))
    by (vm_compute; reflexivity).
  assert (H2 : Z.of_nat (length (zero_bytes PAGE_LEN)) = 1 * PAGE_SIZE)
    by (vm_compute; reflexivity).
  assert (H3 : 1 <= 2) by lia.
  assert (H4 : 2 * PAGE_SIZE <= INT_MAX) by (vm_compute; discriminate).
  assert (H5 : write_error fs = false) by reflexivity.
  assert (H6 : pageFile bm = "t.bin"%string) by reflexivity.
  assert (H7 : mgmtData bm = Some m) by reflexivity.
  assert (H8 : findPage m 2 = None) by reflexivity.
  assert (H9 : numFramesUsed m < totalFrames m) by reflexivity.
  split; [repeat split; assumption |].
  exact (pinPage_beyond_extent_zero_page fs "t.bin" (zero_bytes PAGE_LEN) 1 2
           H1 H2 H3 H4 H5 bm m Examples.no_handle H6 H7 H8 H9 0%nat).
Defined.

(** ** Reasoning about function bodies *)

Section Bodies.

Context {S : Type}.

(** [m] relates every state it starts in to the state it leaves, whatever
    it returns. *)
Definition preserves {A : Type} (R : S -> S -> Prop) (m : M S A) : Prop :=
  forall s s' r, m s = Some (s', r) -> R s s'.

Variable R : S -> S -> Prop.
Hypothesis R_refl : forall s, R s s.
Hypothesis R_trans : forall s1 s2 s3, R s1 s2 -> R s2 s3 -> R s1 s3.

Lemma preserves_ret {A : Type} (a : A) : preserves R (ret a).
Proof. intros s s' r [= <- <-]. apply R_refl. Qed.

Lemma preserves_raise {A : Type} (rc : RC) : preserves R (@raise S A rc).
Proof. intros s s' r [= <- <-]. apply R_refl. Qed.

Lemma preserves_gets {A : Type} (f : S -> A) : preserves R (gets f).
Proof. intros s s' r [= <- <-]. apply R_refl. Qed.

Lemma preserves_defined {A : Type} (o : S -> option A) : preserves R (defined o).
Proof.
  intros s s' r. unfold defined. destruct (o s); [| done]. intros [= <- <-]. apply R_refl.
Qed.

Lemma preserves_modify (f : S -> S) : (forall s, R s (f s)) -> preserves R (modify f).
Proof. intros Hf s s' r [= <- <-]. apply Hf. Qed.

Lemma preserves_update (f : S -> option S) :
  (forall s s', f s = Some s' -> R s s') -> preserves R (update f).
Proof.
  intros Hf s s' r. unfold update. destruct (f s) as [s1 |] eqn:Hs; [| done].
  intros [= <- <-]. by apply Hf.
Qed.

Lemma preserves_check (call : S -> option (RC * S)) :
  (forall s rc s', call s = Some (rc, s') -> R s s') -> preserves R (check call).
Proof.
  intros Hc s s' r. unfold check. destruct (call s) as [[rc s1] |] eqn:Hs; [| done].
  intros [= <- <-]. by eapply Hc.
Qed.

Lemma preserves_ignore (call : S -> option (RC * S)) :
  (forall s rc s', call s = Some (rc, s') -> R s s') -> preserves R (ignore call).
Proof.
  intros Hc s s' r. unfold ignore. destruct (call s) as [[rc s1] |] eqn:Hs; [| done].
  intros [= <- <-]. by eapply Hc.
Qed.

Lemma preserves_bind {A B : Type} (m : M S A) (k : A -> M S B) :
  preserves R m -> (forall a, preserves R (k a)) -> preserves R (bind m k).
Proof.
  intros Hm Hk s s' r. unfold bind.
  destruct (m s) as [[s1 [rc | a]] |] eqn:Hs; [| | done].
  - intros [= <- <-]. by eapply Hm.
  - intros Hka. eapply R_trans; [by eapply Hm | by eapply Hk].
Qed.

Lemma preserves_check_or (call : S -> option (RC * S)) (cleanup : M S unit) :
  (forall s rc s', call s = Some (rc, s') -> R s s') ->
  preserves R cleanup ->
  preserves R (check_or call cleanup).
Proof.
  intros Hc Hcl s s' r. unfold check_or.
  destruct (call s) as [[rc s1] |] eqn:Hs; [| done].
  destruct (is_ok rc).
  - intros [= <- <-]. by eapply Hc.
  - destruct (cleanup s1) as [[s2 r2] |] eqn:Hs2; [| done].
    intros [= <- <-]. eapply R_trans; [by eapply Hc | by eapply Hcl].
Qed.

Lemma preserves_run (m : M S unit) (s s' : S) (rc : RC) :
  preserves R m -> run m s = Some (rc, s') -> R s s'.
Proof.
  intros Hm. unfold run. destruct (m s) as [[s1 [rc1 | []]] |] eqn:Hs; [| | done].
  - intros [= <- <-]. by eapply Hm.
  - intros [= <- <-]. by eapply Hm.
Qed.

End Bodies.

(** [m] never executes [return RC_OK] early: its [inl] results carry a
    failure code. *)
Definition fails_only {S A : Type} (m : M S A) : Prop :=
  forall s s' rc, m s = Some (s', inl rc) -> rc <> RC_OK.

Section FailsOnly.

Context {S : Type}.

Lemma fails_only_ret {A : Type} (a : A) : fails_only (@ret S A a).
Proof. intros s s' rc. discriminate. Qed.

Lemma fails_only_raise {A : Type} (rc : RC) : rc <> RC_OK -> fails_only (@raise S A rc).
Proof. intros Hrc s s' rc' [= <- <-]. done. Qed.

Lemma fails_only_gets {A : Type} (f : S -> A) : fails_only (gets f).
Proof. intros s s' rc. discriminate. Qed.

Lemma fails_only_modify (f : S -> S) : fails_only (modify f).
Proof. intros s s' rc. discriminate. Qed.

Lemma fails_only_defined {A : Type} (o : S -> option A) : fails_only (defined o).
Proof. intros s s' rc. unfold defined. by destruct (o s). Qed.

Lemma fails_only_update (f : S -> option S) : fails_only (update f).
Proof. intros s s' rc. unfold update. by destruct (f s). Qed.

Lemma fails_only_ignore (call : S -> option (RC * S)) : fails_only (ignore call).
Proof. intros s s' rc. unfold ignore. by destruct (call s) as [[? ?] |]. Qed.

Lemma fails_only_check (call : S -> option (RC * S)) : fails_only (check call).
Proof.
  intros s s' rc. unfold check. destruct (call s) as [[rc1 s1] |]; [| done].
  unfold is_ok. case_bool_decide; [done |]. by intros [= <- <-].
Qed.

Lemma fails_only_check_or (call : S -> option (RC * S)) (cleanup : M S unit) :
  fails_only (check_or call cleanup).
Proof.
  intros s s' rc. unfold check_or. destruct (call s) as [[rc1 s1] |]; [| done].
  unfold is_ok. case_bool_decide; [done |].
  destruct (cleanup s1) as [[s2 r2] |]; [| done]. by intros [= <- <-].
Qed.

Lemma fails_only_bind {A B : Type} (m : M S A) (k : A -> M S B) :
  fails_only m -> (forall a, fails_only (k a)) -> fails_only (bind m k).
Proof.
  intros Hm Hk s s' rc. unfold bind.
  destruct (m s) as [[s1 [rc1 | a]] |] eqn:Hs; [| | done].
  - intros [= <- <-]. by eapply Hm.
  - by apply Hk.
Qed.

(** When the code is [RC_OK], the body ran to its end. *)
Lemma run_ok_inv (m : M S unit) (s s' : S) :
  fails_only m -> run m s = Some (RC_OK, s') -> m s = Some (s', inr tt).
Proof.
  intros Hm. unfold run. destruct (m s) as [[s1 [rc1 | []]] |] eqn:Hs; [| | done].
  - intros [= -> <-]. by destruct (Hm _ _ _ Hs).
  - by intros [= <-].
Qed.

Lemma bind_inr_inv {A B : Type} (m : M S A) (k : A -> M S B) (s s' : S) (b : B) :
  bind m k s = Some (s', inr b) ->
  exists s1 a, m s = Some (s1, inr a) /\ k a s1 = Some (s', inr b).
Proof.
  unfold bind. destruct (m s) as [[s1 [rc1 | a]] |]; [done | | done]. eauto.
Qed.

Lemma check_inr_inv (call : S -> option (RC * S)) (s s' : S) (u : unit) :
  check call s = Some (s', inr u) -> call s = Some (RC_OK, s').
Proof.
  unfold check. destruct (call s) as [[rc s1] |]; [| done].
  unfold is_ok. case_bool_decide as Hrc; [| done]. by intros [= <-]; subst.
Qed.

Lemma check_or_inr_inv (call : S -> option (RC * S)) (cleanup : M S unit) (s s' : S) (u : unit) :
  check_or call cleanup s = Some (s', inr u) -> call s = Some (RC_OK, s').
Proof.
  unfold check_or. destruct (call s) as [[rc s1] |]; [| done].
  unfold is_ok. case_bool_decide as Hrc.
  - by intros [= <-]; subst.
  - by destruct (cleanup s1) as [[? ?] |].
Qed.

Lemma gets_inr_inv {A : Type} (f : S -> A) (s s' : S) (a : A) :
  gets f s = Some (s', inr a) -> s' = s /\ a = f s.
Proof. by intros [= <- <-]. Qed.

Lemma modify_inr_inv (f : S -> S) (s s' : S) (u : unit) :
  modify f s = Some (s', inr u) -> s' = f s.
Proof. by intros [= <-]. Qed.

Lemma defined_inr_inv {A : Type} (o : S -> option A) (s s' : S) (a : A) :
  defined o s = Some (s', inr a) -> s' = s /\ o s = Some a.
Proof. unfold defined. destruct (o s); [| done]. by intros [= <- <-]. Qed.

Lemma update_inr_inv (f : S -> option S) (s s' : S) (u : unit) :
  update f s = Some (s', inr u) -> f s = Some s'.
Proof. unfold update. destruct (f s); [| done]. by intros [= <-]. Qed.

End FailsOnly.

(** Decompose a hypothesis [H : body s = Some (s', inr _)] along the binds
    of the body. *)
Ltac invert_step H1 :=
  first
    [ apply check_inr_inv in H1
    | apply check_or_inr_inv in H1
    | apply gets_inr_inv in H1 as [-> ->]
    | apply modify_inr_inv in H1 as ->
    | apply defined_inr_inv in H1 as [-> H1]
    | apply update_inr_inv in H1
    | idtac ].

Tactic Notation "step_body" hyp(H) "as" ident(H1) :=
  let s1 := fresh "s" in
  let a := fresh "a" in
  apply bind_inr_inv in H as (s1 & a & H1 & H);
  invert_step H1.

Tactic Notation "step_body" hyp(H) :=
  let H1 := fresh "Hstep" in
  step_body H as H1.

(** ** The record manager *)

Section TupleCount.

Definition same_count (w w' : World) : Prop :=
  tupleCount (tableInfo w') = tupleCount (tableInfo w).

Lemma pin_same_count (fuel : nat) (p : Z) (w : World) (rc : RC) (w' : World) :
  pin fuel p w = Some (rc, w') -> same_count w w'.
Proof.
  unfold pin. destruct (pinPage _ _ _ _ _) as [[[[rc1 fs1] bm1] h1] |]; [| done].
  by intros [= _ <-].
Qed.

Lemma unpin_same_count (w : World) (rc : RC) (w' : World) :
  unpin w = Some (rc, w') -> same_count w w'.
Proof.
  unfold unpin. destruct (unpinPage _ _) as [[rc1 bm1] |]; [| done]. by intros [= _ <-].
Qed.

Lemma mark_dirty_same_count (w : World) (rc : RC) (w' : World) :
  mark_dirty w = Some (rc, w') -> same_count w w'.
Proof.
  unfold mark_dirty. destruct (markDirty _ _) as [[rc1 bm1] |]; [| done]. by intros [= _ <-].
Qed.

Lemma store_page_same_count (buf : list byte) (w w' : World) :
  store_page buf w = Some w' -> same_count w w'.
Proof.
  unfold store_page. destruct (store_buffer _ _ _) as [bm1 |]; [| done]. by intros [= <-].
Qed.

Lemma deleteRecord_body_same_count (fuel : nat) (rel : RM_TableData) (rid : RID) :
  preserves same_count (deleteRecord_body fuel rel rid).
Proof.
  assert (Hrefl : forall w, same_count w w) by done.
  assert (Htrans : forall w1 w2 w3, same_count w1 w2 -> same_count w2 w3 -> same_count w1 w3)
    by (unfold same_count; congruence).
  unfold deleteRecord_body.
  apply preserves_bind; [done | apply preserves_check, pin_same_count |]. intros _.
  apply preserves_bind; [done | by apply preserves_modify |]. intros _.
  destruct (getRecordSize (schema rel) <=? 0).
  - apply preserves_bind; [done | apply preserves_ignore, unpin_same_count |]. intros _.
    by apply preserves_raise.
  - apply preserves_bind; [done | by apply preserves_defined |]. intros pageContent.
    apply preserves_bind; [done | by apply preserves_defined |]. intros off.
    apply preserves_bind; [done | apply preserves_update, store_page_same_count |]. intros _.
    apply preserves_bind; [done | |].
    + apply preserves_check_or; [done | apply mark_dirty_same_count |].
      apply preserves_ignore, unpin_same_count.
    + intros _. apply preserves_check, unpin_same_count.
Qed.

(** C10.  Whatever [deleteRecord] returns, the tuple count that
    [getNumTuples] reports is the one from before the call. *)
Theorem deleteRecord_keeps_tupleCount (fuel : nat) (w : World) (rel : RM_TableData) (rid : RID)
    (rc : RC) (w' : World) :
  deleteRecord fuel w rel rid = Some (rc, w') ->
  getNumTuples w' = getNumTuples w.
Proof.
  intros Hdel. unfold deleteRecord in Hdel.
  eapply (preserves_run same_count); [| exact Hdel].
  apply deleteRecord_body_same_count.
Qed.

End TupleCount.

(** The theorem above on the table with rows 1, 2, 3: deleting the row in
    slot 1 of page 1 returns [RC_OK] and the count stays 3. *)
Lemma deleteRecord_keeps_tupleCount_witness :
  let w := Examples.world_of Examples.table123 in
  let rel := Examples.rel_of Examples.table123 in
  exists w',
    deleteRecord 0 w rel (mkRID 1 1) = Some (RC_OK, w') /\
    getNumTuples w = 3 /\ getNumTuples w' = getNumTuples w.
Proof.
  intros w rel.
  destruct (deleteRecord 0 w rel (mkRID 1 1)) as [[rc w'] |] eqn:Hdel.
  - exists w'.
    assert (Hrc : rc = RC_OK).
    { assert (H : fst <$> deleteRecord 0 w rel (mkRID 1 1) = Some RC_OK)
        by (vm_compute; reflexivity).
      rewrite Hdel in H. by injection H. }
    subst rc. split; [reflexivity |]. split; [vm_compute; reflexivity |].
    exact (deleteRecord_keeps_tupleCount 0 w rel (mkRID 1 1) RC_OK w' Hdel).
  - exfalso. vm_compute in Hdel. discriminate.
Defined.

(** The scan on the table as three inserts leave it.  The table holds the
    rows id = 1, 2, 3 in slots 0, 1, 2 of page 1 (slot 3 was never used)
    and its tuple count is 3.  A scan started with the condition [id == 2]
    answers [RC_OK] to the first [next] with the record of slot 1, whose
    attribute 0 is 2, and [RC_RM_NO_MORE_TUPLES] to the second [next]. *)
Lemma scan_for_id_2 :
  let w := Examples.world_of Examples.table123 in
  let rel := Examples.rel_of Examples.table123 in
  getNumTuples w = 3 /\
  (fun rid =>
     match getRecord 1 w rel rid Examples.blank_row with
     | Some (RC_OK, (_, r)) => (getAttr r (schema rel) 0).2
     | _ => None
     end) <$> [mkRID 1 0; mkRID 1 1; mkRID 1 2; mkRID 1 3]
  = [Some (IntV 1); Some (IntV 2); Some (IntV 3); None] /\
  match startScan 1 w rel (Some Examples.id_is_2) with
  | Some (RC_OK, (w1, rel1), Some scan) =>
      match next 1 w1 rel1 scan Examples.blank_row with
      | Some (RC_OK, (w2, scan2, r2)) =>
          id r2 = mkRID 1 1 /\
          (getAttr r2 (schema rel1) 0).2 = Some (IntV 2) /\
          match next 1 w2 rel1 scan2 r2 with
          | Some (rc, _) => rc = RC_RM_NO_MORE_TUPLES
          | None => False
          end
      | _ => False
      end
  | _ => False
  end.
Proof.
  intros w rel.
  split; [vm_compute; reflexivity |].
  split; [vm_compute; reflexivity |].
  vm_compute. repeat split; reflexivity.
Qed.

(** What [getRecord] answers for each of [rids], with attribute 0 of the
    record when it answers [RC_OK]. *)
Definition stored_ids (w : World) (rel : RM_TableData) (rids : list RID)
  : list (option RC * option Value) :=
  (fun rid =>
     match getRecord 1 w rel rid Examples.blank_row with
     | Some (rc, (_, r)) => (Some rc, if is_ok rc then (getAttr r (schema rel) 0).2 else None)
     | None => (None, None)
     end) <$> rids.

(** C5 on the code.  [next] copies the slot it has reached without looking
    at its mark byte, so it also returns records that were deleted.  The
    table here contains exactly the rows id = 1, 2, 3: [getRecord] finds
    them in slots 0, 1, 2 of page 1 and answers
    [RC_RM_NO_TUPLE_WITH_GIVEN_RID] for slot 3, which held a row with
    id = 2 that was deleted, and for slot 4.  A scan started with the
    condition [id == 2] answers [RC_OK] to the first [next] with the record
    of slot 1; the second [next] does not answer [RC_RM_NO_MORE_TUPLES]: it
    answers [RC_OK] with the deleted record of slot 3, which [getRecord]
    still does not find afterwards. *)
Theorem scan_returns_deleted_row :
  let w := Examples.world_of Examples.table123_deleted in
  let rel := Examples.rel_of Examples.table123_deleted in
  stored_ids w rel [mkRID 1 0; mkRID 1 1; mkRID 1 2; mkRID 1 3; mkRID 1 4]
  = [(Some RC_OK, Some (IntV 1)); (Some RC_OK, Some (IntV 2)); (Some RC_OK, Some (IntV 3));
     (Some RC_RM_NO_TUPLE_WITH_GIVEN_RID, None); (Some RC_RM_NO_TUPLE_WITH_GIVEN_RID, None)] /\
  match startScan 1 w rel (Some Examples.id_is_2) with
  | Some (RC_OK, (w1, rel1), Some scan) =>
      match next 1 w1 rel1 scan Examples.blank_row with
      | Some (RC_OK, (w2, scan2, r2)) =>
          id r2 = mkRID 1 1 /\
          (getAttr r2 (schema rel1) 0).2 = Some (IntV 2) /\
          match next 1 w2 rel1 scan2 r2 with
          | Some (rc, (w3, _, r3)) =>
              rc = RC_OK /\ rc <> RC_RM_NO_MORE_TUPLES /\
              id r3 = mkRID 1 3 /\
              (getAttr r3 (schema rel1) 0).2 = Some (IntV 2) /\
              fst <$> getRecord 1 w3 rel1 (id r3) Examples.blank_row
              = Some RC_RM_NO_TUPLE_WITH_GIVEN_RID
          | None => False
          end
      | _ => False
      end
  | _ => False
  end.
Proof.
  intros w rel.
  split; [vm_compute; reflexivity |].
  vm_compute. repeat split; try reflexivity. discriminate.
Qed.

(** ** Copies between a slot and a record *)

Section SlotCopies.

Lemma slot_fits_spec (pc : list byte) (off : nat) (r : RecordT) (recordSize : Z) :
  slot_fits pc off r recordSize = true <->
  (Datatypes.S off + Z.to_nat (recordSize - 1) <= length pc)%nat /\
  (Datatypes.S (Z.to_nat (recordSize - 1)) <= length (rdata r))%nat.
Proof.
  unfold slot_fits. rewrite andb_true_iff, !bool_decide_eq_true. done.
Qed.

Lemma write_slot_inv (pc : list byte) (off : nat) (r : RecordT) (recordSize : Z)
    (buf : list byte) :
  write_slot pc off r recordSize = Some buf ->
  (Datatypes.S off + Z.to_nat (recordSize - 1) <= length pc)%nat /\
  (Datatypes.S (Z.to_nat (recordSize - 1)) <= length (rdata r))%nat /\
  buf = memcpy_at (<[off := PLUS]> pc) (Datatypes.S off) (drop 1 (rdata r))
                  (Z.to_nat (recordSize - 1)).
Proof.
  unfold write_slot. destruct (slot_fits pc off r recordSize) eqn:Hfits; [| done].
  apply slot_fits_spec in Hfits as [Hpc Hr]. by intros [= <-].
Qed.

Lemma read_slot_inv (pc : list byte) (off : nat) (r : RecordT) (recordSize : Z)
    (buf : list byte) :
  read_slot pc off r recordSize = Some buf ->
  (Datatypes.S off + Z.to_nat (recordSize - 1) <= length pc)%nat /\
  (Datatypes.S (Z.to_nat (recordSize - 1)) <= length (rdata r))%nat /\
  buf = memcpy_at (rdata r) 1 (drop (Datatypes.S off) pc) (Z.to_nat (recordSize - 1)).
Proof.
  unfold read_slot. destruct (slot_fits pc off r recordSize) eqn:Hfits; [| done].
  apply slot_fits_spec in Hfits as [Hpc Hr]. by intros [= <-].
Qed.

(** A slot copy never changes the size of the page. *)
Lemma write_slot_length (pc : list byte) (off : nat) (r : RecordT) (recordSize : Z)
    (buf : list byte) :
  write_slot pc off r recordSize = Some buf -> length buf = length pc.
Proof.
  intros H. apply write_slot_inv in H as (Hpc & Hr & ->). unfold memcpy_at.
  rewrite !length_app, !length_take, !length_drop, length_insert. lia.
Qed.

(** Nor does reading a slot change the size of the record. *)
Lemma read_slot_length (pc : list byte) (off : nat) (r : RecordT) (recordSize : Z)
    (buf : list byte) :
  read_slot pc off r recordSize = Some buf -> length buf = length (rdata r).
Proof.
  intros H. apply read_slot_inv in H as (Hpc & Hr & ->). unfold memcpy_at.
  rewrite !length_app, !length_take, !length_drop. lia.
Qed.

(** The slot that was written holds the occupied mark. *)
Lemma write_slot_tombstone (pc : list byte) (off : nat) (r : RecordT) (recordSize : Z)
    (buf : list byte) :
  write_slot pc off r recordSize = Some buf -> buf !! off = Some PLUS.
Proof.
  intros H. apply write_slot_inv in H as (Hpc & Hr & ->). unfold memcpy_at.
  rewrite lookup_app_l by (rewrite length_take, length_insert; lia).
  rewrite lookup_take_lt by lia. apply list_lookup_insert_eq. lia.
Qed.

(** Reading the slot that was written gives back the [recordSize - 1]
    bytes behind byte 0 of the record, and nothing else of it. *)
Lemma read_write_slot (pc : list byte) (off : nat) (r r0 : RecordT) (recordSize : Z)
    (buf : list byte) :
  write_slot pc off r recordSize = Some buf ->
  (Datatypes.S (Z.to_nat (recordSize - 1)) <= length (rdata r0))%nat ->
  read_slot buf off r0 recordSize
  = Some (take 1 (rdata r0) ++ take (Z.to_nat (recordSize - 1)) (drop 1 (rdata r))
          ++ drop (Datatypes.S (Z.to_nat (recordSize - 1))) (rdata r0)).
Proof.
  intros Hw Hr0. pose proof (write_slot_length _ _ _ _ _ Hw) as Hlen.
  apply write_slot_inv in Hw as (Hpc & Hr & ->).
  unfold read_slot.
  assert (Hfits : slot_fits (memcpy_at (<[off := PLUS]> pc) (Datatypes.S off) (drop 1 (rdata r))
                               (Z.to_nat (recordSize - 1))) off r0 recordSize = true)
    by (apply slot_fits_spec; split; [rewrite Hlen |]; done).
  rewrite Hfits. f_equal. unfold memcpy_at.
  set (n := Z.to_nat (recordSize - 1)) in *.
  assert (Hpre : length (take (Datatypes.S off) (<[off := PLUS]> pc)) = Datatypes.S off)
    by (rewrite length_take, length_insert; lia).
  rewrite drop_app_length' by done.
  rewrite take_app_length' by (rewrite length_take, length_drop; lia).
  done.
Qed.

End SlotCopies.

(** ** Pin counts across pool operations *)

Section PinCounts.

(** Sum of [g] over the frames. *)
Definition sumZ (g : DLNode -> Z) (l : list DLNode) : Z := foldr (fun f acc => g f + acc) 0 l.

Lemma sumZ_app (g : DLNode -> Z) (l1 l2 : list DLNode) :
  sumZ g (l1 ++ l2) = sumZ g l1 + sumZ g l2.
Proof. induction l1 as [| f l1 IH]; simpl; [done |]. rewrite IH. lia. Qed.

Lemma sumZ_insert (g : DLNode -> Z) (l : list DLNode) (i : nat) (x y : DLNode) :
  l !! i = Some x -> sumZ g (<[i := y]> l) = sumZ g l - g x + g y.
Proof.
  revert i. induction l as [| f l IH]; intros [| i] Hi; simpl in *; try done.
  - injection Hi as ->. lia.
  - rewrite (IH i Hi). lia.
Qed.

Lemma sumZ_ext (g : DLNode -> Z) (l1 l2 : list DLNode) :
  g <$> l1 = g <$> l2 -> sumZ g l1 = sumZ g l2.
Proof.
  revert l2. induction l1 as [| f l1 IH]; intros [| f2 l2] Heq; simpl in *; try done.
  injection Heq as Hf Hl. rewrite Hf. f_equal. by apply IH.
Qed.

(** *** The victim is unpinned *)

Lemma fifo_search_unpinned (l : list DLNode) (start current steps v : nat) :
  fifo_search l start current steps = Some v ->
  exists f, l !! v = Some f /\ pinCount f = 0.
Proof.
  revert current. induction steps as [| k IH]; intros current; simpl; [done |].
  destruct (l !! current) as [f |] eqn:Hf; [| done].
  destruct (Z.eqb_spec (pinCount f) 0) as [Hp | Hp].
  - intros [= <-]. eauto.
  - case_bool_decide; [done | apply IH].
Qed.

Lemma lru_scan_unpinned (l pre : list DLNode) (vic : option nat) (t : Z) (v : nat) :
  (forall v0, vic = Some v0 -> exists f, (pre ++ l) !! v0 = Some f /\ pinCount f = 0) ->
  lru_scan l (length pre) vic t = Some v ->
  exists f, (pre ++ l) !! v = Some f /\ pinCount f = 0.
Proof.
  revert pre vic t. induction l as [| f l IH]; intros pre vic t Hvic; simpl.
  - intros ->. by apply Hvic.
  - replace (pre ++ f :: l) with ((pre ++ [f]) ++ l) in * by (by rewrite <- app_assoc).
    replace (Datatypes.S (length pre)) with (length (pre ++ [f]))
      by (rewrite length_app; simpl; lia).
    destruct (Z.eqb_spec (pinCount f) 0) as [Hp | Hp]; simpl.
    + destruct (lastAccessed f <? t).
      * apply IH. intros v0 [= <-]. exists f. split; [| done].
        rewrite lookup_app_l by (rewrite length_app; simpl; lia).
        by rewrite lookup_app_r, Nat.sub_diag.
      * by apply IH.
    + by apply IH.
Qed.

Lemma lfu_scan_unpinned (l pre : list DLNode) (vic : option nat) (c t : Z) (v : nat) :
  (forall v0, vic = Some v0 -> exists f, (pre ++ l) !! v0 = Some f /\ pinCount f = 0) ->
  lfu_scan l (length pre) vic c t = Some v ->
  exists f, (pre ++ l) !! v = Some f /\ pinCount f = 0.
Proof.
  revert pre vic c t. induction l as [| f l IH]; intros pre vic c t Hvic; simpl.
  - intros ->. by apply Hvic.
  - replace (pre ++ f :: l) with ((pre ++ [f]) ++ l) in * by (by rewrite <- app_assoc).
    replace (Datatypes.S (length pre)) with (length (pre ++ [f]))
      by (rewrite length_app; simpl; lia).
    assert (Hnew : forall v0, Some (length pre) = Some v0 -> pinCount f = 0 ->
              exists f0, ((pre ++ [f]) ++ l) !! v0 = Some f0 /\ pinCount f0 = 0).
    { intros v0 [= <-] Hp. exists f. split; [| done].
      rewrite lookup_app_l by (rewrite length_app; simpl; lia).
      by rewrite lookup_app_r, Nat.sub_diag. }
    destruct (Z.eqb_spec (pinCount f) 0) as [Hp | Hp]; [| by apply IH].
    destruct vic as [v1 |].
    + destruct (accessCount f <? c); [apply IH; intros; by apply Hnew |].
      destruct ((accessCount f =? c) && (lastAccessed f <? t));
        [apply IH; intros; by apply Hnew | by apply IH].
    + apply IH. intros. by apply Hnew.
Qed.

(** Two frames that differ at most in their access count. *)
Definition same_frame (f g : DLNode) : Prop :=
  data g = data f /\ pageNum g = pageNum f /\ isDirty g = isDirty f /\
  pinCount g = pinCount f /\ lastAccessed g = lastAccessed f.

Lemma same_frame_refl (l : list DLNode) : Forall2 same_frame l l.
Proof. induction l; constructor; [by repeat split | done]. Qed.

Lemma same_frame_trans (l1 l2 l3 : list DLNode) :
  Forall2 same_frame l1 l2 -> Forall2 same_frame l2 l3 -> Forall2 same_frame l1 l3.
Proof.
  apply Forall2_trans.
  intros x y z (? & ? & ? & ? & ?) (? & ? & ? & ? & ?). repeat split; congruence.
Qed.

Lemma same_frame_clear (l : list DLNode) (i : nat) (f : DLNode) :
  l !! i = Some f -> Forall2 same_frame l (<[i := set_accessCount f 0]> l).
Proof.
  intros Hf. apply Forall2_same_length_lookup_2; [by rewrite length_insert |].
  intros j x y Hx Hy. destruct (decide (j = i)) as [-> | Hne].
  - rewrite list_lookup_insert_eq in Hy by (by eapply lookup_lt_Some).
    injection Hy as <-. rewrite Hf in Hx. injection Hx as <-. by repeat split.
  - rewrite list_lookup_insert_ne in Hy by done.
    rewrite Hx in Hy. injection Hy as <-. by repeat split.
Qed.

Lemma clock_loop_spec (fuel : nat) (m m1 : BufferPoolMetadata) (current v : nat) :
  clock_loop fuel m current = Some (m1, Some v) ->
  (exists f, head m1 !! v = Some f /\ pinCount f = 0) /\
  Forall2 same_frame (head m) (head m1) /\
  totalFrames m1 = totalFrames m /\ numFramesUsed m1 = numFramesUsed m /\
  globalTimer m1 = globalTimer m /\ readCount m1 = readCount m /\
  writeCount m1 = writeCount m /\ fifoHead m1 = fifoHead m /\ freed m1 = freed m.
Proof.
  revert m current. induction fuel as [| k IH]; intros m current; simpl; [done |].
  destruct (head m !! current) as [f |] eqn:Hf; [| done].
  destruct ((pinCount f =? 0) && (accessCount f =? 0)) eqn:Htest.
  - intros [= <- <-]. simpl. split; [| by split; [apply same_frame_refl |]].
    exists f. split; [done |]. apply andb_prop in Htest as [Hp _]. by apply Z.eqb_eq.
  - intros Hloop. apply IH in Hloop as (Hv & Hsame & Ht & Hn & Hg & Hr & Hw & Hfh & Hfr).
    simpl in *. split; [done |]. split; [| done].
    destruct (accessCount f >? 0); [| done].
    eapply same_frame_trans; [by apply same_frame_clear | exact Hsame].
Qed.

Lemma same_frame_pinCounts (l1 l2 : list DLNode) :
  Forall2 same_frame l1 l2 -> pinCount <$> l2 = pinCount <$> l1.
Proof.
  induction 1 as [| f g l1 l2 (? & ? & ? & Hp & ?) _ IH]; [done |].
  rewrite !fmap_cons. by f_equal.
Qed.

(** What every policy guarantees about the frame it selects. *)
Lemma select_victim_spec (fuel : nat) (s : ReplacementStrategy) (m m1 : BufferPoolMetadata)
    (v : nat) :
  select_victim fuel s m = Some (m1, Some v) ->
  (exists f, head m1 !! v = Some f /\ pinCount f = 0) /\
  Forall2 same_frame (head m) (head m1) /\
  (s <> RS_CLOCK -> head m1 = head m) /\
  totalFrames m1 = totalFrames m /\ numFramesUsed m1 = numFramesUsed m /\
  globalTimer m1 = globalTimer m.
Proof.
  destruct s; simpl.
  - unfold replaceFIFO.
    set (m0 := match fifoHead m with
               | None => set_fifoHead m (if head m is [] then None else Some 0%nat)
               | Some _ => m
               end).
    assert (Hm0 : head m0 = head m /\ totalFrames m0 = totalFrames m /\
                  numFramesUsed m0 = numFramesUsed m /\ globalTimer m0 = globalTimer m)
      by (subst m0; by destruct (fifoHead m)).
    destruct Hm0 as (Hh & Ht & Hn & Hg). clearbody m0.
    destruct (fifoHead m0) as [start |]; [| done].
    destruct (fifo_search (head m0) start start (length (head m0))) as [v0 |] eqn:Hs; [| done].
    intros [= <- <-]. cbn [head set_fifoHead totalFrames numFramesUsed globalTimer].
    apply fifo_search_unpinned in Hs. rewrite Hh in *.
    split; [done |]. split; [apply same_frame_refl | done].
  - intros [= <- Hv]. unfold replaceLRU in Hv.
    apply (lru_scan_unpinned (head m) [] None) in Hv; [| done].
    split; [done |]. split; [apply same_frame_refl | done].
  - intros Hc. unfold replaceCLOCK in Hc.
    apply clock_loop_spec in Hc as (Hv & Hsame & Ht & Hn & Hg & _).
    by repeat split.
  - intros [= <- Hv]. unfold replaceLFU in Hv.
    apply (lfu_scan_unpinned (head m) [] None) in Hv; [| done].
    split; [done |]. split; [apply same_frame_refl | done].
  - done.
Qed.

End PinCounts.

(** ** Page buffers keep their size *)

Section BufferSize.

Lemma length_digits (count : nat) (n : Z) (acc : list byte) :
  (length (digits count n acc) <= count + length acc)%nat.
Proof.
  revert n acc. induction count as [| k IH]; intros n acc; simpl; [lia |].
  destruct (n / 10 =? 0); simpl; [lia |].
  etransitivity; [apply IH |]. simpl. lia.
Qed.

Lemma length_decimal (n : Z) : (length (decimal n) <= 11)%nat.
Proof.
  unfold decimal. destruct (int_wrap n <? 0); simpl.
  - pose proof (length_digits 10 (- int_wrap n) []). simpl in *. lia.
  - pose proof (length_digits 10 (int_wrap n) []). simpl in *. lia.
Qed.

Lemma length_sprintf_page (buf : SM_PageHandle) (n : Z) :
  length buf = PAGE_LEN -> length (sprintf_page buf n) = PAGE_LEN.
Proof.
  intros Hbuf. assert (Hpl : PAGE_LEN = 4096%nat) by reflexivity.
  unfold sprintf_page, memcpy_at.
  pose proof (length_decimal n) as Hd.
  rewrite take_0, !length_app, length_take, length_drop, !length_app. simpl. lia.
Qed.

Lemma length_readBlock (fs : FileSystem) (p : Z) (fh : SM_FileHandle) (buf : SM_PageHandle) :
  length buf = PAGE_LEN -> length (readBlock fs p fh buf).2 = PAGE_LEN.
Proof.
  intros Hbuf. unfold readBlock.
  destruct (negb (is_ok _)); [done |].
  destruct (negb (fseek_set_ok _)); [done |].
  set (got := fread_at _ _ _).
  assert (Hgot : (length got <= PAGE_LEN)%nat)
    by (subst got; unfold fread_at; rewrite length_take; lia).
  assert (Hlen : length (got ++ drop (length got) buf) = PAGE_LEN)
    by (rewrite length_app, length_drop; lia).
  by destruct (bool_decide _).
Qed.

Lemma length_load_page (fs : FileSystem) (fh : SM_FileHandle) (p : Z) (buf : SM_PageHandle) :
  length buf = PAGE_LEN -> length (load_page fs fh p buf).2 = PAGE_LEN.
Proof.
  intros Hbuf. unfold load_page.
  destruct (ensureCapacity fs (p + 1) fh) as [[rc fs1] fh1].
  destruct (negb (is_ok rc)); [done |].
  destruct (p <? totalNumPages fh1); [| by apply length_sprintf_page].
  pose proof (length_readBlock fs1 p fh1 buf Hbuf) as Hrd.
  destruct (readBlock fs1 p fh1 buf) as [[rc2 fh2] buf']. simpl in Hrd.
  destruct (negb (is_ok rc2)); [by apply length_sprintf_page | done].
Qed.

End BufferSize.

(** ** What a successful call leaves in the pool *)

Section PoolSteps.

Variables (fuel : nat) (fs : FileSystem) (bm : BM_BufferPool) (m : BufferPoolMetadata).
Hypothesis Hlive : mgmtData bm = Some m.

Lemma openPageFile_None (fs0 : FileSystem) (file : string) (rc : RC) :
  openPageFile fs0 file = (rc, None) -> rc = RC_FILE_NOT_FOUND.
Proof.
  unfold openPageFile. destruct (get_file_size fs0 file <? 0); [| done]. by intros [= <-].
Qed.

(** The three ways [pinPage] succeeds: the page is resident; a new frame
    is appended; a victim's frame is reused. *)
Lemma pinPage_ok_inv (page : BM_PageHandle) (p : Z) (fs' : FileSystem) (bm' : BM_BufferPool)
    (page' : BM_PageHandle) :
  pinPage fuel fs bm page p = Some (RC_OK, fs', bm', page') ->
  exists m',
    bm' = set_mgmtData bm (Some m') /\
    totalFrames m' = totalFrames m /\
    globalTimer m' = globalTimer m + 1 /\
    ((exists i f,
        findPage m p = Some (i, f) /\ page' = mkPageHandle p (Some i) /\ fs' = fs /\
        head m' = <[i := mkNode (data f) (pageNum f) (isDirty f) (pinCount f + 1)
                                (accessCount f + 1) (globalTimer m + 1)]> (head m) /\
        numFramesUsed m' = numFramesUsed m) \/
     (exists buf,
        length buf = PAGE_LEN /\
        findPage m p = None /\ numFramesUsed m < totalFrames m /\
        page' = mkPageHandle p (Some (length (head m))) /\
        head m' = head m ++ [mkNode buf p false 1 1 (globalTimer m + 1)] /\
        numFramesUsed m' = numFramesUsed m + 1) \/
     (exists m1 v victim buf,
        length buf = PAGE_LEN /\
        findPage m p = None /\ totalFrames m <= numFramesUsed m /\
        select_victim fuel (strategy bm) m = Some (m1, Some v) /\
        head m1 !! v = Some victim /\
        page' = mkPageHandle p (Some v) /\
        head m' = <[v := mkNode buf p false 1 (accessCount victim) (globalTimer m + 1)]> (head m1) /\
        numFramesUsed m' = numFramesUsed m)).
Proof.
  unfold pinPage. rewrite Hlive.
  destruct (findPage m p) as [[i f] |] eqn:Hfind.
  { unfold pin_hit. intros [= <- <- <-]. eexists. split; [reflexivity |].
    split; [done |]. split; [done |]. left. by exists i, f. }
  destruct (Z.ltb_spec (numFramesUsed m) (totalFrames m)) as [Hroom | Hfull].
  { unfold pin_new_frame.
    destruct (openPageFile fs (pageFile bm)) as [rc [fh |]] eqn:Hopen.
    2: { apply openPageFile_None in Hopen as ->. done. }
    pose proof (length_load_page fs fh p (zero_bytes PAGE_LEN) (length_zero_bytes _)) as Hlen.
    destruct (load_page fs fh p (zero_bytes PAGE_LEN)) as [[rc1 fs1] buf].
    destruct (is_ok rc1) eqn:Hok; simpl.
    - intros [= <- <- <-]. eexists. split; [reflexivity |].
      split; [done |]. split; [done |]. right; left. by exists buf.
    - intros [= -> _ _ _]. done. }
  destruct (select_victim fuel (strategy bm) m) as [[m1 [v |]] |] eqn:Hsel; [| done | done].
  destruct (select_victim_spec _ _ _ _ _ Hsel) as (_ & _ & _ & Ht & Hn & Hg).
  destruct (head m1 !! v) as [victim |] eqn:Hv; [| done].
  destruct (pinCount victim >? 0); [done |].
  unfold pin_replace.
  set (step1 := if isDirty victim then _ else _).
  assert (Hstep : (exists rc, step1 = inl rc /\ rc <> RC_OK) \/
                  (exists fs1 m2, step1 = inr (fs1, m2) /\ head m2 = head m1 /\
                     totalFrames m2 = totalFrames m1 /\ numFramesUsed m2 = numFramesUsed m1 /\
                     globalTimer m2 = globalTimer m1)).
  { subst step1. destruct (isDirty victim); [| right; by eexists _, _].
    destruct (openPageFile fs (pageFile bm)) as [rc [fh |]] eqn:Hopen.
    - right. by eexists _, _.
    - apply openPageFile_None in Hopen as ->. left. by eexists. }
  destruct Hstep as [(rc & -> & Hrc) | (fs1 & m2 & -> & Hh2 & Ht2 & Hn2 & Hg2)].
  { intros [= -> _ _ _]. done. }
  destruct (openPageFile fs1 (pageFile bm)) as [rc [fh |]] eqn:Hopen.
  2: { apply openPageFile_None in Hopen as ->. done. }
  pose proof (length_load_page fs1 fh p (data (set_data victim (zero_bytes PAGE_LEN)))
                (length_zero_bytes _)) as Hlen.
  destruct (load_page fs1 fh p _) as [[rc1 fs2] buf].
  destruct (is_ok rc1) eqn:Hok; simpl.
  - intros [= <- <- <-]. eexists. split; [reflexivity |]. simpl.
    split; [lia |]. split; [lia |]. right; right.
    exists m1, v, victim, buf. rewrite Hh2, Hg2, Hg. repeat split; try done. lia.
  - intros [= -> _ _ _]. done.
Qed.

Lemma unpinPage_ok_inv (page : BM_PageHandle) (bm' : BM_BufferPool) :
  unpinPage bm page = Some (RC_OK, bm') ->
  exists i f,
    findPage m (hPageNum page) = Some (i, f) /\ 0 < pinCount f /\
    bm' = set_mgmtData bm
            (Some (set_head m (<[i := set_pinCount f (pinCount f - 1)]> (head m)))).
Proof.
  unfold unpinPage. rewrite Hlive.
  destruct (findPage m (hPageNum page)) as [[i f] |]; [| done].
  destruct (Z.gtb_spec (pinCount f) 0); [| done].
  intros [= <-]. exists i, f. by repeat split.
Qed.

Lemma markDirty_ok_inv (page : BM_PageHandle) (bm' : BM_BufferPool) :
  markDirty bm page = Some (RC_OK, bm') ->
  exists i f,
    findPage m (hPageNum page) = Some (i, f) /\
    bm' = set_mgmtData bm (Some (set_head m (<[i := set_isDirty f true]> (head m)))).
Proof.
  unfold markDirty. rewrite Hlive.
  destruct (findPage m (hPageNum page)) as [[i f] |]; [| done].
  intros [= <-]. by exists i, f.
Qed.

Lemma findPage_lookup (p : Z) (i : nat) (f : DLNode) :
  findPage m p = Some (i, f) -> head m !! i = Some f /\ pageNum f = p.
Proof. unfold findPage. intros (Hi & Hp & _)%list_find_Some. done. Qed.

(** A successful pin adds one to the sum of the pin counts. *)
Lemma pinPage_ok_pin_total (page : BM_PageHandle) (p : Z) (fs' : FileSystem)
    (bm' : BM_BufferPool) (page' : BM_PageHandle) :
  pinPage fuel fs bm page p = Some (RC_OK, fs', bm', page') ->
  exists m', mgmtData bm' = Some m' /\ sumZ pinCount (head m') = sumZ pinCount (head m) + 1.
Proof.
  intros Hpin. apply pinPage_ok_inv in Hpin as (m' & -> & _ & _ & Hcases).
  exists m'. split; [done |].
  destruct Hcases as [(i & f & Hfind & _ & _ & -> & _) |
                      [(buf & _ & _ & _ & _ & -> & _) |
                       (m1 & v & victim & buf & _ & _ & _ & Hsel & Hv & _ & -> & _)]].
  - apply findPage_lookup in Hfind as [Hi _].
    rewrite (sumZ_insert _ _ _ f) by done. simpl. lia.
  - rewrite sumZ_app. simpl. lia.
  - destruct (select_victim_spec _ _ _ _ _ Hsel) as ((f & Hf & Hp) & Hsame & _).
    rewrite Hv in Hf. injection Hf as <-.
    rewrite (sumZ_insert _ _ _ victim) by done. simpl.
    rewrite (sumZ_ext pinCount (head m1) (head m)) by (by apply same_frame_pinCounts). lia.
Qed.

Lemma unpinPage_ok_pin_total (page : BM_PageHandle) (bm' : BM_BufferPool) :
  unpinPage bm page = Some (RC_OK, bm') ->
  exists m', mgmtData bm' = Some m' /\ sumZ pinCount (head m') = sumZ pinCount (head m) - 1.
Proof.
  intros (i & f & Hfind & Hp & ->)%unpinPage_ok_inv.
  eexists. split; [reflexivity |]. simpl.
  apply findPage_lookup in Hfind as [Hi _].
  rewrite (sumZ_insert _ _ _ f) by done. simpl. lia.
Qed.

Lemma markDirty_ok_pin_total (page : BM_PageHandle) (bm' : BM_BufferPool) :
  markDirty bm page = Some (RC_OK, bm') ->
  exists m', mgmtData bm' = Some m' /\ sumZ pinCount (head m') = sumZ pinCount (head m).
Proof.
  intros (i & f & Hfind & ->)%markDirty_ok_inv.
  eexists. split; [reflexivity |]. simpl.
  apply findPage_lookup in Hfind as [Hi _].
  rewrite (sumZ_insert _ _ _ f) by done. simpl. lia.
Qed.

Lemma store_buffer_pin_total (page : BM_PageHandle) (buf : list byte) (bm' : BM_BufferPool) :
  store_buffer bm page buf = Some bm' ->
  exists m', mgmtData bm' = Some m' /\ sumZ pinCount (head m') = sumZ pinCount (head m).
Proof.
  unfold store_buffer. rewrite Hlive. simpl.
  destruct (hData page) as [i |]; [| done]. simpl.
  destruct (head m !! i) as [f |] eqn:Hi; [| done]. simpl.
  intros [= <-]. eexists. split; [reflexivity |]. simpl.
  rewrite (sumZ_insert _ _ _ f) by done. simpl. lia.
Qed.

End PoolSteps.

(** ** Pin balance of the record manager *)

Section PinBalance.

Definition pool_meta (w : World) : option BufferPoolMetadata :=
  mgmtData (dataPool (tableInfo w)).

(** The sum of the pin counts over the frames of the table's pool. *)
Definition pin_total (w : World) : Z :=
  match pool_meta w with
  | Some m => sumZ pinCount (head m)
  | None => 0
  end.

Lemma pin_ok_total (fuel : nat) (p : Z) (w w' : World) :
  pin fuel p w = Some (RC_OK, w') -> pin_total w' = pin_total w + 1.
Proof.
  unfold pin, pin_total, pool_meta.
  destruct (pinPage fuel _ _ _ p) as [[[[rc fs1] bm1] h1] |] eqn:Hpin; [| done].
  intros [= -> <-]. simpl.
  destruct (mgmtData (dataPool (tableInfo w))) as [m |] eqn:Hlive.
  - destruct (pinPage_ok_pin_total _ _ _ _ Hlive _ _ _ _ _ Hpin) as (m' & -> & Hsum). done.
  - unfold pinPage in Hpin. by rewrite Hlive in Hpin.
Qed.

Lemma unpin_ok_total (w w' : World) :
  unpin w = Some (RC_OK, w') -> pin_total w' = pin_total w - 1.
Proof.
  unfold unpin, pin_total, pool_meta.
  destruct (unpinPage _ _) as [[rc bm1] |] eqn:Hun; [| done].
  intros [= -> <-]. simpl.
  destruct (mgmtData (dataPool (tableInfo w))) as [m |] eqn:Hlive.
  - destruct (unpinPage_ok_pin_total _ _ Hlive _ _ Hun) as (m' & -> & Hsum). done.
  - unfold unpinPage in Hun. by rewrite Hlive in Hun.
Qed.

Lemma mark_dirty_ok_total (w w' : World) :
  mark_dirty w = Some (RC_OK, w') -> pin_total w' = pin_total w.
Proof.
  unfold mark_dirty, pin_total, pool_meta.
  destruct (markDirty _ _) as [[rc bm1] |] eqn:Hmd; [| done].
  intros [= -> <-]. simpl.
  destruct (mgmtData (dataPool (tableInfo w))) as [m |] eqn:Hlive.
  - destruct (markDirty_ok_pin_total _ _ Hlive _ _ Hmd) as (m' & -> & Hsum). done.
  - unfold markDirty in Hmd. by rewrite Hlive in Hmd.
Qed.

Lemma store_page_total (buf : list byte) (w w' : World) :
  store_page buf w = Some w' -> pin_total w' = pin_total w.
Proof.
  unfold store_page, pin_total, pool_meta.
  destruct (store_buffer _ _ _) as [bm1 |] eqn:Hst; [| done].
  intros [= <-]. simpl.
  destruct (mgmtData (dataPool (tableInfo w))) as [m |] eqn:Hlive.
  - destruct (store_buffer_pin_total _ _ Hlive _ _ _ Hst) as (m' & -> & Hsum). done.
  - unfold store_buffer in Hst. by rewrite Hlive in Hst.
Qed.

Lemma onW_ok_inv {X : Type} (call : World -> option (RC * World)) (s s' : World * X) (rc : RC) :
  onW call s = Some (rc, s') -> call s.1 = Some (rc, s'.1) /\ s'.2 = s.2.
Proof.
  unfold onW. destruct (call s.1) as [[rc1 w1] |]; [| done]. by intros [= <- <-].
Qed.

(** Each turn of the search loop unpins one page and pins the next. *)
Lemma insert_search_total (fuel turns : nat) (recordSize : Z) (s s' : World * RecordT) :
  insert_search fuel turns recordSize s = Some (s', inr tt) ->
  pin_total s'.1 = pin_total s.1.
Proof.
  revert s. induction turns as [| k IH]; intros s H; simpl in H.
  - step_body H. destruct (_ =? -1); [done |]. by injection H as <-.
  - step_body H. destruct (_ =? -1); [| by injection H as <-].
    step_body H. apply onW_ok_inv in Hstep as [Hun _]. apply unpin_ok_total in Hun.
    step_body H. step_body H. step_body H.
    apply onW_ok_inv in Hstep as [Hpin _]. apply pin_ok_total in Hpin.
    step_body H. step_body H.
    apply IH in H. simpl in *. lia.
Qed.

Lemma insert_search_fails_only (fuel turns : nat) (recordSize : Z) :
  fails_only (insert_search fuel turns recordSize).
Proof.
  induction turns as [| k IH]; simpl.
  - apply fails_only_bind; [apply fails_only_gets |]. intros sl.
    destruct (sl =? -1); [done | apply fails_only_ret].
  - apply fails_only_bind; [apply fails_only_gets |]. intros sl.
    destruct (sl =? -1); [| apply fails_only_ret].
    repeat (apply fails_only_bind;
            [first [apply fails_only_check | apply fails_only_modify | apply fails_only_gets
                   | apply fails_only_defined] | intros ?]).
    apply IH.
Qed.

Lemma insertRecord_body_fails_only (fuel : nat) (rel : RM_TableData) :
  fails_only (insertRecord_body fuel rel).
Proof.
  unfold insertRecord_body.
  destruct (getRecordSize (schema rel) <=? 0); [by apply fails_only_raise |].
  repeat (apply fails_only_bind;
          [first [apply fails_only_check | apply fails_only_modify | apply fails_only_gets
                 | apply fails_only_defined | apply fails_only_update
                 | apply fails_only_check_or | apply insert_search_fails_only] | intros ?]).
  apply fails_only_check.
Qed.

(** C6 on the code.  A call of [insertRecord] that returns [RC_OK] leaves
    the sum of the pin counts of the table's pool one higher than it found
    it: the page-0 pin at the end of the function has no unpin. *)
Theorem insertRecord_leaks_one_pin (fuel : nat) (w : World) (rel : RM_TableData)
    (record : RecordT) (w' : World) (record' : RecordT) :
  insertRecord fuel w rel record = Some (RC_OK, (w', record')) ->
  pin_total w' = pin_total w + 1.
Proof.
  intros H. unfold insertRecord in H.
  apply run_ok_inv in H; [| apply insertRecord_body_fails_only].
  unfold insertRecord_body in H.
  destruct (getRecordSize (schema rel) <=? 0); [done |].
  step_body H as Hfree. step_body H as Hrid.
  step_body H as Hpin1. apply onW_ok_inv in Hpin1 as [Hpin1 _]. apply pin_ok_total in Hpin1.
  step_body H as Hpc. step_body H as Hslot.
  step_body H as Hloop. destruct a3. apply insert_search_total in Hloop.
  step_body H as Hmd. apply onW_ok_inv in Hmd as [Hmd Hmd2]. apply mark_dirty_ok_total in Hmd.
  step_body H as Hpc2. step_body H as Hoff. step_body H as Hrec.
  step_body H as Hst.
  destruct (write_slot _ _ _ _) as [slotBuf |]; [| done]. simpl in Hst.
  destruct (store_page _ _) as [w3 |] eqn:Hst3; [| done]. simpl in Hst.
  injection Hst as <-. apply store_page_total in Hst3.
  step_body H as Hun. apply onW_ok_inv in Hun as [Hun _]. apply unpin_ok_total in Hun.
  step_body H as Hcount.
  apply check_inr_inv in H. apply onW_ok_inv in H as [Hpin2 _]. apply pin_ok_total in Hpin2.
  simpl in *. unfold pin_total, pool_meta in *. simpl in *. lia.
Qed.


End PinBalance.

(** The theorem above on the freshly opened table: the first insert
    returns [RC_OK]; no frame was pinned before it, one pin is left after. *)
Lemma insertRecord_leaks_one_pin_witness :
  let w := Examples.world_of Examples.opened_table in
  let rel := Examples.rel_of Examples.opened_table in
  let row := default Examples.blank_row (Examples.make_row Examples.id_schema 1) in
  exists w' row',
    insertRecord 1 w rel row = Some (RC_OK, (w', row')) /\
    pin_total w = 0 /\ pin_total w' = pin_total w + 1.
Proof.
  intros w rel row.
  destruct (insertRecord 1 w rel row) as [[rc [w' row']] |] eqn:Hins.
  - exists w', row'.
    assert (Hrc : rc = RC_OK).
    { assert (H : fst <$> insertRecord 1 w rel row = Some RC_OK) by (vm_compute; reflexivity).
      rewrite Hins in H. by injection H. }
    subst rc. split; [reflexivity |]. split; [vm_compute; reflexivity |].
    exact (insertRecord_leaks_one_pin 1 w rel row w' row' Hins).
  - exfalso. vm_compute in Hins. discriminate.
Defined.

(** ** Finding a page after a frame changed *)

Section FindPage.

Variable q : Z.
Let P := fun f : DLNode => pageNum f = q.

Lemma find_insert_same (l : list DLNode) (i : nat) (x y : DLNode) :
  list_find P l = Some (i, x) -> P y -> list_find P (<[i := y]> l) = Some (i, y).
Proof.
  intros (Hi & Hx & Hmin)%list_find_Some Hy. apply list_find_Some.
  rewrite list_lookup_insert_eq by (by eapply lookup_lt_Some). split; [done |]. split; [done |].
  intros j z Hj Hlt. rewrite list_lookup_insert_ne in Hj by lia. by eapply Hmin.
Qed.

Lemma find_insert_other (l : list DLNode) (i j : nat) (x y : DLNode) :
  list_find P l = Some (i, x) -> j <> i -> ~ P y -> list_find P (<[j := y]> l) = Some (i, x).
Proof.
  intros (Hi & Hx & Hmin)%list_find_Some Hne Hy. apply list_find_Some.
  rewrite list_lookup_insert_ne by done. split; [done |]. split; [done |].
  intros k z Hk Hlt. destruct (decide (k = j)) as [-> | Hkj].
  - apply list_lookup_insert_Some in Hk as [(_ & <- & _) | [? _]]; done.
  - rewrite list_lookup_insert_ne in Hk by done. by eapply Hmin.
Qed.

Lemma find_insert_fresh (l : list DLNode) (j : nat) (y : DLNode) :
  list_find P l = None -> P y -> (j < length l)%nat -> list_find P (<[j := y]> l) = Some (j, y).
Proof.
  intros Hnone%list_find_None Hy Hj. apply list_find_Some.
  rewrite list_lookup_insert_eq by done. split; [done |]. split; [done |].
  intros k z Hk Hlt. rewrite list_lookup_insert_ne in Hk by lia.
  by eapply (Forall_lookup_1 _ _ _ _ Hnone).
Qed.

Lemma find_app_fresh (l : list DLNode) (y : DLNode) :
  list_find P l = None -> P y -> list_find P (l ++ [y]) = Some (length l, y).
Proof.
  intros Hnone Hy. rewrite list_find_app_r by done. simpl.
  rewrite decide_True by done. done.
Qed.

Lemma find_same_frame (l l1 : list DLNode) (i : nat) (x : DLNode) :
  Forall2 same_frame l l1 -> list_find P l = Some (i, x) ->
  exists x1, list_find P l1 = Some (i, x1) /\ same_frame x x1.
Proof.
  intros Hsame (Hi & Hx & Hmin)%list_find_Some.
  destruct (Forall2_lookup_l _ _ _ _ _ Hsame Hi) as (x1 & Hi1 & Hxx1).
  exists x1. split; [| done]. apply list_find_Some. split; [done |].
  split; [unfold P in *; destruct Hxx1 as (_ & -> & _); done |].
  intros j z Hj Hlt Hz.
  destruct (Forall2_lookup_r _ _ _ _ _ Hsame Hj) as (z0 & Hj0 & Hzz).
  apply (Hmin j z0 Hj0 Hlt). unfold P in *. destruct Hzz as (_ & <- & _). done.
Qed.

Lemma find_same_frame_None (l l1 : list DLNode) :
  Forall2 same_frame l l1 -> list_find P l = None -> list_find P l1 = None.
Proof.
  intros Hsame Hnone%list_find_None. apply list_find_None, Forall_lookup.
  intros j z Hj Hz.
  destruct (Forall2_lookup_r _ _ _ _ _ Hsame Hj) as (z0 & Hj0 & Hzz).
  apply (Forall_lookup_1 _ _ _ _ Hnone Hj0). unfold P in *. destruct Hzz as (_ & <- & _). done.
Qed.

End FindPage.

(** ** Pool states in which an inserted record can be read back *)

Section Ready.

Definition pins_ok (m : BufferPoolMetadata) : Prop :=
  Forall (fun f => 0 <= pinCount f) (head m).
Definition timer_ok (m : BufferPoolMetadata) : Prop :=
  Forall (fun f => lastAccessed f <= globalTimer m) (head m).
Definition data_ok (m : BufferPoolMetadata) : Prop :=
  Forall (fun f => length (data f) = PAGE_LEN) (head m).

(** 1 for a frame that can be evicted. *)
Definition unpinned (f : DLNode) : Z := if pinCount f =? 0 then 1 else 0.

(** Frames that a miss can use: the unpinned ones and the ones not yet
    allocated. *)
Definition spare (m : BufferPoolMetadata) : Z :=
  sumZ unpinned (head m) + Z.max 0 (totalFrames m - numFramesUsed m).

(** Frame [i] was accessed later than every other frame. *)
Definition newest (m : BufferPoolMetadata) (i : nat) : Prop :=
  exists f, head m !! i = Some f /\
    forall j g, head m !! j = Some g -> j <> i -> lastAccessed g < lastAccessed f.

(** The header page is resident with more than [c] pins. *)
Definition header_pinned (m : BufferPoolMetadata) (c : Z) : Prop :=
  exists i g, findPage m 0 = Some (i, g) /\ c < pinCount g.

Definition lru_slack (s : ReplacementStrategy) (m : BufferPoolMetadata) (c : Z) : Prop :=
  s = RS_LRU /\ pins_ok m /\ timer_ok m /\ 2 <= spare m + c.

(** Between two calls: either the header page is pinned (as it is after
    any insert), or the pool runs LRU and could serve two misses. *)
Definition ready (s : ReplacementStrategy) (m : BufferPoolMetadata) : Prop :=
  header_pinned m 0 \/ lru_slack s m 0.

(** While page [p] is pinned through frame [i]. *)
Definition busy (s : ReplacementStrategy) (m : BufferPoolMetadata) (p : Z) (i : nat) : Prop :=
  exists f, findPage m p = Some (i, f) /\
    (header_pinned m (if p =? 0 then 1 else 0) \/
     (lru_slack s m (if pinCount f =? 1 then 1 else 0) /\ newest m i)).

(** After that pin was released. *)
Definition settled (s : ReplacementStrategy) (m : BufferPoolMetadata) (i : nat) : Prop :=
  header_pinned m 0 \/ (lru_slack s m 0 /\ newest m i).

Lemma settled_ready (s : ReplacementStrategy) (m : BufferPoolMetadata) (i : nat) :
  settled s m i -> ready s m.
Proof. intros [Hh | [Hl _]]; [by left | by right]. Qed.

(** Two frames that hold the same page with the same pin count and time
    stamp. *)
Definition same_slot (f g : DLNode) : Prop :=
  pageNum g = pageNum f /\ pinCount g = pinCount f /\ lastAccessed g = lastAccessed f.

Lemma findPage_inj (m : BufferPoolMetadata) (p : Z) (i j : nat) (f g : DLNode) :
  findPage m p = Some (i, f) -> findPage m p = Some (j, g) -> i = j /\ f = g.
Proof. intros H1 H2. rewrite H1 in H2. by injection H2. Qed.

Lemma findPage_index_ne (m : BufferPoolMetadata) (p q : Z) (i j : nat) (f g : DLNode) :
  findPage m p = Some (i, f) -> findPage m q = Some (j, g) -> p <> q -> i <> j.
Proof.
  intros (Hi & Hp & _)%list_find_Some (Hj & Hq & _)%list_find_Some Hne ->.
  rewrite Hi in Hj. injection Hj as <-. congruence.
Qed.

Lemma sumZ_unpinned_all_pinned (l : list DLNode) :
  (forall j g, l !! j = Some g -> pinCount g <> 0) -> sumZ unpinned l = 0.
Proof.
  induction l as [| f l IH]; intros Hall; simpl; [done |].
  rewrite IH by (intros j g Hj; apply (Hall (Datatypes.S j) g Hj)).
  unfold unpinned. pose proof (Hall 0%nat f eq_refl).
  destruct (Z.eqb_spec (pinCount f) 0); lia.
Qed.

(** If every frame but [i] is pinned, at most one frame is unpinned. *)
Lemma sumZ_unpinned_le_1 (l : list DLNode) (i : nat) :
  (forall j g, l !! j = Some g -> j <> i -> pinCount g <> 0) -> sumZ unpinned l <= 1.
Proof.
  revert i. induction l as [| f l IH]; intros i Hall; simpl; [lia |].
  destruct i as [| i].
  - rewrite sumZ_unpinned_all_pinned
      by (intros j g Hj; apply (Hall (Datatypes.S j) g Hj); lia).
    unfold unpinned. destruct (pinCount f =? 0); lia.
  - pose proof (IH i) as IHi.
    assert (Hf : pinCount f <> 0) by (apply (Hall 0%nat f eq_refl); lia).
    unfold unpinned at 1. destruct (Z.eqb_spec (pinCount f) 0); [done |].
    rewrite Z.add_0_l. apply IHi. intros j g Hj Hne. apply (Hall (Datatypes.S j) g Hj). lia.
Qed.

(** The frame LRU selects was accessed no later than any unpinned frame. *)
Lemma lru_scan_min (l pre : list DLNode) (vic : option nat) (t : Z) (v : nat) :
  (forall g, g ∈ pre -> pinCount g = 0 -> t <= lastAccessed g) ->
  (forall v0, vic = Some v0 -> exists f0, pre !! v0 = Some f0 /\ lastAccessed f0 = t) ->
  lru_scan l (length pre) vic t = Some v ->
  exists f, (pre ++ l) !! v = Some f /\
    forall g, g ∈ pre ++ l -> pinCount g = 0 -> lastAccessed f <= lastAccessed g.
Proof.
  revert pre vic t. induction l as [| f l IH]; intros pre vic t Hmin Hvic; simpl.
  - intros ->. destruct (Hvic v eq_refl) as (f0 & Hf0 & Ht).
    exists f0. rewrite app_nil_r. split; [done |]. intros g Hg Hp. rewrite Ht. by apply Hmin.
  - replace (pre ++ f :: l) with ((pre ++ [f]) ++ l) by (by rewrite <- app_assoc).
    replace (Datatypes.S (length pre)) with (length (pre ++ [f]))
      by (rewrite length_app; simpl; lia).
    destruct ((pinCount f =? 0) && (lastAccessed f <? t)) eqn:Htest.
    + apply andb_prop in Htest as [Hp Hlt]. apply Z.ltb_lt in Hlt.
      apply IH.
      * intros g [Hg | Hg%list_elem_of_singleton]%elem_of_app Hpg.
        -- pose proof (Hmin g Hg Hpg). lia.
        -- subst g. lia.
      * intros v0 [= <-]. exists f. split; [| done].
        by rewrite lookup_app_r, Nat.sub_diag.
    + apply IH.
      * intros g [Hg | Hg%list_elem_of_singleton]%elem_of_app Hpg; [by apply Hmin |].
        subst g. apply andb_false_iff in Htest as [Hp | Hlt].
        -- apply Z.eqb_neq in Hp. done.
        -- apply Z.ltb_ge in Hlt. done.
      * intros v0 Hv0. destruct (Hvic v0 Hv0) as (f0 & Hf0 & Ht).
        exists f0. split; [| done]. by apply lookup_app_l_Some.
Qed.

(** With two spare frames in a full pool, LRU does not select the newest
    frame. *)
Lemma replaceLRU_not_newest (m : BufferPoolMetadata) (i v : nat) :
  newest m i -> 2 <= sumZ unpinned (head m) -> replaceLRU m = Some v -> v <> i.
Proof.
  intros (f & Hf & Hnew) Hspare Hv ->. unfold replaceLRU in Hv.
  apply (lru_scan_min (head m) [] None) in Hv as (f' & Hf' & Hmin); [| by inversion 1 | done].
  simpl in *. rewrite Hf in Hf'. injection Hf' as <-.
  pose proof (sumZ_unpinned_le_1 (head m) i) as Hle.
  assert (sumZ unpinned (head m) <= 1); [| lia].
  apply Hle. intros j g Hj Hne Hp.
  pose proof (Hmin g (list_elem_of_lookup_2 _ _ _ Hj) Hp).
  pose proof (Hnew j g Hj Hne). lia.
Qed.

End Ready.

(** ** Frames that keep their page, pin count and time stamp *)

Section SameSlot.

Lemma same_frame_slot (l l1 : list DLNode) :
  Forall2 same_frame l l1 -> Forall2 same_slot l l1.
Proof.
  intros H. eapply Forall2_impl; [exact H |].
  intros f g (_ & Hp & _ & Hc & Ht). by repeat split.
Qed.

Lemma same_slot_refl (l : list DLNode) : Forall2 same_slot l l.
Proof. induction l; constructor; [by repeat split | done]. Qed.

Lemma same_slot_insert (l : list DLNode) (i : nat) (f g : DLNode) :
  l !! i = Some f -> same_slot f g -> Forall2 same_slot l (<[i := g]> l).
Proof.
  intros Hf Hfg. apply Forall2_same_length_lookup_2; [by rewrite length_insert |].
  intros j x y Hx Hy. destruct (decide (j = i)) as [-> | Hne].
  - rewrite list_lookup_insert_eq in Hy by (by eapply lookup_lt_Some).
    injection Hy as <-. rewrite Hf in Hx. by injection Hx as <-.
  - rewrite list_lookup_insert_ne in Hy by done.
    rewrite Hx in Hy. injection Hy as <-. by repeat split.
Qed.

Lemma findPage_same_slot (m m1 : BufferPoolMetadata) (q : Z) (i : nat) (x : DLNode) :
  Forall2 same_slot (head m) (head m1) -> findPage m q = Some (i, x) ->
  exists x1, findPage m1 q = Some (i, x1) /\ same_slot x x1.
Proof.
  unfold findPage. intros Hsame (Hi & Hx & Hmin)%list_find_Some.
  destruct (Forall2_lookup_l _ _ _ _ _ Hsame Hi) as (x1 & Hi1 & Hxx1).
  exists x1. split; [| done]. apply list_find_Some. split; [done |].
  split; [destruct Hxx1 as (-> & _); done |].
  intros j z Hj Hlt Hz.
  destruct (Forall2_lookup_r _ _ _ _ _ Hsame Hj) as (z0 & Hj0 & Hzz).
  apply (Hmin j z0 Hj0 Hlt). destruct Hzz as (<- & _). done.
Qed.

Lemma findPage_same_slot_None (m m1 : BufferPoolMetadata) (q : Z) :
  Forall2 same_slot (head m) (head m1) -> findPage m q = None -> findPage m1 q = None.
Proof.
  unfold findPage. intros Hsame Hnone%list_find_None. apply list_find_None, Forall_lookup.
  intros j z Hj Hz.
  destruct (Forall2_lookup_r _ _ _ _ _ Hsame Hj) as (z0 & Hj0 & Hzz).
  apply (Forall_lookup_1 _ _ _ _ Hnone Hj0). destruct Hzz as (<- & _). done.
Qed.

Lemma unpinned_same_slot (l l1 : list DLNode) :
  Forall2 same_slot l l1 -> sumZ unpinned l1 = sumZ unpinned l.
Proof.
  induction 1 as [| f g l l1 (_ & Hc & _) _ IH]; [done |].
  simpl. unfold unpinned at 1 3. rewrite Hc, IH. done.
Qed.

Variables (m m1 : BufferPoolMetadata).
Hypothesis Hsame : Forall2 same_slot (head m) (head m1).
Hypothesis Htotal : totalFrames m1 = totalFrames m.
Hypothesis Hused : numFramesUsed m1 = numFramesUsed m.
Hypothesis Htimer : globalTimer m1 = globalTimer m.

Lemma header_pinned_same_slot (c : Z) : header_pinned m c -> header_pinned m1 c.
Proof.
  intros (i & g & Hfind & Hc).
  destruct (findPage_same_slot _ _ _ _ _ Hsame Hfind) as (g1 & Hfind1 & _ & Hp & _).
  exists i, g1. split; [done | lia].
Qed.

Lemma pins_ok_same_slot : pins_ok m -> pins_ok m1.
Proof.
  unfold pins_ok. rewrite !Forall_lookup. intros Hall j g Hj.
  destruct (Forall2_lookup_r _ _ _ _ _ Hsame Hj) as (f & Hf & _ & Hp & _).
  pose proof (Hall j f Hf). simpl in *. lia.
Qed.

Lemma timer_ok_same_slot : timer_ok m -> timer_ok m1.
Proof.
  unfold timer_ok. rewrite !Forall_lookup. intros Hall j g Hj.
  destruct (Forall2_lookup_r _ _ _ _ _ Hsame Hj) as (f & Hf & _ & _ & Ht).
  pose proof (Hall j f Hf). simpl in *. lia.
Qed.

Lemma spare_same_slot : spare m1 = spare m.
Proof. unfold spare. by rewrite (unpinned_same_slot _ _ Hsame), Htotal, Hused. Qed.

Lemma newest_same_slot (i : nat) : newest m i -> newest m1 i.
Proof.
  intros (f & Hf & Hnew).
  destruct (Forall2_lookup_l _ _ _ _ _ Hsame Hf) as (f1 & Hf1 & _ & _ & Ht).
  exists f1. split; [done |]. intros j g1 Hj Hne.
  destruct (Forall2_lookup_r _ _ _ _ _ Hsame Hj) as (g & Hg & _ & _ & Htg).
  pose proof (Hnew j g Hg Hne). lia.
Qed.

Lemma lru_slack_same_slot (s : ReplacementStrategy) (c : Z) :
  lru_slack s m c -> lru_slack s m1 c.
Proof.
  intros (Hs & Hp & Ht & Hsp). split; [done |].
  split; [by apply pins_ok_same_slot |]. split; [by apply timer_ok_same_slot |].
  by rewrite spare_same_slot.
Qed.

Lemma busy_same_slot (s : ReplacementStrategy) (p : Z) (i : nat) :
  busy s m p i -> busy s m1 p i.
Proof.
  intros (f & Hfind & Hcase).
  destruct (findPage_same_slot _ _ _ _ _ Hsame Hfind) as (f1 & Hfind1 & _ & Hp & _).
  exists f1. split; [done |]. rewrite Hp.
  destruct Hcase as [Hh | [Hl Hn]].
  - left. by apply header_pinned_same_slot.
  - right. split; [by apply lru_slack_same_slot | by apply newest_same_slot].
Qed.

End SameSlot.

(** ** How one frame update changes what the pool can still serve *)

Section FrameUpdates.

Variable s : ReplacementStrategy.
Variables (m m' : BufferPoolMetadata).

(** Frame [i] is pinned once more and stamped with the new time: by a hit,
    or by loading a page over an unpinned victim. *)
Lemma lru_slack_pin_at (i : nat) (f0 g : DLNode) :
  head m !! i = Some f0 -> head m' = <[i := g]> (head m) ->
  totalFrames m' = totalFrames m -> numFramesUsed m' = numFramesUsed m ->
  globalTimer m' = globalTimer m + 1 -> lastAccessed g = globalTimer m + 1 ->
  pinCount g = pinCount f0 + 1 ->
  lru_slack s m 0 ->
  lru_slack s m' (if pinCount g =? 1 then 1 else 0) /\ newest m' i.
Proof.
  intros Hi Hh Ht Hu Hg Hl Hp (Hs & Hpins & Htim & Hsp).
  assert (Hf0 : 0 <= pinCount f0) by apply (Forall_lookup_1 _ _ _ _ Hpins Hi).
  split; [split; [done | split; [| split]] |].
  - unfold pins_ok. rewrite Hh. apply Forall_insert; [done | lia].
  - unfold timer_ok. rewrite Hh, Hg. apply Forall_insert; [| lia].
    eapply Forall_impl; [exact Htim |]. intros x Hx. simpl in *. lia.
  - unfold spare in *. rewrite Hh, Ht, Hu, (sumZ_insert _ _ _ f0) by done.
    assert (Hg0 : unpinned g = 0)
      by (unfold unpinned; destruct (Z.eqb_spec (pinCount g) 0); lia).
    assert (Hf1 : unpinned f0 = if pinCount g =? 1 then 1 else 0)
      by (unfold unpinned; rewrite Hp;
          destruct (Z.eqb_spec (pinCount f0) 0), (Z.eqb_spec (pinCount f0 + 1) 1); lia).
    rewrite Hg0, Hf1. destruct (pinCount g =? 1); lia.
  - exists g. rewrite Hh.
    split; [apply list_lookup_insert_eq; by eapply lookup_lt_Some |].
    intros j x Hj Hne. rewrite list_lookup_insert_ne in Hj by done.
    pose proof (Forall_lookup_1 _ _ _ _ Htim Hj) as Hx. simpl in Hx. lia.
Qed.

(** A page is loaded into a frame that was not in use. *)
Lemma lru_slack_pin_new (g : DLNode) :
  head m' = head m ++ [g] ->
  totalFrames m' = totalFrames m -> numFramesUsed m' = numFramesUsed m + 1 ->
  numFramesUsed m < totalFrames m ->
  globalTimer m' = globalTimer m + 1 -> lastAccessed g = globalTimer m + 1 ->
  pinCount g = 1 ->
  lru_slack s m 0 ->
  lru_slack s m' (if pinCount g =? 1 then 1 else 0) /\ newest m' (length (head m)).
Proof.
  intros Hh Ht Hu Hroom Hg Hl Hp (Hs & Hpins & Htim & Hsp).
  split; [split; [done | split; [| split]] |].
  - unfold pins_ok. rewrite Hh. apply Forall_app. split; [done |].
    apply Forall_singleton. lia.
  - unfold timer_ok. rewrite Hh, Hg. apply Forall_app. split; [| apply Forall_singleton; lia].
    eapply Forall_impl; [exact Htim |]. intros x Hx. simpl in *. lia.
  - unfold spare in *. rewrite Hh, Ht, Hu, sumZ_app. simpl.
    unfold unpinned at 2. rewrite Hp. simpl. lia.
  - exists g. rewrite Hh.
    split; [by rewrite lookup_app_r, Nat.sub_diag |].
    intros j x Hj Hne.
    apply lookup_app_Some in Hj as [Hj | [Hge Hj]].
    + pose proof (Forall_lookup_1 _ _ _ _ Htim Hj) as Hx. simpl in Hx. lia.
    + destruct (j - length (head m))%nat as [| k] eqn:Hk; [lia | done].
Qed.

(** A pin on frame [i] is released. *)
Lemma lru_slack_unpin_at (i : nat) (f0 : DLNode) :
  head m !! i = Some f0 -> head m' = <[i := set_pinCount f0 (pinCount f0 - 1)]> (head m) ->
  totalFrames m' = totalFrames m -> numFramesUsed m' = numFramesUsed m ->
  globalTimer m' = globalTimer m -> 0 < pinCount f0 ->
  lru_slack s m (if pinCount f0 =? 1 then 1 else 0) /\ newest m i ->
  lru_slack s m' 0 /\ newest m' i.
Proof.
  intros Hi Hh Ht Hu Hg Hpos [(Hs & Hpins & Htim & Hsp) (f & Hf & Hnew)].
  rewrite Hi in Hf. injection Hf as <-.
  split; [split; [done | split; [| split]] |].
  - unfold pins_ok. rewrite Hh. apply Forall_insert; [done | simpl; lia].
  - unfold timer_ok. rewrite Hh, Hg. apply Forall_insert; [done |].
    apply (Forall_lookup_1 _ _ _ _ Htim Hi).
  - unfold spare in *. rewrite Hh, Ht, Hu, (sumZ_insert _ _ _ f0) by done.
    unfold unpinned at 2 3. simpl.
    destruct (Z.eqb_spec (pinCount f0) 0), (Z.eqb_spec (pinCount f0 - 1) 0),
      (Z.eqb_spec (pinCount f0) 1); lia.
  - exists (set_pinCount f0 (pinCount f0 - 1)). rewrite Hh.
    split; [apply list_lookup_insert_eq; by eapply lookup_lt_Some |].
    intros j x Hj Hne. rewrite list_lookup_insert_ne in Hj by done.
    simpl. by apply (Hnew j x).
Qed.

(** The header page stays pinned when frame [i] changes, if the change
    does not take the header's last pin and does not bring in another copy
    of page 0. *)
Lemma header_pinned_insert (c c' : Z) (i : nat) (f0 g : DLNode) :
  head m !! i = Some f0 -> head m' = <[i := g]> (head m) ->
  header_pinned m c ->
  (forall j, findPage m 0 = Some (j, f0) -> j = i -> pageNum g = 0 /\ c' < pinCount g) ->
  (forall j g0, findPage m 0 = Some (j, g0) -> j <> i -> pageNum g <> 0 /\ c' <= c) ->
  header_pinned m' c'.
Proof.
  intros Hi Hh (j & g0 & Hfind & Hc) Hsame Hother.
  destruct (decide (j = i)) as [-> | Hne].
  - assert (g0 = f0) as ->.
    { apply findPage_lookup in Hfind as [Hj _]. rewrite Hi in Hj. by injection Hj. }
    destruct (Hsame i Hfind eq_refl) as [Hg Hcg].
    exists i, g. split; [| done]. unfold findPage in *. rewrite Hh.
    by apply (find_insert_same 0 _ _ f0).
  - destruct (Hother j g0 Hfind Hne) as [Hg Hcc].
    exists j, g0. split; [| lia]. unfold findPage in *. rewrite Hh.
    apply find_insert_other; [done | congruence | done].
Qed.

Lemma header_pinned_app (c : Z) (g : DLNode) :
  head m' = head m ++ [g] -> header_pinned m c -> header_pinned m' c.
Proof.
  intros Hh (j & g0 & Hfind & Hc). exists j, g0. split; [| done].
  unfold findPage in *. rewrite Hh. by apply list_find_app_l.
Qed.

End FrameUpdates.

(** ** Pinning and unpinning in a ready pool *)

Section ReadySteps.

Variables (fuel : nat) (fs : FileSystem) (bm : BM_BufferPool) (m : BufferPoolMetadata).
Hypothesis Hlive : mgmtData bm = Some m.

Lemma data_ok_same_frame (m1 : BufferPoolMetadata) :
  Forall2 same_frame (head m) (head m1) -> data_ok m -> data_ok m1.
Proof.
  unfold data_ok. rewrite !Forall_lookup. intros Hsame Hall j g Hj.
  destruct (Forall2_lookup_r _ _ _ _ _ Hsame Hj) as (f & Hf & Hd & _).
  pose proof (Hall j f Hf) as Hlen. simpl in *. by rewrite Hd.
Qed.

(** A successful pin in a ready pool leaves the page in a frame that the
    following calls cannot lose. *)
Lemma pinPage_ready_busy (page : BM_PageHandle) (p : Z) (fs' : FileSystem)
    (bm' : BM_BufferPool) (page' : BM_PageHandle) :
  ready (strategy bm) m ->
  pinPage fuel fs bm page p = Some (RC_OK, fs', bm', page') ->
  exists m' i,
    bm' = set_mgmtData bm (Some m') /\ page' = mkPageHandle p (Some i) /\
    busy (strategy bm) m' p i /\ (data_ok m -> data_ok m').
Proof.
  intros Hready Hpin.
  destruct (pinPage_ok_inv _ _ _ _ Hlive _ _ _ _ _ Hpin) as (m' & -> & Ht & Hg & Hcases).
  exists m'.
  destruct Hcases as [(i & f & Hfind & -> & _ & Hh & Hu) |
                      [(buf & Hlen & Hnone & Hroom & -> & Hh & Hu) |
                       (m1 & v & victim & buf & Hlen & Hnone & Hfull & Hsel & Hv & -> & Hh & Hu)]].
  - (* the page is resident *)
    exists i. split; [done |]. split; [done |].
    pose proof (findPage_lookup _ _ _ _ Hfind) as [Hi Hp].
    set (f' := mkNode _ _ _ _ _ _) in Hh.
    split.
    + exists f'. split.
      { unfold findPage in *. rewrite Hh. by apply (find_insert_same p _ _ f). }
      destruct Hready as [Hhead | Hslack].
      * left. apply (header_pinned_insert m m' 0 _ i f f'); try done.
        -- intros j Hj _. destruct Hhead as (j0 & g0 & Hf0 & Hc0).
           destruct (findPage_inj _ _ _ _ _ _ Hf0 Hj) as [_ ->].
           apply findPage_lookup in Hj as [_ Hz].
           assert (p = 0) as -> by congruence. simpl. split; [done | lia].
        -- intros j g0 Hj Hne.
           assert (Hp0 : p <> 0).
           { intros ->. destruct (findPage_inj _ _ _ _ _ _ Hfind Hj). done. }
           split; [simpl; congruence |]. destruct (Z.eqb_spec p 0); [done | lia].
      * right. by apply (lru_slack_pin_at _ m m' i f f').
    + unfold data_ok. rewrite Hh. intros Hd. apply Forall_insert; [done |].
      apply (Forall_lookup_1 _ _ _ _ Hd Hi).
  - (* a frame is added *)
    exists (length (head m)). split; [done |]. split; [done |].
    set (g := mkNode _ _ _ _ _ _) in Hh.
    split.
    + exists g. split.
      { unfold findPage in *. rewrite Hh. by apply find_app_fresh. }
      destruct Hready as [Hhead | Hslack].
      * left. assert (Hp0 : p <> 0).
        { intros ->. destruct Hhead as (j0 & g0 & Hf0 & _). congruence. }
        destruct (Z.eqb_spec p 0); [done |]. by apply (header_pinned_app m m' 0 g).
      * right. by apply (lru_slack_pin_new _ m m' g).
    + unfold data_ok. rewrite Hh. intros Hd. apply Forall_app. split; [done |].
      by apply Forall_singleton.
  - (* a victim is replaced *)
    exists v. split; [done |]. split; [done |].
    set (g := mkNode _ _ _ _ _ _) in Hh.
    destruct (select_victim_spec _ _ _ _ _ Hsel)
      as ((f0 & Hf0 & Hunp) & Hsame & Hhead1 & Ht1 & Hu1 & Hg1).
    rewrite Hv in Hf0. injection Hf0 as <-.
    assert (Hnone1 : findPage m1 p = None).
    { unfold findPage in *. by apply (find_same_frame_None p (head m)). }
    split.
    + exists g. split.
      { unfold findPage in *. rewrite Hh.
        apply find_insert_fresh; [done | done | by eapply lookup_lt_Some]. }
      destruct Hready as [Hhead | Hslack].
      * left.
        assert (Hhead' : header_pinned m1 0)
          by (apply (header_pinned_same_slot m m1); [by apply same_frame_slot | done]).
        assert (Hp0 : p <> 0).
        { intros ->. destruct Hhead' as (j0 & g0 & Hj0 & _). congruence. }
        apply (header_pinned_insert m1 m' 0 _ v victim g); try done.
        -- intros j Hj _. destruct Hhead' as (j0 & g0 & Hj0 & Hc0).
           destruct (findPage_inj _ _ _ _ _ _ Hj0 Hj) as [_ ->]. lia.
        -- intros j g0 Hj Hne. split; [done |]. destruct (Z.eqb_spec p 0); [done | lia].
      * right. pose proof Hslack as (Hs & _).
        assert (Heq : head m1 = head m) by (apply Hhead1; rewrite Hs; done).
        rewrite Heq in *.
        apply (lru_slack_pin_at _ m m' v victim g); try done. simpl. lia.
    + intros Hd. unfold data_ok. rewrite Hh. apply Forall_insert; [| done].
      by apply data_ok_same_frame.
Qed.

End ReadySteps.

Section BusySteps.

Variables (fuel : nat) (fs : FileSystem) (bm : BM_BufferPool) (m : BufferPoolMetadata).
Hypothesis Hlive : mgmtData bm = Some m.
Variables (p : Z) (i : nat).
Hypothesis Hbusy : busy (strategy bm) m p i.

Lemma markDirty_busy (page : BM_PageHandle) (bm' : BM_BufferPool) :
  hPageNum page = p ->
  markDirty bm page = Some (RC_OK, bm') ->
  exists m', bm' = set_mgmtData bm (Some m') /\ busy (strategy bm) m' p i /\
             (data_ok m -> data_ok m').
Proof.
  intros Hp (i' & f & Hfind & ->)%(markDirty_ok_inv _ _ Hlive).
  eexists. split; [reflexivity |].
  apply findPage_lookup in Hfind as [Hi _].
  split.
  - apply (busy_same_slot m); try done. simpl.
    by apply (same_slot_insert _ _ f).
  - unfold data_ok. simpl. intros Hd. apply Forall_insert; [done |].
    apply (Forall_lookup_1 _ _ _ _ Hd Hi).
Qed.

Lemma store_buffer_busy (page : BM_PageHandle) (buf : list byte) (bm' : BM_BufferPool) :
  page = mkPageHandle p (Some i) ->
  store_buffer bm page buf = Some bm' ->
  exists m' f', bm' = set_mgmtData bm (Some m') /\ busy (strategy bm) m' p i /\
                findPage m' p = Some (i, f') /\ data f' = buf.
Proof.
  intros ->. unfold store_buffer. rewrite Hlive. simpl.
  destruct (head m !! i) as [f |] eqn:Hi; [| done]. simpl.
  intros [= <-]. eexists _, (set_data f buf). split; [reflexivity |].
  destruct Hbusy as (f0 & Hfind & _).
  pose proof (findPage_lookup _ _ _ _ Hfind) as [Hi0 Hp].
  rewrite Hi in Hi0. injection Hi0 as <-.
  split; [| split; [| done]].
  - apply (busy_same_slot m); try done. simpl.
    by apply (same_slot_insert _ _ f).
  - unfold findPage in *. simpl. by apply (find_insert_same p _ _ f).
Qed.

Lemma unpinPage_busy (page : BM_PageHandle) (bm' : BM_BufferPool) :
  hPageNum page = p ->
  unpinPage bm page = Some (RC_OK, bm') ->
  exists m' f f',
    bm' = set_mgmtData bm (Some m') /\ settled (strategy bm) m' i /\
    findPage m p = Some (i, f) /\ findPage m' p = Some (i, f') /\
    data f' = data f /\ 0 <= pinCount f' /\ (data_ok m -> data_ok m').
Proof.
  intros Hp (i' & f & Hfind & Hpos & ->)%(unpinPage_ok_inv _ _ Hlive).
  rewrite Hp in Hfind. destruct Hbusy as (f0 & Hfind0 & Hcase).
  destruct (findPage_inj _ _ _ _ _ _ Hfind Hfind0) as [-> <-].
  pose proof (findPage_lookup _ _ _ _ Hfind) as [Hi Hpn].
  set (f' := set_pinCount f (pinCount f - 1)).
  eexists _, f, f'. split; [reflexivity |].
  split; [| split; [done | split; [| split; [done | split; [simpl; lia |]]]]].
  - destruct Hcase as [Hhead | Hslack].
    + left. eapply (header_pinned_insert m _ _ 0 i f f'); try done.
      * intros j Hj _. destruct Hhead as (j0 & g0 & Hj0 & Hc0).
        destruct (findPage_inj _ _ _ _ _ _ Hj0 Hj) as [_ ->].
        apply findPage_lookup in Hj as [_ Hz].
        assert (p = 0) as -> by congruence. simpl in *. split; [done | lia].
      * intros j g0 Hj Hne.
        assert (Hp0 : p <> 0).
        { intros ->. destruct (findPage_inj _ _ _ _ _ _ Hfind Hj). done. }
        split; [simpl; congruence |]. destruct (Z.eqb_spec p 0); [done | lia].
    + right. by apply (lru_slack_unpin_at _ m _ i f).
  - unfold findPage in *. simpl. by apply (find_insert_same p _ _ f).
  - unfold data_ok. simpl. intros Hd. apply Forall_insert; [done |].
    apply (Forall_lookup_1 _ _ _ _ Hd Hi).
Qed.

End BusySteps.

Section SettledSteps.

Variables (fuel : nat) (fs : FileSystem) (bm : BM_BufferPool) (m : BufferPoolMetadata).
Hypothesis Hlive : mgmtData bm = Some m.

(** The pin of the header page that ends [insertRecord] does not take the
    frame of the page that was just written. *)
Lemma pinPage_header_keeps_frame (page : BM_PageHandle) (p : Z) (i : nat) (f : DLNode)
    (fs' : FileSystem) (bm' : BM_BufferPool) (page' : BM_PageHandle) :
  settled (strategy bm) m i -> findPage m p = Some (i, f) ->
  pinPage fuel fs bm page 0 = Some (RC_OK, fs', bm', page') ->
  exists m' f', bm' = set_mgmtData bm (Some m') /\ findPage m' p = Some (i, f') /\
                data f' = data f /\ pinCount f <= pinCount f'.
Proof.
  intros Hset Hfind Hpin.
  destruct (pinPage_ok_inv _ _ _ _ Hlive _ _ _ _ _ Hpin) as (m' & -> & Ht & Hg & Hcases).
  exists m'.
  pose proof (findPage_lookup _ _ _ _ Hfind) as [Hi Hp].
  destruct Hcases as [(j & g & Hfind0 & _ & _ & Hh & Hu) |
                      [(buf & Hlen & Hnone & Hroom & _ & Hh & Hu) |
                       (m1 & v & victim & buf & Hlen & Hnone & Hfull & Hsel & Hv & _ & Hh & Hu)]].
  - set (g' := mkNode _ _ _ _ _ _) in Hh.
    destruct (decide (j = i)) as [-> | Hne].
    + pose proof (findPage_lookup _ _ _ _ Hfind0) as [Hj _].
      rewrite Hi in Hj. injection Hj as <-.
      exists g'. split; [done |]. split; [| split; [done | simpl; lia]].
      unfold findPage in *. rewrite Hh. by apply (find_insert_same p _ _ f).
    + exists f. split; [done |]. split; [| split; [done | lia]].
      unfold findPage in *. rewrite Hh. apply find_insert_other; [done | done |].
      simpl. intros Hgp.
      pose proof (findPage_lookup _ _ _ _ Hfind0) as [_ Hz].
      assert (p = 0) as -> by congruence.
      apply Hne. congruence.
  - exists f. split; [done |]. split; [| split; [done | lia]].
    unfold findPage in *. rewrite Hh. by apply list_find_app_l.
  - destruct Hset as [(j0 & g0 & Hj0 & _) | [(Hs & Hpins & Htim & Hsp) Hnew]]; [congruence |].
    rewrite Hs in Hsel. simpl in Hsel. injection Hsel as <- Hv0.
    assert (Hvi : v <> i).
    { apply (replaceLRU_not_newest m i v Hnew); [| done]. unfold spare in Hsp. lia. }
    exists f. split; [done |]. split; [| split; [done | lia]].
    unfold findPage in *. rewrite Hh. apply find_insert_other; [done | done |].
    simpl. intros <-. congruence.
Qed.

End SettledSteps.

(** ** The table's pool across the calls of the record manager *)

Section TablePool.

Definition pool_strategy (w : World) : ReplacementStrategy :=
  strategy (dataPool (tableInfo w)).

(** The table's pool between two calls of the record manager. *)
Definition resting (w : World) : Prop :=
  exists m, pool_meta w = Some m /\ ready (pool_strategy w) m /\ data_ok m.

(** The table's page handle holds a pin on page [p] in frame [i]. *)
Definition holding (w : World) (p : Z) (i : nat) : Prop :=
  exists m, pool_meta w = Some m /\ pageInfo (tableInfo w) = mkPageHandle p (Some i) /\
            busy (pool_strategy w) m p i /\ data_ok m.

(** Page [p] is resident with content [buf]. *)
Definition kept (w : World) (p : Z) (buf : list byte) : Prop :=
  exists m i f, pool_meta w = Some m /\ findPage m p = Some (i, f) /\
                data f = buf /\ 0 <= pinCount f.

Lemma pin_resting_holding (fuel : nat) (p : Z) (w w' : World) :
  resting w -> pin fuel p w = Some (RC_OK, w') -> exists i, holding w' p i.
Proof.
  intros (m & Hlive & Hready & Hd). unfold pin.
  destruct (pinPage fuel _ _ _ p) as [[[[rc fs1] bm1] h1] |] eqn:Hpin; [| done].
  intros [= -> <-].
  destruct (pinPage_ready_busy _ _ _ _ Hlive _ _ _ _ _ Hready Hpin)
    as (m' & i & -> & -> & Hb & Hdd).
  exists i, m'. repeat split; auto.
Qed.

Lemma unpin_holding_resting (w w' : World) (p : Z) (i : nat) :
  holding w p i -> unpin w = Some (RC_OK, w') -> resting w'.
Proof.
  intros (m & Hlive & Hpage & Hb & Hd). unfold unpin.
  destruct (unpinPage _ _) as [[rc bm1] |] eqn:Hun; [| done].
  intros [= -> <-].
  destruct (unpinPage_busy _ _ Hlive _ _ Hb _ _ (f_equal hPageNum Hpage) Hun)
    as (m' & f & f' & -> & Hset & _ & _ & _ & _ & Hdd).
  exists m'. split; [done |]. split; [by eapply settled_ready | auto].
Qed.

Lemma mark_dirty_holding (w w' : World) (p : Z) (i : nat) :
  holding w p i -> mark_dirty w = Some (RC_OK, w') -> holding w' p i.
Proof.
  intros (m & Hlive & Hpage & Hb & Hd). unfold mark_dirty.
  destruct (markDirty _ _) as [[rc bm1] |] eqn:Hmd; [| done].
  intros [= -> <-].
  destruct (markDirty_busy _ _ Hlive _ _ Hb _ _ (f_equal hPageNum Hpage) Hmd)
    as (m' & -> & Hb' & Hdd).
  exists m'. repeat split; auto.
Qed.

Lemma page_content_holding (w : World) (p : Z) (i : nat) (buf : list byte) :
  holding w p i -> page_content w = Some buf -> length buf = PAGE_LEN.
Proof.
  intros (m & Hlive & Hpage & Hb & Hd). unfold page_content, handle_buffer.
  unfold pool_meta in Hlive. rewrite Hlive, Hpage. simpl.
  destruct (head m !! i) as [f |] eqn:Hi; [| done]. simpl. intros [= <-].
  apply (Forall_lookup_1 _ _ _ _ Hd Hi).
Qed.

(** Writing the pinned page and releasing it leaves it resident. *)
Lemma store_unpin_kept (w w1 w2 : World) (p : Z) (i : nat) (buf : list byte) :
  holding w p i -> store_page buf w = Some w1 -> unpin w1 = Some (RC_OK, w2) ->
  exists m2 f2, pool_meta w2 = Some m2 /\ findPage m2 p = Some (i, f2) /\
                data f2 = buf /\ 0 <= pinCount f2 /\ settled (pool_strategy w2) m2 i.
Proof.
  intros (m & Hlive & Hpage & Hb & Hd). unfold store_page.
  destruct (store_buffer _ _ _) as [bm1 |] eqn:Hst; [| done]. intros [= <-].
  destruct (store_buffer_busy _ _ Hlive _ _ Hb _ _ _ Hpage Hst)
    as (m1 & f1 & -> & Hb1 & Hfind1 & Hdata1).
  unfold unpin. simpl.
  destruct (unpinPage _ _) as [[rc bm2] |] eqn:Hun; [| done].
  intros [= -> <-].
  destruct (unpinPage_busy (set_mgmtData (dataPool (tableInfo w)) (Some m1)) m1 eq_refl
              p i Hb1 _ _ (f_equal hPageNum Hpage) Hun)
    as (m2 & f & f2 & -> & Hset & Hfind & Hfind2 & Hdata2 & Hpin2 & _).
  rewrite Hfind1 in Hfind. injection Hfind as <-.
  exists m2, f2. repeat split; try done. congruence.
Qed.

End TablePool.

Section InsertThenGet.

Lemma pin_header_kept (fuel : nat) (w w' : World) (p : Z) (buf : list byte) :
  (exists m i f, pool_meta w = Some m /\ findPage m p = Some (i, f) /\ data f = buf /\
                 0 <= pinCount f /\ settled (pool_strategy w) m i) ->
  pin fuel 0 w = Some (RC_OK, w') -> kept w' p buf.
Proof.
  intros (m & i & f & Hlive & Hfind & Hdata & Hpos & Hset). unfold pin.
  destruct (pinPage fuel _ _ _ 0) as [[[[rc fs1] bm1] h1] |] eqn:Hpin; [| done].
  intros [= -> <-].
  destruct (pinPage_header_keeps_frame _ _ _ _ Hlive _ _ _ _ _ _ _ Hset Hfind Hpin)
    as (m' & f' & -> & Hfind' & Hdata' & Hpin').
  exists m', i, f'. repeat split; try done; [congruence | lia].
Qed.

(** The search loop of [insertRecord] ends holding the page it stopped
    at; the record's payload is not touched. *)
Lemma insert_search_holding (fuel turns : nat) (recordSize : Z) (s s' : World * RecordT) :
  (exists i, holding s.1 (page (id s.2)) i) ->
  insert_search fuel turns recordSize s = Some (s', inr tt) ->
  (exists i, holding s'.1 (page (id s'.2)) i) /\ rdata s'.2 = rdata s.2.
Proof.
  revert s. induction turns as [| k IH]; intros s Hhold H; simpl in H.
  - step_body H. destruct (_ =? -1); [done |]. by injection H as <-.
  - step_body H. destruct (_ =? -1); [| by injection H as <-].
    destruct Hhold as [i Hhold].
    step_body H as Hun. apply onW_ok_inv in Hun as [Hun Hun2].
    apply (unpin_holding_resting _ _ _ _ Hhold) in Hun.
    step_body H as Hrid. step_body H as Hp.
    step_body H as Hpin. apply onW_ok_inv in Hpin as [Hpin Hpin2].
    apply (pin_resting_holding _ _ _ _ Hun) in Hpin.
    step_body H as Hpc. step_body H as Hslot.
    apply IH in H.
    + destruct H as [Hh Hr]. split; [done |]. rewrite Hr. simpl. rewrite Hpin2. simpl.
      by rewrite Hun2.
    + simpl. rewrite Hpin2. simpl. done.
Qed.

Lemma slot_offset_lt (sl recordSize : Z) (off : nat) :
  slot_offset sl recordSize = Some off -> (off < PAGE_LEN)%nat.
Proof.
  unfold slot_offset. destruct (_ && _) eqn:Hrange; [| done]. intros [= <-].
  apply andb_prop in Hrange as [Hlo%Z.leb_le Hhi%Z.ltb_lt].
  assert (Hpl : Z.of_nat PAGE_LEN = PAGE_SIZE) by reflexivity. lia.
Qed.

(** [getRecord] on a resident page whose slot is occupied. *)
Lemma getRecord_kept (fuel : nat) (w : World) (rel : RM_TableData) (rid : RID) (r0 : RecordT)
    (buf : list byte) (off : nat) (rd : list byte) :
  kept w (page rid) buf ->
  0 < getRecordSize (schema rel) ->
  slot_offset (slot rid) (getRecordSize (schema rel)) = Some off ->
  buf !! off = Some PLUS ->
  read_slot buf off r0 (getRecordSize (schema rel)) = Some rd ->
  exists w', getRecord fuel w rel rid r0 = Some (RC_OK, (w', mkRecord rid rd)).
Proof.
  intros (m & i & f & Hlive & Hfind & Hdata & Hpos) Hrs Hoff Htomb Hread.
  unfold pool_meta in Hlive.
  pose proof (findPage_lookup _ _ _ _ Hfind) as [Hi Hp].
  unfold getRecord, run, getRecord_body.
  unfold bind at 1. unfold check at 1, onW at 1, pin, pinPage. simpl.
  rewrite Hlive, Hfind. simpl.
  destruct (Z.leb_spec (getRecordSize (schema rel)) 0) as [? | _]; [lia |].
  unfold bind at 1, defined at 1, page_content, handle_buffer. simpl.
  rewrite list_lookup_insert_eq by (by eapply lookup_lt_Some). simpl.
  unfold bind at 1, defined at 1. rewrite Hoff.
  unfold bind at 1, defined at 1. rewrite Hdata, Htomb. simpl.
  unfold bind at 1, update at 1. cbn [fst snd]. rewrite Hread. cbn [mbind option_bind].
  unfold check, onW, unpin, unpinPage. simpl.
  unfold findPage in *. simpl.
  rewrite (find_insert_same (page rid) _ _ f) by done.
  simpl. destruct (Z.gtb_spec (pinCount f + 1) 0) as [_ | ?]; [| lia].
  by eexists.
Qed.

End InsertThenGet.

(** C4 on the code.  In a table whose pool is at rest (the header page is
    pinned, or the pool runs LRU and has two frames that are free or
    unpinned): if [insertRecord] of a record [r] returns [RC_OK] and leaves
    the record as [r1], then [getRecord] on [id r1], into a record [r0]
    that has room for [getRecordSize] bytes, returns [RC_OK] with [id r1],
    but of the bytes of [r] it yields only those at positions 1 to
    [getRecordSize - 1], where [getRecordSize] is taken from the schema
    [openTable] rebuilt; byte 0 and every byte from [getRecordSize] on are
    those of [r0].  So the record read back is [r1] when [r] and [r0] have
    exactly [getRecordSize] bytes and agree on byte 0, and it is cut short
    when [r] is longer, as it is for a record made with the schema that
    was given to [createTable]. *)
Theorem insertRecord_then_getRecord (fuel fuel' : nat) (w w1 : World) (rel : RM_TableData)
    (r r1 r0 : RecordT) :
  resting w ->
  (Z.to_nat (getRecordSize (schema rel)) <= length (rdata r0))%nat ->
  insertRecord fuel w rel r = Some (RC_OK, (w1, r1)) ->
  rdata r1 = rdata r /\
  exists w2 r2,
    getRecord fuel' w1 rel (id r1) r0 = Some (RC_OK, (w2, r2)) /\
    id r2 = id r1 /\
    rdata r2 = take 1 (rdata r0)
               ++ take (Z.to_nat (getRecordSize (schema rel) - 1)) (drop 1 (rdata r))
               ++ drop (Z.to_nat (getRecordSize (schema rel))) (rdata r0) /\
    (length (rdata r) = Z.to_nat (getRecordSize (schema rel)) ->
     length (rdata r0) = Z.to_nat (getRecordSize (schema rel)) ->
     take 1 (rdata r0) = take 1 (rdata r) -> r2 = r1).
Proof.
  intros Hrest Hr0 H. unfold insertRecord in H.
  apply run_ok_inv in H; [| apply insertRecord_body_fails_only].
  unfold insertRecord_body in H.
  destruct (Z.leb_spec (getRecordSize (schema rel)) 0) as [| Hrs]; [done |].
  set (rs := getRecordSize (schema rel)) in *.
  step_body H as Hfree. step_body H as Hrid.
  step_body H as Hpin1. apply onW_ok_inv in Hpin1 as [Hpin1 Hpin1r].
  apply (pin_resting_holding _ _ _ _ Hrest) in Hpin1 as [i1 Hhold1].
  step_body H as Hpc. step_body H as Hslot.
  step_body H as Hloop. destruct a3.
  destruct s as [ws0 rec0]. simpl in Hhold1, Hpin1r, Hpc, Hloop. subst rec0.
  apply insert_search_holding in Hloop as [[i Hhold] Hrd]; [| by exists i1].
  simpl in Hrd. destruct s0 as [ws1 rec1]. simpl in Hhold, Hrd.
  step_body H as Hmd. apply onW_ok_inv in Hmd as [Hmd Hmd2].
  apply (mark_dirty_holding _ _ _ _ Hhold) in Hmd.
  step_body H as Hpc2. step_body H as Hoff. step_body H as Hrec.
  step_body H as Hst.
  destruct s as [ws2 rec2]. simpl in Hmd, Hmd2, Hpc2, Hoff, Hst. subst rec2.
  destruct (write_slot _ _ _ _) as [slotBuf |] eqn:Hws; [| done]. simpl in Hst.
  destruct (store_page _ ws2) as [ws3 |] eqn:Hst3; [| done]. simpl in Hst.
  injection Hst as <-.
  step_body H as Hun. apply onW_ok_inv in Hun as [Hun Hun2].
  destruct s as [ws4 rec4]. simpl in Hun, Hun2. subst rec4.
  destruct (store_unpin_kept _ _ _ _ _ _ Hmd Hst3 Hun)
    as (m4 & f4 & Hlive4 & Hfind4 & Hdata4 & Hpos4 & Hset4).
  step_body H as Hcount.
  apply check_inr_inv in H. apply onW_ok_inv in H as [Hpin2 Hpin2r].
  simpl in Hpin2, Hpin2r. subst rec1.
  apply (pin_header_kept _ _ _ (page (id r1)) slotBuf) in Hpin2;
    [| by exists m4, i, f4].
  assert (Hn : Datatypes.S (Z.to_nat (rs - 1)) = Z.to_nat rs) by lia.
  assert (Hr0' : (Datatypes.S (Z.to_nat (rs - 1)) <= length (rdata r0))%nat) by lia.
  pose proof (read_write_slot _ _ _ r0 _ _ Hws Hr0') as Hread.
  destruct (getRecord_kept fuel' w1 rel (id r1) r0 slotBuf _ _ Hpin2 Hrs Hoff
              (write_slot_tombstone _ _ _ _ _ Hws) Hread) as [w2 Hget].
  split; [done |]. eexists w2, _. split; [exact Hget |]. split; [done |].
  cbn [rdata]. rewrite Hn, Hrd. split; [done |].
  intros Hlr Hlr0 Hb0.
  rewrite (take_ge (drop 1 (rdata r))) by (rewrite length_drop; lia).
  rewrite (drop_ge (rdata r0)) by lia. rewrite app_nil_r, Hb0, take_drop.
  rewrite <- Hrd. by destruct r1 as [rid rd].
Qed.

(** The theorem above on the table that [createTable] makes for the schema
    [id : INT, name : STRING (10)] and [openTable] opens, with the record
    [(42, hello)] of that schema.  [openTable] reads the attributes from
    byte 12 of the header page, where [createTable] wrote the key size, so
    the schema of the opened table has two [INT] attributes and a record
    size of 9 instead of 15; the record read back is not the one inserted,
    and its name is [hell]. *)
Lemma insertRecord_then_getRecord_witness :
  let w := Examples.world_of Examples.opened_pairs in
  let rel := Examples.rel_of Examples.opened_pairs in
  let row := Examples.hello_row in
  let blank := Examples.blank_pair in
  getRecordSize Examples.pair_schema = 15 /\ getRecordSize (schema rel) = 9 /\
  length (rdata row) = 15%nat /\
  exists w1 r1,
    insertRecord 1 w rel row = Some (RC_OK, (w1, r1)) /\
    resting w /\
    (Z.to_nat (getRecordSize (schema rel)) <= length (rdata blank))%nat /\
    rdata r1 = rdata row /\
    exists w2 r2,
      getRecord 0 w1 rel (id r1) blank = Some (RC_OK, (w2, r2)) /\
      id r2 = id r1 /\
      rdata r2 = take 1 (rdata blank)
                 ++ take (Z.to_nat (getRecordSize (schema rel) - 1)) (drop 1 (rdata row))
                 ++ drop (Z.to_nat (getRecordSize (schema rel))) (rdata blank) /\
      rdata r2 <> rdata row /\
      (getAttr row Examples.pair_schema 1).2
        = Some (StringV (String.list_byte_of_string "hello")) /\
      (getAttr r2 Examples.pair_schema 1).2
        = Some (StringV (String.list_byte_of_string "hell")).
Proof.
  intros w rel row blank.
  assert (Hrest : resting w).
  { assert (Hsum : (fun m => ((fun f => (pinCount f, lastAccessed f, length (data f)))
                                <$> head m,
                              globalTimer m, totalFrames m, numFramesUsed m))
                     <$> pool_meta w
                   = Some ([(0, 1, PAGE_LEN)], 1, 100, 1)) by (vm_compute; reflexivity).
    destruct (pool_meta w) as [m |] eqn:Hm; [| discriminate Hsum].
    simpl in Hsum. injection Hsum as Hh Hg Ht Hu.
    destruct (head m) as [| f [| ? ?]] eqn:Hhead; try discriminate Hh.
    injection Hh as Hp Hl Hd.
    exists m. split; [exact Hm |]. split.
    - right. split; [vm_compute; reflexivity |].
      split; [unfold pins_ok; rewrite Hhead; repeat constructor; lia |].
      split; [unfold timer_ok; rewrite Hhead; repeat constructor; lia |].
      unfold spare. rewrite Hhead, Ht, Hu. simpl. unfold unpinned. rewrite Hp. simpl. lia.
    - unfold data_ok. rewrite Hhead. repeat constructor. exact Hd. }
  assert (Hsize : getRecordSize (schema rel) = 9) by (vm_compute; reflexivity).
  assert (Hblank : (Z.to_nat (getRecordSize (schema rel)) <= length (rdata blank))%nat)
    by (rewrite Hsize; vm_compute; lia).
  split; [vm_compute; reflexivity |]. split; [exact Hsize |].
  split; [vm_compute; reflexivity |].
  destruct (insertRecord 1 w rel row) as [[rc [w1 r1]] |] eqn:Hins.
  - exists w1, r1.
    assert (Hrc : rc = RC_OK).
    { assert (H : fst <$> insertRecord 1 w rel row = Some RC_OK) by (vm_compute; reflexivity).
      rewrite Hins in H. by injection H. }
    subst rc. split; [reflexivity |]. split; [exact Hrest |]. split; [exact Hblank |].
    destruct (insertRecord_then_getRecord 1 0 w w1 rel row r1 blank Hrest Hblank Hins)
      as (Hr1 & w2 & r2 & Hget & Hid & Hdata & _).
    split; [exact Hr1 |]. exists w2, r2.
    split; [exact Hget |]. split; [exact Hid |]. split; [exact Hdata |].
    rewrite Hsize in Hdata.
    split; [| split].
    + rewrite Hdata. vm_compute. discriminate.
    + vm_compute. reflexivity.
    + unfold getAttr. cbn -[rdata drop take c_string int_at].
      rewrite Hdata. vm_compute. reflexivity.
  - exfalso.
    assert (H : fst <$> insertRecord 1 w rel row = Some RC_OK) by (vm_compute; reflexivity).
    rewrite Hins in H. discriminate H.
Defined.

(** * The index manager *)

Import BTreeMgr.

Section Bytes.

Lemma Z_of_byte_of_Z (z : Z) : Z_of_byte (byte_of_Z z) = z mod 256.
Proof.
  unfold Z_of_byte, byte_of_Z.
  assert (Hr : 0 <= z mod 256 < 256) by (apply Z.mod_pos_bound; lia).
  destruct (Byte.of_N (Z.to_N (z mod 256))) as [b |] eqn:Hb.
  - apply Byte.to_of_N in Hb. change (default x00 (Some b)) with b.
    rewrite Hb || rewrite <- Hb. lia.
  - apply Byte.of_N_None_iff in Hb. lia.
Qed.

Lemma int_wrap_range (z : Z) : - 2 ^ 31 <= int_wrap z < 2 ^ 31.
Proof. unfold int_wrap. pose proof (Z.mod_pos_bound (z + 2 ^ 31) (2 ^ 32)). lia. Qed.

Lemma int_wrap_id (z : Z) : - 2 ^ 31 <= z < 2 ^ 31 -> int_wrap z = z.
Proof. intros Hz. unfold int_wrap. rewrite Z.mod_small by lia. lia. Qed.

Lemma int_wrap_mod (z : Z) : int_wrap (z mod 2 ^ 32) = int_wrap z.
Proof.
  unfold int_wrap. f_equal.
  rewrite Zplus_mod_idemp_l. done.
Qed.

Lemma bytes_sum (u : Z) :
  0 <= u < 2 ^ 32 ->
  u mod 256 + 2 ^ 8 * ((u / 2 ^ 8) mod 256) + 2 ^ 16 * ((u / 2 ^ 16) mod 256)
  + 2 ^ 24 * ((u / 2 ^ 24) mod 256) = u.
Proof.
  intros Hu.
  change (2 ^ 8) with 256. change (2 ^ 16) with (256 * 256).
  change (2 ^ 24) with (256 * 256 * 256). change (2 ^ 32) with (256 * 256 * 256 * 256) in Hu.
  rewrite <- !Z.div_div by lia.
  pose proof (Z.div_mod u 256 ltac:(lia)) as H0.
  pose proof (Z.div_mod (u / 256) 256 ltac:(lia)) as H1.
  pose proof (Z.div_mod (u / 256 / 256) 256 ltac:(lia)) as H2.
  assert (H3 : (u / 256 / 256 / 256) mod 256 = u / 256 / 256 / 256).
  { apply Z.mod_small. split; [repeat apply Z.div_pos; lia |].
    repeat (apply Z.div_lt_upper_bound; [lia |]). lia. }
  lia.
Qed.

Lemma length_bytes_of_int (z : Z) : length (bytes_of_int z) = 4%nat.
Proof. reflexivity. Qed.

Lemma lookup_memcpy_at (dst : list byte) (off : nat) (src : list byte) (n j : nat) :
  (off + n <= length dst)%nat -> (n <= length src)%nat ->
  memcpy_at dst off src n !! j
  = if decide (off <= j < off + n)%nat then src !! (j - off)%nat else dst !! j.
Proof.
  intros Hdst Hsrc. unfold memcpy_at.
  destruct (decide (off <= j < off + n)%nat) as [Hin | Hout].
  - rewrite lookup_app_r by (rewrite length_take; lia).
    rewrite length_take, Nat.min_l by lia.
    rewrite lookup_app_l by (rewrite length_take; lia).
    by rewrite lookup_take_lt by lia.
  - destruct (decide (j < off)%nat) as [Hlt | Hge].
    + rewrite lookup_app_l by (rewrite length_take; lia).
      by rewrite lookup_take_lt by lia.
    + rewrite lookup_app_r by (rewrite length_take; lia).
      rewrite length_take, Nat.min_l by lia.
      rewrite lookup_app_r by (rewrite length_take; lia).
      rewrite length_take, Nat.min_l by lia.
      rewrite lookup_drop. f_equal. lia.
Qed.

Lemma length_memcpy_at (dst : list byte) (off : nat) (src : list byte) (n : nat) :
  (off + n <= length dst)%nat -> (n <= length src)%nat ->
  length (memcpy_at dst off src n) = length dst.
Proof.
  intros Hdst Hsrc. unfold memcpy_at.
  rewrite !length_app, !length_take, length_drop. lia.
Qed.

Lemma length_store_int (buf : list byte) (off : nat) (z : Z) :
  (off + 4 <= length buf)%nat -> length (store_int buf off z) = length buf.
Proof. intros H. unfold store_int. by apply length_memcpy_at. Qed.

Lemma lookup_store_int_other (buf : list byte) (off : nat) (z : Z) (j : nat) :
  (off + 4 <= length buf)%nat -> (j < off \/ off + 4 <= j)%nat ->
  store_int buf off z !! j = buf !! j.
Proof.
  intros Hlen Hj. unfold store_int. rewrite lookup_memcpy_at by (simpl; lia).
  destruct (decide _); [lia | done].
Qed.

Lemma int_at_ext (buf buf' : list byte) (off : nat) :
  (forall k, (k < 4)%nat -> buf' !! (off + k)%nat = buf !! (off + k)%nat) ->
  int_at buf' off = int_at buf off.
Proof.
  intros H. unfold int_at.
  by rewrite (H 0%nat), (H 1%nat), (H 2%nat), (H 3%nat) by lia.
Qed.

Lemma int_at_store_int (buf : list byte) (off : nat) (z : Z) :
  (off + 4 <= length buf)%nat -> int_at (store_int buf off z) off = int_wrap z.
Proof.
  intros Hlen. unfold int_at, store_int.
  rewrite !lookup_memcpy_at by (simpl; lia).
  repeat (destruct (decide _); [| lia]).
  replace (off + 0 - off)%nat with 0%nat by lia.
  replace (off + 1 - off)%nat with 1%nat by lia.
  replace (off + 2 - off)%nat with 2%nat by lia.
  replace (off + 3 - off)%nat with 3%nat by lia.
  unfold bytes_of_int. simpl lookup. cbn [default]. unfold Datatypes.id.
  rewrite !Z_of_byte_of_Z.
  rewrite (bytes_sum (z mod 2 ^ 32)) by (apply Z.mod_pos_bound; lia).
  apply int_wrap_mod.
Qed.


Lemma int_at_store_int_other (buf : list byte) (off off' : nat) (z : Z) :
  (off + 4 <= length buf)%nat -> (off' + 4 <= off \/ off + 4 <= off')%nat ->
  int_at (store_int buf off z) off' = int_at buf off'.
Proof.
  intros Hlen Hoff. apply int_at_ext. intros k Hk.
  apply lookup_store_int_other; lia.
Qed.

Lemma length_store_bool (buf : list byte) (j : nat) (b : bool) :
  length (store_bool buf j b) = length buf.
Proof. apply length_insert. Qed.

Lemma int_at_store_bool_other (buf : list byte) (j off' : nat) (b : bool) :
  (j < off' \/ off' + 4 <= j)%nat ->
  int_at (store_bool buf j b) off' = int_at buf off'.
Proof.
  intros Hoff. apply int_at_ext. intros k Hk.
  unfold store_bool. apply list_lookup_insert_ne. lia.
Qed.

Lemma load_bool_store_int (buf : list byte) (off j : nat) (z : Z) :
  (off + 4 <= length buf)%nat -> (j < off \/ off + 4 <= j)%nat ->
  load_bool (store_int buf off z) j = load_bool buf j.
Proof.
  intros Hlen Hj. unfold load_bool. by rewrite lookup_store_int_other.
Qed.

Lemma load_bool_store_bool (buf : list byte) (j : nat) (b : bool) :
  (j < length buf)%nat -> load_bool (store_bool buf j b) j = b.
Proof.
  intros Hj. unfold load_bool, store_bool.
  rewrite list_lookup_insert_eq by done. by destruct b.
Qed.

Lemma load_bool_store_bool_other (buf : list byte) (j j' : nat) (b : bool) :
  j <> j' -> load_bool (store_bool buf j b) j' = load_bool buf j'.
Proof.
  intros Hj. unfold load_bool, store_bool. by rewrite list_lookup_insert_ne.
Qed.

End Bytes.

(** Reads of page fields after stores to page fields. *)
Ltac page_len :=
  repeat first [ rewrite length_store_bool | rewrite length_store_int by page_len ];
  lia.

Ltac page_fields :=
  unfold full_of, value1_of, value2_of, set_first, set_second, set_full, store_rid,
    node_at, sizeof_Node, off_mother, off_leaf, off_left, off_value1, off_mid, off_value2,
    off_right in *;
  repeat first
    [ rewrite int_at_store_int by page_len
    | rewrite int_at_store_int_other by page_len
    | rewrite int_at_store_bool_other by page_len
    | rewrite load_bool_store_int by page_len
    | rewrite load_bool_store_bool by page_len
    | rewrite load_bool_store_bool_other by page_len
    | rewrite length_store_bool
    | rewrite length_store_int by page_len ].

Section PageFields.

Variable buf : list byte.
Hypothesis Hlen : length buf = PAGE_LEN.

Let Hpl : PAGE_LEN = 4096%nat := eq_refl.

Lemma set_first_fields (r : RID) (v : Z) :
  length (set_first r v buf) = PAGE_LEN /\
  full_of (set_first r v buf) = full_of buf /\
  value1_of (set_first r v buf) = int_wrap v /\
  value2_of (set_first r v buf) = value2_of buf.
Proof. repeat split; page_fields; try done; lia. Qed.

Lemma set_second_fields (r : RID) (v : Z) :
  length (set_second r v buf) = PAGE_LEN /\
  full_of (set_second r v buf) = full_of buf /\
  value1_of (set_second r v buf) = value1_of buf /\
  value2_of (set_second r v buf) = int_wrap v.
Proof. repeat split; page_fields; try done; lia. Qed.

Lemma set_full_fields (b : bool) :
  length (set_full b buf) = PAGE_LEN /\
  full_of (set_full b buf) = b /\
  value1_of (set_full b buf) = value1_of buf /\
  value2_of (set_full b buf) = value2_of buf.
Proof. repeat split; page_fields; try done; lia. Qed.

Lemma initializeNewNode_fields (mother : Z) (isLeaf : bool) (l : RID) (v1 : Z) (m : RID) (v2 : Z)
    (r : RID) :
  let buf' := (initializeNewNode buf node_at mother isLeaf l v1 m v2 r).2 in
  (initializeNewNode buf node_at mother isLeaf l v1 m v2 r).1 = RC_OK /\
  length buf' = PAGE_LEN /\
  full_of buf' = full_of buf /\
  value1_of buf' = int_wrap v1 /\
  value2_of buf' = int_wrap v2.
Proof.
  unfold initializeNewNode. cbn [fst snd].
  repeat split; page_fields; try done; lia.
Qed.

End PageFields.

(** Reads of the [RID] fields. *)
(** A [RID] as the two [int] fields of a page keep it. *)
Definition wrap_rid (r : RID) : RID := mkRID (int_wrap (RecordMgr.page r)) (int_wrap (slot r)).

Ltac rid_fields :=
  unfold left_of, mid_of, load_rid; page_fields.

Section RidFields.

Variable buf : list byte.
Hypothesis Hlen : length buf = PAGE_LEN.

Let Hpl : PAGE_LEN = 4096%nat := eq_refl.

Lemma set_first_rids (r : RID) (v : Z) :
  left_of (set_first r v buf) = wrap_rid r /\ mid_of (set_first r v buf) = mid_of buf.
Proof. split; rid_fields; try done; lia. Qed.

Lemma set_second_rids (r : RID) (v : Z) :
  left_of (set_second r v buf) = left_of buf /\ mid_of (set_second r v buf) = wrap_rid r.
Proof. split; rid_fields; try done; lia. Qed.

Lemma set_full_rids (b : bool) :
  left_of (set_full b buf) = left_of buf /\ mid_of (set_full b buf) = mid_of buf.
Proof. split; rid_fields; try done; lia. Qed.

Lemma initializeNewNode_rids (mother : Z) (isLeaf : bool) (l : RID) (v1 : Z) (m : RID) (v2 : Z)
    (r : RID) :
  let buf' := (initializeNewNode buf node_at mother isLeaf l v1 m v2 r).2 in
  left_of buf' = wrap_rid l /\ mid_of buf' = wrap_rid m.
Proof.
  unfold initializeNewNode. cbn [fst snd].
  split; rid_fields; try done; lia.
Qed.

End RidFields.

(** ** The pages of the index in its pool *)

Section FrameLists.

(** The content of the frame that holds page [p]. *)
Definition frame_list (l : list DLNode) (p : Z) : option (list byte) :=
  r ← list_find (fun f => pageNum f = p) l; Some (data r.2).

(** Two frames with the same page and content. *)
Definition same_page (f g : DLNode) : Prop := pageNum g = pageNum f /\ data g = data f.

Lemma frame_list_same_page (l l1 : list DLNode) (p : Z) :
  Forall2 same_page l l1 -> frame_list l1 p = frame_list l p.
Proof.
  intros Hsame. unfold frame_list.
  destruct (list_find _ l) as [[i x] |] eqn:Hfind.
  - apply list_find_Some in Hfind as (Hi & Hx & Hmin).
    destruct (Forall2_lookup_l _ _ _ _ _ Hsame Hi) as (x1 & Hi1 & Hp1 & Hd1).
    assert (Hfind1 : list_find (fun f => pageNum f = p) l1 = Some (i, x1)).
    { apply list_find_Some. split; [done |]. split; [congruence |].
      intros j z Hj Hlt Hz.
      destruct (Forall2_lookup_r _ _ _ _ _ Hsame Hj) as (z0 & Hj0 & Hpz & _).
      apply (Hmin j z0 Hj0 Hlt). congruence. }
    rewrite Hfind1. simpl. by rewrite Hd1.
  - apply list_find_None in Hfind.
    assert (Hfind1 : list_find (fun f => pageNum f = p) l1 = None).
    { apply list_find_None, Forall_lookup. intros j z Hj Hz.
      destruct (Forall2_lookup_r _ _ _ _ _ Hsame Hj) as (z0 & Hj0 & Hpz & _).
      apply (Forall_lookup_1 _ _ _ _ Hfind Hj0). congruence. }
    by rewrite Hfind1.
Qed.

Lemma same_page_insert (l : list DLNode) (i : nat) (f g : DLNode) :
  l !! i = Some f -> same_page f g -> Forall2 same_page l (<[i := g]> l).
Proof.
  intros Hf Hfg. apply Forall2_same_length_lookup_2; [by rewrite length_insert |].
  intros j x y Hx Hy. destruct (decide (j = i)) as [-> | Hne].
  - rewrite list_lookup_insert_eq in Hy by (by eapply lookup_lt_Some).
    injection Hy as <-. rewrite Hf in Hx. by injection Hx as <-.
  - rewrite list_lookup_insert_ne in Hy by done.
    rewrite Hx in Hy. injection Hy as <-. by split.
Qed.

(** A frame added for page [p] changes the content of [p] only. *)
Lemma frame_list_app (l : list DLNode) (g : DLNode) (q : Z) :
  list_find (fun f => pageNum f = pageNum g) l = None ->
  frame_list (l ++ [g]) q = if decide (q = pageNum g) then Some (data g) else frame_list l q.
Proof.
  intros Hnone. unfold frame_list. destruct (decide (q = pageNum g)) as [-> | Hne].
  - by rewrite (find_app_fresh (pageNum g) l g Hnone eq_refl).
  - destruct (list_find (fun f => pageNum f = q) l) as [[i x] |] eqn:Hfind.
    + by rewrite (list_find_app_l _ _ _ _ _ Hfind).
    + rewrite list_find_app_r by done. simpl. by rewrite decide_False by congruence.
Qed.

(** A store to the frame that holds page [p] changes the content of [p]
    only. *)
Lemma frame_list_store (l : list DLNode) (i : nat) (f : DLNode) (buf : list byte) (p q : Z) :
  list_find (fun f' => pageNum f' = p) l = Some (i, f) ->
  frame_list (<[i := set_data f buf]> l) q
  = if decide (q = p) then Some buf else frame_list l q.
Proof.
  intros Hfind. pose proof Hfind as (Hi & Hp & _)%list_find_Some.
  unfold frame_list. destruct (decide (q = p)) as [-> | Hne].
  - by rewrite (find_insert_same p l i f (set_data f buf) Hfind Hp).
  - destruct (list_find (fun f' => pageNum f' = q) l) as [[j x] |] eqn:Hq.
    + pose proof Hq as (Hj & Hx & _)%list_find_Some.
      assert (Hji : i <> j) by (intros ->; congruence).
      rewrite (find_insert_other q l j i x (set_data f buf) Hq Hji); [done |].
      simpl. congruence.
    + assert (Hnone : list_find (fun f' => pageNum f' = q) (<[i := set_data f buf]> l) = None).
      { apply list_find_None, Forall_lookup. intros j z Hj.
        apply list_find_None in Hq.
        destruct (decide (j = i)) as [-> | Hji].
        - rewrite list_lookup_insert_eq in Hj by (by eapply lookup_lt_Some).
          injection Hj as <-. simpl. congruence.
        - rewrite list_lookup_insert_ne in Hj by done.
          apply (Forall_lookup_1 _ _ _ _ Hq Hj). }
      by rewrite Hnone.
Qed.

End FrameLists.

Section IndexPool.

Definition pool (x : IndexWorld) : option BufferPoolMetadata := mgmtData (bm (trInfo x)).

(** The content of page [p] in the index's pool. *)
Definition frame (x : IndexWorld) (p : Z) : option (list byte) :=
  m ← pool x; frame_list (head m) p.

(** The index's page handle points at the frame that holds page [p], and
    the frame is pinned. *)
Definition holds (x : IndexWorld) (p : Z) : Prop :=
  exists m i f, pool x = Some m /\ page (trInfo x) = mkPageHandle p (Some i) /\
                findPage m p = Some (i, f) /\ 0 < pinCount f.

Definition good (x : IndexWorld) : Prop :=
  exists m, pool x = Some m /\ data_ok m /\ pins_ok m.

(** The pool has a frame that was never used. *)
Definition room (x : IndexWorld) : Prop :=
  exists m, pool x = Some m /\ numFramesUsed m < totalFrames m.

Definition same_globals (x x' : IndexWorld) : Prop :=
  lastPage x' = lastPage x /\ scanCount x' = scanCount x /\
  globalCount (trInfo x') = globalCount (trInfo x).

Lemma same_globals_refl (x : IndexWorld) : same_globals x x.
Proof. done. Qed.

Lemma same_globals_trans (x y z : IndexWorld) :
  same_globals x y -> same_globals y z -> same_globals x z.
Proof. intros (? & ? & ?) (? & ? & ?). repeat split; congruence. Qed.

Lemma frame_holds (x : IndexWorld) (p : Z) :
  holds x p -> page_data x = frame x p.
Proof.
  intros (m & i & f & Hlive & Hpage & Hfind & _).
  unfold page_data, handle_buffer, frame, frame_list, pool in *.
  rewrite Hlive, Hpage. simpl. unfold findPage in Hfind. rewrite Hfind. simpl.
  apply list_find_Some in Hfind as (Hi & _). by rewrite Hi.
Qed.

Lemma frame_length (x : IndexWorld) (p : Z) (buf : list byte) :
  good x -> frame x p = Some buf -> length buf = PAGE_LEN.
Proof.
  intros (m & Hlive & Hd & _). unfold frame, frame_list, pool in *. rewrite Hlive. simpl.
  destruct (list_find _ _) as [[i f] |] eqn:Hfind; [| done]. simpl. intros [= <-].
  apply list_find_Some in Hfind as (Hi & _).
  apply (Forall_lookup_1 _ _ _ _ Hd Hi).
Qed.

(** A successful pin that needs no victim: the page is resident, or a
    frame is free. *)
Lemma pinI_ok (fuel : nat) (p : Z) (x x' : IndexWorld) :
  good x -> frame x p <> None \/ room x ->
  pinI fuel p x = Some (RC_OK, x') ->
  good x' /\ holds x' p /\ same_globals x x' /\
  (frame x p <> None -> room x -> room x') /\
  exists buf, length buf = PAGE_LEN /\ (forall b, frame x p = Some b -> buf = b) /\
              forall q, frame x' q = if decide (q = p) then Some buf else frame x q.
Proof.
  intros (m & Hlive & Hd & Hpins) Hcan. unfold pinI. unfold pool in Hlive.
  destruct (pinPage fuel _ _ _ p) as [[[[rc fs1] bm1] h1] |] eqn:Hpin; [| done].
  intros [= -> <-].
  destruct (pinPage_ok_inv _ _ _ _ Hlive _ _ _ _ _ Hpin) as (m' & -> & Ht & Hg & Hcases).
  assert (Hframe : forall q, frame x q = frame_list (head m) q)
    by (intros q; unfold frame, pool in *; by rewrite Hlive).
  set (x' := mkIndexWorld _ _ _ _).
  assert (Hframe' : forall q, frame x' q = frame_list (head m') q) by done.
  assert (Hpool' : pool x' = Some m') by done.
  assert (Hpage' : page (trInfo x') = h1) by done.
  assert (Hglob : same_globals x x') by done.
  clearbody x'.
  destruct Hcases as [(i & f & Hfind & -> & _ & Hh & Hu) |
                      [(buf & Hlen & Hnone & Hroom & -> & Hh & Hu) |
                       (m1 & v & victim & buf & Hlen & Hnone & Hfull & _)]].
  - pose proof (findPage_lookup _ _ _ _ Hfind) as [Hi Hp].
    set (f' := mkNode _ _ _ _ _ _) in Hh.
    assert (Hsame : Forall2 same_page (head m) (head m'))
      by (rewrite Hh; by apply (same_page_insert _ _ f)).
    assert (Hfp : frame_list (head m) p = Some (data f))
      by (unfold frame_list; unfold findPage in Hfind; by rewrite Hfind).
    split; [| split; [| split; [done | split]]].
    + pose proof (Forall_lookup_1 _ _ _ _ Hpins Hi) as Hpin0. simpl in Hpin0.
      exists m'. split; [done |]. unfold data_ok, pins_ok. rewrite Hh.
      split; (apply Forall_insert; [done |]); [apply (Forall_lookup_1 _ _ _ _ Hd Hi) |].
      simpl. lia.
    + pose proof (Forall_lookup_1 _ _ _ _ Hpins Hi) as Hpin0. simpl in Hpin0.
      exists m', i, f'. split; [done |]. split; [done |]. split; [| simpl; lia].
      unfold findPage in *. rewrite Hh. by apply (find_insert_same p _ _ f).
    + intros _ (m0 & Hlive0 & Hroom). unfold pool in Hlive0.
      rewrite Hlive in Hlive0. injection Hlive0 as <-.
      exists m'. split; [done | lia].
    + exists (data f). split; [apply (Forall_lookup_1 _ _ _ _ Hd Hi) |].
      split; [intros b; rewrite Hframe, Hfp; by intros [= <-] |].
      intros q. rewrite Hframe', (frame_list_same_page _ _ q Hsame), Hframe.
      destruct (decide (q = p)) as [-> | _]; done.
  - set (g := mkNode _ _ _ _ _ _) in Hh.
    split; [| split; [| split; [done | split]]].
    + exists m'. split; [done |]. unfold data_ok, pins_ok. rewrite Hh.
      split; (apply Forall_app; split; [done |]); by apply Forall_singleton.
    + exists m', (length (head m)), g. split; [done |]. split; [done |]. split; [| done].
      unfold findPage in *. rewrite Hh. by apply find_app_fresh.
    + intros Hres. exfalso. apply Hres. rewrite Hframe. unfold frame_list.
      unfold findPage in Hnone. by rewrite Hnone.
    + exists buf. split; [done |].
      split; [intros b; rewrite Hframe; unfold frame_list; unfold findPage in Hnone;
              by rewrite Hnone |].
      intros q. rewrite Hframe', Hh, Hframe.
      by rewrite (frame_list_app (head m) g q Hnone).
  - exfalso. destruct Hcan as [Hres | (m0 & Hlive0 & Hroom)].
    + apply Hres. rewrite Hframe. unfold frame_list. unfold findPage in Hnone.
      by rewrite Hnone.
    + unfold pool in Hlive0. rewrite Hlive in Hlive0. injection Hlive0 as <-. lia.
Qed.


(** A change of frame [i] that keeps its page and content. *)
Lemma frame_kept (x x' : IndexWorld) (m : BufferPoolMetadata) (p : Z) (i : nat) (f g : DLNode) :
  pool x = Some m -> findPage m (hPageNum (page (trInfo x))) = Some (i, f) ->
  same_page f g -> (0 <= pinCount f -> 0 <= pinCount g) ->
  pool x' = Some (set_head m (<[i := g]> (head m))) ->
  page (trInfo x') = page (trInfo x) ->
  (good x -> good x') /\ ((0 < pinCount f -> 0 < pinCount g) -> holds x p -> holds x' p) /\
  (room x -> room x') /\
  forall q, frame x' q = frame x q.
Proof.
  intros Hlive Hfind [Hpn Hdata] Hpin Hlive' Hpage'.
  pose proof (findPage_lookup _ _ _ _ Hfind) as [Hi Hp].
  split; [| split; [| split]].
  - intros (m0 & Hlive0 & Hd & Hpins). rewrite Hlive in Hlive0. injection Hlive0 as <-.
    eexists. split; [exact Hlive' |]. unfold data_ok, pins_ok. simpl.
    split; (apply Forall_insert; [done |]).
    + rewrite Hdata. apply (Forall_lookup_1 _ _ _ _ Hd Hi).
    + apply Hpin. apply (Forall_lookup_1 _ _ _ _ Hpins Hi).
  - intros Hpos (m0 & j & f0 & Hlive0 & Hpage & Hfind0 & Hpin0).
    rewrite Hlive in Hlive0. injection Hlive0 as <-.
    rewrite Hpage in Hfind. simpl in Hfind.
    destruct (findPage_inj _ _ _ _ _ _ Hfind Hfind0) as [-> ->].
    eexists _, j, g. split; [exact Hlive' |]. split; [congruence |].
    pose proof (findPage_lookup _ _ _ _ Hfind0) as [_ Hp0].
    split; [| by apply Hpos].
    unfold findPage in *. simpl. apply (find_insert_same p _ _ f0); [done |]. congruence.
  - intros (m0 & Hlive0 & Hroom). rewrite Hlive in Hlive0. injection Hlive0 as <-.
    eexists. split; [exact Hlive' |]. done.
  - intros q. unfold frame. rewrite Hlive, Hlive'. simpl.
    apply frame_list_same_page. by apply (same_page_insert _ _ f).
Qed.

Lemma markI_ok (p : Z) (x x' : IndexWorld) :
  markI x = Some (RC_OK, x') ->
  (good x -> good x') /\ (holds x p -> holds x' p) /\ (room x -> room x') /\
  same_globals x x' /\ forall q, frame x' q = frame x q.
Proof.
  unfold markI.
  destruct (markDirty _ _) as [[rc bm1] |] eqn:Hmd; [| done]. intros [= -> <-].
  destruct (mgmtData (bm (trInfo x))) as [m |] eqn:Hlive;
    [| unfold markDirty in Hmd; by rewrite Hlive in Hmd].
  destruct (markDirty_ok_inv _ _ Hlive _ _ Hmd) as (i & f & Hfind & ->).
  destruct (frame_kept x (with_tree x (fun t => set_bm t (set_mgmtData (bm (trInfo x))
              (Some (set_head m (<[i := set_isDirty f true]> (head m)))))))
              m p i f (set_isDirty f true) Hlive Hfind) as (Hg & Hh & Hr & Hf); try done.
  repeat split; try done. by apply Hh.
Qed.

Lemma unpinI_ok (x x' : IndexWorld) :
  unpinI x = Some (RC_OK, x') ->
  (good x -> good x') /\ (room x -> room x') /\
  same_globals x x' /\ forall q, frame x' q = frame x q.
Proof.
  unfold unpinI.
  destruct (unpinPage _ _) as [[rc bm1] |] eqn:Hun; [| done]. intros [= -> <-].
  destruct (mgmtData (bm (trInfo x))) as [m |] eqn:Hlive;
    [| unfold unpinPage in Hun; by rewrite Hlive in Hun].
  destruct (unpinPage_ok_inv _ _ Hlive _ _ Hun) as (i & f & Hfind & Hpos & ->).
  destruct (frame_kept x (with_tree x (fun t => set_bm t (set_mgmtData (bm (trInfo x))
              (Some (set_head m (<[i := set_pinCount f (pinCount f - 1)]> (head m)))))))
              m 0 i f (set_pinCount f (pinCount f - 1)) Hlive Hfind) as (Hg & Hh & Hr & Hf);
    try done.
  simpl. lia.
Qed.

(** A store through the page handle changes the page it points at. *)
Lemma store_data_ok (g : list byte -> list byte) (p : Z) (x x' : IndexWorld) :
  holds x p -> store_data g x = Some x' ->
  exists buf, frame x p = Some buf /\
    (good x -> length (g buf) = PAGE_LEN -> good x') /\ holds x' p /\
    (room x -> room x') /\ same_globals x x' /\
    forall q, frame x' q = if decide (q = p) then Some (g buf) else frame x q.
Proof.
  intros Hholds. pose proof (frame_holds x p Hholds) as Hpd.
  destruct Hholds as (m & i & f & Hlive & Hpage & Hfind & Hpos).
  unfold store_data. rewrite Hpd.
  destruct (frame x p) as [buf |] eqn:Hbuf; [| done]. simpl.
  unfold store_buffer. unfold pool in Hlive. rewrite Hlive, Hpage. simpl.
  pose proof (findPage_lookup _ _ _ _ Hfind) as [Hi Hp]. rewrite Hi. simpl.
  intros [= <-]. exists buf. split; [done |].
  split; [| split; [| split; [| split; [done |]]]].
  - intros (m0 & Hlive0 & Hd & Hpins) Hlen. unfold pool in Hlive0.
    rewrite Hlive in Hlive0. injection Hlive0 as <-.
    eexists. split; [reflexivity |]. unfold data_ok, pins_ok. simpl.
    split; (apply Forall_insert; [done |]); [done |].
    apply (Forall_lookup_1 _ _ _ _ Hpins Hi).
  - eexists _, i, (set_data f (g buf)). split; [reflexivity |]. split; [done |].
    split; [| done].
    unfold findPage in *. simpl. by apply (find_insert_same p _ _ f).
  - intros (m0 & Hlive0 & Hroom). unfold pool in Hlive0.
    rewrite Hlive in Hlive0. injection Hlive0 as <-.
    eexists. split; [reflexivity |]. done.
  - intros q. unfold frame at 1. simpl.
    rewrite (frame_list_store (head m) i f (g buf) p q Hfind).
    destruct (decide (q = p)); [done |]. unfold frame, pool. by rewrite Hlive.
Qed.


Lemma handlePagePinning_fails_only (fuel : nat) (p : Z) (d : bool) :
  fails_only (check (pinI fuel p);;;
              if d then check_or markI (ignore unpinI) else ret tt).
Proof.
  apply fails_only_bind; [apply fails_only_check |]. intros _.
  destruct d; [apply fails_only_check_or | apply fails_only_ret].
Qed.

(** [handlePagePinning] on a page that is resident or can get a free
    frame: the handle points at the page, and no other page changes. *)
Lemma handlePagePinning_ok (fuel : nat) (p : Z) (d : bool) (x x' : IndexWorld) :
  good x -> frame x p <> None \/ room x ->
  handlePagePinning fuel p d x = Some (RC_OK, x') ->
  good x' /\ holds x' p /\ same_globals x x' /\
  (frame x p <> None -> room x -> room x') /\
  exists buf, length buf = PAGE_LEN /\ (forall b, frame x p = Some b -> buf = b) /\
              forall q, frame x' q = if decide (q = p) then Some buf else frame x q.
Proof.
  intros Hgood Hcan H. unfold handlePagePinning in H.
  apply run_ok_inv in H; [| apply handlePagePinning_fails_only].
  step_body H as Hpin.
  destruct (pinI_ok _ _ _ _ Hgood Hcan Hpin) as (Hg1 & Hh1 & Hgl1 & Hr1 & buf & Hlen & Hold & Hfr).
  destruct d.
  - apply check_or_inr_inv in H.
    destruct (markI_ok p _ _ H) as (Hg2 & Hh2 & Hr2 & Hgl2 & Hfr2).
    split; [auto |]. split; [auto |]. split; [by eapply same_globals_trans |].
    split; [auto |].
    exists buf. split; [done |]. split; [done |]. intros q. by rewrite Hfr2, Hfr.
  - injection H as <-. split; [done |]. split; [done |]. split; [done |]. split; [done |].
    by exists buf.
Qed.

End IndexPool.

(** ** The entries of the index *)

Section Entries.

(** The sum of [f] over the pages 1 to [n]. *)
Fixpoint sum_to (f : Z -> Z) (n : nat) : Z :=
  match n with
  | O => 0
  | Datatypes.S k => sum_to f k + f (Z.of_nat (Datatypes.S k))
  end.

Lemma sum_to_ext (f g : Z -> Z) (n : nat) :
  (forall p, 1 <= p <= Z.of_nat n -> g p = f p) -> sum_to g n = sum_to f n.
Proof.
  induction n as [| k IH]; intros Hfg; [done |].
  cbn [sum_to]. rewrite IH by (intros p Hp; apply Hfg; lia).
  rewrite Hfg by lia. done.
Qed.

(** A change at one page. *)
Lemma sum_to_change (f g : Z -> Z) (n : nat) (p0 : Z) :
  1 <= p0 <= Z.of_nat n ->
  (forall p, 1 <= p <= Z.of_nat n -> p <> p0 -> g p = f p) ->
  sum_to g n = sum_to f n - f p0 + g p0.
Proof.
  induction n as [| k IH]; intros Hp0 Hfg; [lia |].
  cbn [sum_to]. destruct (decide (p0 = Z.of_nat (Datatypes.S k))) as [-> | Hne].
  - rewrite (sum_to_ext f g k) by (intros p Hp; apply Hfg; lia). lia.
  - rewrite IH by (try (intros p Hp Hpp; apply Hfg); lia).
    rewrite (Hfg (Z.of_nat (Datatypes.S k))) by lia. lia.
Qed.

Lemma sum_to_last (f : Z -> Z) (n : Z) :
  1 <= n -> sum_to f (Z.to_nat n) = sum_to f (Z.to_nat (n - 1)) + f n.
Proof.
  intros Hn. replace (Z.to_nat n) with (Datatypes.S (Z.to_nat (n - 1))) by lia.
  cbn [sum_to]. do 2 f_equal. lia.
Qed.

(** What the two slots of a page weigh under [h]; a key weighs [h key]
    and an empty slot, marked by -1, nothing. *)
Definition page_weight (h : Z -> Z) (o : option (list byte)) : Z :=
  match o with
  | Some buf => h (value1_of buf) + h (value2_of buf)
  | None => 0
  end.

(** The sum of the weights of the slots of the pages 1 to [lastPage]. *)
Definition measure (h : Z -> Z) (x : IndexWorld) : Z :=
  sum_to (fun p => page_weight h (frame x p)) (Z.to_nat (lastPage x)).

(** 1 for a slot that holds an entry. *)
Definition taken (v : Z) : Z := if v =? -1 then 0 else 1.

(** 1 for a slot that holds the key [k]. *)
Definition holds_key (k v : Z) : Z := if v =? k then 1 else 0.

(** The number of slots that hold an entry. *)
Definition live_entries (x : IndexWorld) : Z := measure taken x.

(** The number of slots that hold the key [k]. *)
Definition occurrences (k : Z) (x : IndexWorld) : Z := measure (holds_key k) x.

Definition unique_keys (x : IndexWorld) : Prop :=
  forall k, k <> -1 -> occurrences k x <= 1.

(** Page [p] of the index: its first slot is taken; the second slot is
    taken too, and the page marked full, unless [p] is the last page, where
    the mark tells whether the second slot is taken. *)
Definition page_ok (x : IndexWorld) (p : Z) : Prop :=
  exists buf, frame x p = Some buf /\ value1_of buf <> -1 /\
    if decide (p = lastPage x) then (full_of buf = true <-> value2_of buf <> -1)
    else full_of buf = true /\ value2_of buf <> -1.

(** The pages 1 to [lastPage] are in the pool and hold the entries
    densely. *)
Definition well_formed (x : IndexWorld) : Prop :=
  good x /\ 0 <= lastPage x /\ forall p, 1 <= p <= lastPage x -> page_ok x p.

Definition count_ok (x : IndexWorld) : Prop := globalCount (trInfo x) = live_entries x.

Definition last_page_not_empty (x : IndexWorld) : Prop :=
  lastPage x = 0 \/
  exists buf, frame x (lastPage x) = Some buf /\
              (value1_of buf <> -1 \/ value2_of buf <> -1).

Lemma well_formed_last_page (x : IndexWorld) : well_formed x -> last_page_not_empty x.
Proof.
  intros (_ & Hlp & Hpages). destruct (decide (lastPage x = 0)) as [Hz | Hnz]; [by left |].
  right. destruct (Hpages (lastPage x)) as (buf & Hbuf & Hv1 & _); [lia |].
  exists buf. auto.
Qed.

(** The measure when the pages up to [lastPage] are as before but for
    page [p0]. *)
Lemma measure_change (h : Z -> Z) (x x' : IndexWorld) (p0 : Z) :
  lastPage x' = lastPage x -> 1 <= p0 <= lastPage x ->
  (forall q, 1 <= q <= lastPage x -> q <> p0 -> frame x' q = frame x q) ->
  measure h x' = measure h x - page_weight h (frame x p0) + page_weight h (frame x' p0).
Proof.
  intros Hlp Hp0 Hfr. unfold measure. rewrite Hlp.
  apply (sum_to_change (fun p => page_weight h (frame x p))); [lia |].
  intros p Hp Hne. rewrite Hfr by lia. done.
Qed.

(** The measure when the last page is given up. *)
Lemma measure_shrink (h : Z -> Z) (x x' : IndexWorld) :
  lastPage x' = lastPage x - 1 -> 1 <= lastPage x ->
  (forall q, 1 <= q < lastPage x -> frame x' q = frame x q) ->
  measure h x' = measure h x - page_weight h (frame x (lastPage x)).
Proof.
  intros Hlp Hpos Hfr. unfold measure. rewrite Hlp, (sum_to_last _ (lastPage x)) by done.
  rewrite (sum_to_ext (fun p => page_weight h (frame x p))
                      (fun p => page_weight h (frame x' p))); [lia |].
  intros p Hp. rewrite Hfr by lia. done.
Qed.

(** The measure when a page is added. *)
Lemma measure_grow (h : Z -> Z) (x x' : IndexWorld) :
  lastPage x' = lastPage x + 1 -> 0 <= lastPage x ->
  (forall q, 1 <= q <= lastPage x -> frame x' q = frame x q) ->
  measure h x' = measure h x + page_weight h (frame x' (lastPage x')).
Proof.
  intros Hlp Hpos Hfr. unfold measure.
  rewrite (sum_to_last _ (lastPage x')) by lia. rewrite Hlp.
  replace (lastPage x + 1 - 1) with (lastPage x) by lia.
  rewrite (sum_to_ext (fun p => page_weight h (frame x p))
                      (fun p => page_weight h (frame x' p))); [lia |].
  intros p Hp. rewrite Hfr by lia. done.
Qed.

End Entries.

(** ** insertKey *)

Section InsertKey.

Lemma on_page_ok (f : list byte -> RC * list byte) (p : Z) (x x' : IndexWorld) (rc : RC) :
  holds x p -> on_page f x = Some (rc, x') ->
  exists buf, frame x p = Some buf /\ rc = (f buf).1 /\
    (good x -> length (f buf).2 = PAGE_LEN -> good x') /\ holds x' p /\
    (room x -> room x') /\ same_globals x x' /\
    forall q, frame x' q = if decide (q = p) then Some (f buf).2 else frame x q.
Proof.
  intros Hholds. unfold on_page. rewrite (frame_holds x p Hholds).
  destruct (frame x p) as [buf |] eqn:Hbuf; [| done]. simpl.
  destruct (store_data _ x) as [x1 |] eqn:Hst; [| done]. simpl. intros [= <- <-].
  destruct (store_data_ok _ p _ _ Hholds Hst) as (buf0 & Hbuf0 & Hrest).
  rewrite Hbuf in Hbuf0. injection Hbuf0 as <-.
  exists buf. split; [done |]. split; [done |]. exact Hrest.
Qed.

Lemma new_page_entry_fails_only (key : Z) (rid : RID) : fails_only (new_page_entry key rid).
Proof.
  unfold new_page_entry.
  apply fails_only_bind; [apply fails_only_update |]. intros _.
  apply fails_only_bind; [apply fails_only_check_or |]. intros _.
  apply fails_only_check.
Qed.

(** The page the handle points at becomes a page with one entry. *)
Lemma new_page_entry_ok (key : Z) (rid : RID) (p : Z) (x x' : IndexWorld) :
  good x -> holds x p -> - 2 ^ 31 <= key < 2 ^ 31 ->
  new_page_entry key rid x = Some (x', inr tt) ->
  good x' /\ same_globals x x' /\
  (exists buf', frame x' p = Some buf' /\ full_of buf' = false /\
                value1_of buf' = key /\ value2_of buf' = -1 /\ left_of buf' = wrap_rid rid) /\
  forall q, q <> p -> frame x' q = frame x q.
Proof.
  intros Hgood Hholds Hkey H. unfold new_page_entry in H.
  step_body H as Hst.
  destruct (store_data_ok _ p _ _ Hholds Hst)
    as (buf & Hbuf & Hg1 & Hh1 & _ & Hgl1 & Hfr1).
  pose proof (frame_length _ _ _ Hgood Hbuf) as Hlen.
  destruct (set_full_fields buf Hlen false) as (Hl1 & Hf1 & _).
  specialize (Hg1 Hgood Hl1).
  step_body H as Hinit.
  destruct (on_page_ok _ p _ _ _ Hh1 Hinit)
    as (buf1 & Hbuf1 & _ & Hg2 & Hh2 & _ & Hgl2 & Hfr2).
  rewrite Hfr1, decide_True in Hbuf1 by done. injection Hbuf1 as <-.
  destruct (initializeNewNode_fields (set_full false buf) Hl1 (-1) true rid key INIT_RID (-1)
              INIT_RID) as (_ & Hl2 & Hf2 & Hv1 & Hv2).
  destruct (initializeNewNode_rids (set_full false buf) Hl1 (-1) true rid key INIT_RID (-1)
              INIT_RID) as (Hleft & _).
  specialize (Hg2 Hg1 Hl2).
  apply check_inr_inv in H.
  destruct (unpinI_ok _ _ H) as (Hg3 & _ & Hgl3 & Hfr3).
  split; [auto |].
  split; [eapply same_globals_trans; [eapply same_globals_trans |]; eassumption |].
  split.
  - eexists. rewrite Hfr3, Hfr2, decide_True by done. split; [reflexivity |].
    rewrite Hf2, Hf1, Hv1, Hv2, Hleft. rewrite !int_wrap_id by lia. done.
  - intros q Hq. rewrite Hfr3, Hfr2, decide_False, Hfr1, decide_False by done. done.
Qed.


Lemma insertKey_body_fails_only (fuel : nat) (key : Z) (rid : RID) :
  fails_only (insertKey_body fuel key rid).
Proof.
  unfold insertKey_body.
  apply fails_only_bind; [apply fails_only_gets |]. intros lp.
  apply fails_only_bind; [| intros _; apply fails_only_modify].
  destruct (lp =? 0).
  - repeat (apply fails_only_bind;
            [first [apply fails_only_check | apply fails_only_modify] | intros ?]).
    apply new_page_entry_fails_only.
  - apply fails_only_bind; [apply fails_only_check |]. intros _.
    apply fails_only_bind; [apply fails_only_defined |]. intros buf.
    destruct (full_of buf).
    + repeat (apply fails_only_bind;
              [first [apply fails_only_check | apply fails_only_modify] | intros ?]).
      apply new_page_entry_fails_only.
    + repeat (apply fails_only_bind; [apply fails_only_update | intros ?]).
      apply fails_only_check.
Qed.

(** The entry [(k, r)] is in the first or in the second slot of the
    page. *)
Definition first_slot (k : Z) (r : RID) (buf : list byte) : Prop :=
  value1_of buf = k /\ left_of buf = r.
Definition second_slot (k : Z) (r : RID) (buf : list byte) : Prop :=
  value2_of buf = k /\ mid_of buf = r.

(** The last page of [x'] holds the entry [(k, r)] that was added to
    [x]. *)
Definition added_last (x x' : IndexWorld) (k : Z) (r : RID) : Prop :=
  1 <= lastPage x' /\
  (forall q, 1 <= q <= lastPage x -> q <> lastPage x' -> frame x' q = frame x q) /\
  exists buf', frame x' (lastPage x') = Some buf' /\
    ((lastPage x' = lastPage x + 1 /\ first_slot k r buf') \/
     (lastPage x' = lastPage x /\ second_slot k r buf' /\
      exists buf, frame x (lastPage x) = Some buf /\ value1_of buf' = value1_of buf)).

(** What a successful [insertKey] does to a well-formed index, when the
    page it may have to add is in the pool or can get a free frame: the
    index stays well formed, [globalCount] goes up by one, the slots hold
    the key once more and are otherwise as before, and the entry is on the
    last page. *)
Lemma insertKey_ok (fuel : nat) (x x' : IndexWorld) (key : Z) (rid : RID) :
  well_formed x -> - 2 ^ 31 <= key < 2 ^ 31 -> key <> -1 ->
  frame x (lastPage x + 1) <> None \/ room x ->
  insertKey fuel x key rid = Some (RC_OK, x') ->
  well_formed x' /\ globalCount (trInfo x') = globalCount (trInfo x) + 1 /\
  (forall h, h (-1) = 0 -> measure h x' = measure h x + h key) /\
  added_last x x' key (wrap_rid rid).
Proof.
  intros (Hgood & Hlp & Hpages) Hkey Hlive Hcan H. unfold insertKey in H.
  apply run_ok_inv in H; [| apply insertKey_body_fails_only].
  unfold insertKey_body in H.
  step_body H as Hlast. step_body H as Hbody.
  apply modify_inr_inv in H. subst x'. cbn [lastPage trInfo globalCount with_tree set_globalCount].
  destruct (Z.eqb_spec (lastPage x) 0) as [Hzero | Hnz].
  - (* the index is empty *)
    step_body Hbody as Hm1. step_body Hbody as Hm2. step_body Hbody as Hpin.
    destruct a.
    set (x0 := with_tree (set_lastPage x 1) (fun t => set_root t 1)) in Hpin.
    assert (Hcan0 : frame x0 1 <> None \/ room x0) by (rewrite Hzero in Hcan; exact Hcan).
    destruct (handlePagePinning_ok _ _ _ _ _ (Hgood : good x0) Hcan0 Hpin)
      as (Hg1 & Hh1 & (Hl1 & _ & Hc1) & _ & buf & _ & _ & Hfr1).
    destruct (new_page_entry_ok _ _ _ _ _ Hg1 Hh1 Hkey Hbody)
      as (Hg2 & (Hl2 & _ & Hc2) & (buf' & Hbuf' & Hfull & Hv1 & Hv2 & Hleft) & Hfr2).
    assert (Hls : lastPage s = 1) by (rewrite Hl2, Hl1; done).
    split; [| split; [| split]].
    + split; [exact Hg2 |]. cbn [lastPage with_tree]. split; [lia |].
      intros p Hp. assert (p = 1) as -> by lia.
      exists buf'. split; [exact Hbuf' |]. split; [lia |].
      cbn [lastPage with_tree]. rewrite decide_True by done.
      rewrite Hfull, Hv2. split; [done | lia].
    + rewrite Hc2, Hc1. done.
    + intros h Hh.
      change (measure h s = measure h x + h key).
      rewrite (measure_grow h x s) by (try (intros q Hq); lia).
      rewrite Hls, Hbuf'. simpl. rewrite Hv1, Hv2, Hh. lia.
    + unfold added_last. cbn [lastPage with_tree].
      change (frame (with_tree s _)) with (frame s). rewrite Hls.
      split; [lia |]. split; [intros q Hq; lia |].
      exists buf'. split; [exact Hbuf' |]. left. split; [lia | done].
  - (* the last page is looked at *)
    destruct a. set (L := lastPage x) in *.
    destruct (Hpages L) as (bufL & HbufL & Hv1L & HfullL); [lia |].
    rewrite decide_True in HfullL by done.
    step_body Hbody as Hpin.
    assert (Hres : frame x L <> None) by (rewrite HbufL; done).
    destruct (handlePagePinning_ok _ _ _ _ _ Hgood (or_introl Hres) Hpin)
      as (Hg1 & Hh1 & (Hl1 & _ & Hc1) & Hr1 & buf & _ & Hold & Hfr1).
    rewrite (Hold bufL HbufL) in Hfr1. clear Hold buf.
    assert (Hsame1 : forall q, frame s0 q = frame x q).
    { intros q. rewrite Hfr1. destruct (decide (q = L)) as [-> | _]; done. }
    step_body Hbody as Hpd. rewrite (frame_holds _ _ Hh1), Hsame1, HbufL in Hpd.
    injection Hpd as <-.
    destruct (full_of bufL) eqn:Hfull.
    + (* the last page is full: a page is added *)
      step_body Hbody as Hm. step_body Hbody as Hun.
      set (x1 := set_lastPage s0 (L + 1)) in Hun.
      destruct (unpinI_ok _ _ Hun) as (Hg2 & Hr2 & (Hl2 & _ & Hc2) & Hfr2).
      step_body Hbody as Hpin2.
      assert (Hcan2 : frame s1 (L + 1) <> None \/ room s1).
      { destruct Hcan as [Hc | Hc].
        - left. rewrite Hfr2. change (frame s0 (L + 1) <> None). by rewrite Hsame1.
        - right. apply Hr2. apply (Hr1 Hres Hc). }
      destruct (handlePagePinning_ok _ _ _ _ _ (Hg2 Hg1) Hcan2 Hpin2)
        as (Hg3 & Hh3 & (Hl3 & _ & Hc3) & _ & buf3 & _ & _ & Hfr3).
      destruct (new_page_entry_ok _ _ _ _ _ Hg3 Hh3 Hkey Hbody)
        as (Hg4 & (Hl4 & _ & Hc4) & (buf' & Hbuf' & Hfull' & Hv1 & Hv2 & Hleft) & Hfr4).
      assert (Hls : lastPage s = L + 1) by (rewrite Hl4, Hl3, Hl2; done).
      assert (Hold : forall q, 1 <= q <= L -> frame s q = frame x q).
      { intros q Hq. rewrite Hfr4, Hfr3, decide_False, Hfr2 by lia.
        change (frame s0 q = frame x q). apply Hsame1. }
      split; [| split; [| split]].
      * split; [exact Hg4 |]. cbn [lastPage with_tree]. split; [lia |].
        intros p Hp. unfold page_ok. cbn [lastPage with_tree]. rewrite Hls.
        destruct (decide (p = L + 1)) as [-> | Hne].
        -- exists buf'. split; [exact Hbuf' |]. split; [lia |].
           rewrite Hfull', Hv2. split; [done | lia].
        -- change (frame (with_tree s _) p) with (frame s p). rewrite Hold by lia.
           destruct (decide (p = L)) as [-> | HpL].
           ++ exists bufL. split; [done |]. split; [done |]. split; [done |].
              by apply HfullL.
           ++ destruct (Hpages p) as (bufp & Hbufp & Hv1p & Hrest); [lia |].
              rewrite decide_False in Hrest by done. by exists bufp.
      * rewrite Hc4, Hc3. change (globalCount (trInfo s1) + 1 = globalCount (trInfo x) + 1).
        rewrite Hc2. change (globalCount (trInfo s0) + 1 = globalCount (trInfo x) + 1).
        by rewrite Hc1.
      * intros h Hh. change (measure h s = measure h x + h key).
        rewrite (measure_grow h x s) by (try (intros q Hq; apply Hold); lia).
        rewrite Hls, Hbuf'. simpl. rewrite Hv1, Hv2, Hh. lia.
      * unfold added_last. cbn [lastPage with_tree].
        change (frame (with_tree s _)) with (frame s). rewrite Hls.
        split; [lia |]. split; [intros q Hq _; by apply Hold |].
        exists buf'. split; [exact Hbuf' |]. left. done.
    + (* the second slot of the last page is free *)
      assert (Hv2L : value2_of bufL = -1).
      { destruct (decide (value2_of bufL = -1)) as [? | Hne]; [done |].
        apply HfullL in Hne. congruence. }
      pose proof (frame_length _ _ _ Hgood HbufL) as HlenL.
      step_body Hbody as Hst1.
      destruct (store_data_ok _ L _ _ Hh1 Hst1)
        as (b1 & Hb1 & Hg2 & Hh2 & _ & (Hl2 & _ & Hc2) & Hfr2).
      rewrite Hsame1, HbufL in Hb1. injection Hb1 as <-.
      destruct (set_second_fields bufL HlenL rid key) as (Hlen2 & Hf2 & Hv12 & Hv22).
      destruct (set_second_rids bufL HlenL rid key) as (_ & Hmid2).
      step_body Hbody as Hst2.
      destruct (store_data_ok _ L _ _ Hh2 Hst2)
        as (b2 & Hb2 & Hg3 & Hh3 & _ & (Hl3 & _ & Hc3) & Hfr3).
      rewrite Hfr2, decide_True in Hb2 by done. injection Hb2 as <-.
      destruct (set_full_fields _ Hlen2 true) as (Hlen3 & Hf3 & Hv13 & Hv23).
      destruct (set_full_rids _ Hlen2 true) as (_ & Hmid3).
      apply check_inr_inv in Hbody.
      destruct (unpinI_ok _ _ Hbody) as (Hg4 & _ & (Hl4 & _ & Hc4) & Hfr4).
      assert (Hls : lastPage s = L) by (rewrite Hl4, Hl3, Hl2, Hl1; done).
      assert (HsL : frame s L = Some (set_full true (set_second rid key bufL))).
      { rewrite Hfr4, Hfr3, decide_True by done. done. }
      assert (Hold : forall q, q <> L -> frame s q = frame x q).
      { intros q Hq. rewrite Hfr4, Hfr3, decide_False, Hfr2, decide_False by done.
        apply Hsame1. }
      split; [| split; [| split]].
      * split; [auto |]. cbn [lastPage with_tree]. split; [lia |].
        intros p Hp. unfold page_ok. cbn [lastPage with_tree]. rewrite Hls.
        change (frame (with_tree s _) p) with (frame s p).
        destruct (decide (p = L)) as [-> | HpL].
        -- eexists. split; [exact HsL |].
           rewrite Hf3, Hv13, Hv23, Hv12, Hv22, int_wrap_id by lia.
           split; [done |]. split; [done |]. lia.
        -- rewrite Hold by done. destruct (Hpages p) as (bufp & Hbufp & Hv1p & Hrest); [lia |].
           rewrite decide_False in Hrest by done. by exists bufp.
      * rewrite Hc4, Hc3, Hc2, Hc1. done.
      * intros h Hh. change (measure h s = measure h x + h key).
        rewrite (measure_change h x s L) by (try (intros q Hq Hne; apply Hold); lia).
        rewrite HsL, HbufL. simpl.
        rewrite Hv13, Hv23, Hv12, Hv22, Hv2L, Hh, int_wrap_id by lia. lia.
      * unfold added_last. cbn [lastPage with_tree].
        change (frame (with_tree s _)) with (frame s). rewrite Hls.
        split; [lia |]. split; [intros q Hq Hne; by apply Hold |].
        eexists. split; [exact HsL |]. right. split; [done |].
        split; [split; [rewrite Hv23, Hv22; apply int_wrap_id; lia | by rewrite Hmid3, Hmid2] |].
        exists bufL. split; [done |]. by rewrite Hv13, Hv12.
Qed.

End InsertKey.

(** ** deleteKey *)

Section DeleteKey.

Lemma int_at_range (buf : list byte) (off : nat) : - 2 ^ 31 <= int_at buf off < 2 ^ 31.
Proof. unfold int_at. apply int_wrap_range. Qed.

Lemma int_wrap_int_at (buf : list byte) (off : nat) : int_wrap (int_at buf off) = int_at buf off.
Proof. apply int_wrap_id, int_at_range. Qed.

Lemma drop_second_fields (buf : list byte) (Hlen : length buf = PAGE_LEN) :
  length (drop_second buf) = PAGE_LEN /\
  full_of (drop_second buf) = false /\
  value1_of (drop_second buf) = value1_of buf /\
  value2_of (drop_second buf) = -1.
Proof.
  unfold drop_second.
  destruct (set_second_fields buf Hlen INIT_RID (-1)) as (Hl1 & Hf1 & Hv11 & Hv21).
  destruct (set_full_fields _ Hl1 false) as (Hl2 & Hf2 & Hv12 & Hv22).
  rewrite Hv12, Hv22, Hv11, Hv21. done.
Qed.

Section Blocks.

Variable buf : list byte.
Hypothesis Hlen : length buf = PAGE_LEN.

Let Hpl : PAGE_LEN = 4096%nat := eq_refl.

Lemma second_to_first_fields :
  length (second_to_first buf) = PAGE_LEN /\
  full_of (second_to_first buf) = false /\
  value1_of (second_to_first buf) = value2_of buf /\
  value2_of (second_to_first buf) = -1.
Proof.
  unfold second_to_first. cbv zeta.
  set (b1 := store_rid buf (node_at + off_left) (mid_of buf)).
  assert (Hl1 : length b1 = PAGE_LEN) by (subst b1; page_fields; lia).
  assert (Hv : value2_of b1 = value2_of buf) by (subst b1; page_fields; done).
  rewrite Hv.
  set (b2 := store_int b1 (node_at + off_value1) (value2_of buf)).
  assert (Hl2 : length b2 = PAGE_LEN) by (subst b2; page_fields; lia).
  assert (Hv1 : value1_of b2 = value2_of buf).
  { subst b2. unfold value1_of at 1.
    rewrite int_at_store_int by (unfold node_at, sizeof_Node, off_value1; lia).
    apply int_wrap_int_at. }
  change (set_full false (set_second INIT_RID (-1) b2)) with (drop_second b2).
  destruct (drop_second_fields b2 Hl2) as (Hl3 & Hf3 & Hv13 & Hv23).
  rewrite Hv13. done.
Qed.

Lemma give_second_fields :
  let '(moveRID, moveValue, buf') := give_second buf in
  moveValue = value2_of buf /\
  length buf' = PAGE_LEN /\ full_of buf' = false /\
  value1_of buf' = value1_of buf /\ value2_of buf' = -1.
Proof.
  unfold give_second.
  destruct (set_full_fields buf Hlen false) as (Hl1 & Hf1 & Hv11 & Hv21).
  destruct (set_second_fields _ Hl1 INIT_RID (-1)) as (Hl2 & Hf2 & Hv12 & Hv22).
  rewrite Hv12, Hv22, Hf2. done.
Qed.

Lemma give_first_fields :
  let '(moveRID, moveValue, buf') := give_first buf in
  moveValue = value1_of buf /\
  length buf' = PAGE_LEN /\ full_of buf' = full_of buf /\
  value1_of buf' = -1 /\ value2_of buf' = value2_of buf.
Proof.
  unfold give_first.
  destruct (set_first_fields buf Hlen INIT_RID (-1)) as (Hl1 & Hf1 & Hv11 & Hv21).
  done.
Qed.

End Blocks.


Lemma put_moved_fails_only (fuel : nat) (i valueNum : Z) (moveRID : RID) (moveValue : Z) :
  fails_only (put_moved fuel i valueNum moveRID moveValue).
Proof.
  unfold put_moved.
  apply fails_only_bind; [apply fails_only_check |]. intros _.
  apply fails_only_bind; [apply fails_only_update |]. intros _.
  apply fails_only_check.
Qed.

(** The entry taken from the last page lands in the slot [valueNum] of
    page [i]. *)
Lemma put_moved_ok (fuel : nat) (i valueNum : Z) (moveRID : RID) (moveValue : Z)
    (x x' : IndexWorld) (bufi : list byte) :
  good x -> frame x i = Some bufi ->
  put_moved fuel i valueNum moveRID moveValue x = Some (x', inr tt) ->
  good x' /\ same_globals x x' /\
  (exists bufi', frame x' i = Some bufi' /\ full_of bufi' = full_of bufi /\
     if valueNum =? 1
     then value1_of bufi' = int_wrap moveValue /\ value2_of bufi' = value2_of bufi
     else value1_of bufi' = value1_of bufi /\ value2_of bufi' = int_wrap moveValue) /\
  forall q, q <> i -> frame x' q = frame x q.
Proof.
  intros Hgood Hbufi H. unfold put_moved in H.
  step_body H as Hpin.
  assert (Hres : frame x i <> None) by (rewrite Hbufi; done).
  destruct (handlePagePinning_ok _ _ _ _ _ Hgood (or_introl Hres) Hpin)
    as (Hg1 & Hh1 & Hgl1 & _ & buf & _ & Hold & Hfr1).
  rewrite (Hold bufi Hbufi) in Hfr1. clear Hold buf.
  step_body H as Hst.
  destruct (store_data_ok _ i _ _ Hh1 Hst) as (b1 & Hb1 & Hg2 & Hh2 & _ & Hgl2 & Hfr2).
  rewrite Hfr1, decide_True in Hb1 by done. injection Hb1 as <-.
  pose proof (frame_length _ _ _ Hgood Hbufi) as Hlen.
  destruct (set_first_fields bufi Hlen moveRID moveValue) as (Hl1 & Hf1 & Hv11 & Hv21).
  destruct (set_second_fields bufi Hlen moveRID moveValue) as (Hl2 & Hf2 & Hv12 & Hv22).
  apply check_inr_inv in H.
  destruct (unpinI_ok _ _ H) as (Hg3 & _ & Hgl3 & Hfr3).
  assert (Hg : good s0) by (apply Hg2; [done |]; by destruct (valueNum =? 1)).
  split; [auto |].
  split; [eapply same_globals_trans; [eapply same_globals_trans |]; eassumption |].
  split.
  - eexists. rewrite Hfr3, Hfr2, decide_True by done. split; [reflexivity |].
    by destruct (valueNum =? 1).
  - intros q Hq. by rewrite Hfr3, Hfr2, decide_False, Hfr1, decide_False.
Qed.

(** The search loop of [deleteKey] over resident pages: no page changes;
    when the key is found, the handle is left on its page. *)
Lemma delete_search_ok (fuel n : nat) (i key : Z) (x x' : IndexWorld) (r : Z * Z * bool) :
  good x -> (forall p, i <= p < i + Z.of_nat n -> frame x p <> None) ->
  delete_search fuel n i key x = Some (x', inr r) ->
  good x' /\ same_globals x x' /\ (forall q, frame x' q = frame x q) /\
  (r.2 = true ->
   i <= r.1.1 < i + Z.of_nat n /\ holds x' r.1.1 /\
   exists buf, frame x r.1.1 = Some buf /\
     ((r.1.2 = 1 /\ value1_of buf = key) \/ (r.1.2 = 2 /\ value2_of buf = key))).
Proof.
  revert i x. induction n as [| k IH]; intros i x Hgood Hres H; simpl in H.
  - injection H as <- <-. split; [done |]. split; [done |]. split; [done |]. done.
  - step_body H as Hpin.
    destruct (handlePagePinning_ok _ _ _ _ _ Hgood (or_introl (Hres i ltac:(lia))) Hpin)
      as (Hg1 & Hh1 & Hgl1 & _ & buf & _ & Hold & Hfr1).
    assert (Hsame1 : forall q, frame s q = frame x q).
    { intros q. rewrite Hfr1. destruct (decide (q = i)) as [-> | _]; [| done].
      destruct (frame x i) as [b |] eqn:Hb; [| by destruct (Hres i ltac:(lia))].
      by rewrite (Hold b eq_refl). }
    step_body H as Hpd. rewrite (frame_holds _ _ Hh1), Hsame1 in Hpd.
    destruct (Z.eqb_spec key (value1_of a0)) as [Hk1 | Hk1].
    { injection H as <- <-. split; [done |]. split; [done |]. split; [done |].
      intros _. simpl. split; [lia |]. split; [done |]. exists a0. auto. }
    destruct (Z.eqb_spec key (value2_of a0)) as [Hk2 | Hk2].
    { injection H as <- <-. split; [done |]. split; [done |]. split; [done |].
      intros _. simpl. split; [lia |]. split; [done |]. exists a0. auto. }
    step_body H as Hun.
    destruct (unpinI_ok _ _ Hun) as (Hg2 & _ & Hgl2 & Hfr2).
    assert (Hsame2 : forall q, frame s0 q = frame x q)
      by (intros q; by rewrite Hfr2, Hsame1).
    destruct (IH (i + 1) s0 (Hg2 Hg1)) with (2 := H) as (Hg3 & Hgl3 & Hfr3 & Hfound).
    { intros p Hp. rewrite Hsame2. apply Hres. lia. }
    split; [done |].
    split; [eapply same_globals_trans; [eapply same_globals_trans |]; eassumption |].
    split; [intros q; by rewrite Hfr3, Hsame2 |].
    intros Hr. destruct (Hfound Hr) as (Hrange & Hholds & b & Hb & Hslot).
    split; [lia |]. split; [done |]. exists b. rewrite <- Hsame2. done.
Qed.


Lemma delete_search_fails_only (fuel n : nat) (i key : Z) :
  fails_only (delete_search fuel n i key).
Proof.
  revert i. induction n as [| k IH]; intros i; simpl; [apply fails_only_ret |].
  apply fails_only_bind; [apply fails_only_check |]. intros _.
  apply fails_only_bind; [apply fails_only_defined |]. intros buf.
  destruct (key =? value1_of buf); [apply fails_only_ret |].
  destruct (key =? value2_of buf); [apply fails_only_ret |].
  apply fails_only_bind; [apply fails_only_check | intros _; apply IH].
Qed.

Lemma deleteKey_body_fails_only (fuel : nat) (key : Z) : fails_only (deleteKey_body fuel key).
Proof.
  unfold deleteKey_body.
  apply fails_only_bind; [apply fails_only_gets |]. intros lp.
  apply fails_only_bind; [apply delete_search_fails_only |]. intros [[i valueNum] find].
  destruct find; simpl; [| by apply fails_only_raise].
  apply fails_only_bind; [apply fails_only_check |]. intros _.
  apply fails_only_bind; [| intros _; apply fails_only_modify].
  destruct (i =? 0).
  { apply fails_only_bind; [apply fails_only_ignore |]. intros _. by apply fails_only_raise. }
  destruct (i =? lp).
  - apply fails_only_bind; [| intros _; apply fails_only_check].
    destruct (valueNum =? 2); [apply fails_only_update |].
    apply fails_only_bind; [apply fails_only_defined |]. intros buf.
    destruct (full_of buf); [apply fails_only_update |].
    apply fails_only_bind; [apply fails_only_update |]. intros _. apply fails_only_modify.
  - apply fails_only_bind; [apply fails_only_defined |]. intros buf.
    destruct (full_of buf).
    + destruct (give_second buf) as [[moveRID moveValue] buf'].
      apply fails_only_bind; [apply fails_only_update |]. intros _.
      apply fails_only_bind; [apply fails_only_check |]. intros _.
      apply put_moved_fails_only.
    + destruct (give_first buf) as [[moveRID moveValue] buf'].
      apply fails_only_bind; [apply fails_only_update |]. intros _.
      apply fails_only_bind; [apply fails_only_modify |]. intros _.
      apply fails_only_bind; [apply fails_only_check |]. intros _.
      apply put_moved_fails_only.
Qed.

Lemma deleteKey_ok (fuel : nat) (x x' : IndexWorld) (key : Z) :
  well_formed x -> key <> -1 ->
  deleteKey fuel x key = Some (RC_OK, x') ->
  well_formed x' /\ globalCount (trInfo x') = globalCount (trInfo x) - 1 /\
  forall h, h (-1) = 0 -> measure h x' = measure h x - h key.
Proof.
  intros (Hgood & Hlp & Hpages) Hlive H. unfold deleteKey in H.
  apply run_ok_inv in H; [| apply deleteKey_body_fails_only].
  unfold deleteKey_body in H.
  step_body H as Hlast. set (L := lastPage x) in *.
  step_body H as Hsearch. destruct a as [[i valueNum] find].
  assert (Hres : forall p, 1 <= p < 1 + Z.of_nat (Z.to_nat L) -> frame x p <> None).
  { intros p Hp. destruct (Hpages p) as (b & Hb & _); [lia |]. by rewrite Hb. }
  destruct (delete_search_ok _ _ _ _ _ _ _ Hgood Hres Hsearch)
    as (Hg1 & (Hl1 & _ & Hc1) & Hfr1 & Hfound).
  destruct find; simpl in H; [| done].
  destruct (Hfound eq_refl) as (Hi & Hh1 & bufi & Hbufi & Hslot). simpl in Hi, Hh1, Hbufi, Hslot.
  clear Hfound Hres Hsearch.
  step_body H as Hpin. step_body H as Hbody.
  apply modify_inr_inv in H. subst x'.
  assert (HL : 1 <= L) by lia.
  destruct (Hpages L) as (bufL & HbufL & Hv1L & HfullL); [lia |].
  rewrite decide_True in HfullL by done.
  pose proof (frame_length _ _ _ Hgood HbufL) as HlenL.
  pose proof (frame_length _ _ _ Hgood Hbufi) as Hleni.
  assert (HresL : frame s L <> None) by (rewrite Hfr1, HbufL; done).
  destruct (handlePagePinning_ok _ _ _ _ _ Hg1 (or_introl HresL) Hpin)
    as (Hg2 & Hh2 & (Hl2 & _ & Hc2) & _ & buf & _ & Hold & Hfr2).
  assert (Hsame2 : forall q, frame s0 q = frame x q).
  { intros q. rewrite Hfr2, Hfr1. destruct (decide (q = L)) as [-> | _]; [| done].
    rewrite HbufL. f_equal. apply Hold. by rewrite Hfr1. }
  clear Hold Hfr2 buf Hpin.
  assert (Hls0 : lastPage s0 = L) by (rewrite Hl2, Hl1; done).
  assert (Hcs0 : globalCount (trInfo s0) = globalCount (trInfo x)) by (rewrite Hc2, Hc1; done).
  destruct (Z.eqb_spec i 0) as [? | _]; [lia |].
  cbn [with_tree trInfo globalCount set_globalCount].
  destruct (Z.eqb_spec i L) as [-> | HiL].
  - (* the key is on the last page *)
    rewrite HbufL in Hbufi. injection Hbufi as <-.
    step_body Hbody as Hblock. apply check_inr_inv in Hbody.
    destruct (unpinI_ok _ _ Hbody) as (Hg4 & _ & (Hl4 & _ & Hc4) & Hfr4).
    destruct (Z.eqb_spec valueNum 2) as [-> | Hvn].
    + (* in the second slot *)
      destruct Hslot as [[? _] | [_ Hk]]; [done |].
      assert (Hfull : full_of bufL = true) by (apply HfullL; congruence).
      apply update_inr_inv in Hblock.
      destruct (store_data_ok _ L _ _ Hh2 Hblock)
        as (b & Hb & Hg3 & _ & _ & (Hl3 & _ & Hc3) & Hfr3).
      rewrite Hsame2, HbufL in Hb. injection Hb as <-.
      destruct (drop_second_fields bufL HlenL) as (Hlen' & Hf' & Hv1' & Hv2').
      assert (Hls : lastPage s1 = L) by (rewrite Hl4, Hl3; done).
      assert (HsL : frame s1 L = Some (drop_second bufL))
        by (rewrite Hfr4, Hfr3, decide_True by done; done).
      assert (Hrest : forall q, q <> L -> frame s1 q = frame x q)
        by (intros q Hq; rewrite Hfr4, Hfr3, decide_False by done; apply Hsame2).
      split; [| split].
      * split; [auto |]. cbn [lastPage with_tree]. split; [lia |].
        intros p Hp. unfold page_ok. cbn [lastPage with_tree]. rewrite Hls.
        change (frame (with_tree s1 _) p) with (frame s1 p).
        destruct (decide (p = L)) as [-> | HpL].
        -- eexists. split; [exact HsL |]. rewrite Hf', Hv1', Hv2'.
           split; [done |]. split; [done | lia].
        -- rewrite Hrest by done. destruct (Hpages p) as (bufp & Hbufp & Hv1p & Hr); [lia |].
           rewrite decide_False in Hr by done. by exists bufp.
      * rewrite Hc4, Hc3, Hcs0. done.
      * intros h Hh. change (measure h s1 = measure h x - h key).
        rewrite (measure_change h x s1 L) by (try (intros q Hq Hne; apply Hrest); lia).
        rewrite HsL, HbufL. simpl. rewrite Hv1', Hv2', Hk, Hh. lia.
    + (* in the first slot *)
      destruct Hslot as [[-> Hk] | [? _]]; [| done].
      step_body Hblock as Hpd. rewrite (frame_holds _ _ Hh2), Hsame2, HbufL in Hpd.
      injection Hpd as <-.
      destruct (full_of bufL) eqn:Hfull.
      * (* the second entry moves up *)
        assert (Hv2L : value2_of bufL <> -1) by (by apply HfullL).
        apply update_inr_inv in Hblock.
        destruct (store_data_ok _ L _ _ Hh2 Hblock)
          as (b & Hb & Hg3 & _ & _ & (Hl3 & _ & Hc3) & Hfr3).
        rewrite Hsame2, HbufL in Hb. injection Hb as <-.
        destruct (second_to_first_fields bufL HlenL) as (Hlen' & Hf' & Hv1' & Hv2').
        assert (Hls : lastPage s1 = L) by (rewrite Hl4, Hl3; done).
        assert (HsL : frame s1 L = Some (second_to_first bufL))
          by (rewrite Hfr4, Hfr3, decide_True by done; done).
        assert (Hrest : forall q, q <> L -> frame s1 q = frame x q)
          by (intros q Hq; rewrite Hfr4, Hfr3, decide_False by done; apply Hsame2).
        split; [| split].
        -- split; [auto |]. cbn [lastPage with_tree]. split; [lia |].
           intros p Hp. unfold page_ok. cbn [lastPage with_tree]. rewrite Hls.
           change (frame (with_tree s1 _) p) with (frame s1 p).
           destruct (decide (p = L)) as [-> | HpL].
           ++ eexists. split; [exact HsL |]. rewrite Hf', Hv1', Hv2'.
              split; [done |]. split; [done | lia].
           ++ rewrite Hrest by done.
              destruct (Hpages p) as (bufp & Hbufp & Hv1p & Hr); [lia |].
              rewrite decide_False in Hr by done. by exists bufp.
        -- rewrite Hc4, Hc3, Hcs0. done.
        -- intros h Hh. change (measure h s1 = measure h x - h key).
           rewrite (measure_change h x s1 L) by (try (intros q Hq Hne; apply Hrest); lia).
           rewrite HsL, HbufL. simpl. rewrite Hv1', Hv2', Hk, Hh. lia.
      * (* the last page is given up *)
        assert (Hv2L : value2_of bufL = -1).
        { destruct (decide (value2_of bufL = -1)) as [? | Hne]; [done |].
          apply HfullL in Hne. congruence. }
        step_body Hblock as Hst. apply modify_inr_inv in Hblock. subst s2.
        destruct (store_data_ok _ L _ _ Hh2 Hst)
          as (b & Hb & Hg3 & _ & _ & (Hl3 & _ & Hc3) & Hfr3).
        rewrite Hsame2, HbufL in Hb. injection Hb as <-.
        destruct (set_first_fields bufL HlenL INIT_RID (-1)) as (Hlen' & _).
        cbn [lastPage set_lastPage trInfo] in Hl4, Hc4.
        change (forall q, frame s1 q = frame s3 q) in Hfr4.
        assert (Hrest : forall q, q <> L -> frame s1 q = frame x q)
          by (intros q Hq; rewrite Hfr4, Hfr3, decide_False by done; apply Hsame2).
        split; [| split].
        -- split; [apply Hg4; auto |]. cbn [lastPage with_tree]. rewrite Hl4.
           split; [lia |].
           intros p Hp. unfold page_ok. cbn [lastPage with_tree]. rewrite Hl4.
           change (frame (with_tree s1 _) p) with (frame s1 p).
           rewrite Hrest by lia.
           destruct (Hpages p) as (bufp & Hbufp & Hv1p & Hr); [lia |].
           rewrite decide_False in Hr by lia. exists bufp. split; [done |]. split; [done |].
           destruct (decide (p = L - 1)); [tauto | done].
        -- rewrite Hc4, Hc3, Hcs0. done.
        -- intros h Hh. change (measure h s1 = measure h x - h key).
           rewrite (measure_shrink h x s1) by (try (intros q Hq; apply Hrest); lia).
           fold L. rewrite HbufL. simpl. rewrite Hk, Hv2L, Hh. lia.
  - (* the key is on an earlier page *)
    destruct a0. assert (HiL' : 1 <= i < L) by lia.
    destruct (Hpages i) as (bi & Hbi & Hv1i & Hri); [lia |].
    rewrite Hbufi in Hbi. injection Hbi as <-.
    rewrite decide_False in Hri by done. destruct Hri as [Hfulli Hv2i].
    step_body Hbody as Hpd. rewrite (frame_holds _ _ Hh2), Hsame2, HbufL in Hpd.
    injection Hpd as <-.
    destruct (full_of bufL) eqn:Hfull.
    + (* the last page gives its second entry *)
      assert (Hv2L : value2_of bufL <> -1) by (by apply HfullL).
      step_body Hbody as Hst.
      destruct (store_data_ok _ L _ _ Hh2 Hst)
        as (b & Hb & Hg3 & _ & _ & (Hl3 & _ & Hc3) & Hfr3).
      rewrite Hsame2, HbufL in Hb. injection Hb as <-.
      destruct (set_full_fields bufL HlenL false) as (Hlen1 & Hf1 & Hv11 & Hv21).
      destruct (set_second_fields _ Hlen1 INIT_RID (-1)) as (Hlen2 & Hf2 & Hv12 & Hv22).
      step_body Hbody as Hun.
      destruct (unpinI_ok _ _ Hun) as (Hg4 & _ & (Hl4 & _ & Hc4) & Hfr4).
      assert (Hs3L : frame s3 L = Some (set_second INIT_RID (-1) (set_full false bufL)))
        by (rewrite Hfr4, Hfr3, decide_True by done; done).
      assert (Hs3 : forall q, q <> L -> frame s3 q = frame x q)
        by (intros q Hq; rewrite Hfr4, Hfr3, decide_False by done; apply Hsame2).
      assert (Hs3i : frame s3 i = Some bufi) by (rewrite Hs3 by done; done).
      destruct (put_moved_ok _ _ _ _ _ _ _ _ (Hg4 (Hg3 Hg2 Hlen2)) Hs3i Hbody)
        as (Hg5 & (Hl5 & _ & Hc5) & (bufi' & Hbufi' & Hfi' & Hvi') & Hfr5).
      assert (Hmv : int_wrap (value2_of bufL) = value2_of bufL)
        by (unfold value2_of; apply int_wrap_int_at).
      rewrite Hv21, Hmv in Hvi'.
      assert (Hls3 : lastPage s3 = L) by (rewrite Hl4, Hl3; done).
      assert (Hls : lastPage s1 = L) by (rewrite Hl5; done).
      split; [| split].
      * split; [done |]. cbn [lastPage with_tree]. split; [lia |].
        intros p Hp. unfold page_ok. cbn [lastPage with_tree]. rewrite Hls.
        change (frame (with_tree s1 _) p) with (frame s1 p).
        destruct (decide (p = i)) as [-> | Hpi].
        -- exists bufi'. split; [done |]. rewrite decide_False by done. rewrite Hfi'.
           destruct Hslot as [[-> Hk] | [-> Hk]]; simpl in Hvi'; destruct Hvi' as [-> ->];
             done.
        -- rewrite Hfr5 by done. destruct (decide (p = L)) as [-> | HpL].
           ++ eexists. split; [exact Hs3L |]. rewrite Hf2, Hf1, Hv12, Hv22, Hv11.
              change (int_wrap (-1)) with (-1).
              split; [done |]. split; [done | intros Hc; by contradict Hc].
           ++ rewrite Hs3 by done.
              destruct (Hpages p) as (bufp & Hbufp & Hv1p & Hr); [lia |].
              rewrite decide_False in Hr by done. by exists bufp.
      * rewrite Hc5, Hc4, Hc3, Hcs0. done.
      * intros h Hh. change (measure h s1 = measure h x - h key).
        rewrite (measure_change h s3 s1 i) by (try (intros q Hq Hne; apply Hfr5); lia).
        rewrite (measure_change h x s3 L) by (try (intros q Hq Hne; apply Hs3); lia).
        rewrite Hs3L, HbufL, Hs3i, Hbufi'. simpl. rewrite Hv12, Hv22, Hv11.
        change (int_wrap (-1)) with (-1). rewrite Hh.
        destruct Hslot as [[-> Hk] | [-> Hk]]; simpl in Hvi'; destruct Hvi' as [-> ->];
          rewrite Hk; lia.
    + (* the last page gives its only entry *)
      assert (Hv2L : value2_of bufL = -1).
      { destruct (decide (value2_of bufL = -1)) as [? | Hne]; [done |].
        apply HfullL in Hne. congruence. }
      step_body Hbody as Hst.
      destruct (store_data_ok _ L _ _ Hh2 Hst)
        as (b & Hb & Hg3 & _ & _ & (Hl3 & _ & Hc3) & Hfr3).
      rewrite Hsame2, HbufL in Hb. injection Hb as <-.
      destruct (set_first_fields bufL HlenL INIT_RID (-1)) as (Hlen1 & _).
      step_body Hbody as Hm. step_body Hbody as Hun.
      destruct (unpinI_ok _ _ Hun) as (Hg4 & _ & (Hl4 & _ & Hc4) & Hfr4).
      cbn [lastPage set_lastPage trInfo] in Hl4, Hc4.
      change (forall q, frame s3 q = frame s2 q) in Hfr4.
      assert (Hs3 : forall q, q <> L -> frame s3 q = frame x q)
        by (intros q Hq; rewrite Hfr4, Hfr3, decide_False by done; apply Hsame2).
      assert (Hs3i : frame s3 i = Some bufi) by (rewrite Hs3 by done; done).
      destruct (put_moved_ok _ _ _ _ _ _ _ _ (Hg4 (Hg3 Hg2 Hlen1)) Hs3i Hbody)
        as (Hg5 & (Hl5 & _ & Hc5) & (bufi' & Hbufi' & Hfi' & Hvi') & Hfr5).
      assert (Hmv : int_wrap (value1_of bufL) = value1_of bufL)
        by (unfold value1_of; apply int_wrap_int_at).
      rewrite Hmv in Hvi'.
      assert (Hls : lastPage s1 = L - 1) by (rewrite Hl5; done).
      split; [| split].
      * split; [done |]. cbn [lastPage with_tree]. rewrite Hls. split; [lia |].
        intros p Hp. unfold page_ok. cbn [lastPage with_tree]. rewrite Hls.
        change (frame (with_tree s1 _) p) with (frame s1 p).
        destruct (decide (p = i)) as [-> | Hpi].
        -- exists bufi'. split; [done |]. rewrite Hfi'.
           destruct Hslot as [[-> Hk] | [-> Hk]]; simpl in Hvi'; destruct Hvi' as [-> ->];
             (split; [done |]); destruct (decide (i = L - 1)); done.
        -- rewrite Hfr5, Hs3 by lia.
           destruct (Hpages p) as (bufp & Hbufp & Hv1p & Hr); [lia |].
           rewrite decide_False in Hr by lia. exists bufp. split; [done |]. split; [done |].
           destruct (decide (p = L - 1)); [tauto | done].
      * rewrite Hc5, Hc4, Hc3, Hcs0. done.
      * intros h Hh. change (measure h s1 = measure h x - h key).
        rewrite (measure_change h s3 s1 i) by (try (intros q Hq Hne; apply Hfr5); lia).
        rewrite (measure_shrink h x s3) by (try (intros q Hq; apply Hs3); lia).
        fold L. rewrite HbufL, Hs3i, Hbufi'. simpl. rewrite Hv2L, Hh.
        destruct Hslot as [[-> Hk] | [-> Hk]]; simpl in Hvi'; destruct Hvi' as [-> ->];
          rewrite Hk; lia.
Qed.

End DeleteKey.

(** ** The invariants of the index *)

Section IndexInvariants.

(** The two operations of the claim. *)
Inductive IndexOp : Type :=
| InsertKey (key : Z) (rid : RID)
| DeleteKey (key : Z).

Definition op_key (op : IndexOp) : Z :=
  match op with InsertKey key _ => key | DeleteKey key => key end.

Definition apply_op (fuel : nat) (x : IndexWorld) (op : IndexOp) : option (RC * IndexWorld) :=
  match op with
  | InsertKey key rid => insertKey fuel x key rid
  | DeleteKey key => deleteKey fuel x key
  end.

(** An insert takes a key that fits an [int], and the page it may have to
    add is in the pool or can get a frame that was never used. *)
Definition op_ready (x : IndexWorld) (op : IndexOp) : Prop :=
  match op with
  | InsertKey key _ =>
      - 2 ^ 31 <= key < 2 ^ 31 /\ (frame x (lastPage x + 1) <> None \/ room x)
  | DeleteKey _ => True
  end.

(** An insert of a key that the index does not hold. *)
Definition op_fresh (x : IndexWorld) (op : IndexOp) : Prop :=
  match op with
  | InsertKey key _ => occurrences key x = 0
  | DeleteKey _ => True
  end.

Lemma measure_nonneg (h : Z -> Z) (x : IndexWorld) :
  (forall v, 0 <= h v) -> 0 <= measure h x.
Proof.
  intros Hh. unfold measure. induction (Z.to_nat (lastPage x)) as [| k IH]; simpl; [lia |].
  destruct (frame x _) as [buf |]; simpl.
  - pose proof (Hh (value1_of buf)). pose proof (Hh (value2_of buf)). lia.
  - lia.
Qed.

End IndexInvariants.

(** X1.  On an index whose pages 1 to [lastPage] are in the pool
    and hold their entries densely, with [globalCount] the number of taken
    slots: an [insertKey] or [deleteKey] of a key other than -1 that returns
    [RC_OK] leaves such an index again, with [globalCount] again the number
    of taken slots and the last page not empty unless [lastPage] is 0.  Keys
    stay unique under [deleteKey], and under [insertKey] when the key was
    not in the index. *)
Theorem index_invariants_preserved (fuel : nat) (x x' : IndexWorld) (op : IndexOp) :
  well_formed x -> count_ok x -> op_key op <> -1 -> op_ready x op ->
  apply_op fuel x op = Some (RC_OK, x') ->
  well_formed x' /\ count_ok x' /\ last_page_not_empty x' /\
  (unique_keys x -> op_fresh x op -> unique_keys x').
Proof.
  intros Hwf Hcount Hkey Hready Hop.
  assert (Htaken : taken (op_key op) = 1)
    by (unfold taken; by destruct (Z.eqb_spec (op_key op) (-1))).
  assert (Hother : forall k, k <> -1 -> holds_key k (-1) = 0)
    by (intros k Hk; unfold holds_key; by destruct (Z.eqb_spec (-1) k)).
  assert (Hself : holds_key (op_key op) (op_key op) = 1)
    by (unfold holds_key; by rewrite Z.eqb_refl).
  assert (Hbound : forall k, 0 <= holds_key k (op_key op) <= 1)
    by (intros k; unfold holds_key; destruct (_ =? _); lia).
  destruct op as [key rid | key]; simpl in *.
  - destruct Hready as [Hrange Hcan].
    destruct (insertKey_ok _ _ _ _ _ Hwf Hrange Hkey Hcan Hop) as (Hwf' & Hc' & Hm & _).
    split; [done |]. split; [| split; [by apply well_formed_last_page |]].
    + unfold count_ok, live_entries in *. rewrite (Hm taken eq_refl), Hc', Hcount, Htaken.
      done.
    + intros Huniq Hfresh k Hk. unfold occurrences in *. rewrite (Hm _ (Hother k Hk)).
      destruct (decide (k = key)) as [-> | Hne].
      * rewrite Hfresh, Hself. lia.
      * pose proof (Huniq k Hk) as Hle. unfold occurrences in Hle.
        assert (Hz : holds_key k key = 0); [| lia].
        unfold holds_key. destruct (Z.eqb_spec key k); congruence.
  - destruct (deleteKey_ok _ _ _ _ Hwf Hkey Hop) as (Hwf' & Hc' & Hm).
    split; [done |]. split; [| split; [by apply well_formed_last_page |]].
    + unfold count_ok, live_entries in *. rewrite (Hm taken eq_refl), Hc', Hcount, Htaken.
      done.
    + intros Huniq _ k Hk. unfold occurrences in *. rewrite (Hm _ (Hother k Hk)).
      pose proof (Huniq k Hk) as Hle. unfold occurrences in Hle.
      pose proof (Hbound k). lia.
Qed.

(** The theorem above on the index that holds the key 5, for the insert of
    the key 6. *)
Lemma index_invariants_preserved_witness :
  let x := Examples.index5 in
  let op := InsertKey 6 (Examples.rid_of 6) in
  exists x',
    apply_op 0 x op = Some (RC_OK, x') /\
    well_formed x /\ count_ok x /\ op_key op <> -1 /\ op_ready x op /\
    well_formed x' /\ count_ok x' /\ last_page_not_empty x' /\
    (unique_keys x -> op_fresh x op -> unique_keys x').
Proof.
  intros x op.
  assert (Hl : lastPage x = 1) by (vm_compute; reflexivity).
  assert (Hgood : good x).
  { eexists. split; [vm_compute; reflexivity |].
    split; [unfold data_ok | unfold pins_ok]; cbn [head];
      (constructor; [| constructor]); [vm_compute; reflexivity | vm_compute; discriminate]. }
  assert (Hwf : well_formed x).
  { split; [exact Hgood |]. rewrite Hl. split; [lia |].
    intros p Hp. assert (p = 1) as -> by lia.
    eexists. split; [vm_compute; reflexivity |]. rewrite Hl.
    split; [vm_compute; discriminate |].
    rewrite decide_True by done. split; intros Hc; vm_compute in Hc; [discriminate Hc |].
    exfalso. by apply Hc. }
  assert (Hcount : count_ok x) by (vm_compute; reflexivity).
  assert (Hkey : op_key op <> -1) by (simpl; lia).
  assert (Hready : op_ready x op).
  { split; [simpl; lia |]. right. eexists. split; [vm_compute; reflexivity |].
    vm_compute. reflexivity. }
  destruct (apply_op 0 x op) as [[rc x'] |] eqn:Hop.
  - exists x'.
    assert (Hrc : rc = RC_OK).
    { assert (H : fst <$> apply_op 0 x op = Some RC_OK) by (vm_compute; reflexivity).
      rewrite Hop in H. by injection H. }
    subst rc. split; [reflexivity |].
    split; [exact Hwf |]. split; [exact Hcount |]. split; [exact Hkey |].
    split; [exact Hready |].
    exact (index_invariants_preserved 0 x x' op Hwf Hcount Hkey Hready Hop).
  - exfalso. vm_compute in Hop. discriminate Hop.
Defined.

(** ** Looking keys up *)

Section Lookups.

Lemma check_ok {S : Type} (call : S -> option (RC * S)) (s s' : S) :
  call s = Some (RC_OK, s') -> check call s = Some (s', inr tt).
Proof. intros H. unfold check. rewrite H. done. Qed.

Lemma bind_ok {S A B : Type} (m : M S A) (k : A -> M S B) (s s1 : S) (a : A) :
  m s = Some (s1, inr a) -> bind m k s = k a s1.
Proof. intros H. unfold bind. by rewrite H. Qed.

Lemma frame_resident (x : IndexWorld) (p : Z) (buf : list byte) :
  frame x p = Some buf ->
  exists m i f, pool x = Some m /\ findPage m p = Some (i, f).
Proof.
  unfold frame, frame_list, findPage. destruct (pool x) as [m |] eqn:Hlive; [| done]. simpl.
  destruct (list_find _ _) as [[i f] |] eqn:Hfind; [| done]. intros _.
  exists m, i, f. split; [reflexivity | exact Hfind].
Qed.

Lemma pinI_resident (fuel : nat) (p : Z) (x : IndexWorld) (buf : list byte) :
  frame x p = Some buf -> exists x', pinI fuel p x = Some (RC_OK, x').
Proof.
  intros Hbuf. destruct (frame_resident _ _ _ Hbuf) as (m & i & f & Hlive & Hfind).
  unfold pinI, pinPage. unfold pool in Hlive. rewrite Hlive, Hfind. simpl. eauto.
Qed.

Lemma markI_holds (x : IndexWorld) (p : Z) :
  holds x p -> exists x', markI x = Some (RC_OK, x').
Proof.
  intros (m & i & f & Hlive & Hpage & Hfind & _).
  unfold markI, markDirty. unfold pool in Hlive. rewrite Hlive, Hpage. simpl.
  rewrite Hfind. eauto.
Qed.

Lemma unpinI_holds (x : IndexWorld) (p : Z) :
  holds x p -> exists x', unpinI x = Some (RC_OK, x').
Proof.
  intros (m & i & f & Hlive & Hpage & Hfind & Hpos).
  unfold unpinI, unpinPage. unfold pool in Hlive. rewrite Hlive, Hpage. simpl.
  rewrite Hfind. destruct (Z.gtb_spec (pinCount f) 0) as [_ | Hle]; [eauto | lia].
Qed.

(** A page of the pool is pinned, and marked as asked for, without
    failure. *)
Lemma handlePagePinning_resident (fuel : nat) (p : Z) (d : bool) (x : IndexWorld)
    (buf : list byte) :
  good x -> frame x p = Some buf ->
  exists x', handlePagePinning fuel p d x = Some (RC_OK, x') /\
    good x' /\ holds x' p /\ same_globals x x' /\ forall q, frame x' q = frame x q.
Proof.
  intros Hgood Hbuf.
  assert (Hres : frame x p <> None) by (rewrite Hbuf; done).
  destruct (pinI_resident fuel p x buf Hbuf) as (x1 & Hpin).
  destruct (pinI_ok _ _ _ _ Hgood (or_introl Hres) Hpin) as (Hg1 & Hh1 & _).
  assert (Hrun : exists x', handlePagePinning fuel p d x = Some (RC_OK, x')).
  { unfold handlePagePinning, run. rewrite (bind_ok _ _ _ _ _ (check_ok _ _ _ Hpin)).
    destruct d; [| by eexists].
    destruct (markI_holds _ _ Hh1) as (x2 & Hmark).
    unfold check_or. rewrite Hmark. simpl. by eexists. }
  destruct Hrun as (x' & Hrun). exists x'. split; [exact Hrun |].
  destruct (handlePagePinning_ok _ _ _ _ _ Hgood (or_introl Hres) Hrun)
    as (Hg & Hh & Hgl & _ & b & _ & Hold & Hfr).
  split; [done |]. split; [done |]. split; [done |].
  intros q. rewrite Hfr. destruct (decide (q = p)) as [-> | _]; [| done].
  by rewrite (Hold buf Hbuf).
Qed.

(** No slot of the page holds the key. *)
Definition free_of (k : Z) (x : IndexWorld) (p : Z) : Prop :=
  exists buf, frame x p = Some buf /\ value1_of buf <> k /\ value2_of buf <> k.

(** What [findKey] answers from a page that holds the key. *)
Definition answer (k : Z) (buf : list byte) : RID :=
  if k =? value1_of buf then left_of buf else mid_of buf.

Definition has_key (k : Z) (x : IndexWorld) (p : Z) (r : RID) : Prop :=
  exists buf, frame x p = Some buf /\ (value1_of buf = k \/ value2_of buf = k) /\
              answer k buf = r.

Definition unchanged (x x' : IndexWorld) : Prop :=
  good x' /\ same_globals x x' /\ forall q, frame x' q = frame x q.

Lemma unchanged_trans (x y z : IndexWorld) : unchanged x y -> unchanged y z -> unchanged x z.
Proof.
  intros (_ & Hg1 & Hf1) (Hg & Hg2 & Hf2). split; [done |].
  split; [by eapply same_globals_trans |]. intros q. by rewrite Hf2, Hf1.
Qed.

Lemma find_search_absent (fuel : nat) (k : Z) (r0 : RID) (n : nat) (i : Z) (x : IndexWorld) :
  good x -> (forall p, i <= p < i + Z.of_nat n -> free_of k x p) ->
  exists x', find_search fuel n i k r0 x = Some (x', inr (i + Z.of_nat n, false, r0)) /\
             unchanged x x'.
Proof.
  revert i x. induction n as [| n IH]; intros i x Hgood Hfree.
  - exists x. simpl. unfold ret. rewrite Z.add_0_r. by split.
  - destruct (Hfree i) as (buf & Hbuf & Hv1 & Hv2); [lia |].
    destruct (handlePagePinning_resident fuel i false x buf Hgood Hbuf)
      as (x1 & Hpin & Hg1 & Hh1 & Hgl1 & Hfr1).
    destruct (unpinI_holds _ _ Hh1) as (x2 & Hun).
    destruct (unpinI_ok _ _ Hun) as (Hg2 & _ & Hgl2 & Hfr2).
    destruct (IH (i + 1) x2) as (x' & Hrun & Hsame); [auto | |].
    { intros p Hp. destruct (Hfree p) as (b & Hb & Hvs); [lia |].
      exists b. by rewrite Hfr2, Hfr1. }
    exists x'. split.
    + cbn [find_search]. rewrite (bind_ok _ _ _ _ _ (check_ok _ _ _ Hpin)).
      unfold bind at 1, defined. rewrite (frame_holds _ _ Hh1), Hfr1, Hbuf.
      rewrite (proj2 (Z.eqb_neq _ _)) by congruence.
      rewrite (proj2 (Z.eqb_neq _ _)) by congruence.
      rewrite (bind_ok _ _ _ _ _ (check_ok _ _ _ Hun)).
      replace (i + Z.of_nat (Datatypes.S n)) with (i + 1 + Z.of_nat n) by lia. exact Hrun.
    + apply (unchanged_trans x x2); [| done].
      split; [auto |]. split; [by eapply same_globals_trans |].
      intros q. by rewrite Hfr2, Hfr1.
Qed.

Lemma find_search_found (fuel : nat) (k : Z) (r0 r : RID) (n : nat) (i j : Z) (x : IndexWorld) :
  good x -> i <= j < i + Z.of_nat n -> (forall p, i <= p < j -> free_of k x p) ->
  has_key k x j r ->
  exists x', find_search fuel n i k r0 x = Some (x', inr (j, true, r)) /\
             unchanged x x' /\ holds x' j.
Proof.
  revert i x. induction n as [| n IH]; intros i x Hgood Hj Hfree Hkey; [lia |].
  destruct (decide (i = j)) as [-> | Hne].
  - destruct Hkey as (buf & Hbuf & Hk & Hr).
    destruct (handlePagePinning_resident fuel j false x buf Hgood Hbuf)
      as (x1 & Hpin & Hg1 & Hh1 & Hgl1 & Hfr1).
    exists x1. split; [| done].
    cbn [find_search]. rewrite (bind_ok _ _ _ _ _ (check_ok _ _ _ Hpin)).
    unfold bind, defined. rewrite (frame_holds _ _ Hh1), Hfr1, Hbuf.
    unfold answer in Hr. destruct (Z.eqb_spec k (value1_of buf)) as [_ | Hn1].
    + by rewrite Hr.
    + destruct (Z.eqb_spec k (value2_of buf)) as [_ | Hn2]; [by rewrite Hr |].
      exfalso. destruct Hk; congruence.
  - destruct (Hfree i) as (buf & Hbuf & Hv1 & Hv2); [lia |].
    destruct (handlePagePinning_resident fuel i false x buf Hgood Hbuf)
      as (x1 & Hpin & Hg1 & Hh1 & Hgl1 & Hfr1).
    destruct (unpinI_holds _ _ Hh1) as (x2 & Hun).
    destruct (unpinI_ok _ _ Hun) as (Hg2 & _ & Hgl2 & Hfr2).
    destruct (IH (i + 1) x2) as (x' & Hrun & Hsame & Hh); [auto | lia | | |].
    { intros p Hp. destruct (Hfree p) as (b & Hb & Hvs); [lia |].
      exists b. by rewrite Hfr2, Hfr1. }
    { destruct Hkey as (b & Hb & Hvs). exists b. by rewrite Hfr2, Hfr1. }
    exists x'. split; [| split; [| done]].
    + cbn [find_search]. rewrite (bind_ok _ _ _ _ _ (check_ok _ _ _ Hpin)).
      unfold bind at 1, defined. rewrite (frame_holds _ _ Hh1), Hfr1, Hbuf.
      rewrite (proj2 (Z.eqb_neq _ _)) by congruence.
      rewrite (proj2 (Z.eqb_neq _ _)) by congruence.
      rewrite (bind_ok _ _ _ _ _ (check_ok _ _ _ Hun)). exact Hrun.
    + apply (unchanged_trans x x2); [| done].
      split; [auto |]. split; [by eapply same_globals_trans |].
      intros q. by rewrite Hfr2, Hfr1.
Qed.

End Lookups.

Section LookupResults.

Lemma findKey_absent (fuel : nat) (x : IndexWorld) (k : Z) (r0 : RID) :
  good x -> (forall p, 1 <= p <= lastPage x -> free_of k x p) ->
  exists x', findKey fuel x k r0 = Some (RC_IM_KEY_NOT_FOUND, x', r0) /\ unchanged x x'.
Proof.
  intros Hgood Hfree.
  destruct (find_search_absent fuel k r0 (Z.to_nat (lastPage x)) 1 x Hgood)
    as (x' & Hrun & Hsame); [intros p Hp; apply Hfree; lia |].
  exists x'. split; [| done].
  unfold findKey, findKey_body. unfold bind at 1, gets. rewrite (bind_ok _ _ _ _ _ Hrun).
  destruct (Z.leb_spec (1 + Z.of_nat (Z.to_nat (lastPage x))) (lastPage x)) as [Hle | _];
    [lia | done].
Qed.

Lemma findKey_first (fuel : nat) (x : IndexWorld) (k : Z) (r0 r : RID) (j : Z) :
  good x -> 1 <= j <= lastPage x -> (forall p, 1 <= p < j -> free_of k x p) ->
  has_key k x j r ->
  exists x', findKey fuel x k r0 = Some (RC_OK, x', r) /\ unchanged x x'.
Proof.
  intros Hgood Hj Hfree Hkey.
  destruct (find_search_found fuel k r0 r (Z.to_nat (lastPage x)) 1 j x Hgood)
    as (x1 & Hrun & Hsame & Hh); [lia | done | done |].
  destruct (unpinI_holds _ _ Hh) as (x2 & Hun).
  destruct (unpinI_ok _ _ Hun) as (Hg2 & _ & Hgl2 & Hfr2).
  exists x2. split.
  - unfold findKey, findKey_body. unfold bind at 1, gets. rewrite (bind_ok _ _ _ _ _ Hrun).
    destruct (Z.leb_spec j (lastPage x)) as [_ | Hlt]; [| lia].
    by rewrite (bind_ok _ _ _ _ _ (check_ok _ _ _ Hun)).
  - apply (unchanged_trans x x1); [done |]. destruct Hsame as (Hg1 & _).
    split; [auto |]. by split.
Qed.

Lemma delete_search_absent (fuel : nat) (k : Z) (n : nat) (i : Z) (x : IndexWorld) :
  good x -> (forall p, i <= p < i + Z.of_nat n -> free_of k x p) ->
  exists x', delete_search fuel n i k x = Some (x', inr (i + Z.of_nat n, 0, false)) /\
             unchanged x x'.
Proof.
  revert i x. induction n as [| n IH]; intros i x Hgood Hfree.
  - exists x. simpl. unfold ret. rewrite Z.add_0_r. by split.
  - destruct (Hfree i) as (buf & Hbuf & Hv1 & Hv2); [lia |].
    destruct (handlePagePinning_resident fuel i true x buf Hgood Hbuf)
      as (x1 & Hpin & Hg1 & Hh1 & Hgl1 & Hfr1).
    destruct (unpinI_holds _ _ Hh1) as (x2 & Hun).
    destruct (unpinI_ok _ _ Hun) as (Hg2 & _ & Hgl2 & Hfr2).
    destruct (IH (i + 1) x2) as (x' & Hrun & Hsame); [auto | |].
    { intros p Hp. destruct (Hfree p) as (b & Hb & Hvs); [lia |].
      exists b. by rewrite Hfr2, Hfr1. }
    exists x'. split.
    + cbn [delete_search]. rewrite (bind_ok _ _ _ _ _ (check_ok _ _ _ Hpin)).
      unfold bind at 1, defined. rewrite (frame_holds _ _ Hh1), Hfr1, Hbuf.
      rewrite (proj2 (Z.eqb_neq _ _)) by congruence.
      rewrite (proj2 (Z.eqb_neq _ _)) by congruence.
      rewrite (bind_ok _ _ _ _ _ (check_ok _ _ _ Hun)).
      replace (i + Z.of_nat (Datatypes.S n)) with (i + 1 + Z.of_nat n) by lia. exact Hrun.
    + apply (unchanged_trans x x2); [| done].
      split; [auto |]. split; [by eapply same_globals_trans |].
      intros q. by rewrite Hfr2, Hfr1.
Qed.

Lemma sum_to_zero (f : Z -> Z) (n : nat) :
  (forall p, 0 <= f p) -> sum_to f n = 0 -> forall p, 1 <= p <= Z.of_nat n -> f p = 0.
Proof.
  intros Hpos. induction n as [| n IH]; intros Hsum p Hp; [lia |].
  cbn [sum_to] in Hsum.
  assert (Hn : 0 <= sum_to f n).
  { clear - Hpos. induction n as [| m IHm]; [done |]. cbn [sum_to].
    pose proof (Hpos (Z.of_nat (Datatypes.S m))). lia. }
  pose proof (Hpos (Z.of_nat (Datatypes.S n))).
  destruct (decide (p = Z.of_nat (Datatypes.S n))) as [-> | Hne]; [lia |].
  apply IH; lia.
Qed.

(** A key that no slot holds is on no page. *)
Lemma absent_free (x : IndexWorld) (k : Z) :
  well_formed x -> occurrences k x = 0 ->
  forall p, 1 <= p <= lastPage x -> free_of k x p.
Proof.
  intros (_ & _ & Hpages) Hocc p Hp.
  destruct (Hpages p Hp) as (buf & Hbuf & _).
  unfold occurrences, measure in Hocc.
  assert (Hpos : forall q, 0 <= page_weight (holds_key k) (frame x q)).
  { intros q. destruct (frame x q) as [b |]; simpl; [| lia]. unfold holds_key.
    destruct (value1_of b =? k), (value2_of b =? k); lia. }
  pose proof (sum_to_zero _ _ Hpos Hocc p ltac:(lia)) as Hterm.
  simpl in Hterm. rewrite Hbuf in Hterm. simpl in Hterm. unfold holds_key in Hterm.
  exists buf. split; [done |].
  destruct (Z.eqb_spec (value1_of buf) k), (Z.eqb_spec (value2_of buf) k); lia || done.
Qed.

End LookupResults.

Lemma unchanged_well_formed (x x' : IndexWorld) :
  well_formed x -> unchanged x x' ->
  well_formed x' /\ same_globals x x' /\ forall q, frame x' q = frame x q.
Proof.
  intros (_ & Hlp & Hpages) (Hg & Hgl & Hfr). split; [| done].
  destruct Hgl as (Hl & _). split; [done |]. rewrite Hl. split; [done |].
  intros p Hp. unfold page_ok. rewrite Hl, Hfr. by apply Hpages.
Qed.

Lemma index5_well_formed : well_formed Examples.index5.
Proof.
  assert (Hl : lastPage Examples.index5 = 1) by (vm_compute; reflexivity).
  split.
  - eexists. split; [vm_compute; reflexivity |].
    split; [unfold data_ok | unfold pins_ok]; cbn [head];
      (constructor; [| constructor]); [vm_compute; reflexivity | vm_compute; discriminate].
  - rewrite Hl. split; [lia |].
    intros p Hp. assert (p = 1) as -> by lia.
    eexists. split; [vm_compute; reflexivity |]. rewrite Hl.
    split; [vm_compute; discriminate |].
    rewrite decide_True by done. split; intros Hc; vm_compute in Hc; [discriminate Hc |].
    exfalso. by apply Hc.
Qed.

(** X2.  [findKey] for a key that no slot of a well-formed index holds:
    the call returns [RC_IM_KEY_NOT_FOUND], what [result] points to is as
    before, and so are the pages, [lastPage] and [globalCount]. *)
Theorem findKey_missing_key (fuel : nat) (x : IndexWorld) (key : Z) (r0 : RID) :
  well_formed x -> occurrences key x = 0 ->
  exists x', findKey fuel x key r0 = Some (RC_IM_KEY_NOT_FOUND, x', r0) /\
             well_formed x' /\ same_globals x x' /\ forall q, frame x' q = frame x q.
Proof.
  intros Hwf Hocc.
  destruct (findKey_absent fuel x key r0 (proj1 Hwf) (absent_free x key Hwf Hocc))
    as (x' & Hrun & Hsame).
  exists x'. split; [exact Hrun |]. by apply unchanged_well_formed.
Qed.

(** The theorem above on the index that holds the key 5, for the key 7. *)
Lemma findKey_missing_key_witness :
  well_formed Examples.index5 /\ occurrences 7 Examples.index5 = 0 /\
  exists x', findKey 0 Examples.index5 7 INIT_RID = Some (RC_IM_KEY_NOT_FOUND, x', INIT_RID) /\
             well_formed x' /\ same_globals Examples.index5 x' /\
             forall q, frame x' q = frame Examples.index5 q.
Proof.
  assert (Hocc : occurrences 7 Examples.index5 = 0) by (vm_compute; reflexivity).
  split; [exact index5_well_formed |]. split; [exact Hocc |].
  exact (findKey_missing_key 0 Examples.index5 7 INIT_RID index5_well_formed Hocc).
Defined.

(** X3.  [deleteKey] for a key that no slot of a well-formed index
    holds: the call returns [RC_IM_KEY_NOT_FOUND], and the pages,
    [lastPage] and [globalCount] are as before. *)
Theorem deleteKey_missing_key (fuel : nat) (x : IndexWorld) (key : Z) :
  well_formed x -> occurrences key x = 0 ->
  exists x', deleteKey fuel x key = Some (RC_IM_KEY_NOT_FOUND, x') /\
             well_formed x' /\ same_globals x x' /\ forall q, frame x' q = frame x q.
Proof.
  intros Hwf Hocc.
  destruct (delete_search_absent fuel key (Z.to_nat (lastPage x)) 1 x (proj1 Hwf))
    as (x' & Hrun & Hsame).
  { intros p Hp. apply (absent_free x key Hwf Hocc). lia. }
  exists x'. split; [| by apply unchanged_well_formed].
  unfold deleteKey, run, deleteKey_body. unfold bind at 1, gets.
  by rewrite (bind_ok _ _ _ _ _ Hrun).
Qed.

(** The theorem above on the index that holds the key 5, for the key 7. *)
Lemma deleteKey_missing_key_witness :
  well_formed Examples.index5 /\ occurrences 7 Examples.index5 = 0 /\
  exists x', deleteKey 0 Examples.index5 7 = Some (RC_IM_KEY_NOT_FOUND, x') /\
             well_formed x' /\ same_globals Examples.index5 x' /\
             forall q, frame x' q = frame Examples.index5 q.
Proof.
  assert (Hocc : occurrences 7 Examples.index5 = 0) by (vm_compute; reflexivity).
  split; [exact index5_well_formed |]. split; [exact Hocc |].
  exact (deleteKey_missing_key 0 Examples.index5 7 index5_well_formed Hocc).
Defined.

(** X4.  A key that no slot holds is inserted with success into a
    well-formed index: [findKey] for that key then returns [RC_OK] and
    stores the inserted [RID], its two numbers taken as C [int]s, and leaves
    pages, [lastPage] and [globalCount] as they are. *)
Theorem insertKey_then_findKey (fuel fuel' : nat) (x x1 : IndexWorld) (key : Z)
    (rid r0 : RID) :
  well_formed x -> - 2 ^ 31 <= key < 2 ^ 31 -> key <> -1 ->
  frame x (lastPage x + 1) <> None \/ room x ->
  occurrences key x = 0 ->
  insertKey fuel x key rid = Some (RC_OK, x1) ->
  exists x2, findKey fuel' x1 key r0 = Some (RC_OK, x2, wrap_rid rid) /\
             well_formed x2 /\ same_globals x1 x2 /\ forall q, frame x2 q = frame x1 q.
Proof.
  intros Hwf Hrange Hkey Hcan Hocc Hins.
  destruct (insertKey_ok _ _ _ _ _ Hwf Hrange Hkey Hcan Hins)
    as (Hwf1 & _ & _ & Hpos & Hold & buf' & Hbuf' & Hcase).
  pose proof (absent_free x key Hwf Hocc) as Hfree.
  assert (Hle : lastPage x1 <= lastPage x + 1) by (destruct Hcase as [[? _] | [? _]]; lia).
  destruct (findKey_first fuel' x1 key r0 (wrap_rid rid) (lastPage x1) (proj1 Hwf1))
    as (x2 & Hrun & Hsame); [lia | | |].
  - intros p Hp. destruct (Hfree p) as (b & Hb & Hvs); [lia |].
    exists b. rewrite Hold by lia. done.
  - exists buf'. split; [exact Hbuf' |]. unfold answer.
    destruct Hcase as [(_ & Hv & Hr) | (Hl & (Hv & Hr) & b & Hb & Hv1)].
    + split; [by left |]. rewrite Hv, Z.eqb_refl. done.
    + split; [by right |]. destruct (Hfree (lastPage x)) as (b0 & Hb0 & Hn1 & _); [lia |].
      rewrite Hb in Hb0. injection Hb0 as <-.
      rewrite (proj2 (Z.eqb_neq _ _)) by congruence. done.
  - exists x2. split; [exact Hrun |]. by apply unchanged_well_formed.
Qed.

(** The theorem above on the index that holds the key 5, for the insert of
    the key 6. *)
Lemma insertKey_then_findKey_witness :
  let x := Examples.index5 in
  exists x1,
    insertKey 0 x 6 (Examples.rid_of 6) = Some (RC_OK, x1) /\
    well_formed x /\ - 2 ^ 31 <= 6 < 2 ^ 31 /\ 6 <> -1 /\
    (frame x (lastPage x + 1) <> None \/ room x) /\ occurrences 6 x = 0 /\
    exists x2, findKey 0 x1 6 INIT_RID = Some (RC_OK, x2, wrap_rid (Examples.rid_of 6)) /\
               well_formed x2 /\ same_globals x1 x2 /\ forall q, frame x2 q = frame x1 q.
Proof.
  intros x.
  assert (Hrange : - 2 ^ 31 <= 6 < 2 ^ 31) by lia.
  assert (Hkey : 6 <> -1) by lia.
  assert (Hcan : frame x (lastPage x + 1) <> None \/ room x).
  { right. eexists. split; [vm_compute; reflexivity |]. vm_compute. reflexivity. }
  assert (Hocc : occurrences 6 x = 0) by (vm_compute; reflexivity).
  destruct (insertKey 0 x 6 (Examples.rid_of 6)) as [[rc x1] |] eqn:Hop.
  - exists x1.
    assert (Hrc : rc = RC_OK).
    { assert (H : fst <$> insertKey 0 x 6 (Examples.rid_of 6) = Some RC_OK)
        by (vm_compute; reflexivity).
      rewrite Hop in H. by injection H. }
    subst rc. split; [reflexivity |].
    split; [exact index5_well_formed |]. split; [exact Hrange |]. split; [exact Hkey |].
    split; [exact Hcan |]. split; [exact Hocc |].
    exact (insertKey_then_findKey 0 0 x x1 6 (Examples.rid_of 6) INIT_RID index5_well_formed
             Hrange Hkey Hcan Hocc Hop).
  - exfalso. vm_compute in Hop. discriminate Hop.
Defined.

(** X5.  A key other than -1 that at most one slot holds is deleted with
    success from a well-formed index: no slot holds it afterwards, and
    [findKey] for it returns [RC_IM_KEY_NOT_FOUND]. *)
Theorem deleteKey_then_findKey (fuel fuel' : nat) (x x1 : IndexWorld) (key : Z) (r0 : RID) :
  well_formed x -> key <> -1 -> occurrences key x <= 1 ->
  deleteKey fuel x key = Some (RC_OK, x1) ->
  occurrences key x1 = 0 /\
  exists x2, findKey fuel' x1 key r0 = Some (RC_IM_KEY_NOT_FOUND, x2, r0).
Proof.
  intros Hwf Hkey Hocc Hdel.
  destruct (deleteKey_ok _ _ _ _ Hwf Hkey Hdel) as (Hwf1 & _ & Hm).
  assert (Hkk : holds_key key key = 1) by (unfold holds_key; by rewrite Z.eqb_refl).
  assert (Hk0 : holds_key key (-1) = 0)
    by (unfold holds_key; by rewrite (proj2 (Z.eqb_neq _ _)) by lia).
  assert (Hocc1 : occurrences key x1 = 0).
  { assert (Hpos : 0 <= measure (holds_key key) x1).
    { apply measure_nonneg. intros v. unfold holds_key. destruct (v =? key); lia. }
    unfold occurrences in *. rewrite (Hm (holds_key key) Hk0) in *. lia. }
  split; [exact Hocc1 |].
  destruct (findKey_absent fuel' x1 key r0 (proj1 Hwf1) (absent_free x1 key Hwf1 Hocc1))
    as (x2 & Hrun & _).
  by exists x2.
Qed.

(** The theorem above on the index that holds the key 5, for that key. *)
Lemma deleteKey_then_findKey_witness :
  let x := Examples.index5 in
  exists x1,
    deleteKey 0 x 5 = Some (RC_OK, x1) /\
    well_formed x /\ 5 <> -1 /\ occurrences 5 x <= 1 /\
    occurrences 5 x1 = 0 /\
    exists x2, findKey 0 x1 5 INIT_RID = Some (RC_IM_KEY_NOT_FOUND, x2, INIT_RID).
Proof.
  intros x.
  assert (Hkey : 5 <> -1) by lia.
  assert (Hocc : occurrences 5 x <= 1) by (vm_compute; discriminate).
  destruct (deleteKey 0 x 5) as [[rc x1] |] eqn:Hop.
  - exists x1.
    assert (Hrc : rc = RC_OK).
    { assert (H : fst <$> deleteKey 0 x 5 = Some RC_OK) by (vm_compute; reflexivity).
      rewrite Hop in H. by injection H. }
    subst rc. split; [reflexivity |].
    split; [exact index5_well_formed |]. split; [exact Hkey |]. split; [exact Hocc |].
    exact (deleteKey_then_findKey 0 0 x x1 5 INIT_RID index5_well_formed Hkey Hocc Hop).
  - exfalso. vm_compute in Hop. discriminate Hop.
Defined.

(** X6.  [insertKey] does not look for the key: when the key is in a
    slot already and the call succeeds, one more slot holds it, so the keys
    of the index are no longer distinct. *)
Theorem insertKey_stores_duplicate (fuel : nat) (x x' : IndexWorld) (key : Z) (rid : RID) :
  well_formed x -> - 2 ^ 31 <= key < 2 ^ 31 -> key <> -1 ->
  frame x (lastPage x + 1) <> None \/ room x ->
  1 <= occurrences key x ->
  insertKey fuel x key rid = Some (RC_OK, x') ->
  occurrences key x' = occurrences key x + 1 /\ ~ unique_keys x'.
Proof.
  intros Hwf Hrange Hkey Hcan Hocc Hins.
  destruct (insertKey_ok _ _ _ _ _ Hwf Hrange Hkey Hcan Hins) as (_ & _ & Hm & _).
  assert (Hkk : holds_key key key = 1) by (unfold holds_key; by rewrite Z.eqb_refl).
  assert (Hk0 : holds_key key (-1) = 0)
    by (unfold holds_key; by rewrite (proj2 (Z.eqb_neq _ _)) by lia).
  assert (Hocc' : occurrences key x' = occurrences key x + 1).
  { unfold occurrences. rewrite (Hm (holds_key key) Hk0). lia. }
  split; [exact Hocc' |]. intros Huniq. pose proof (Huniq key Hkey). lia.
Qed.

(** The theorem above on the index that holds the key 5, for a second
    insert of that key. *)
Lemma insertKey_stores_duplicate_witness :
  let x := Examples.index5 in
  exists x',
    insertKey 0 x 5 (Examples.rid_of 6) = Some (RC_OK, x') /\
    well_formed x /\ - 2 ^ 31 <= 5 < 2 ^ 31 /\ 5 <> -1 /\
    (frame x (lastPage x + 1) <> None \/ room x) /\ 1 <= occurrences 5 x /\
    occurrences 5 x' = occurrences 5 x + 1 /\ ~ unique_keys x'.
Proof.
  intros x.
  assert (Hrange : - 2 ^ 31 <= 5 < 2 ^ 31) by lia.
  assert (Hkey : 5 <> -1) by lia.
  assert (Hcan : frame x (lastPage x + 1) <> None \/ room x).
  { right. eexists. split; [vm_compute; reflexivity |]. vm_compute. reflexivity. }
  assert (Hocc : 1 <= occurrences 5 x) by (vm_compute; discriminate).
  destruct (insertKey 0 x 5 (Examples.rid_of 6)) as [[rc x'] |] eqn:Hop.
  - exists x'.
    assert (Hrc : rc = RC_OK).
    { assert (H : fst <$> insertKey 0 x 5 (Examples.rid_of 6) = Some RC_OK)
        by (vm_compute; reflexivity).
      rewrite Hop in H. by injection H. }
    subst rc. split; [reflexivity |].
    split; [exact index5_well_formed |]. split; [exact Hrange |]. split; [exact Hkey |].
    split; [exact Hcan |]. split; [exact Hocc |].
    exact (insertKey_stores_duplicate 0 x x' 5 (Examples.rid_of 6) index5_well_formed
             Hrange Hkey Hcan Hocc Hop).
  - exfalso. vm_compute in Hop. discriminate Hop.
Defined.

(** ** The invariants of the index, and duplicate keys *)

Section Duplicates.

Lemma occurrences_nonneg (k : Z) (x : IndexWorld) : 0 <= occurrences k x.
Proof.
  unfold occurrences. apply measure_nonneg. intros v. unfold holds_key.
  destruct (v =? k); lia.
Qed.

End Duplicates.

(** C9 on the code.  On an index whose pages 1 to [lastPage] are in the
    pool and hold their entries densely, with [globalCount] the number of
    taken slots and no key in two slots: after an [insertKey] or
    [deleteKey] of a key other than -1 that returns [RC_OK], [globalCount]
    is again the number of taken slots and the last page is not empty
    unless [lastPage] is 0; but the keys are distinct afterwards exactly
    when the call was a [deleteKey] or an [insertKey] of a key the index
    did not hold.  [insertKey] never looks for the key: for a key that is
    in the index it returns [RC_OK] and stores the key a second time. *)
Theorem index_invariants_but_unique_keys (fuel : nat) (x x' : IndexWorld) (op : IndexOp) :
  well_formed x -> count_ok x -> unique_keys x -> op_key op <> -1 -> op_ready x op ->
  apply_op fuel x op = Some (RC_OK, x') ->
  count_ok x' /\ last_page_not_empty x' /\ (unique_keys x' <-> op_fresh x op).
Proof.
  intros Hwf Hcount Huniq Hkey Hready Hop.
  assert (Htaken : taken (op_key op) = 1)
    by (unfold taken; by destruct (Z.eqb_spec (op_key op) (-1))).
  assert (Hother : forall k, k <> -1 -> holds_key k (-1) = 0)
    by (intros k Hk; unfold holds_key; by destruct (Z.eqb_spec (-1) k)).
  assert (Hself : holds_key (op_key op) (op_key op) = 1)
    by (unfold holds_key; by rewrite Z.eqb_refl).
  assert (Hbound : forall k, 0 <= holds_key k (op_key op) <= 1)
    by (intros k; unfold holds_key; destruct (_ =? _); lia).
  destruct op as [key rid | key]; simpl in *.
  - destruct Hready as [Hrange Hcan].
    destruct (insertKey_ok _ _ _ _ _ Hwf Hrange Hkey Hcan Hop) as (Hwf' & Hc' & Hm & _).
    split; [| split; [by apply well_formed_last_page |]].
    + unfold count_ok, live_entries in *. rewrite (Hm taken eq_refl), Hc', Hcount, Htaken.
      done.
    + assert (Hocc' : occurrences key x' = occurrences key x + 1)
        by (unfold occurrences; rewrite (Hm _ (Hother key Hkey)); lia).
      split.
      * intros Huniq'. pose proof (Huniq' key Hkey). pose proof (occurrences_nonneg key x).
        lia.
      * intros Hfresh k Hk. unfold occurrences in *. rewrite (Hm _ (Hother k Hk)).
        destruct (decide (k = key)) as [-> | Hne].
        -- rewrite Hfresh, Hself. lia.
        -- pose proof (Huniq k Hk) as Hle. unfold occurrences in Hle.
           assert (Hz : holds_key k key = 0); [| lia].
           unfold holds_key. destruct (Z.eqb_spec key k); congruence.
  - destruct (deleteKey_ok _ _ _ _ Hwf Hkey Hop) as (Hwf' & Hc' & Hm).
    split; [| split; [by apply well_formed_last_page |]].
    + unfold count_ok, live_entries in *. rewrite (Hm taken eq_refl), Hc', Hcount, Htaken.
      done.
    + split; [done |]. intros _ k Hk. unfold occurrences in *. rewrite (Hm _ (Hother k Hk)).
      pose proof (Huniq k Hk) as Hle. unfold occurrences in Hle.
      pose proof (Hbound k). lia.
Qed.

(** The theorem above on the index that holds the key 5 once, for a
    second insert of the key 5: the call returns [RC_OK], and the key is in
    two slots afterwards. *)
Lemma index_invariants_but_unique_keys_witness :
  let x := Examples.index5 in
  let op := InsertKey 5 (Examples.rid_of 6) in
  exists x',
    apply_op 0 x op = Some (RC_OK, x') /\
    well_formed x /\ count_ok x /\ unique_keys x /\ op_key op <> -1 /\ op_ready x op /\
    count_ok x' /\ last_page_not_empty x' /\ (unique_keys x' <-> op_fresh x op) /\
    occurrences 5 x = 1 /\ ~ unique_keys x'.
Proof.
  intros x op.
  assert (Hwf : well_formed x) by exact index5_well_formed.
  assert (Hcount : count_ok x) by (vm_compute; reflexivity).
  assert (Hocc : occurrences 5 x = 1) by (vm_compute; reflexivity).
  assert (Hl : lastPage x = 1) by (vm_compute; reflexivity).
  assert (Hslots : (fun buf => (value1_of buf, value2_of buf)) <$> frame x 1 = Some (5, -1))
    by (vm_compute; reflexivity).
  assert (Hready : op_ready x op).
  { split; [simpl; lia |]. right. eexists. split; [vm_compute; reflexivity |].
    vm_compute. reflexivity. }
  assert (Hrc : fst <$> apply_op 0 x op = Some RC_OK) by (vm_compute; reflexivity).
  clearbody x.
  assert (Huniq : unique_keys x).
  { intros k Hk. unfold occurrences, measure. rewrite Hl.
    change (Z.to_nat 1) with 1%nat. cbn [sum_to]. change (Z.of_nat 1) with 1.
    destruct (frame x 1) as [buf |]; [| discriminate Hslots].
    injection Hslots as Hv1 Hv2. cbn [page_weight]. rewrite Hv1, Hv2. unfold holds_key.
    destruct (5 =? k); destruct (Z.eqb_spec (-1) k); lia. }
  assert (Hkey : op_key op <> -1) by (simpl; lia).
  destruct (apply_op 0 x op) as [[rc x'] |] eqn:Hop; [| discriminate Hrc].
  injection Hrc as ->.
  exists x'. split; [reflexivity |].
  split; [exact Hwf |]. split; [exact Hcount |]. split; [exact Huniq |].
  split; [exact Hkey |]. split; [exact Hready |].
  destruct (index_invariants_but_unique_keys 0 x x' op Hwf Hcount Huniq Hkey Hready Hop)
    as (Hc' & Hlast & Hiff).
  split; [exact Hc' |]. split; [exact Hlast |]. split; [exact Hiff |].
  split; [exact Hocc |].
  intros Hu. apply Hiff in Hu. cbn [op_fresh op] in Hu. rewrite Hocc in Hu. discriminate Hu.
Defined.

(** ** Pins of the index manager *)

Section IndexPins.

(** The sum of the pin counts over the frames of the index's pool. *)
Definition index_pins (x : IndexWorld) : Z :=
  match pool x with
  | Some m => sumZ pinCount (head m)
  | None => 0
  end.

Lemma index_pins_set_lastPage (x : IndexWorld) (n : Z) :
  index_pins (set_lastPage x n) = index_pins x.
Proof. done. Qed.

Lemma pinI_pins (fuel : nat) (p : Z) (x x' : IndexWorld) :
  pinI fuel p x = Some (RC_OK, x') -> index_pins x' = index_pins x + 1.
Proof.
  unfold pinI, index_pins, pool.
  destruct (pinPage fuel _ _ _ p) as [[[[rc fs1] bm1] h1] |] eqn:Hpin; [| done].
  intros [= -> <-]. simpl.
  destruct (mgmtData (bm (trInfo x))) as [m |] eqn:Hlive.
  - destruct (pinPage_ok_pin_total _ _ _ _ Hlive _ _ _ _ _ Hpin) as (m' & -> & Hsum). done.
  - unfold pinPage in Hpin. by rewrite Hlive in Hpin.
Qed.

Lemma unpinI_pins (x x' : IndexWorld) :
  unpinI x = Some (RC_OK, x') -> index_pins x' = index_pins x - 1.
Proof.
  unfold unpinI, index_pins, pool.
  destruct (unpinPage _ _) as [[rc bm1] |] eqn:Hun; [| done].
  intros [= -> <-]. simpl.
  destruct (mgmtData (bm (trInfo x))) as [m |] eqn:Hlive.
  - destruct (unpinPage_ok_pin_total _ _ Hlive _ _ Hun) as (m' & -> & Hsum). done.
  - unfold unpinPage in Hun. by rewrite Hlive in Hun.
Qed.

Lemma markI_pins (x x' : IndexWorld) :
  markI x = Some (RC_OK, x') -> index_pins x' = index_pins x.
Proof.
  unfold markI, index_pins, pool.
  destruct (markDirty _ _) as [[rc bm1] |] eqn:Hmd; [| done].
  intros [= -> <-]. simpl.
  destruct (mgmtData (bm (trInfo x))) as [m |] eqn:Hlive.
  - destruct (markDirty_ok_pin_total _ _ Hlive _ _ Hmd) as (m' & -> & Hsum). done.
  - unfold markDirty in Hmd. by rewrite Hlive in Hmd.
Qed.

Lemma store_data_pins (g : list byte -> list byte) (x x' : IndexWorld) :
  store_data g x = Some x' -> index_pins x' = index_pins x.
Proof.
  unfold store_data, index_pins, pool.
  destruct (page_data x) as [buf |]; [| done]. simpl.
  destruct (store_buffer _ _ _) as [bm1 |] eqn:Hst; [| done]. simpl.
  intros [= <-]. simpl.
  destruct (mgmtData (bm (trInfo x))) as [m |] eqn:Hlive.
  - destruct (store_buffer_pin_total _ _ Hlive _ _ _ Hst) as (m' & -> & Hsum). done.
  - unfold store_buffer in Hst. by rewrite Hlive in Hst.
Qed.

Lemma on_page_pins (f : list byte -> RC * list byte) (x x' : IndexWorld) (rc : RC) :
  on_page f x = Some (rc, x') -> index_pins x' = index_pins x.
Proof.
  unfold on_page. destruct (page_data x) as [buf |]; [| done]. simpl.
  destruct (store_data _ x) as [x1 |] eqn:Hst; [| done]. simpl. intros [= _ <-].
  by apply store_data_pins in Hst.
Qed.

Lemma handlePagePinning_pins (fuel : nat) (p : Z) (d : bool) (x x' : IndexWorld) :
  handlePagePinning fuel p d x = Some (RC_OK, x') -> index_pins x' = index_pins x + 1.
Proof.
  intros H. unfold handlePagePinning in H.
  apply run_ok_inv in H; [| apply handlePagePinning_fails_only].
  step_body H as Hpin. apply pinI_pins in Hpin.
  destruct d.
  - apply check_or_inr_inv in H. apply markI_pins in H. lia.
  - injection H as <-. done.
Qed.

Lemma new_page_entry_pins (key : Z) (rid : RID) (x x' : IndexWorld) (u : unit) :
  new_page_entry key rid x = Some (x', inr u) -> index_pins x' = index_pins x - 1.
Proof.
  intros H. unfold new_page_entry in H.
  step_body H as Hst. apply store_data_pins in Hst.
  step_body H as Hinit. apply on_page_pins in Hinit.
  apply check_inr_inv in H. apply unpinI_pins in H. lia.
Qed.

Lemma find_search_pins (fuel n : nat) (i key : Z) (r0 : RID) (x x' : IndexWorld)
    (r : Z * bool * RID) :
  find_search fuel n i key r0 x = Some (x', inr r) ->
  i <= r.1.1 <= i + Z.of_nat n /\ (r.1.2 = false -> r.1.1 = i + Z.of_nat n) /\
  index_pins x' = index_pins x + (if r.1.2 then 1 else 0) /\
  (r.1.2 = true -> r.1.1 < i + Z.of_nat n).
Proof.
  revert i x. induction n as [| k IH]; intros i x H; simpl in H.
  - injection H as <- <-. simpl. lia.
  - step_body H as Hpin. apply handlePagePinning_pins in Hpin.
    step_body H as Hpd.
    destruct (key =? value1_of _); [injection H as <- <-; simpl; lia |].
    destruct (key =? value2_of _); [injection H as <- <-; simpl; lia |].
    step_body H as Hun. apply unpinI_pins in Hun.
    apply IH in H. destruct r as [[j b] r1]. simpl in *. destruct b; lia.
Qed.

Lemma delete_search_pins (fuel n : nat) (i key : Z) (x x' : IndexWorld) (r : Z * Z * bool) :
  delete_search fuel n i key x = Some (x', inr r) ->
  index_pins x' = index_pins x + (if r.2 then 1 else 0).
Proof.
  revert i x. induction n as [| k IH]; intros i x H; simpl in H.
  - injection H as <- <-. simpl. lia.
  - step_body H as Hpin. apply handlePagePinning_pins in Hpin.
    step_body H as Hpd.
    destruct (key =? value1_of _); [injection H as <- <-; simpl; lia |].
    destruct (key =? value2_of _); [injection H as <- <-; simpl; lia |].
    step_body H as Hun. apply unpinI_pins in Hun.
    apply IH in H. lia.
Qed.

Lemma put_moved_pins (fuel : nat) (i valueNum : Z) (moveRID : RID) (moveValue : Z)
    (x x' : IndexWorld) (u : unit) :
  put_moved fuel i valueNum moveRID moveValue x = Some (x', inr u) ->
  index_pins x' = index_pins x.
Proof.
  intros H. unfold put_moved in H.
  step_body H as Hpin. apply handlePagePinning_pins in Hpin.
  step_body H as Hst. apply store_data_pins in Hst.
  apply check_inr_inv in H. apply unpinI_pins in H. lia.
Qed.

Lemma find_search_fails_only (fuel n : nat) (i key : Z) (r0 : RID) :
  fails_only (find_search fuel n i key r0).
Proof.
  revert i. induction n as [| k IH]; intros i; simpl; [apply fails_only_ret |].
  apply fails_only_bind; [apply fails_only_check |]. intros _.
  apply fails_only_bind; [apply fails_only_defined |]. intros buf.
  destruct (key =? value1_of buf); [apply fails_only_ret |].
  destruct (key =? value2_of buf); [apply fails_only_ret |].
  apply fails_only_bind; [apply fails_only_check |]. intros _. apply IH.
Qed.

Lemma findKey_body_fails_only (fuel : nat) (key : Z) (r0 : RID) :
  fails_only (findKey_body fuel key r0).
Proof.
  unfold findKey_body.
  apply fails_only_bind; [apply fails_only_gets |]. intros lp.
  apply fails_only_bind; [apply find_search_fails_only |]. intros [[i find] r].
  apply fails_only_bind.
  - destruct (i <=? lp); [apply fails_only_check | apply fails_only_ret].
  - intros _. destruct find; [apply fails_only_ret | by apply fails_only_raise].
Qed.

End IndexPins.

(** X7.  A call of [deleteKey] that returns [RC_OK] leaves the sum of
    the pin counts of the index's pool one higher than it found it: the
    page on which the search loop finds the key is never unpinned. *)
Theorem deleteKey_leaks_one_pin (fuel : nat) (x x' : IndexWorld) (key : Z) :
  deleteKey fuel x key = Some (RC_OK, x') -> index_pins x' = index_pins x + 1.
Proof.
  intros H. unfold deleteKey in H.
  apply run_ok_inv in H; [| apply deleteKey_body_fails_only].
  unfold deleteKey_body in H.
  step_body H as Hlast. step_body H as Hsearch.
  apply delete_search_pins in Hsearch. destruct a as [[i vn] find].
  destruct find; [| done]. cbn [negb snd] in *.
  step_body H as Hpin. apply handlePagePinning_pins in Hpin.
  step_body H as Hbody. apply modify_inr_inv in H. subst x'.
  match goal with
  | |- index_pins (with_tree ?s _) = _ => change (index_pins s = index_pins x + 1)
  end.
  destruct (i =? 0).
  { step_body Hbody as Hign. done. }
  destruct (i =? lastPage x).
  - step_body Hbody as Hst. apply check_inr_inv in Hbody. apply unpinI_pins in Hbody.
    assert (Hsame : index_pins s2 = index_pins s0); [| lia].
    destruct (vn =? 2).
    + apply update_inr_inv in Hst. by apply store_data_pins in Hst.
    + step_body Hst as Hpd. destruct (full_of _).
      * apply update_inr_inv in Hst. by apply store_data_pins in Hst.
      * step_body Hst as Hst1. apply store_data_pins in Hst1.
        apply modify_inr_inv in Hst. subst s2. exact Hst1.
  - step_body Hbody as Hpd. destruct (full_of _).
    + destruct (give_second _) as [[mr mv] b'].
      step_body Hbody as Hst. apply store_data_pins in Hst.
      step_body Hbody as Hun. apply unpinI_pins in Hun.
      apply put_moved_pins in Hbody. lia.
    + destruct (give_first _) as [[mr mv] b'].
      step_body Hbody as Hst. apply store_data_pins in Hst.
      step_body Hbody as Hm.
      step_body Hbody as Hun. apply unpinI_pins in Hun.
      apply put_moved_pins in Hbody.
      rewrite index_pins_set_lastPage in Hun. lia.
Qed.

(** The theorem above on the index that holds the key 5, for that key:
    no frame is pinned before the call, one pin is left after it. *)
Lemma deleteKey_leaks_one_pin_witness :
  let x := Examples.index5 in
  exists x',
    deleteKey 0 x 5 = Some (RC_OK, x') /\ index_pins x = 0 /\
    index_pins x' = index_pins x + 1.
Proof.
  intros x.
  destruct (deleteKey 0 x 5) as [[rc x'] |] eqn:Hop.
  - exists x'.
    assert (Hrc : rc = RC_OK).
    { assert (H : fst <$> deleteKey 0 x 5 = Some RC_OK) by (vm_compute; reflexivity).
      rewrite Hop in H. by injection H. }
    subst rc. split; [reflexivity |]. split; [vm_compute; reflexivity |].
    exact (deleteKey_leaks_one_pin 0 x x' 5 Hop).
  - exfalso. vm_compute in Hop. discriminate Hop.
Defined.

(** X8.  A call of [insertKey] that returns [RC_OK] leaves the sum of
    the pin counts of the index's pool as it found it. *)
Theorem insertKey_pin_balance (fuel : nat) (x x' : IndexWorld) (key : Z) (rid : RID) :
  insertKey fuel x key rid = Some (RC_OK, x') -> index_pins x' = index_pins x.
Proof.
  intros H.
  unfold insertKey in H. apply run_ok_inv in H; [| apply insertKey_body_fails_only].
  unfold insertKey_body in H.
  step_body H as Hlast. step_body H as Hbody. apply modify_inr_inv in H. subst x'.
  match goal with |- index_pins (with_tree ?s _) = _ => change (index_pins s = index_pins x) end.
  destruct (lastPage x =? 0).
  - step_body Hbody as Hm1. step_body Hbody as Hm2.
    step_body Hbody as Hpin. apply handlePagePinning_pins in Hpin.
    apply new_page_entry_pins in Hbody.
    change (index_pins (with_tree (set_lastPage x 1) _)) with (index_pins x) in Hpin. lia.
  - step_body Hbody as Hpin. apply handlePagePinning_pins in Hpin.
    step_body Hbody as Hpd. destruct (full_of _).
    + step_body Hbody as Hm. step_body Hbody as Hun. apply unpinI_pins in Hun.
      step_body Hbody as Hpin2. apply handlePagePinning_pins in Hpin2.
      apply new_page_entry_pins in Hbody.
      rewrite index_pins_set_lastPage in Hun. lia.
    + step_body Hbody as Hst1. apply store_data_pins in Hst1.
      step_body Hbody as Hst2. apply store_data_pins in Hst2.
      apply check_inr_inv in Hbody. apply unpinI_pins in Hbody. lia.
Qed.

(** The theorem above on the index that holds the key 5, for the insert of
    the key 6. *)
Lemma insertKey_pin_balance_witness :
  let x := Examples.index5 in
  exists x',
    insertKey 0 x 6 (Examples.rid_of 6) = Some (RC_OK, x') /\ index_pins x' = index_pins x.
Proof.
  intros x.
  destruct (insertKey 0 x 6 (Examples.rid_of 6)) as [[rc x'] |] eqn:Hop.
  - exists x'.
    assert (Hrc : rc = RC_OK).
    { assert (H : fst <$> insertKey 0 x 6 (Examples.rid_of 6) = Some RC_OK)
        by (vm_compute; reflexivity).
      rewrite Hop in H. by injection H. }
    subst rc. split; [reflexivity |].
    exact (insertKey_pin_balance 0 x x' 6 (Examples.rid_of 6) Hop).
  - exfalso. vm_compute in Hop. discriminate Hop.
Defined.

(** X9.  A call of [findKey] that returns [RC_OK] leaves the sum of the
    pin counts of the index's pool as it found it. *)
Theorem findKey_pin_balance (fuel : nat) (x x' : IndexWorld) (key : Z) (r0 r : RID) :
  findKey fuel x key r0 = Some (RC_OK, x', r) -> index_pins x' = index_pins x.
Proof.
  intros H. unfold findKey in H.
  destruct (findKey_body fuel key r0 x) as [[x1 [rc | r1]] |] eqn:Hbody; [| | done].
  - injection H as -> <- <-. exfalso. by apply (findKey_body_fails_only _ _ _ _ _ _ Hbody).
  - injection H as <- <-. unfold findKey_body in Hbody.
    step_body Hbody as Hlast. step_body Hbody as Hsearch.
    apply find_search_pins in Hsearch as (Hrange & Hnot & Hpins & Hfound).
    destruct a as [[i find] r2]. simpl in *.
    step_body Hbody as Hun. destruct find; [| done].
    destruct (Z.leb_spec i (lastPage x)) as [_ | Hgt]; [| lia].
    apply check_inr_inv in Hun. apply unpinI_pins in Hun.
    injection Hbody as <- <-. lia.
Qed.

(** The theorem above on the index that holds the key 5, for that key. *)
Lemma findKey_pin_balance_witness :
  let x := Examples.index5 in
  exists x' r,
    findKey 0 x 5 INIT_RID = Some (RC_OK, x', r) /\ index_pins x' = index_pins x.
Proof.
  intros x.
  destruct (findKey 0 x 5 INIT_RID) as [[[rc x'] r] |] eqn:Hop.
  - exists x', r.
    assert (Hrc : rc = RC_OK).
    { assert (H : (fun t => t.1.1) <$> findKey 0 x 5 INIT_RID = Some RC_OK)
        by (vm_compute; reflexivity).
      rewrite Hop in H. by injection H. }
    subst rc. split; [reflexivity |].
    exact (findKey_pin_balance 0 x x' 5 INIT_RID r Hop).
  - exfalso. vm_compute in Hop. discriminate Hop.
Defined.

(** * More of the record manager *)

Section PinOutcome.

Variables (fuel : nat) (fs : FileSystem) (bm : BM_BufferPool) (m : BufferPoolMetadata).
Hypothesis Hlive : mgmtData bm = Some m.

(** After a successful pin the handle points at the first frame that
    holds the page. *)
Lemma pinPage_ok_frame (page : BM_PageHandle) (p : Z) (fs' : FileSystem)
    (bm' : BM_BufferPool) (page' : BM_PageHandle) :
  pinPage fuel fs bm page p = Some (RC_OK, fs', bm', page') ->
  exists m' i f',
    bm' = set_mgmtData bm (Some m') /\ page' = mkPageHandle p (Some i) /\
    findPage m' p = Some (i, f') /\ (data_ok m -> length (data f') = PAGE_LEN).
Proof.
  intros Hpin.
  destruct (pinPage_ok_inv _ _ _ _ Hlive _ _ _ _ _ Hpin) as (m' & -> & Ht & Hg & Hcases).
  exists m'.
  destruct Hcases as [(i & f & Hfind & -> & _ & Hh & Hu) |
                      [(buf & Hlen & Hnone & Hroom & -> & Hh & Hu) |
                       (m1 & v & victim & buf & Hlen & Hnone & Hfull & Hsel & Hv & -> & Hh & Hu)]].
  - pose proof (findPage_lookup _ _ _ _ Hfind) as [Hi Hp].
    set (f' := mkNode _ _ _ _ _ _) in Hh.
    exists i, f'. split; [done |]. split; [done |]. split.
    + unfold findPage in *. rewrite Hh. by apply (find_insert_same p _ _ f).
    + intros Hd. apply (Forall_lookup_1 _ _ _ _ Hd Hi).
  - set (g := mkNode _ _ _ _ _ _) in Hh.
    exists (length (head m)), g. split; [done |]. split; [done |]. split; [| done].
    unfold findPage in *. rewrite Hh. by apply find_app_fresh.
  - set (g := mkNode _ _ _ _ _ _) in Hh.
    destruct (select_victim_spec _ _ _ _ _ Hsel) as (_ & Hsame & _).
    exists v, g. split; [done |]. split; [done |]. split; [| done].
    assert (Hnone1 : findPage m1 p = None).
    { unfold findPage in *. by apply (find_same_frame_None p (head m)). }
    unfold findPage in *. rewrite Hh.
    apply find_insert_fresh; [done | done | by eapply lookup_lt_Some].
Qed.

End PinOutcome.

(** ** Records that were written or deleted *)

Section TableFrames.

Definition table_ok (w : World) : Prop := exists m, pool_meta w = Some m /\ data_ok m.

(** The table's page handle points at the frame that holds page [p], with
    content [buf]. *)
Definition on_frame (w : World) (p : Z) (buf : list byte) : Prop :=
  exists m i f, pool_meta w = Some m /\ pageInfo (tableInfo w) = mkPageHandle p (Some i) /\
                findPage m p = Some (i, f) /\ data f = buf.

Lemma pin_on_frame (fuel : nat) (p : Z) (w w' : World) :
  table_ok w -> pin fuel p w = Some (RC_OK, w') ->
  exists buf, on_frame w' p buf /\ length buf = PAGE_LEN.
Proof.
  intros (m & Hlive & Hd). unfold pin.
  destruct (pinPage fuel _ _ _ p) as [[[[rc fs1] bm1] h1] |] eqn:Hpin; [| done].
  intros [= -> <-].
  destruct (pinPage_ok_frame _ _ _ _ Hlive _ _ _ _ _ Hpin) as (m' & i & f' & -> & -> & Hfind & Hlen).
  exists (data f'). split; [| auto]. by exists m', i, f'.
Qed.

Lemma page_content_on_frame (w : World) (p : Z) (buf : list byte) :
  on_frame w p buf -> page_content w = Some buf.
Proof.
  intros (m & i & f & Hlive & Hpage & Hfind & Hdata).
  unfold page_content, handle_buffer. unfold pool_meta in Hlive. rewrite Hlive, Hpage. simpl.
  apply findPage_lookup in Hfind as [Hi _]. rewrite Hi. simpl. by rewrite Hdata.
Qed.

Lemma store_page_on_frame (w w' : World) (p : Z) (buf buf' : list byte) :
  on_frame w p buf -> store_page buf' w = Some w' -> on_frame w' p buf'.
Proof.
  intros (m & i & f & Hlive & Hpage & Hfind & Hdata). unfold store_page, store_buffer.
  unfold pool_meta in Hlive. rewrite Hlive, Hpage. simpl.
  pose proof (findPage_lookup _ _ _ _ Hfind) as [Hi Hp]. rewrite Hi. simpl.
  intros [= <-]. eexists _, i, (set_data f buf'). split; [reflexivity |].
  split; [done |]. split; [| done].
  unfold findPage in *. simpl. by apply (find_insert_same p _ _ f).
Qed.

Lemma mark_dirty_on_frame (w w' : World) (p : Z) (buf : list byte) :
  on_frame w p buf -> mark_dirty w = Some (RC_OK, w') -> on_frame w' p buf.
Proof.
  intros (m & i & f & Hlive & Hpage & Hfind & Hdata). unfold mark_dirty.
  destruct (markDirty _ _) as [[rc bm1] |] eqn:Hmd; [| done]. intros [= -> <-].
  unfold pool_meta in Hlive.
  destruct (markDirty_ok_inv _ _ Hlive _ _ Hmd) as (i' & f0 & Hfind0 & ->).
  rewrite Hpage in Hfind0. simpl in Hfind0.
  destruct (findPage_inj _ _ _ _ _ _ Hfind0 Hfind) as [-> ->].
  pose proof (findPage_lookup _ _ _ _ Hfind) as [Hi Hp].
  eexists _, i, (set_isDirty f true). split; [reflexivity |].
  split; [done |]. split; [| done].
  unfold findPage in *. simpl. by apply (find_insert_same p _ _ f).
Qed.

Lemma unpin_on_frame (w w' : World) (p : Z) (buf : list byte) :
  on_frame w p buf -> unpin w = Some (RC_OK, w') -> kept w' p buf.
Proof.
  intros (m & i & f & Hlive & Hpage & Hfind & Hdata). unfold unpin.
  destruct (unpinPage _ _) as [[rc bm1] |] eqn:Hun; [| done]. intros [= -> <-].
  unfold pool_meta in Hlive.
  destruct (unpinPage_ok_inv _ _ Hlive _ _ Hun) as (i' & f0 & Hfind0 & Hpos & ->).
  rewrite Hpage in Hfind0. simpl in Hfind0.
  destruct (findPage_inj _ _ _ _ _ _ Hfind0 Hfind) as [-> ->].
  pose proof (findPage_lookup _ _ _ _ Hfind) as [Hi Hp].
  eexists _, i, (set_pinCount f (pinCount f - 1)). split; [reflexivity |].
  split; [| split; [done | simpl; lia]].
  unfold findPage in *. simpl. by apply (find_insert_same p _ _ f).
Qed.

Lemma updateRecord_body_fails_only (fuel : nat) (rel : RM_TableData) (record : RecordT) :
  fails_only (updateRecord_body fuel rel record).
Proof.
  unfold updateRecord_body.
  apply fails_only_bind; [apply fails_only_check |]. intros _.
  destruct (getRecordSize (schema rel) <=? 0).
  - apply fails_only_bind; [apply fails_only_ignore |]. intros _. by apply fails_only_raise.
  - repeat (apply fails_only_bind;
            [first [apply fails_only_defined | apply fails_only_update
                   | apply fails_only_check_or] | intros ?]).
    apply fails_only_check.
Qed.

Lemma deleteRecord_body_fails_only (fuel : nat) (rel : RM_TableData) (rid : RID) :
  fails_only (deleteRecord_body fuel rel rid).
Proof.
  unfold deleteRecord_body.
  apply fails_only_bind; [apply fails_only_check |]. intros _.
  apply fails_only_bind; [apply fails_only_modify |]. intros _.
  destruct (getRecordSize (schema rel) <=? 0).
  - apply fails_only_bind; [apply fails_only_ignore |]. intros _. by apply fails_only_raise.
  - repeat (apply fails_only_bind;
            [first [apply fails_only_defined | apply fails_only_update
                   | apply fails_only_check_or] | intros ?]).
    apply fails_only_check.
Qed.

(** [getRecord] on a resident page whose slot does not hold the occupied
    mark. *)
Lemma getRecord_kept_free (fuel : nat) (w : World) (rel : RM_TableData) (rid : RID)
    (r0 : RecordT) (buf : list byte) (off : nat) (b : byte) :
  kept w (RecordMgr.page rid) buf ->
  0 < getRecordSize (schema rel) ->
  slot_offset (slot rid) (getRecordSize (schema rel)) = Some off ->
  buf !! off = Some b -> b <> PLUS ->
  exists w', getRecord fuel w rel rid r0 = Some (RC_RM_NO_TUPLE_WITH_GIVEN_RID, (w', r0)).
Proof.
  intros (m & i & f & Hlive & Hfind & Hdata & Hpos) Hrs Hoff Htomb Hb.
  unfold pool_meta in Hlive.
  pose proof (findPage_lookup _ _ _ _ Hfind) as [Hi Hp].
  unfold getRecord, run, getRecord_body.
  unfold bind at 1. unfold check at 1, onW at 1, pin, pinPage. simpl.
  rewrite Hlive, Hfind. simpl.
  destruct (Z.leb_spec (getRecordSize (schema rel)) 0) as [? | _]; [lia |].
  unfold bind at 1, defined at 1, page_content, handle_buffer. simpl.
  rewrite list_lookup_insert_eq by (by eapply lookup_lt_Some). simpl.
  unfold bind at 1, defined at 1. rewrite Hoff.
  unfold bind at 1, defined at 1. rewrite Hdata, Htomb. simpl.
  assert (Hne : Byte.eqb b PLUS = false).
  { destruct (Byte.eqb b PLUS) eqn:He; [| done]. apply Byte.byte_dec_bl in He. done. }
  rewrite Hne. simpl.
  unfold bind, check, onW, unpin, unpinPage. simpl.
  unfold findPage in *. simpl.
  rewrite (find_insert_same (RecordMgr.page rid) _ _ f) by done.
  simpl. destruct (Z.gtb_spec (pinCount f + 1) 0) as [_ | ?]; [| lia].
  by eexists.
Qed.

End TableFrames.

(** X10.  In a table whose buffer frames hold full pages: after an
    [updateRecord] of [r] that returns [RC_OK], [getRecord] on [id r],
    into a record [r0] that has room for [getRecordSize] bytes, returns
    [RC_OK] and yields the bytes of [r] at positions 1 to
    [getRecordSize - 1], which is all of its payload when [r] has
    [getRecordSize] bytes; byte 0, which neither function copies, and the
    bytes from [getRecordSize] on are those of [r0].  [updateRecord] never
    looks at the slot's mark, so this holds for a slot that was free or
    deleted as well.  A call whose slot does not lie wholly inside the page,
    or whose record has fewer than [getRecordSize] bytes, copies outside a
    buffer and has no result. *)
Theorem updateRecord_then_getRecord (fuel fuel' : nat) (w w1 : World) (rel : RM_TableData)
    (r r0 : RecordT) :
  table_ok w ->
  (Z.to_nat (getRecordSize (schema rel)) <= length (rdata r0))%nat ->
  updateRecord fuel w rel r = Some (RC_OK, w1) ->
  exists w2,
    getRecord fuel' w1 rel (id r) r0
    = Some (RC_OK,
            (w2, mkRecord (id r)
                   (take 1 (rdata r0)
                    ++ take (Z.to_nat (getRecordSize (schema rel) - 1)) (drop 1 (rdata r))
                    ++ drop (Z.to_nat (getRecordSize (schema rel))) (rdata r0)))) /\
    (Z.to_nat (getRecordSize (schema rel)) <= length (rdata r))%nat /\
    exists off : nat,
      slot_offset (slot (id r)) (getRecordSize (schema rel)) = Some off /\
      (off + Z.to_nat (getRecordSize (schema rel)) <= PAGE_LEN)%nat.
Proof.
  intros Hok Hr0 H. unfold updateRecord in H.
  apply run_ok_inv in H; [| apply updateRecord_body_fails_only].
  unfold updateRecord_body in H.
  step_body H as Hpin.
  destruct (pin_on_frame _ _ _ _ Hok Hpin) as (buf & Hon & Hlen).
  destruct (Z.leb_spec (getRecordSize (schema rel)) 0) as [Hle | Hrs].
  { step_body H as Hign. done. }
  step_body H as Hpc. rewrite (page_content_on_frame _ _ _ Hon) in Hpc. injection Hpc as <-.
  step_body H as Hoff.
  match type of Hoff with _ = Some ?o => rename o into off end.
  step_body H as Hst.
  destruct (write_slot buf off r _) as [slotBuf |] eqn:Hws; [| done]. simpl in Hst.
  apply (store_page_on_frame _ _ _ _ _ Hon) in Hst.
  step_body H as Hmd. apply (mark_dirty_on_frame _ _ _ _ Hst) in Hmd.
  apply check_inr_inv in H. apply (unpin_on_frame _ _ _ _ Hmd) in H.
  set (rs := getRecordSize (schema rel)) in *.
  assert (Hn : Datatypes.S (Z.to_nat (rs - 1)) = Z.to_nat rs) by lia.
  assert (Hr0' : (Datatypes.S (Z.to_nat (rs - 1)) <= length (rdata r0))%nat) by lia.
  pose proof (read_write_slot _ _ _ r0 _ _ Hws Hr0') as Hread.
  destruct (getRecord_kept fuel' w1 rel (id r) r0 slotBuf off _ H Hrs Hoff
              (write_slot_tombstone _ _ _ _ _ Hws) Hread) as (w2 & Hget).
  apply write_slot_inv in Hws as (Hpage & Hrec & _).
  exists w2. rewrite Hget, Hn. split; [done |]. split; [lia |].
  exists off. split; [done |]. rewrite <- Hlen. lia.
Qed.

(** X11.  In a table whose buffer frames hold full pages: after a
    successful [deleteRecord], [getRecord] on the same [RID] returns
    [RC_RM_NO_TUPLE_WITH_GIVEN_RID] and leaves the caller's record as it
    was. *)
Theorem deleteRecord_then_getRecord (fuel fuel' : nat) (w w1 : World) (rel : RM_TableData)
    (rid : RID) (r0 : RecordT) :
  table_ok w ->
  deleteRecord fuel w rel rid = Some (RC_OK, w1) ->
  exists w2, getRecord fuel' w1 rel rid r0 = Some (RC_RM_NO_TUPLE_WITH_GIVEN_RID, (w2, r0)).
Proof.
  intros Hok H. unfold deleteRecord in H.
  apply run_ok_inv in H; [| apply deleteRecord_body_fails_only].
  unfold deleteRecord_body in H.
  step_body H as Hpin.
  destruct (pin_on_frame _ _ _ _ Hok Hpin) as (buf & Hon & Hlen).
  step_body H as Hm.
  destruct (Z.leb_spec (getRecordSize (schema rel)) 0) as [Hle | Hrs].
  { step_body H as Hign. done. }
  assert (Hon' : on_frame (with_table s (fun t => set_freePageIndex t (RecordMgr.page rid)))
                          (RecordMgr.page rid) buf) by exact Hon.
  step_body H as Hpc. rewrite (page_content_on_frame _ _ _ Hon') in Hpc. injection Hpc as <-.
  step_body H as Hoff.
  match type of Hoff with _ = Some ?o => rename o into off end.
  step_body H as Hst. apply (store_page_on_frame _ _ _ _ _ Hon') in Hst.
  step_body H as Hmd. apply (mark_dirty_on_frame _ _ _ _ Hst) in Hmd.
  apply check_inr_inv in H. apply (unpin_on_frame _ _ _ _ Hmd) in H.
  pose proof (slot_offset_lt _ _ _ Hoff) as Hlt.
  apply (getRecord_kept_free fuel' w1 rel rid r0 _ off MINUS H Hrs Hoff); [| done].
  apply list_lookup_insert_eq. lia.
Qed.

Lemma table_ok_check (w : World) :
  match pool_meta w with
  | Some m => forallb (fun f => bool_decide (length (data f) = PAGE_LEN)) (head m)
  | None => false
  end = true ->
  table_ok w.
Proof.
  unfold table_ok. destruct (pool_meta w) as [m |]; [| done]. intros Hall.
  exists m. split; [done |]. unfold data_ok. apply Forall_forall. intros f Hf.
  rewrite forallb_forall in Hall. apply list_elem_of_In in Hf.
  specialize (Hall f Hf). by apply bool_decide_eq_true in Hall.
Qed.

(** The theorem above on the table with the rows 1, 2 and 3: the record in
    slot 1 of page 1 is overwritten with the row 9 and read back. *)
Lemma updateRecord_then_getRecord_witness :
  let w := Examples.world_of Examples.table123 in
  let rel := Examples.rel_of Examples.table123 in
  let row := default Examples.blank_row (Examples.make_row Examples.id_schema 9) in
  let r := mkRecord (mkRID 1 1) (rdata row) in
  exists w1,
    updateRecord 0 w rel r = Some (RC_OK, w1) /\
    table_ok w /\
    (Z.to_nat (getRecordSize (schema rel)) <= length (rdata Examples.blank_row))%nat /\
    exists w2,
      getRecord 0 w1 rel (id r) Examples.blank_row
      = Some (RC_OK,
              (w2, mkRecord (id r)
                     (take 1 (rdata Examples.blank_row)
                      ++ take (Z.to_nat (getRecordSize (schema rel) - 1)) (drop 1 (rdata r))
                      ++ drop (Z.to_nat (getRecordSize (schema rel)))
                              (rdata Examples.blank_row)))) /\
      (Z.to_nat (getRecordSize (schema rel)) <= length (rdata r))%nat /\
      exists off : nat,
        slot_offset (slot (id r)) (getRecordSize (schema rel)) = Some off /\
        (off + Z.to_nat (getRecordSize (schema rel)) <= PAGE_LEN)%nat.
Proof.
  intros w rel row r.
  assert (Hok : table_ok w) by (apply table_ok_check; vm_compute; reflexivity).
  assert (Hblank : (Z.to_nat (getRecordSize (schema rel))
                    <= length (rdata Examples.blank_row))%nat)
    by (vm_compute; lia).
  destruct (updateRecord 0 w rel r) as [[rc w1] |] eqn:Hop.
  - exists w1.
    assert (Hrc : rc = RC_OK).
    { assert (H : fst <$> updateRecord 0 w rel r = Some RC_OK) by (vm_compute; reflexivity).
      rewrite Hop in H. by injection H. }
    subst rc. split; [reflexivity |]. split; [exact Hok |]. split; [exact Hblank |].
    exact (updateRecord_then_getRecord 0 0 w w1 rel r Examples.blank_row Hok Hblank Hop).
  - exfalso.
    assert (H : fst <$> updateRecord 0 w rel r = Some RC_OK) by (vm_compute; reflexivity).
    rewrite Hop in H. discriminate H.
Defined.

(** The theorem above on the table with the rows 1, 2 and 3, for the
    record in slot 1 of page 1. *)
Lemma deleteRecord_then_getRecord_witness :
  let w := Examples.world_of Examples.table123 in
  let rel := Examples.rel_of Examples.table123 in
  exists w1,
    deleteRecord 0 w rel (mkRID 1 1) = Some (RC_OK, w1) /\
    table_ok w /\
    exists w2,
      getRecord 0 w1 rel (mkRID 1 1) Examples.blank_row
      = Some (RC_RM_NO_TUPLE_WITH_GIVEN_RID, (w2, Examples.blank_row)).
Proof.
  intros w rel.
  assert (Hok : table_ok w) by (apply table_ok_check; vm_compute; reflexivity).
  destruct (deleteRecord 0 w rel (mkRID 1 1)) as [[rc w1] |] eqn:Hop.
  - exists w1.
    assert (Hrc : rc = RC_OK).
    { assert (H : fst <$> deleteRecord 0 w rel (mkRID 1 1) = Some RC_OK)
        by (vm_compute; reflexivity).
      rewrite Hop in H. by injection H. }
    subst rc. split; [reflexivity |]. split; [exact Hok |].
    exact (deleteRecord_then_getRecord 0 0 w w1 rel (mkRID 1 1) Examples.blank_row Hok Hop).
  - exfalso. vm_compute in Hop. discriminate Hop.
Defined.

(** ** Pins and tuple counts of the other record calls *)

Section RecordCalls.

Inductive RecordCall : Type :=
| GetRecord (rid : RID) (record : RecordT)
| DeleteRecord (rid : RID)
| UpdateRecord (record : RecordT).

(** The return code and the memory a call leaves. *)
Definition call_record (fuel : nat) (w : World) (rel : RM_TableData) (c : RecordCall)
  : option (RC * World) :=
  match c with
  | GetRecord rid record => (fun r => (r.1, r.2.1)) <$> getRecord fuel w rel rid record
  | DeleteRecord rid => deleteRecord fuel w rel rid
  | UpdateRecord record => updateRecord fuel w rel record
  end.

Lemma getRecord_body_fails_only (fuel : nat) (rel : RM_TableData) (rid : RID) :
  fails_only (getRecord_body fuel rel rid).
Proof.
  unfold getRecord_body.
  apply fails_only_bind; [apply fails_only_check |]. intros _.
  destruct (getRecordSize (schema rel) <=? 0).
  - apply fails_only_bind; [apply fails_only_ignore |]. intros _. by apply fails_only_raise.
  - apply fails_only_bind; [apply fails_only_defined |]. intros pc.
    apply fails_only_bind; [apply fails_only_defined |]. intros off.
    apply fails_only_bind; [apply fails_only_defined |]. intros b.
    destruct (negb _).
    + apply fails_only_bind; [apply fails_only_check |]. intros _. by apply fails_only_raise.
    + apply fails_only_bind; [apply fails_only_update |]. intros _. apply fails_only_check.
Qed.

Lemma getRecord_ok_total (fuel : nat) (w w' : World) (rel : RM_TableData) (rid : RID)
    (r r' : RecordT) :
  getRecord fuel w rel rid r = Some (RC_OK, (w', r')) ->
  pin_total w' = pin_total w /\ getNumTuples w' = getNumTuples w.
Proof.
  intros H. unfold getRecord in H.
  apply run_ok_inv in H; [| apply getRecord_body_fails_only].
  unfold getRecord_body in H.
  step_body H as Hpin. apply onW_ok_inv in Hpin as [Hpin _].
  pose proof (pin_same_count _ _ _ _ _ Hpin) as Hc1. apply pin_ok_total in Hpin.
  destruct (getRecordSize (schema rel) <=? 0); [step_body H as Hign; done |].
  step_body H as Hpc. step_body H as Hoff. step_body H as Htomb.
  destruct (negb _); [step_body H as Hun; done |].
  step_body H as Hm.
  destruct (read_slot _ _ _ _) as [rd |]; [| done]. simpl in Hm. injection Hm as <-.
  apply check_inr_inv in H. apply onW_ok_inv in H as [Hun _].
  pose proof (unpin_same_count _ _ _ Hun) as Hc2. apply unpin_ok_total in Hun.
  unfold same_count, getNumTuples in *. simpl in *. split; [lia | congruence].
Qed.

Lemma deleteRecord_ok_total (fuel : nat) (w w' : World) (rel : RM_TableData) (rid : RID) :
  deleteRecord fuel w rel rid = Some (RC_OK, w') -> pin_total w' = pin_total w.
Proof.
  intros H. unfold deleteRecord in H.
  apply run_ok_inv in H; [| apply deleteRecord_body_fails_only].
  unfold deleteRecord_body in H.
  step_body H as Hpin. apply pin_ok_total in Hpin.
  step_body H as Hm.
  destruct (getRecordSize (schema rel) <=? 0); [step_body H as Hign; done |].
  step_body H as Hpc. step_body H as Hoff.
  step_body H as Hst. apply store_page_total in Hst.
  step_body H as Hmd. apply mark_dirty_ok_total in Hmd.
  apply check_inr_inv in H. apply unpin_ok_total in H.
  unfold pin_total, pool_meta in *. simpl in *. lia.
Qed.

Lemma updateRecord_ok_total (fuel : nat) (w w' : World) (rel : RM_TableData) (r : RecordT) :
  updateRecord fuel w rel r = Some (RC_OK, w') ->
  pin_total w' = pin_total w /\ getNumTuples w' = getNumTuples w.
Proof.
  intros H. unfold updateRecord in H.
  apply run_ok_inv in H; [| apply updateRecord_body_fails_only].
  unfold updateRecord_body in H.
  step_body H as Hpin.
  pose proof (pin_same_count _ _ _ _ _ Hpin) as Hc1. apply pin_ok_total in Hpin.
  destruct (getRecordSize (schema rel) <=? 0); [step_body H as Hign; done |].
  step_body H as Hpc. step_body H as Hoff.
  step_body H as Hst.
  destruct (write_slot _ _ _ _) as [slotBuf |]; [| done]. simpl in Hst.
  pose proof (store_page_same_count _ _ _ Hst) as Hc2. apply store_page_total in Hst.
  step_body H as Hmd.
  pose proof (mark_dirty_same_count _ _ _ Hmd) as Hc3. apply mark_dirty_ok_total in Hmd.
  apply check_inr_inv in H.
  pose proof (unpin_same_count _ _ _ H) as Hc4. apply unpin_ok_total in H.
  unfold same_count, getNumTuples in *. split; [lia | congruence].
Qed.

(** The search loop of [insertRecord] ends on a slot, and does not touch
    the tuple count. *)
Lemma insert_search_count (fuel turns : nat) (recordSize : Z) (s s' : World * RecordT) :
  insert_search fuel turns recordSize s = Some (s', inr tt) ->
  same_count s.1 s'.1 /\ slot (id s'.2) <> -1.
Proof.
  revert s. induction turns as [| k IH]; intros s H; simpl in H.
  - step_body H. destruct (Z.eqb_spec (slot (id s.2)) (-1)); [done |]. by injection H as <-.
  - step_body H. destruct (Z.eqb_spec (slot (id s.2)) (-1)); [| by injection H as <-].
    step_body H as Hun. apply onW_ok_inv in Hun as [Hun _]. apply unpin_same_count in Hun.
    step_body H. step_body H. step_body H as Hpin.
    apply onW_ok_inv in Hpin as [Hpin _]. apply pin_same_count in Hpin.
    step_body H. step_body H.
    apply IH in H as [Hc Hs]. split; [| done].
    unfold same_count in *. simpl in *. congruence.
Qed.

End RecordCalls.

(** X12.  A call of [getRecord], [deleteRecord] or [updateRecord] that
    returns [RC_OK] leaves the sum of the pin counts of the table's pool
    as it found it. *)
Theorem record_calls_pin_balance (fuel : nat) (w w' : World) (rel : RM_TableData)
    (c : RecordCall) :
  call_record fuel w rel c = Some (RC_OK, w') -> pin_total w' = pin_total w.
Proof.
  destruct c as [rid r | rid | r]; simpl.
  - destruct (getRecord fuel w rel rid r) as [[rc [w1 r1]] |] eqn:Hget; [| done].
    simpl. intros [= -> <-]. by apply getRecord_ok_total in Hget as [? _].
  - apply deleteRecord_ok_total.
  - intros H. by apply updateRecord_ok_total in H as [? _].
Qed.

(** The theorem above on the table with the rows 1, 2 and 3, for a read of
    the record in slot 1 of page 1. *)
Lemma record_calls_pin_balance_witness :
  let w := Examples.world_of Examples.table123 in
  let rel := Examples.rel_of Examples.table123 in
  let c := GetRecord (mkRID 1 1) Examples.blank_row in
  exists w', call_record 0 w rel c = Some (RC_OK, w') /\ pin_total w' = pin_total w.
Proof.
  intros w rel c.
  destruct (call_record 0 w rel c) as [[rc w'] |] eqn:Hop.
  - exists w'.
    assert (Hrc : rc = RC_OK).
    { assert (H : fst <$> call_record 0 w rel c = Some RC_OK) by (vm_compute; reflexivity).
      rewrite Hop in H. by injection H. }
    subst rc. split; [reflexivity |].
    exact (record_calls_pin_balance 0 w w' rel c Hop).
  - exfalso. vm_compute in Hop. discriminate Hop.
Defined.

(** X13.  A call of [insertRecord] that returns [RC_OK] raises the
    number [getNumTuples] reports by one, and the slot of the [RID] it
    assigns is not -1. *)
Theorem insertRecord_counts_tuple (fuel : nat) (w w' : World) (rel : RM_TableData)
    (r r' : RecordT) :
  insertRecord fuel w rel r = Some (RC_OK, (w', r')) ->
  getNumTuples w' = getNumTuples w + 1 /\ slot (id r') <> -1.
Proof.
  intros H. unfold insertRecord in H.
  apply run_ok_inv in H; [| apply insertRecord_body_fails_only].
  unfold insertRecord_body in H.
  destruct (getRecordSize (schema rel) <=? 0); [done |].
  step_body H as Hfree. step_body H as Hrid.
  step_body H as Hpin1. apply onW_ok_inv in Hpin1 as [Hpin1 Hr1].
  apply pin_same_count in Hpin1.
  step_body H as Hpc. step_body H as Hslot.
  step_body H as Hloop.
  match type of Hloop with _ = Some (_, inr ?u) => destruct u end.
  apply insert_search_count in Hloop as [Hloop Hfound].
  step_body H as Hmd. apply onW_ok_inv in Hmd as [Hmd Hmd2]. apply mark_dirty_same_count in Hmd.
  step_body H as Hpc2. step_body H as Hoff. step_body H as Hrec.
  step_body H as Hst.
  destruct (write_slot _ _ _ _) as [slotBuf |]; [| done]. simpl in Hst.
  destruct (store_page _ _) as [w3 |] eqn:Hst3; [| done]. simpl in Hst.
  injection Hst as <-. apply store_page_same_count in Hst3.
  step_body H as Hun. apply onW_ok_inv in Hun as [Hun Hun2]. apply unpin_same_count in Hun.
  step_body H as Hcount.
  apply check_inr_inv in H. apply onW_ok_inv in H as [Hpin2 Hr2]. apply pin_same_count in Hpin2.
  unfold same_count, getNumTuples in *. simpl in *. split; [lia | congruence].
Qed.

(** The theorem above on the freshly opened table, for its first insert. *)
Lemma insertRecord_counts_tuple_witness :
  let w := Examples.world_of Examples.opened_table in
  let rel := Examples.rel_of Examples.opened_table in
  let row := default Examples.blank_row (Examples.make_row Examples.id_schema 1) in
  exists w' row',
    insertRecord 1 w rel row = Some (RC_OK, (w', row')) /\
    getNumTuples w' = getNumTuples w + 1 /\ slot (id row') <> -1.
Proof.
  intros w rel row.
  destruct (insertRecord 1 w rel row) as [[rc [w' row']] |] eqn:Hins.
  - exists w', row'.
    assert (Hrc : rc = RC_OK).
    { assert (H : fst <$> insertRecord 1 w rel row = Some RC_OK) by (vm_compute; reflexivity).
      rewrite Hins in H. by injection H. }
    subst rc. split; [reflexivity |].
    exact (insertRecord_counts_tuple 1 w w' rel row row' Hins).
  - exfalso. vm_compute in Hins. discriminate Hins.
Defined.

(** ** Slots and attributes *)

Section Slots.

(** The slot starts with the occupied mark. *)
Definition occupied (pageContent : list byte) (recordSize sl : Z) : Prop :=
  pageContent !! Z.to_nat (sl * recordSize) = Some PLUS.

Lemma locate_from_spec (pc : list byte) (rs : Z) (k : nat) (i : Z) :
  0 <= i ->
  (locate_from pc rs i k = -1 /\
   forall sl, i <= sl < i + Z.of_nat k -> occupied pc rs sl) \/
  (i <= locate_from pc rs i k < i + Z.of_nat k /\
   ~ occupied pc rs (locate_from pc rs i k) /\
   forall sl, i <= sl < locate_from pc rs i k -> occupied pc rs sl).
Proof.
  revert i. induction k as [| k IH]; intros i Hi.
  - left. split; [done |]. intros sl Hsl. lia.
  - cbn [locate_from].
    destruct (pc !! Z.to_nat (i * rs)) as [b |] eqn:Hb.
    + destruct (Byte.eqb b PLUS) eqn:He.
      * apply Byte.byte_dec_bl in He. subst b.
        destruct (IH (i + 1) ltac:(lia)) as [[Hr Hall] | (Hr & Hfree & Hall)].
        -- left. split; [done |]. intros sl Hsl.
           destruct (decide (sl = i)) as [-> | Hne]; [done | apply Hall; lia].
        -- right. split; [lia |]. split; [done |]. intros sl Hsl.
           destruct (decide (sl = i)) as [-> | Hne]; [done | apply Hall; lia].
      * right. split; [lia |]. split; [| intros sl Hsl; lia].
        unfold occupied. rewrite Hb. intros [= ->]. by vm_compute in He.
    + right. split; [lia |]. split; [| intros sl Hsl; lia]. unfold occupied. by rewrite Hb.
Qed.

End Slots.

(** X14.  For a positive record size, [locateEmptySlot] returns the
    least slot of the page that does not start with the occupied mark, and
    that slot lies wholly inside the page; it returns -1 exactly when every
    slot of the page is occupied. *)
Theorem locateEmptySlot_least_free (pageContent : list byte) (recordSize : Z) :
  0 < recordSize ->
  let r := locateEmptySlot pageContent recordSize in
  let maxSlots := PAGE_SIZE ÷ recordSize in
  (r = -1 /\ forall sl, 0 <= sl < maxSlots -> occupied pageContent recordSize sl) \/
  (0 <= r < maxSlots /\ (r + 1) * recordSize <= PAGE_SIZE /\
   ~ occupied pageContent recordSize r /\
   forall sl, 0 <= sl < r -> occupied pageContent recordSize sl).
Proof.
  intros Hrs r maxSlots.
  assert (Hps : 0 <= PAGE_SIZE) by (unfold PAGE_SIZE; lia).
  assert (Hmax : 0 <= maxSlots) by (apply Z.quot_pos; lia).
  assert (Hfit : maxSlots * recordSize <= PAGE_SIZE).
  { subst maxSlots. rewrite Z.quot_div_nonneg by lia. rewrite Z.mul_comm.
    apply Z.mul_div_le. lia. }
  assert (Hr0 : r = locate_from pageContent recordSize 0 (Z.to_nat maxSlots)) by done.
  destruct (locate_from_spec pageContent recordSize (Z.to_nat maxSlots) 0 ltac:(lia))
    as [[Hr Hall] | (Hr & Hfree & Hall)]; rewrite <- Hr0 in *.
  - left. split; [exact Hr |]. intros sl Hsl. apply Hall. lia.
  - right. split; [lia |]. split; [nia |]. split; [exact Hfree |].
    intros sl Hsl. apply Hall. lia.
Qed.

(** The theorem above for records of five bytes. *)
Lemma locateEmptySlot_least_free_witness :
  0 < 5 /\
  let pc := zero_bytes PAGE_LEN in
  let r := locateEmptySlot pc 5 in
  let maxSlots := PAGE_SIZE ÷ 5 in
  (r = -1 /\ forall sl, 0 <= sl < maxSlots -> occupied pc 5 sl) \/
  (0 <= r < maxSlots /\ (r + 1) * 5 <= PAGE_SIZE /\
   ~ occupied pc 5 r /\ forall sl, 0 <= sl < r -> occupied pc 5 sl).
Proof.
  split; [lia |]. exact (locateEmptySlot_least_free (zero_bytes PAGE_LEN) 5 ltac:(lia)).
Defined.

Section Attributes.

Variable s : Schema.

Definition type_of (i : nat) : Z := default (-1) (dataTypes s !! i).

(** The bytes attribute [i] takes in a record; 0 for a type that is not
    one of the four. *)
Definition attr_size (i : nat) : Z :=
  if type_of i =? DT_STRING then default 0 (typeLength s !! i)
  else if type_of i =? DT_INT then sizeof_int
  else if type_of i =? DT_FLOAT then sizeof_float
  else if type_of i =? DT_BOOL then sizeof_bool
  else 0.

Definition known_type (i : nat) : Prop :=
  type_of i = DT_STRING \/ type_of i = DT_INT \/ type_of i = DT_FLOAT \/ type_of i = DT_BOOL.

(** The sizes of the [k] attributes from [i] on. *)
Fixpoint sizes_from (i k : nat) : Z :=
  match k with
  | O => 0
  | Datatypes.S k' => attr_size i + sizes_from (Datatypes.S i) k'
  end.

Hypothesis Hlens : forall i, 0 <= default 0 (typeLength s !! i).

Lemma attr_size_nonneg (i : nat) : 0 <= attr_size i.
Proof.
  unfold attr_size, sizeof_int, sizeof_float, sizeof_bool.
  repeat destruct (_ =? _); try lia. apply Hlens.
Qed.

Lemma sizes_from_nonneg (i k : nat) : 0 <= sizes_from i k.
Proof.
  revert i. induction k as [| k IH]; intros i; simpl; [lia |].
  pose proof (attr_size_nonneg i). pose proof (IH (Datatypes.S i)). lia.
Qed.

Lemma sizes_from_split (i k j : nat) :
  (j <= k)%nat -> sizes_from i k = sizes_from i j + sizes_from (i + j) (k - j).
Proof.
  revert i k. induction j as [| j IH]; intros i k Hj.
  - simpl. rewrite Nat.add_0_r, Nat.sub_0_r. done.
  - destruct k as [| k]; [lia |]. simpl. rewrite (IH (Datatypes.S i) k) by lia.
    replace (i + Datatypes.S j)%nat with (Datatypes.S i + j)%nat by lia. lia.
Qed.

Lemma record_size_from_spec (k i : nat) (size : Z) :
  0 <= size -> 0 < record_size_from s i k size ->
  record_size_from s i k size = size + sizes_from i k + 1 /\
  forall j, (i <= j < i + k)%nat -> known_type j.
Proof.
  revert i size. induction k as [| k IH]; intros i size Hsize Hpos.
  - simpl. split; [lia |]. intros j Hj. lia.
  - cbn [record_size_from sizes_from] in *. unfold attr_size. fold (type_of i) in *.
    pose proof (Hlens i) as Hl.
    assert (Hstep : forall d, 0 <= d -> 0 < record_size_from s (Datatypes.S i) k (size + d) ->
              known_type i ->
              record_size_from s (Datatypes.S i) k (size + d)
              = size + (d + sizes_from (Datatypes.S i) k) + 1 /\
              forall j, (i <= j < i + Datatypes.S k)%nat -> known_type j).
    { intros d Hd Hp Hk. destruct (IH (Datatypes.S i) (size + d) ltac:(lia) Hp) as [Heq Hall].
      split; [lia |]. intros j Hj.
      destruct (decide (j = i)) as [-> | Hne]; [done | apply Hall; lia]. }
    unfold known_type, sizeof_int, sizeof_float, sizeof_bool in *.
    destruct (Z.eqb_spec (type_of i) DT_STRING); [apply Hstep; auto |].
    destruct (Z.eqb_spec (type_of i) DT_INT); [apply Hstep; auto; lia |].
    destruct (Z.eqb_spec (type_of i) DT_FLOAT); [apply Hstep; auto; lia |].
    destruct (Z.eqb_spec (type_of i) DT_BOOL); [apply Hstep; auto; lia |].
    lia.
Qed.

Lemma attr_offset_from_spec (k i : nat) (result : Z) :
  (forall j, (i <= j < i + k)%nat -> known_type j) ->
  attr_offset_from s i k result = (RC_OK, result + sizes_from i k).
Proof.
  revert i result. induction k as [| k IH]; intros i result Hall.
  - simpl. by rewrite Z.add_0_r.
  - cbn [attr_offset_from sizes_from]. unfold attr_size. fold (type_of i).
    assert (Hrest : forall j, (Datatypes.S i <= j < Datatypes.S i + k)%nat -> known_type j)
      by (intros j Hj; apply Hall; lia).
    destruct (Hall i ltac:(lia)) as [Ht | [Ht | [Ht | Ht]]]; rewrite Ht; simpl;
      rewrite (IH _ _ Hrest); f_equal; lia.
Qed.

End Attributes.

(** X15.  In a schema whose string lengths are not negative and for
    which [getRecordSize] is positive, every attribute lies inside the
    record: [getAttributeOffset] returns [RC_OK] with an offset behind the
    mark byte, and the offset plus the size of the attribute does not
    exceed [getRecordSize]. *)
Theorem attribute_inside_record (s : Schema) (attrNum : Z) :
  (forall i, 0 <= default 0 (typeLength s !! i)) ->
  0 < getRecordSize s -> 0 <= attrNum < numAttr s ->
  exists off,
    getAttributeOffset s attrNum = (RC_OK, off) /\ 1 <= off /\
    known_type s (Z.to_nat attrNum) /\
    off + attr_size s (Z.to_nat attrNum) <= getRecordSize s.
Proof.
  intros Hlens Hpos Hn. unfold getRecordSize in *.
  destruct (record_size_from_spec s Hlens _ 0 0 ltac:(lia) Hpos) as [Hsize Hknown].
  rewrite Hsize. set (n := Z.to_nat attrNum). set (N := Z.to_nat (numAttr s)) in *.
  exists (1 + sizes_from s 0 n). split; [| split; [| split]].
  - unfold getAttributeOffset.
    destruct (Z.ltb_spec attrNum 0); [lia |].
    destruct (Z.geb_spec attrNum (numAttr s)); [lia |]. simpl.
    apply attr_offset_from_spec. intros j Hj. apply Hknown. lia.
  - pose proof (sizes_from_nonneg s Hlens 0 n). lia.
  - apply Hknown. lia.
  - rewrite (sizes_from_split s 0 N n) by lia. simpl.
    assert (HN : (N - n)%nat = Datatypes.S (N - n - 1)) by lia. rewrite HN. simpl.
    pose proof (sizes_from_nonneg s Hlens (Datatypes.S n) (N - n - 1)). lia.
Qed.

(** The theorem above on the schema with the one integer attribute [id]. *)
Lemma attribute_inside_record_witness :
  let s := Examples.id_schema in
  (forall i, 0 <= default 0 (typeLength s !! i)) /\
  0 < getRecordSize s /\ 0 <= 0 < numAttr s /\
  exists off,
    getAttributeOffset s 0 = (RC_OK, off) /\ 1 <= off /\
    known_type s (Z.to_nat 0) /\
    off + attr_size s (Z.to_nat 0) <= getRecordSize s.
Proof.
  intros s.
  assert (Hlens : forall i, 0 <= default 0 (typeLength s !! i)).
  { intros [| [| i]]; vm_compute; discriminate. }
  assert (Hpos : 0 < getRecordSize s) by (vm_compute; reflexivity).
  assert (Hn : 0 <= 0 < numAttr s) by (vm_compute; split; [discriminate | reflexivity]).
  split; [exact Hlens |]. split; [exact Hpos |]. split; [exact Hn |].
  exact (attribute_inside_record s 0 Hlens Hpos Hn).
Defined.

Section AttributeValues.

(** What a record keeps of a value: an [int] as a C [int], a string cut
    at its first nul and at the length of the attribute. *)
Definition stored (s : Schema) (i : nat) (v : Value) : Value :=
  match v with
  | StringV str => StringV (c_string (take (Z.to_nat (default 0 (typeLength s !! i))) str))
  | IntV z => IntV (int_wrap z)
  | FloatV bits => FloatV (take 4 bits)
  | BoolV b => BoolV b
  end.

Lemma drop_memcpy_at (dst src : list byte) (off n : nat) :
  (off + n <= length dst)%nat -> (n <= length src)%nat ->
  take n (drop off (memcpy_at dst off src n)) = take n src.
Proof.
  intros Hdst Hsrc. unfold memcpy_at.
  rewrite drop_app_length' by (rewrite length_take; lia).
  rewrite take_app_length' by (rewrite length_take; lia). done.
Qed.

Lemma length_strncpy (src : list byte) (n : nat) : length (strncpy src n) = n.
Proof.
  revert src. induction n as [| n IH]; intros src; [by destruct src |].
  destruct src as [| b src]; cbn [strncpy]; [by rewrite length_zero_bytes |].
  destruct (Byte.eqb b x00); [by rewrite length_zero_bytes |]. cbn [length]. by rewrite IH.
Qed.

Lemma c_string_zero_bytes (n : nat) : c_string (zero_bytes n) = [].
Proof. by destruct n. Qed.

Lemma c_string_strncpy (src : list byte) (n : nat) :
  c_string (strncpy src n) = c_string (take n src).
Proof.
  revert src. induction n as [| n IH]; intros src; [by destruct src |].
  destruct src as [| b src]; cbn [strncpy]; [by rewrite c_string_zero_bytes |].
  destruct (Byte.eqb b x00) eqn:Hb.
  - rewrite c_string_zero_bytes. simpl. by rewrite Hb.
  - simpl. rewrite Hb. by rewrite IH.
Qed.

Lemma int_at_drop (l : list byte) (off : nat) : int_at (drop off l) 0 = int_at l off.
Proof. unfold int_at. by rewrite !lookup_drop, !Nat.add_0_r. Qed.

End AttributeValues.

(** X16.  An attribute that lies inside the record is set with success
    and read back: [getAttr] returns [RC_OK] with the value as the record
    keeps it, and leaves the schema as it is.  The attribute is not
    attribute 1, unless that is a string: [getAttr] reads attribute 1 as a
    string whatever its type. *)
Theorem setAttr_then_getAttr (r r' : RecordT) (s : Schema) (attrNum off : Z) (v : Value) :
  attrNum <> 1 \/ dataTypes s !! 1%nat = Some DT_STRING ->
  getAttributeOffset s attrNum = (RC_OK, off) ->
  (Z.to_nat off + Z.to_nat (attr_size s (Z.to_nat attrNum)) <= length (rdata r))%nat ->
  (forall bits, v = FloatV bits -> length bits = 4%nat) ->
  setAttr r s attrNum v = Some (RC_OK, r') ->
  getAttr r' s attrNum = (RC_OK, s, Some (stored s (Z.to_nat attrNum) v)) /\
  id r' = id r /\ length (rdata r') = length (rdata r).
Proof.
  intros Hone Hoff Hfit Hfloat Hset. unfold setAttr, getAttr in *.
  destruct ((attrNum <? 0) || (attrNum >=? numAttr s)) eqn:Hrange; [by injection Hset |].
  rewrite Hoff in *. cbn [is_ok negb] in *.
  assert (Hok : is_ok RC_OK = true) by done. rewrite Hok in *. cbn [negb] in *.
  set (i := Z.to_nat attrNum) in *.
  assert (Hs : (if attrNum =? 1
                then mkSchema (numAttr s) (attrNames s) (<[i := 1]> (dataTypes s)) (typeLength s)
                              (keyAttrs s) (keySize s)
                else s) = s).
  { destruct (Z.eqb_spec attrNum 1) as [-> | _]; [| done].
    destruct Hone as [? | Hstr]; [done |].
    subst i. change (Z.to_nat 1) with 1%nat.
    rewrite list_insert_id by exact Hstr. by destruct s. }
  rewrite Hs. unfold attr_size, type_of in Hfit. fold i in Hfit.
  set (dt := default (-1) (dataTypes s !! i)) in *.
  set (o := Z.to_nat off) in *.
  destruct (Z.eqb_spec dt DT_STRING) as [Hd | Hd].
  { destruct v as [z | str | bits | b]; try done. injection Hset as <-. cbn [rdata id stored].
    split; [| split; [done |]].
    - rewrite drop_memcpy_at by (rewrite ?length_strncpy; lia).
      rewrite take_ge by (rewrite length_strncpy; lia). by rewrite c_string_strncpy.
    - apply length_memcpy_at; rewrite ?length_strncpy; lia. }
  destruct (Z.eqb_spec dt DT_INT) as [Hi | Hi].
  { destruct v as [z | str | bits | b]; try done. injection Hset as <-. cbn [rdata id stored].
    unfold sizeof_int in Hfit.
    split; [| split; [done |]].
    - rewrite int_at_drop. change (memcpy_at (rdata r) o (bytes_of_int z) 4)
        with (BTreeMgr.store_int (rdata r) o z).
      rewrite int_at_store_int by lia. done.
    - apply length_memcpy_at; rewrite ?length_bytes_of_int; lia. }
  destruct (Z.eqb_spec dt DT_FLOAT) as [Hf | Hf].
  { destruct v as [z | str | bits | b]; try done. injection Hset as <-. cbn [rdata id stored].
    unfold sizeof_float in Hfit. pose proof (Hfloat bits eq_refl) as Hbits.
    split; [| split; [done |]].
    - rewrite <- (take_drop 4 (drop o (memcpy_at (rdata r) o bits 4))) at 1.
      rewrite drop_memcpy_at by lia. rewrite take_app_length' by (rewrite length_take; lia).
      done.
    - apply length_memcpy_at; lia. }
  destruct (Z.eqb_spec dt DT_BOOL) as [Hb | Hb]; [| by injection Hset].
  destruct v as [z | str | bits | b]; try done. injection Hset as <-. cbn [rdata id stored].
  unfold sizeof_bool in Hfit.
  split; [| split; [done |]].
  - rewrite lookup_drop, Nat.add_0_r.
    rewrite lookup_memcpy_at by (simpl; lia).
    rewrite decide_True by lia. rewrite Nat.sub_diag. by destruct b.
  - apply length_memcpy_at; simpl; lia.
Qed.

(** The theorem above on the one-attribute schema: the integer 7 is
    stored in a blank row and read back. *)
Lemma setAttr_then_getAttr_witness :
  let s := Examples.id_schema in
  let r := Examples.blank_row in
  exists r',
    setAttr r s 0 (IntV 7) = Some (RC_OK, r') /\
    (0 <> 1 \/ dataTypes s !! 1%nat = Some DT_STRING) /\
    getAttributeOffset s 0 = (RC_OK, 1) /\
    (Z.to_nat 1 + Z.to_nat (attr_size s (Z.to_nat 0)) <= length (rdata r))%nat /\
    (forall bits, IntV 7 = FloatV bits -> length bits = 4%nat) /\
    getAttr r' s 0 = (RC_OK, s, Some (stored s (Z.to_nat 0) (IntV 7))) /\
    id r' = id r /\ length (rdata r') = length (rdata r).
Proof.
  intros s r.
  assert (Hone : 0 <> 1 \/ dataTypes s !! 1%nat = Some DT_STRING) by (left; lia).
  assert (Hoff : getAttributeOffset s 0 = (RC_OK, 1)) by (vm_compute; reflexivity).
  assert (Hfit : (Z.to_nat 1 + Z.to_nat (attr_size s (Z.to_nat 0)) <= length (rdata r))%nat)
    by (vm_compute; lia).
  assert (Hfloat : forall bits, IntV 7 = FloatV bits -> length bits = 4%nat)
    by (intros bits Hb; discriminate Hb).
  destruct (setAttr r s 0 (IntV 7)) as [[rc r'] |] eqn:Hset.
  - exists r'.
    assert (Hrc : rc = RC_OK).
    { assert (H : fst <$> setAttr r s 0 (IntV 7) = Some RC_OK) by (vm_compute; reflexivity).
      rewrite Hset in H. by injection H. }
    subst rc. split; [reflexivity |]. split; [exact Hone |]. split; [exact Hoff |].
    split; [exact Hfit |]. split; [exact Hfloat |].
    exact (setAttr_then_getAttr r r' s 0 1 (IntV 7) Hone Hoff Hfit Hfloat Hset).
  - exfalso. vm_compute in Hset. discriminate Hset.
Defined.

(** ** The start of a scan *)

Lemma openTable_body_fails_only (fuel : nat) (tname : list byte) :
  fails_only (openTable_body fuel tname).
Proof.
  unfold openTable_body.
  apply fails_only_bind; [apply fails_only_modify |]. intros _.
  apply fails_only_bind; [apply fails_only_check |]. intros _.
  apply fails_only_bind; [apply fails_only_defined |]. intros pc.
  apply fails_only_bind; [apply fails_only_modify |]. intros _.
  destruct (parse_attrs _ _ _) as [[names types] lens].
  apply fails_only_bind; [apply fails_only_modify |]. intros _.
  apply fails_only_bind; [apply fails_only_check |]. intros _.
  apply fails_only_check.
Qed.

(** X17.  A call of [startScan] that returns [RC_OK] overwrites the
    tuple count of the table: [getNumTuples] reports 15 afterwards, however
    many records the table holds.  The scan it hands out carries the
    condition and starts at record 0 of page 0 with nothing scanned. *)
Theorem startScan_sets_tuple_count (fuel : nat) (w : World) (rel : RM_TableData)
    (cond : option Expr) (s' : World * RM_TableData) (scan : TableInfo) :
  startScan fuel w rel cond = Some (RC_OK, s', Some scan) ->
  getNumTuples s'.1 = 15 /\
  conditionExpr scan = cond /\ recordID scan = mkRID 0 0 /\ scanIndex scan = 0.
Proof.
  unfold startScan.
  destruct (startScan_body fuel cond (w, rel)) as [[s1 [rc | sm]] |] eqn:Hbody; [done | | done].
  intros [= <- <-]. unfold startScan_body in Hbody.
  destruct cond as [c |]; [| done].
  step_body Hbody as Hopen. step_body Hbody as Hbm. step_body Hbody as Hm.
  injection Hbody as <- <-. done.
Qed.

(** The theorem above on the table with the rows 1, 2 and 3. *)
Lemma startScan_sets_tuple_count_witness :
  let w := Examples.world_of Examples.table123 in
  let rel := Examples.rel_of Examples.table123 in
  exists s' scan,
    startScan 0 w rel (Some Examples.id_is_2) = Some (RC_OK, s', Some scan) /\
    getNumTuples w = 3 /\ getNumTuples s'.1 = 15 /\
    conditionExpr scan = Some Examples.id_is_2 /\ recordID scan = mkRID 0 0 /\
    scanIndex scan = 0.
Proof.
  intros w rel.
  destruct (startScan 0 w rel (Some Examples.id_is_2)) as [[[rc s'] [scan |]] |] eqn:Hop.
  - exists s', scan.
    assert (Hrc : rc = RC_OK).
    { assert (H : (fun t => t.1.1) <$> startScan 0 w rel (Some Examples.id_is_2) = Some RC_OK)
        by (vm_compute; reflexivity).
      rewrite Hop in H. by injection H. }
    subst rc. split; [reflexivity |]. split; [vm_compute; reflexivity |].
    exact (startScan_sets_tuple_count 0 w rel (Some Examples.id_is_2) s' scan Hop).
  - exfalso.
    assert (H : (fun t => match t.2 with Some _ => true | None => false end)
                  <$> startScan 0 w rel (Some Examples.id_is_2)
                = Some true) by (vm_compute; reflexivity).
    rewrite Hop in H. discriminate H.
  - exfalso.
    assert (H : (fun _ => true) <$> startScan 0 w rel (Some Examples.id_is_2) = Some true)
      by (vm_compute; reflexivity).
    rewrite Hop in H. discriminate H.
Defined.

(** * More of the storage manager *)

Section PageFiles.

Lemma fwrite_inv (fs fs' : FileSystem) (fp : option string) (off : Z) (buf : list byte) :
  fwrite fs fp off buf = Some fs' ->
  exists name c, fp = Some name /\ files fs !! name = Some c /\ write_error fs = false /\
                 fs' = set_file fs name (fwrite_at c off buf).
Proof.
  unfold fwrite. destruct fp as [name |]; [| done].
  destruct (files fs !! name) as [c |] eqn:Hc; [| done].
  destruct (write_error fs) eqn:He; [done |]. intros [= <-]. by exists name, c.
Qed.

(** The handle describes the file: the stream is open on a file of
    [totalNumPages] whole pages. *)
Definition handle_ok (fs : FileSystem) (fh : SM_FileHandle) : Prop :=
  exists name c, mgmtInfo fh = Some name /\ files fs !! name = Some c /\
                 Z.of_nat (length c) = totalNumPages fh * PAGE_SIZE.

(** Page [n] of a file content. *)
Definition page_of (c : list byte) (n : Z) : list byte :=
  take PAGE_LEN (drop (Z.to_nat (n * PAGE_SIZE)) c).

Inductive FileWrite : Type :=
| WriteBlock (pageNum : Z) (memPage : SM_PageHandle)
| AppendEmptyBlock
| EnsureCapacity (numPages : Z).

Definition write_file (fs : FileSystem) (fh : SM_FileHandle) (op : FileWrite)
  : RC * FileSystem * SM_FileHandle :=
  match op with
  | WriteBlock pageNum memPage => writeBlock fs pageNum fh memPage
  | AppendEmptyBlock => appendEmptyBlock fs fh
  | EnsureCapacity numPages => ensureCapacity fs numPages fh
  end.

Lemma seek_offset_inside (n total : Z) :
  0 <= n < total -> 0 <= int_wrap (n * PAGE_SIZE) ->
  int_wrap (n * PAGE_SIZE) + PAGE_SIZE <= total * PAGE_SIZE.
Proof.
  intros Hn Hoff. unfold PAGE_SIZE in *.
  destruct (Z_lt_le_dec (n * 4096) (2 ^ 31)) as [Hsmall | Hbig].
  - rewrite int_wrap_id by lia. lia.
  - pose proof (int_wrap_range (n * 4096)). lia.
Qed.

End PageFiles.

(** X18.  A page that [writeBlock] wrote with success is what
    [readBlock] of the same page returns, through the handle the write
    left; the handle's position is that page. *)
Theorem writeBlock_then_readBlock (fs fs' : FileSystem) (fh fh' : SM_FileHandle) (n : Z)
    (buf buf0 : SM_PageHandle) :
  length buf = PAGE_LEN -> length buf0 = PAGE_LEN ->
  writeBlock fs n fh buf = (RC_OK, fs', fh') ->
  readBlock fs' n fh' buf0 = (RC_OK, fh', buf) /\ getBlockPos fh' = n.
Proof.
  intros Hbuf Hbuf0. unfold writeBlock.
  destruct ((n <? 0) || (n >=? totalNumPages fh)) eqn:Hrange; [done |].
  destruct (fseek_set_ok (int_wrap (n * PAGE_SIZE))) eqn:Hseek; [| done]. simpl.
  destruct (fwrite _ _ _ _) as [fs1 |] eqn:Hw; [| done]. intros [= <- <-].
  apply fwrite_inv in Hw as (name & c & Hname & Hc & He & ->).
  split; [| done]. destruct fh as [fname total cur info]. simpl in *. subst info.
  unfold readBlock, validate_read. simpl. rewrite Hrange, Hseek. simpl.
  rewrite lookup_insert_eq. simpl.
  rewrite (take_ge buf) by lia. unfold fread_at.
  pose proof (fwrite_at_window_any c buf (int_wrap (n * PAGE_SIZE))) as Hwin.
  rewrite Hbuf in Hwin. rewrite Hwin.
  rewrite bool_decide_true by done.
  rewrite (drop_ge buf0) by lia. by rewrite app_nil_r.
Qed.

(** The theorem above on the one-page file, for page 0. *)
Lemma writeBlock_then_readBlock_witness :
  let buf := Examples.page7 in
  let buf0 := zero_bytes PAGE_LEN in
  exists fs' fh',
    writeBlock Examples.fs1 0 Examples.fh1 buf = (RC_OK, fs', fh') /\
    length buf = PAGE_LEN /\ length buf0 = PAGE_LEN /\
    readBlock fs' 0 fh' buf0 = (RC_OK, fh', buf) /\ getBlockPos fh' = 0.
Proof.
  intros buf buf0.
  assert (Hbuf : length buf = PAGE_LEN) by (vm_compute; reflexivity).
  assert (Hbuf0 : length buf0 = PAGE_LEN) by (vm_compute; reflexivity).
  destruct (writeBlock Examples.fs1 0 Examples.fh1 buf) as [[rc fs'] fh'] eqn:Hw.
  exists fs', fh'.
  assert (Hrc : rc = RC_OK).
  { assert (H : (writeBlock Examples.fs1 0 Examples.fh1 buf).1.1 = RC_OK)
      by (vm_compute; reflexivity).
    by rewrite Hw in H. }
  subst rc. split; [reflexivity |]. split; [exact Hbuf |]. split; [exact Hbuf0 |].
  exact (writeBlock_then_readBlock Examples.fs1 fs' Examples.fh1 fh' 0 buf buf0 Hbuf Hbuf0 Hw).
Defined.

(** X19.  On a device that takes writes, [createPageFile] makes a file
    of one page of zeros, replacing any file of that name; [openPageFile]
    then gives a handle on one page at position 0 that describes the file,
    and [readBlock] of page 0 returns the zeros. *)
Theorem createPageFile_then_openPageFile (fs : FileSystem) (name : string)
    (buf0 : SM_PageHandle) :
  write_error fs = false -> length buf0 = PAGE_LEN ->
  exists fs1 fh,
    createPageFile fs name = (RC_OK, fs1) /\
    files fs1 !! name = Some (zero_bytes PAGE_LEN) /\
    openPageFile fs1 name = (RC_OK, Some fh) /\
    totalNumPages fh = 1 /\ getBlockPos fh = 0 /\ handle_ok fs1 fh /\
    readBlock fs1 0 fh buf0 = (RC_OK, fh, zero_bytes PAGE_LEN).
Proof.
  intros He Hbuf0.
  exists (set_file (set_file fs name []) name (zero_bytes PAGE_LEN)),
         {| fileName := name; totalNumPages := 1; curPagePos := 0; mgmtInfo := Some name |}.
  assert (Hlen : length (zero_bytes PAGE_LEN) = PAGE_LEN) by apply length_zero_bytes.
  split; [| split; [| split; [| split; [done | split; [done | split]]]]].
  - unfold createPageFile, fwrite, set_file. cbn [files write_error].
    by rewrite lookup_insert_eq, He.
  - unfold set_file. cbn [files]. by rewrite lookup_insert_eq.
  - unfold openPageFile, get_file_size, set_file. cbn [files].
    rewrite lookup_insert_eq, Hlen. reflexivity.
  - exists name, (zero_bytes PAGE_LEN). unfold set_file. cbn [files mgmtInfo totalNumPages].
    rewrite lookup_insert_eq, Hlen. done.
  - unfold readBlock, validate_read, set_file.
    cbn [files mgmtInfo totalNumPages negb is_ok].
    change ((0 <? 0) || (0 >=? 1)) with false. cbv iota.
    change (is_ok RC_OK) with true. cbv iota. cbn [negb].
    change (fseek_set_ok (int_wrap (0 * PAGE_SIZE))) with true. cbn [negb]. cbv iota.
    rewrite lookup_insert_eq. cbn [default].
    unfold fread_at. change (Z.to_nat (int_wrap (0 * PAGE_SIZE))) with 0%nat.
    rewrite drop_0. unfold Datatypes.id. rewrite take_ge by (rewrite Hlen; lia).
    rewrite Hlen, bool_decide_true by done.
    rewrite (drop_ge buf0) by lia. by rewrite app_nil_r.
Qed.

(** The theorem above on the empty file system. *)
Lemma createPageFile_then_openPageFile_witness :
  write_error Examples.empty_fs = false /\ length (zero_bytes PAGE_LEN) = PAGE_LEN /\
  exists fs1 fh,
    createPageFile Examples.empty_fs "t.bin" = (RC_OK, fs1) /\
    files fs1 !! "t.bin"%string = Some (zero_bytes PAGE_LEN) /\
    openPageFile fs1 "t.bin" = (RC_OK, Some fh) /\
    totalNumPages fh = 1 /\ getBlockPos fh = 0 /\ handle_ok fs1 fh /\
    readBlock fs1 0 fh (zero_bytes PAGE_LEN) = (RC_OK, fh, zero_bytes PAGE_LEN).
Proof.
  assert (He : write_error Examples.empty_fs = false) by reflexivity.
  assert (Hlen : length (zero_bytes PAGE_LEN) = PAGE_LEN) by (vm_compute; reflexivity).
  split; [exact He |]. split; [exact Hlen |].
  exact (createPageFile_then_openPageFile Examples.empty_fs "t.bin" (zero_bytes PAGE_LEN)
           He Hlen).
Defined.

Section IntactFiles.

Lemma fwrite_at_end (c buf : list byte) :
  fwrite_at c (Z.of_nat (length c)) buf = c ++ buf.
Proof.
  unfold fwrite_at. rewrite Nat2Z.id, take_ge, Nat.sub_diag by lia.
  rewrite drop_ge by lia. simpl. by rewrite app_nil_r.
Qed.

End IntactFiles.

(** X20.  A handle that describes its file (the stream is open on a
    file of [totalNumPages] whole pages) still does so after a successful
    [writeBlock], [appendEmptyBlock] or [ensureCapacity].  [writeBlock]
    keeps the size of the file and, for a page below 2 GiB, changes no byte
    outside the page; the other two extend the file by pages of zeros, by
    one page and up to the capacity asked for. *)
Theorem write_file_keeps_handle_ok (fs fs' : FileSystem) (fh fh' : SM_FileHandle)
    (op : FileWrite) (name : string) (c : list byte) :
  mgmtInfo fh = Some name -> files fs !! name = Some c ->
  Z.of_nat (length c) = totalNumPages fh * PAGE_SIZE ->
  write_file fs fh op = (RC_OK, fs', fh') ->
  handle_ok fs' fh' /\
  exists c', files fs' !! name = Some c' /\ mgmtInfo fh' = Some name /\
    match op with
    | WriteBlock n buf =>
        totalNumPages fh' = totalNumPages fh /\ length c' = length c /\
        (n * PAGE_SIZE <= INT_MAX ->
         forall i : nat,
           (i < Z.to_nat (n * PAGE_SIZE) \/ Z.to_nat ((n + 1) * PAGE_SIZE) <= i)%nat ->
           c' !! i = c !! i)
    | AppendEmptyBlock =>
        totalNumPages fh' = totalNumPages fh + 1 /\ c' = c ++ zero_bytes PAGE_LEN
    | EnsureCapacity n =>
        totalNumPages fh' = Z.max n (totalNumPages fh) /\
        c' = c ++ zero_bytes (Z.to_nat (totalNumPages fh' - totalNumPages fh) * PAGE_LEN)
    end.
Proof.
  intros Hname Hc Hlen Hop.
  assert (Hps : PAGE_SIZE = 4096) by reflexivity.
  assert (Hpl : PAGE_LEN = 4096%nat) by reflexivity.
  destruct fh as [fname total cur info]. cbn [mgmtInfo totalNumPages] in *. subst info.
  destruct op as [n buf | | n]; cbn [write_file] in Hop.
  - unfold writeBlock in Hop. cbn [mgmtInfo totalNumPages] in Hop.
    destruct (Z.ltb_spec n 0) as [? | Hn0]; [done |].
    destruct (Z.geb_spec n total) as [? | Hnt]; [done |]. cbn [orb] in Hop.
    unfold fseek_set_ok in Hop.
    destruct (Z.leb_spec 0 (int_wrap (n * PAGE_SIZE))) as [Hoff | ?]; [| done].
    cbn [negb] in Hop.
    destruct (fwrite _ _ _ _) as [fs1 |] eqn:Hw; [| done]. injection Hop as <- <-.
    apply fwrite_inv in Hw as (name' & c0 & [= <-] & Hc0 & He & ->).
    rewrite Hc in Hc0. injection Hc0 as <-.
    pose proof (seek_offset_inside n total ltac:(lia) Hoff) as Hin.
    set (off := int_wrap (n * PAGE_SIZE)) in *.
    assert (Htake : (length (take PAGE_LEN buf) <= PAGE_LEN)%nat)
      by (rewrite length_take; lia).
    assert (Hlen' : length (fwrite_at c off (take PAGE_LEN buf)) = length c)
      by (apply length_fwrite_at_inside; lia).
    split; [| eexists; split; [| split; [done | split; [done | split; [exact Hlen' |]]]]].
    + eexists name, _. cbn [mgmtInfo set_curPagePos files set_file totalNumPages].
      rewrite lookup_insert_eq. split; [done |]. split; [done |]. by rewrite Hlen'.
    + cbn [files set_file]. by rewrite lookup_insert_eq.
    + intros Hmax i Hi. subst off. rewrite int_wrap_small in * by (unfold INT_MAX in *; lia).
      destruct Hi as [Hi | Hi].
      * apply fwrite_at_before; lia.
      * destruct (decide (length c <= i)%nat) as [Hout | Hinside].
        -- rewrite !lookup_ge_None_2; [done | lia | lia].
        -- unfold fwrite_at.
           replace (Z.to_nat (n * PAGE_SIZE) - length c)%nat with 0%nat by lia.
           unfold zero_bytes. cbn [replicate app].
           rewrite lookup_app_r by (rewrite length_take; lia).
           rewrite length_take, Nat.min_l by lia.
           destruct (decide (i - Z.to_nat (n * PAGE_SIZE) < length (take PAGE_LEN buf))%nat)
             as [Hshort | Hlong].
           ++ lia.
           ++ rewrite lookup_app_r by lia. rewrite lookup_drop. f_equal. lia.
  - unfold appendEmptyBlock in Hop. cbn [mgmtInfo totalNumPages] in Hop.
    destruct (fwrite _ _ _ _) as [fs1 |] eqn:Hw; [| done]. injection Hop as <- <-.
    apply fwrite_inv in Hw as (name' & c0 & [= <-] & Hc0 & He & ->).
    rewrite Hc in Hc0. injection Hc0 as <-.
    unfold fseek_end. rewrite Hc, fwrite_at_end.
    split; [| eexists; split; [| split; [done | split; [done | reflexivity]]]].
    + eexists name, _. cbn [mgmtInfo set_totalNumPages files set_file totalNumPages].
      rewrite lookup_insert_eq. split; [done |]. split; [done |].
      rewrite length_app, length_zero_bytes. lia.
    + cbn [files set_file]. by rewrite lookup_insert_eq.
  - unfold ensureCapacity in Hop. cbn [mgmtInfo totalNumPages] in Hop.
    destruct (Z.leb_spec n 0) as [? | Hn]; [done |].
    destruct (Z.geb_spec total n) as [Hge | Hlt].
    + injection Hop as <- <-. split; [by exists name, c |].
      exists c. split; [done |]. split; [done |]. cbn [totalNumPages].
      split; [lia |]. rewrite Z.sub_diag. simpl. by rewrite app_nil_r.
    + destruct (fwrite _ _ _ _) as [fs1 |] eqn:Hw; [| done]. injection Hop as <- <-.
      apply fwrite_inv in Hw as (name' & c0 & [= <-] & Hc0 & He & ->).
      rewrite Hc in Hc0. injection Hc0 as <-.
      unfold fseek_end. rewrite Hc, fwrite_at_end.
      split; [| eexists; split; [| split; [done | split; [cbn [totalNumPages set_totalNumPages]; lia
                                                          | reflexivity]]]].
      * eexists name, _. cbn [mgmtInfo set_totalNumPages files set_file totalNumPages].
        rewrite lookup_insert_eq. split; [done |]. split; [done |].
        rewrite length_app, length_zero_bytes. lia.
      * cbn [files set_file]. by rewrite lookup_insert_eq.
Qed.

(** The theorem above on the one-page file, extended to three pages. *)
Lemma write_file_keeps_handle_ok_witness :
  let fs := Examples.fs1 in
  let fh := Examples.fh1 in
  let op := EnsureCapacity 3 in
  exists fs' fh',
    write_file fs fh op = (RC_OK, fs', fh') /\
    mgmtInfo fh = Some "t.bin"%string /\
    files fs !! "t.bin"%string = Some (zero_bytes PAGE_LEN) /\
    Z.of_nat (length (zero_bytes PAGE_LEN)) = totalNumPages fh * PAGE_SIZE /\
    handle_ok fs' fh' /\ totalNumPages fh' = 3.
Proof.
  intros fs fh op.
  assert (Hname : mgmtInfo fh = Some "t.bin"%string) by reflexivity.
  assert (Hc : files fs !! "t.bin"%string = Some (zero_bytes PAGE_LEN))
    by (vm_compute; reflexivity).
  assert (Hlen : Z.of_nat (length (zero_bytes PAGE_LEN)) = totalNumPages fh * PAGE_SIZE)
    by (vm_compute; reflexivity).
  destruct (write_file fs fh op) as [[rc fs'] fh'] eqn:Hop.
  exists fs', fh'.
  assert (Hrc : rc = RC_OK).
  { assert (H : (write_file fs fh op).1.1 = RC_OK) by (vm_compute; reflexivity).
    by rewrite Hop in H. }
  subst rc. split; [reflexivity |]. split; [exact Hname |]. split; [exact Hc |].
  split; [exact Hlen |].
  destruct (write_file_keeps_handle_ok fs fs' fh fh' op "t.bin" (zero_bytes PAGE_LEN)
              Hname Hc Hlen Hop) as (Hok & c' & _ & _ & Htotal & _).
  split; [exact Hok |]. rewrite Htotal. reflexivity.
Defined.

(** X21.  Through a handle that describes its file, a file of less
    than 2 GiB, [readBlock] returns [RC_OK] exactly for the pages 0 to
    [totalNumPages - 1]: it then yields the bytes of that page and moves the
    position to it; for any other page number it returns
    [RC_READ_NON_EXISTING_PAGE] and leaves handle and buffer alone. *)
Theorem readBlock_intact_file (fs : FileSystem) (fh : SM_FileHandle) (name : string)
    (c : list byte) (n : Z) (buf0 : SM_PageHandle) :
  mgmtInfo fh = Some name -> files fs !! name = Some c ->
  Z.of_nat (length c) = totalNumPages fh * PAGE_SIZE ->
  totalNumPages fh * PAGE_SIZE <= INT_MAX + 1 ->
  length buf0 = PAGE_LEN ->
  readBlock fs n fh buf0
  = if bool_decide (0 <= n < totalNumPages fh)
    then (RC_OK, set_curPagePos fh n, page_of c n)
    else (RC_READ_NON_EXISTING_PAGE, fh, buf0).
Proof.
  intros Hname Hc Hlen Hsmall Hbuf0.
  assert (Hps : PAGE_SIZE = 4096) by reflexivity.
  assert (Hpl : PAGE_LEN = 4096%nat) by reflexivity.
  unfold readBlock, validate_read.
  destruct (bool_decide_reflect (0 <= n < totalNumPages fh)) as [Hin | Hout].
  2: { destruct (Z.ltb_spec n 0) as [Hneg | Hn0]; [done |].
       destruct (Z.geb_spec n (totalNumPages fh)) as [Hbig | Hnt]; [done | lia]. }
  destruct (Z.ltb_spec n 0) as [Hneg | Hn0]; [lia |].
  destruct (Z.geb_spec n (totalNumPages fh)) as [Hbig | Hnt]; [lia |].
  cbn [orb negb is_ok].
  change (is_ok RC_OK) with true. cbn [negb].
  rewrite int_wrap_small by (unfold INT_MAX in *; lia).
  unfold fseek_set_ok. destruct (Z.leb_spec 0 (n * PAGE_SIZE)) as [_ | ?]; [| lia].
  cbn [negb]. rewrite Hname, Hc. cbn [default].
  unfold fread_at, Datatypes.id, page_of.
  assert (Hpage : length (take PAGE_LEN (drop (Z.to_nat (n * PAGE_SIZE)) c)) = PAGE_LEN).
  { rewrite length_take, length_drop. rewrite Hps in *. lia. }
  rewrite Hpage, bool_decide_true by reflexivity.
  rewrite (drop_ge buf0) by (rewrite Hbuf0; reflexivity). by rewrite app_nil_r.
Qed.

(** The theorem above on the one-page file, for page 0. *)
Lemma readBlock_intact_file_witness :
  let fs := Examples.fs1 in
  let fh := Examples.fh1 in
  let buf0 := Examples.page7 in
  mgmtInfo fh = Some "t.bin"%string /\
  files fs !! "t.bin"%string = Some (zero_bytes PAGE_LEN) /\
  Z.of_nat (length (zero_bytes PAGE_LEN)) = totalNumPages fh * PAGE_SIZE /\
  totalNumPages fh * PAGE_SIZE <= INT_MAX + 1 /\
  length buf0 = PAGE_LEN /\
  readBlock fs 0 fh buf0
  = if bool_decide (0 <= 0 < totalNumPages fh)
    then (RC_OK, set_curPagePos fh 0, page_of (zero_bytes PAGE_LEN) 0)
    else (RC_READ_NON_EXISTING_PAGE, fh, buf0).
Proof.
  intros fs fh buf0.
  assert (Hname : mgmtInfo fh = Some "t.bin"%string) by reflexivity.
  assert (Hc : files fs !! "t.bin"%string = Some (zero_bytes PAGE_LEN))
    by (vm_compute; reflexivity).
  assert (Hlen : Z.of_nat (length (zero_bytes PAGE_LEN)) = totalNumPages fh * PAGE_SIZE)
    by (vm_compute; reflexivity).
  assert (Hsmall : totalNumPages fh * PAGE_SIZE <= INT_MAX + 1) by (vm_compute; discriminate).
  assert (Hbuf0 : length buf0 = PAGE_LEN) by (vm_compute; reflexivity).
  split; [exact Hname |]. split; [exact Hc |]. split; [exact Hlen |].
  split; [exact Hsmall |]. split; [exact Hbuf0 |].
  exact (readBlock_intact_file fs fh "t.bin" (zero_bytes PAGE_LEN) 0 buf0
           Hname Hc Hlen Hsmall Hbuf0).
Defined.

(** X22.  After a successful [destroyPageFile] the file cannot be
    opened: [openPageFile] returns [RC_FILE_NOT_FOUND] and no handle, and
    a second [destroyPageFile] returns [RC_FILE_NOT_FOUND]; every other
    file is as it was. *)
Theorem destroyPageFile_then_openPageFile (fs fs' : FileSystem) (name : string) :
  destroyPageFile fs name = (RC_OK, fs') ->
  openPageFile fs' name = (RC_FILE_NOT_FOUND, None) /\
  destroyPageFile fs' name = (RC_FILE_NOT_FOUND, fs') /\
  forall other, other <> name -> files fs' !! other = files fs !! other.
Proof.
  unfold destroyPageFile. destruct (files fs !! name) as [c |] eqn:Hc; [| done].
  intros [= <-]. unfold openPageFile, get_file_size, remove_file. cbn [files].
  rewrite lookup_delete_eq. split; [done |]. split; [done |].
  intros other Hne. by rewrite lookup_delete_ne.
Qed.

(** The theorem above on the one-page file. *)
Lemma destroyPageFile_then_openPageFile_witness :
  exists fs',
    destroyPageFile Examples.fs1 "t.bin" = (RC_OK, fs') /\
    openPageFile fs' "t.bin" = (RC_FILE_NOT_FOUND, None) /\
    destroyPageFile fs' "t.bin" = (RC_FILE_NOT_FOUND, fs') /\
    forall other, other <> "t.bin"%string -> files fs' !! other = files Examples.fs1 !! other.
Proof.
  destruct (destroyPageFile Examples.fs1 "t.bin") as [rc fs'] eqn:Hop.
  exists fs'.
  assert (Hrc : rc = RC_OK).
  { assert (H : (destroyPageFile Examples.fs1 "t.bin").1 = RC_OK) by (vm_compute; reflexivity).
    by rewrite Hop in H. }
  subst rc. split; [reflexivity |].
  exact (destroyPageFile_then_openPageFile Examples.fs1 fs' "t.bin" Hop).
Defined.

(** * More of the buffer manager *)

(** X23.  Under every replacement strategy, a successful [pinPage]
    leaves each pinned frame that holds another page in its place, with
    its page, content, dirty flag and pin count: a pinned page is never
    evicted. *)
Theorem pinPage_keeps_pinned_frames (fuel : nat) (fs fs' : FileSystem) (bm bm' : BM_BufferPool)
    (m : BufferPoolMetadata) (page page' : BM_PageHandle) (p : Z) (j : nat) (f : DLNode) :
  mgmtData bm = Some m ->
  pinPage fuel fs bm page p = Some (RC_OK, fs', bm', page') ->
  head m !! j = Some f -> 0 < pinCount f -> pageNum f <> p ->
  exists m' g,
    mgmtData bm' = Some m' /\ head m' !! j = Some g /\
    data g = data f /\ pageNum g = pageNum f /\ isDirty g = isDirty f /\
    pinCount g = pinCount f.
Proof.
  intros Hlive Hpin Hj Hpinned Hother.
  destruct (pinPage_ok_inv _ _ _ _ Hlive _ _ _ _ _ Hpin) as (m' & -> & _ & _ & Hcases).
  exists m'.
  destruct Hcases as [(i & fi & Hfind & _ & _ & Hh & _) |
                      [(buf & _ & _ & _ & _ & Hh & _) |
                       (m1 & v & victim & buf & _ & _ & _ & Hsel & Hv & _ & Hh & _)]].
  - exists f. split; [done |]. rewrite Hh.
    apply findPage_lookup in Hfind as [Hi Hp].
    assert (i <> j) by (intros ->; rewrite Hi in Hj; injection Hj as ->; done).
    by rewrite list_lookup_insert_ne.
  - exists f. split; [done |]. rewrite Hh.
    by rewrite lookup_app_l by (by eapply lookup_lt_Some).
  - destruct (select_victim_spec _ _ _ _ _ Hsel) as ((f0 & Hf0 & Hunp) & Hsame & _).
    destruct (Forall2_lookup_l _ _ _ _ _ Hsame Hj) as (g & Hg & Hd & Hp & Hdirty & Hc & _).
    exists g. split; [done |]. rewrite Hh.
    assert (v <> j) by (intros ->; rewrite Hg in Hf0; injection Hf0 as ->; lia).
    by rewrite list_lookup_insert_ne.
Qed.

(** The theorem above on the CLOCK pool of three frames that holds the
    pages 1, 2 and 3, page 2 pinned, when page 4 is asked for. *)
Lemma pinPage_keeps_pinned_frames_witness :
  let st := Examples.load_and_hold 0 Examples.clock_pool 2 in
  exists fs' bm' page' f,
    pinPage 8 (Examples.fs_of st) (Examples.pool_of st) Examples.no_handle 4
    = Some (RC_OK, fs', bm', page') /\
    mgmtData (Examples.pool_of st) = Some (Examples.meta_of st) /\
    head (Examples.meta_of st) !! 1%nat = Some f /\ 0 < pinCount f /\ pageNum f <> 4 /\
    exists m' g,
      mgmtData bm' = Some m' /\ head m' !! 1%nat = Some g /\
      data g = data f /\ pageNum g = pageNum f /\ isDirty g = isDirty f /\
      pinCount g = pinCount f.
Proof.
  intros st.
  assert (Hlive : mgmtData (Examples.pool_of st) = Some (Examples.meta_of st))
    by (vm_compute; reflexivity).
  destruct (head (Examples.meta_of st) !! 1%nat) as [f |] eqn:Hf.
  2: { exfalso. vm_compute in Hf. discriminate Hf. }
  assert (Hfacts : (fun g => (pinCount g, pageNum g)) <$> head (Examples.meta_of st) !! 1%nat
                   = Some (1, 2)) by (vm_compute; reflexivity).
  rewrite Hf in Hfacts. injection Hfacts as Hc Hp.
  destruct (pinPage 8 (Examples.fs_of st) (Examples.pool_of st) Examples.no_handle 4)
    as [[[[rc fs'] bm'] page'] |] eqn:Hpin.
  - exists fs', bm', page', f.
    assert (Hrc : rc = RC_OK).
    { assert (H : (fun t => t.1.1.1)
                    <$> pinPage 8 (Examples.fs_of st) (Examples.pool_of st) Examples.no_handle 4
                  = Some RC_OK) by (vm_compute; reflexivity).
      rewrite Hpin in H. by injection H. }
    subst rc. split; [reflexivity |]. split; [exact Hlive |]. split; [reflexivity |].
    assert (Hpos : 0 < pinCount f) by lia. assert (Hne : pageNum f <> 4) by lia.
    split; [exact Hpos |]. split; [exact Hne |].
    exact (pinPage_keeps_pinned_frames 8 _ fs' _ bm' _ _ page' 4 1 f Hlive Hpin Hf Hpos Hne).
  - exfalso.
    assert (H : (fun _ => true)
                  <$> pinPage 8 (Examples.fs_of st) (Examples.pool_of st) Examples.no_handle 4
                = Some true) by (vm_compute; reflexivity).
    rewrite Hpin in H. discriminate H.
Defined.

Section PoolInvariants.

(** No page is in two frames. *)
Definition pages_distinct (m : BufferPoolMetadata) : Prop := NoDup (pageNum <$> head m).

(** [numFramesUsed] counts the frames, and there are at most
    [totalFrames] of them. *)
Definition frames_counted (m : BufferPoolMetadata) : Prop :=
  Z.of_nat (length (head m)) = numFramesUsed m /\ numFramesUsed m <= totalFrames m.

Definition pool_ok (m : BufferPoolMetadata) : Prop :=
  pins_ok m /\ data_ok m /\ pages_distinct m /\ frames_counted m.

Inductive PoolCall : Type :=
| PinPage (p : Z)
| UnpinPage
| MarkDirty
| ForcePage
| ForceFlushPool.

(** The return code, the files, the pool and the page handle a call
    leaves. *)
Definition call_pool (fuel : nat) (fs : FileSystem) (bm : BM_BufferPool) (page : BM_PageHandle)
    (c : PoolCall) : option (RC * FileSystem * BM_BufferPool * BM_PageHandle) :=
  match c with
  | PinPage p => pinPage fuel fs bm page p
  | UnpinPage => (fun r => (r.1, fs, r.2, page)) <$> unpinPage bm page
  | MarkDirty => (fun r => (r.1, fs, r.2, page)) <$> markDirty bm page
  | ForcePage => (fun r => (r, page)) <$> forcePage fs bm page
  | ForceFlushPool => (fun r => (r, page)) <$> forceFlushPool fs bm
  end.

Lemma NoDup_insert_fresh (l : list Z) (v : nat) (p : Z) :
  NoDup l -> p ∉ l -> NoDup (<[v := p]> l).
Proof.
  intros Hnd Hp. apply NoDup_alt. intros i j x Hi Hj.
  rewrite NoDup_alt in Hnd.
  destruct (decide (i = v)) as [-> | Hiv], (decide (j = v)) as [-> | Hjv]; [done | | |].
  - rewrite list_lookup_insert_ne in Hj by done.
    apply list_lookup_insert_Some in Hi as [(_ & <- & _) | (? & _)]; [| done].
    exfalso. apply Hp. by eapply list_elem_of_lookup_2.
  - rewrite list_lookup_insert_ne in Hi by done.
    apply list_lookup_insert_Some in Hj as [(_ & <- & _) | (? & _)]; [| done].
    exfalso. apply Hp. by eapply list_elem_of_lookup_2.
  - rewrite list_lookup_insert_ne in Hi, Hj by done. by eapply Hnd.
Qed.

Lemma findPage_None_not_in (m : BufferPoolMetadata) (p : Z) :
  findPage m p = None -> p ∉ pageNum <$> head m.
Proof.
  unfold findPage. intros Hnone%list_find_None Hin.
  apply list_elem_of_fmap in Hin as (f & -> & Hf).
  rewrite Forall_forall in Hnone. by apply (Hnone f).
Qed.

Lemma same_frame_pages (l l1 : list DLNode) :
  Forall2 same_frame l l1 -> pageNum <$> l1 = pageNum <$> l.
Proof.
  induction 1 as [| f g l l1 (_ & Hp & _) _ IH]; [done |].
  rewrite !fmap_cons. by rewrite Hp, IH.
Qed.

(** A frame changes, but not its page. *)
Lemma pool_ok_insert (m m' : BufferPoolMetadata) (i : nat) (f g : DLNode) :
  head m !! i = Some f -> head m' = <[i := g]> (head m) ->
  numFramesUsed m' = numFramesUsed m -> totalFrames m' = totalFrames m ->
  pageNum g = pageNum f -> 0 <= pinCount g -> length (data g) = PAGE_LEN ->
  pool_ok m -> pool_ok m'.
Proof.
  intros Hi Hh Hu Ht Hp Hc Hd (Hpins & Hdata & Hnd & Hlen & Hle).
  unfold pool_ok, pins_ok, data_ok, pages_distinct, frames_counted. rewrite Hh, Hu, Ht.
  split; [by apply Forall_insert |]. split; [by apply Forall_insert |].
  split; [| by rewrite length_insert].
  rewrite list_fmap_insert, list_insert_id; [done |].
  by rewrite list_lookup_fmap, Hi, Hp.
Qed.

Lemma forcePage_ok_inv (fs fs' : FileSystem) (bm bm' : BM_BufferPool) (m : BufferPoolMetadata)
    (page : BM_PageHandle) :
  mgmtData bm = Some m ->
  forcePage fs bm page = Some (RC_OK, fs', bm') ->
  exists i f,
    findPage m (hPageNum page) = Some (i, f) /\
    bm' = set_mgmtData bm (Some (set_writeCount
            (set_head m (<[i := set_isDirty f false]> (head m))) (writeCount m + 1))).
Proof.
  intros Hlive. unfold forcePage. rewrite Hlive.
  destruct (findPage m (hPageNum page)) as [[i f] |]; [| done].
  destruct (openPageFile fs (pageFile bm)) as [rc [fh |]]; [| done].
  intros [= _ <-]. by exists i, f.
Qed.

End PoolInvariants.

(** X24.  A pool in which no pin count is negative, every frame holds
    a full page, no page is in two frames, and [numFramesUsed] counts the
    frames and does not exceed [totalFrames], is such a pool again after
    any call of [pinPage], [unpinPage], [markDirty], [forcePage] or
    [forceFlushPool] that returns [RC_OK]; the capacity stays the same. *)
Theorem pool_invariants_preserved (fuel : nat) (fs fs' : FileSystem) (bm bm' : BM_BufferPool)
    (m : BufferPoolMetadata) (page page' : BM_PageHandle) (c : PoolCall) :
  mgmtData bm = Some m -> pool_ok m ->
  call_pool fuel fs bm page c = Some (RC_OK, fs', bm', page') ->
  exists m', mgmtData bm' = Some m' /\ pool_ok m' /\ totalFrames m' = totalFrames m.
Proof.
  intros Hlive Hok Hcall. destruct c as [p | | | |]; cbn [call_pool] in Hcall.
  - destruct (pinPage_ok_inv _ _ _ _ Hlive _ _ _ _ _ Hcall) as (m' & -> & Ht & _ & Hcases).
    exists m'. split; [done |]. split; [| done].
    destruct Hcases as [(i & f & Hfind & _ & _ & Hh & Hu) |
                        [(buf & Hlen & Hnone & Hroom & _ & Hh & Hu) |
                         (m1 & v & victim & buf & Hlen & Hnone & Hfull & Hsel & Hv & _ & Hh & Hu)]].
    + apply findPage_lookup in Hfind as [Hi Hp].
      apply (pool_ok_insert m m' i f _ Hi Hh Hu Ht); try done.
      destruct Hok as (Hpins & _). pose proof (Forall_lookup_1 _ _ _ _ Hpins Hi) as Hc.
      simpl in *. lia.
      destruct Hok as (_ & Hdata & _). apply (Forall_lookup_1 _ _ _ _ Hdata Hi).
    + destruct Hok as (Hpins & Hdata & Hnd & Hcount & Hle).
      unfold pool_ok, pins_ok, data_ok, pages_distinct, frames_counted. rewrite Hh, Hu, Ht.
      split; [apply Forall_app; split; [done | by apply Forall_singleton] |].
      split; [apply Forall_app; split; [done | by apply Forall_singleton] |].
      split.
      * rewrite fmap_app. apply NoDup_app. split; [done |]. split; [| apply NoDup_singleton].
        intros x Hx Hxp. apply list_elem_of_singleton in Hxp. subst x.
        by apply (findPage_None_not_in m p).
      * rewrite length_app. simpl. lia.
    + destruct (select_victim_spec _ _ _ _ _ Hsel)
        as (_ & Hsame & _ & Ht1 & Hu1 & _).
      destruct Hok as (Hpins & Hdata & Hnd & Hcount & Hle).
      assert (Hlen1 : length (head m1) = length (head m))
        by (symmetry; by eapply Forall2_length).
      unfold pool_ok, pins_ok, data_ok, pages_distinct, frames_counted. rewrite Hh, Hu, Ht.
      split; [| split; [| split]].
      * apply Forall_insert; [| simpl; lia].
        apply Forall_lookup. intros j g Hg.
        destruct (Forall2_lookup_r _ _ _ _ _ Hsame Hg) as (f0 & Hf0 & _ & _ & _ & Hc & _).
        pose proof (Forall_lookup_1 _ _ _ _ Hpins Hf0) as Hp0. simpl in *. lia.
      * apply Forall_insert; [| done]. by apply (data_ok_same_frame m).
      * rewrite list_fmap_insert. apply NoDup_insert_fresh.
        -- by rewrite (same_frame_pages _ _ Hsame).
        -- rewrite (same_frame_pages _ _ Hsame). by apply findPage_None_not_in.
      * rewrite length_insert, Hlen1. done.
  - destruct (unpinPage bm page) as [[rc bm1] |] eqn:Hun; [| done].
    injection Hcall as -> _ <- _.
    destruct (unpinPage_ok_inv _ _ Hlive _ _ Hun) as (i & f & Hfind & Hpos & ->).
    apply findPage_lookup in Hfind as [Hi Hp].
    eexists. split; [reflexivity |]. split; [| done].
    apply (pool_ok_insert m _ i f (set_pinCount f (pinCount f - 1)) Hi); try done.
    + simpl. lia.
    + destruct Hok as (_ & Hdata & _). apply (Forall_lookup_1 _ _ _ _ Hdata Hi).
  - destruct (markDirty bm page) as [[rc bm1] |] eqn:Hmd; [| done].
    injection Hcall as -> _ <- _.
    destruct (markDirty_ok_inv _ _ Hlive _ _ Hmd) as (i & f & Hfind & ->).
    apply findPage_lookup in Hfind as [Hi Hp].
    eexists. split; [reflexivity |]. split; [| done].
    apply (pool_ok_insert m _ i f (set_isDirty f true) Hi); try done.
    + destruct Hok as (Hpins & _). apply (Forall_lookup_1 _ _ _ _ Hpins Hi).
    + destruct Hok as (_ & Hdata & _). apply (Forall_lookup_1 _ _ _ _ Hdata Hi).
  - destruct (forcePage fs bm page) as [[[rc fs1] bm1] |] eqn:Hfp; [| done].
    injection Hcall as -> _ <- _.
    destruct (forcePage_ok_inv _ _ _ _ _ _ Hlive Hfp) as (i & f & Hfind & ->).
    apply findPage_lookup in Hfind as [Hi Hp].
    eexists. split; [reflexivity |]. split; [| done].
    apply (pool_ok_insert m _ i f (set_isDirty f false) Hi); try done.
    + destruct Hok as (Hpins & _). apply (Forall_lookup_1 _ _ _ _ Hpins Hi).
    + destruct Hok as (_ & Hdata & _). apply (Forall_lookup_1 _ _ _ _ Hdata Hi).
  - destruct (forceFlushPool fs bm) as [[[rc fs1] bm1] |] eqn:Hflush; [| done].
    injection Hcall as -> _ <- _.
    destruct (forceFlushPool_frames _ _ _ _ _ _ Hlive Hflush)
      as (_ & m1 & -> & Hhead & Ht & Hu & _).
    exists m1. split; [done |]. split; [| done].
    destruct Hok as (Hpins & Hdata & Hnd & Hcount & Hle).
    unfold pool_ok, pins_ok, data_ok, pages_distinct, frames_counted. rewrite Hhead, Hu, Ht.
    split; [| split; [| split]].
    + apply Forall_fmap. eapply Forall_impl; [exact Hpins |].
      intros f Hf. simpl. by rewrite flushed_pinCount.
    + apply Forall_fmap. eapply Forall_impl; [exact Hdata |].
      intros f Hf. simpl. unfold flushed. by destruct (_ && _).
    + assert (Hpages : pageNum <$> (flushed <$> head m) = pageNum <$> head m).
      { rewrite <- list_fmap_compose. apply list_fmap_ext. intros i f Hf.
        unfold flushed. simpl. by destruct (_ && _). }
      by rewrite Hpages.
    + by rewrite length_fmap.
Qed.

(** [pool_ok], decided. *)
Definition pool_check (m : BufferPoolMetadata) : bool :=
  forallb (fun f => (0 <=? pinCount f) && bool_decide (length (data f) = PAGE_LEN)) (head m)
  && bool_decide (NoDup (pageNum <$> head m))
  && (Z.of_nat (length (head m)) =? numFramesUsed m)
  && (numFramesUsed m <=? totalFrames m).

Lemma pool_check_ok (m : BufferPoolMetadata) : pool_check m = true -> pool_ok m.
Proof.
  unfold pool_check. intros H.
  apply andb_prop in H as [H Hle]. apply andb_prop in H as [H Hcount].
  apply andb_prop in H as [Hall Hnd].
  apply Z.leb_le in Hle. apply Z.eqb_eq in Hcount. apply bool_decide_eq_true in Hnd.
  rewrite forallb_forall in Hall.
  assert (Hf : forall f, f ∈ head m -> 0 <= pinCount f /\ length (data f) = PAGE_LEN).
  { intros f Hin. apply list_elem_of_In in Hin. specialize (Hall f Hin).
    apply andb_prop in Hall as [Hp Hd]. apply Z.leb_le in Hp.
    by apply bool_decide_eq_true in Hd. }
  split; [| split; [| split; [done | done]]].
  - apply Forall_forall. intros f Hin. by apply Hf.
  - apply Forall_forall. intros f Hin. by apply Hf.
Qed.

(** The theorem above on the CLOCK pool of three frames that holds the
    pages 1, 2 and 3, when page 4 is pinned. *)
Lemma pool_invariants_preserved_witness :
  let st := Examples.clock_pool in
  let c := PinPage 4 in
  exists fs' bm' page',
    call_pool 8 (Examples.fs_of st) (Examples.pool_of st) Examples.no_handle c
    = Some (RC_OK, fs', bm', page') /\
    mgmtData (Examples.pool_of st) = Some (Examples.meta_of st) /\
    pool_ok (Examples.meta_of st) /\
    exists m', mgmtData bm' = Some m' /\ pool_ok m' /\
               totalFrames m' = totalFrames (Examples.meta_of st).
Proof.
  intros st c.
  assert (Hlive : mgmtData (Examples.pool_of st) = Some (Examples.meta_of st))
    by (vm_compute; reflexivity).
  assert (Hok : pool_ok (Examples.meta_of st))
    by (apply pool_check_ok; vm_compute; reflexivity).
  destruct (call_pool 8 (Examples.fs_of st) (Examples.pool_of st) Examples.no_handle c)
    as [[[[rc fs'] bm'] page'] |] eqn:Hcall.
  - exists fs', bm', page'.
    assert (Hrc : rc = RC_OK).
    { assert (H : (fun t => t.1.1.1)
                    <$> call_pool 8 (Examples.fs_of st) (Examples.pool_of st)
                          Examples.no_handle c
                  = Some RC_OK) by (vm_compute; reflexivity).
      rewrite Hcall in H. by injection H. }
    subst rc. split; [reflexivity |]. split; [exact Hlive |]. split; [exact Hok |].
    exact (pool_invariants_preserved 8 _ fs' _ bm' _ _ page' c Hlive Hok Hcall).
  - exfalso.
    assert (H : (fun _ => true)
                  <$> call_pool 8 (Examples.fs_of st) (Examples.pool_of st)
                        Examples.no_handle c
                = Some true) by (vm_compute; reflexivity).
    rewrite Hcall in H. discriminate H.
Defined.

Section PinThenUnpin.

Variables (fuel : nat) (fs : FileSystem) (bm : BM_BufferPool) (m : BufferPoolMetadata).
Hypothesis Hlive : mgmtData bm = Some m.

(** After a successful pin the page is found in a frame with a positive
    pin count. *)
Lemma pinPage_ok_pinned (page : BM_PageHandle) (p : Z) (fs' : FileSystem)
    (bm' : BM_BufferPool) (page' : BM_PageHandle) :
  pins_ok m ->
  pinPage fuel fs bm page p = Some (RC_OK, fs', bm', page') ->
  exists m' i f',
    mgmtData bm' = Some m' /\ page' = mkPageHandle p (Some i) /\
    findPage m' p = Some (i, f') /\ 0 < pinCount f'.
Proof.
  intros Hpins Hpin.
  destruct (pinPage_ok_inv _ _ _ _ Hlive _ _ _ _ _ Hpin) as (m' & -> & Ht & Hg & Hcases).
  exists m'.
  destruct Hcases as [(i & f & Hfind & -> & _ & Hh & Hu) |
                      [(buf & Hlen & Hnone & Hroom & -> & Hh & Hu) |
                       (m1 & v & victim & buf & Hlen & Hnone & Hfull & Hsel & Hv & -> & Hh & Hu)]].
  - pose proof (findPage_lookup _ _ _ _ Hfind) as [Hi Hp].
    set (f' := mkNode _ _ _ _ _ _) in Hh.
    exists i, f'. split; [done |]. split; [done |]. split.
    + unfold findPage in *. rewrite Hh. by apply (find_insert_same p _ _ f).
    + pose proof (Forall_lookup_1 _ _ _ _ Hpins Hi) as Hc. simpl in *. lia.
  - set (g := mkNode _ _ _ _ _ _) in Hh.
    exists (length (head m)), g. split; [done |]. split; [done |]. split; [| simpl; lia].
    unfold findPage in *. rewrite Hh. by apply find_app_fresh.
  - set (g := mkNode _ _ _ _ _ _) in Hh.
    destruct (select_victim_spec _ _ _ _ _ Hsel) as (_ & Hsame & _).
    exists v, g. split; [done |]. split; [done |]. split; [| simpl; lia].
    assert (Hnone1 : findPage m1 p = None).
    { unfold findPage in *. by apply (find_same_frame_None p (head m)). }
    unfold findPage in *. rewrite Hh.
    apply find_insert_fresh; [done | done | by eapply lookup_lt_Some].
Qed.

End PinThenUnpin.

(** X25.  In a pool without negative pin counts, [unpinPage] through
    the handle that a successful [pinPage] filled returns [RC_OK]; the pin
    raised the sum of the pin counts by one, and the unpin restores it. *)
Theorem pinPage_then_unpinPage (fuel : nat) (fs fs' : FileSystem) (bm bm' : BM_BufferPool)
    (m : BufferPoolMetadata) (page page' : BM_PageHandle) (p : Z) :
  mgmtData bm = Some m -> pins_ok m ->
  pinPage fuel fs bm page p = Some (RC_OK, fs', bm', page') ->
  hPageNum page' = p /\
  exists bm'' m' m'',
    unpinPage bm' page' = Some (RC_OK, bm'') /\
    mgmtData bm' = Some m' /\ mgmtData bm'' = Some m'' /\
    sumZ pinCount (head m') = sumZ pinCount (head m) + 1 /\
    sumZ pinCount (head m'') = sumZ pinCount (head m).
Proof.
  intros Hlive Hpins Hpin.
  destruct (pinPage_ok_pinned _ _ _ _ Hlive _ _ _ _ _ Hpins Hpin)
    as (m' & i & f' & Hlive' & -> & Hfind & Hpos).
  split; [done |].
  destruct (pinPage_ok_pin_total _ _ _ _ Hlive _ _ _ _ _ Hpin) as (m0 & Hlive0 & Hsum).
  rewrite Hlive' in Hlive0. injection Hlive0 as <-.
  assert (Hun : exists bm'', unpinPage bm' (mkPageHandle p (Some i)) = Some (RC_OK, bm'')).
  { unfold unpinPage. rewrite Hlive'. cbn [hPageNum]. rewrite Hfind.
    destruct (Z.gtb_spec (pinCount f') 0) as [_ | ?]; [by eexists | lia]. }
  destruct Hun as (bm'' & Hun). exists bm'', m'.
  destruct (unpinPage_ok_pin_total _ _ Hlive' _ _ Hun) as (m'' & Hlive'' & Hsum').
  exists m''. repeat split; try done. lia.
Qed.

(** The theorem above on the CLOCK pool of three frames that holds the
    pages 1, 2 and 3, when page 4 is pinned. *)
Lemma pinPage_then_unpinPage_witness :
  let st := Examples.clock_pool in
  exists fs' bm' page',
    pinPage 8 (Examples.fs_of st) (Examples.pool_of st) Examples.no_handle 4
    = Some (RC_OK, fs', bm', page') /\
    mgmtData (Examples.pool_of st) = Some (Examples.meta_of st) /\
    pins_ok (Examples.meta_of st) /\
    hPageNum page' = 4 /\
    exists bm'' m' m'',
      unpinPage bm' page' = Some (RC_OK, bm'') /\
      mgmtData bm' = Some m' /\ mgmtData bm'' = Some m'' /\
      sumZ pinCount (head m') = sumZ pinCount (head (Examples.meta_of st)) + 1 /\
      sumZ pinCount (head m'') = sumZ pinCount (head (Examples.meta_of st)).
Proof.
  intros st.
  assert (Hlive : mgmtData (Examples.pool_of st) = Some (Examples.meta_of st))
    by (vm_compute; reflexivity).
  assert (Hpins : pins_ok (Examples.meta_of st)).
  { assert (Hok : pool_ok (Examples.meta_of st))
      by (apply pool_check_ok; vm_compute; reflexivity).
    exact (proj1 Hok). }
  destruct (pinPage 8 (Examples.fs_of st) (Examples.pool_of st) Examples.no_handle 4)
    as [[[[rc fs'] bm'] page'] |] eqn:Hpin.
  - exists fs', bm', page'.
    assert (Hrc : rc = RC_OK).
    { assert (H : (fun t => t.1.1.1)
                    <$> pinPage 8 (Examples.fs_of st) (Examples.pool_of st) Examples.no_handle 4
                  = Some RC_OK) by (vm_compute; reflexivity).
      rewrite Hpin in H. by injection H. }
    subst rc. split; [reflexivity |]. split; [exact Hlive |]. split; [exact Hpins |].
    exact (pinPage_then_unpinPage 8 _ fs' _ bm' _ _ page' 4 Hlive Hpins Hpin).
  - exfalso.
    assert (H : (fun _ => true)
                  <$> pinPage 8 (Examples.fs_of st) (Examples.pool_of st) Examples.no_handle 4
                = Some true) by (vm_compute; reflexivity).
    rewrite Hpin in H. discriminate H.
Defined.

(** X26.  Under FIFO, LRU, LFU and LRU-K, [pinPage] of a page that is
    not resident, in a pool that holds at least one frame, has no free
    frame and in which every frame is pinned, returns [RC_ERROR]; files,
    frames and the caller's handle are as before.  (A pool without any
    frame is left out: there [replaceFIFO] dereferences the null list
    head.) *)
Theorem pinPage_all_pinned_fails (fuel : nat) (fs : FileSystem) (bm : BM_BufferPool)
    (m : BufferPoolMetadata) (page : BM_PageHandle) (p : Z) :
  mgmtData bm = Some m -> head m <> [] ->
  totalFrames m <= numFramesUsed m -> findPage m p = None ->
  all_pinned (head m) -> strategy bm <> RS_CLOCK ->
  exists bm' m',
    pinPage fuel fs bm page p = Some (RC_ERROR, fs, bm', page) /\
    mgmtData bm' = Some m' /\ head m' = head m.
Proof.
  intros Hlive Hne Hfull Habsent Hpinned Hs.
  destruct (pinPage_all_pinned_error fs bm m page p Hlive Hfull Habsent Hpinned fuel Hs Hne)
    as (m' & Hpin & Hhead).
  exists (set_mgmtData bm (Some m')), m'. by rewrite Hpin.
Qed.

(** The theorem above on a FIFO pool of one frame that holds page 1,
    pinned, when page 2 is asked for. *)
Lemma pinPage_all_pinned_fails_witness :
  let st := Examples.load_and_hold 0 (Examples.fresh_pool 1 RS_FIFO) 1 in
  (mgmtData (Examples.pool_of st) = Some (Examples.meta_of st) /\
   head (Examples.meta_of st) <> [] /\
   totalFrames (Examples.meta_of st) <= numFramesUsed (Examples.meta_of st) /\
   findPage (Examples.meta_of st) 2 = None /\
   all_pinned (head (Examples.meta_of st)) /\
   strategy (Examples.pool_of st) <> RS_CLOCK) /\
  exists bm' m',
    pinPage 0 (Examples.fs_of st) (Examples.pool_of st) Examples.no_handle 2
    = Some (RC_ERROR, Examples.fs_of st, bm', Examples.no_handle) /\
    mgmtData bm' = Some m' /\ head m' = head (Examples.meta_of st).
Proof.
  intros st.
  assert (H1 : mgmtData (Examples.pool_of st) = Some (Examples.meta_of st))
    by (vm_compute; reflexivity).
  assert (H2 : totalFrames (Examples.meta_of st) <= numFramesUsed (Examples.meta_of st))
    by (vm_compute; discriminate).
  assert (H3 : findPage (Examples.meta_of st) 2 = None) by (vm_compute; reflexivity).
  assert (H4 : all_pinned (head (Examples.meta_of st))).
  { assert (Hc : forallb (fun f => 0 <? pinCount f) (head (Examples.meta_of st)) = true)
      by (vm_compute; reflexivity).
    apply Forall_forall. intros f Hf. rewrite forallb_forall in Hc.
    apply list_elem_of_In in Hf. by apply Z.ltb_lt, Hc. }
  assert (H5 : strategy (Examples.pool_of st) <> RS_CLOCK) by (vm_compute; discriminate).
  assert (H6 : head (Examples.meta_of st) <> []).
  { assert (Hlen : length (head (Examples.meta_of st)) = 1%nat) by (vm_compute; reflexivity).
    intros Hnil. rewrite Hnil in Hlen. discriminate Hlen. }
  split; [exact (conj H1 (conj H6 (conj H2 (conj H3 (conj H4 H5))))) |].
  exact (pinPage_all_pinned_fails 0 (Examples.fs_of st) (Examples.pool_of st)
           (Examples.meta_of st) Examples.no_handle 2 H1 H6 H2 H3 H4 H5).
Defined.

Section PagesOfFiles.

Variables (fs : FileSystem) (name : string) (c : list byte) (k : Z).
Hypothesis Hfile : files fs !! name = Some c.
Hypothesis Haligned : Z.of_nat (length c) = k * PAGE_SIZE.
Hypothesis Hsmall : k * PAGE_SIZE <= INT_MAX + 1.

Let fh : SM_FileHandle :=
  {| fileName := name; totalNumPages := k; curPagePos := 0; mgmtInfo := Some name |}.




End PagesOfFiles.





Section WriteBack.

Lemma page_of_app (c z : list byte) (q : Z) :
  0 <= q -> (q + 1) * PAGE_SIZE <= Z.of_nat (length c) ->
  page_of (c ++ z) q = page_of c q.
Proof.
  intros Hq Hin. assert (Hps : PAGE_SIZE = 4096) by reflexivity.
  assert (Hpl : PAGE_LEN = 4096%nat) by reflexivity.
  unfold page_of. rewrite drop_app_le by (rewrite Hps in *; lia).
  rewrite take_app_le; [done |]. rewrite length_drop. rewrite Hps, Hpl in *. lia.
Qed.

(** [load_page] may extend the file, and changes nothing else of it. *)
Lemma load_page_extends (fs fs' : FileSystem) (fh : SM_FileHandle) (name : string)
    (c : list byte) (p : Z) (buf buf' : SM_PageHandle) (rc : RC) :
  mgmtInfo fh = Some name -> files fs !! name = Some c ->
  load_page fs fh p buf = (rc, fs', buf') ->
  exists z, files fs' !! name = Some (c ++ z).
Proof.
  intros Hname Hfile. unfold load_page.
  destruct (ensureCapacity fs (p + 1) fh) as [[rc1 fs1] fh1] eqn:Hens.
  assert (Hfs1 : exists z, files fs1 !! name = Some (c ++ z)).
  { unfold ensureCapacity in Hens.
    destruct (p + 1 <=? 0); [injection Hens as _ <- _; exists []; by rewrite app_nil_r |].
    destruct (totalNumPages fh >=? p + 1);
      [injection Hens as _ <- _; exists []; by rewrite app_nil_r |].
    destruct (fwrite _ _ _ _) as [fs2 |] eqn:Hw;
      [| injection Hens as _ <- _; exists []; by rewrite app_nil_r].
    injection Hens as _ <- _.
    apply fwrite_inv in Hw as (name' & c0 & Hn & Hc0 & _ & ->).
    rewrite Hname in Hn. injection Hn as <-. rewrite Hfile in Hc0. injection Hc0 as <-.
    unfold fseek_end. rewrite Hname, Hfile, fwrite_at_end.
    eexists. cbn [files set_file]. by rewrite lookup_insert_eq. }
  destruct (negb (is_ok rc1)); [by intros [= _ <- _] |].
  destruct (p <? totalNumPages fh1); [| by intros [= _ <- _]].
  destruct (readBlock fs1 p fh1 buf) as [[rc2 fh2] b2].
  destruct (negb (is_ok rc2)); by intros [= _ <- _].
Qed.

Lemma pin_replace_ok_handle (fs fs' : FileSystem) (bm bm' : BM_BufferPool)
    (m1 : BufferPoolMetadata) (page page' : BM_PageHandle) (p : Z) (v : nat) (victim : DLNode) :
  pin_replace fs bm m1 page p v victim = (RC_OK, fs', bm', page') ->
  page' = mkPageHandle p (Some v).
Proof.
  unfold pin_replace.
  destruct (isDirty victim).
  - destruct (openPageFile fs (pageFile bm)) as [rc [fh |]] eqn:Hopen; cbv beta iota zeta.
    + destruct (openPageFile (writeBlock _ _ _ _).1.2 (pageFile bm))
        as [rc1 [fh1 |]] eqn:Hopen1.
      * destruct (load_page _ _ _ _) as [[rc2 fs2] buf].
        destruct (is_ok rc2) eqn:Hok; cbn [negb]; [by intros [= _ _ <-] |].
        intros [= -> _ _ _]. done.
      * intros [= -> _ _ _]. by apply openPageFile_None in Hopen1.
    + intros [= -> _ _ _]. by apply openPageFile_None in Hopen.
  - cbv beta iota zeta.
    destruct (openPageFile fs (pageFile bm)) as [rc1 [fh1 |]] eqn:Hopen1.
    + destruct (load_page _ _ _ _) as [[rc2 fs2] buf].
      destruct (is_ok rc2) eqn:Hok; cbn [negb]; [by intros [= _ _ <-] |].
      intros [= -> _ _ _]. done.
    + intros [= -> _ _ _]. by apply openPageFile_None in Hopen1.
Qed.

(** A dirty victim is written to its page of the file before the frame
    is reused. *)
Lemma pin_replace_writes_back (fs fs' : FileSystem) (bm bm' : BM_BufferPool)
    (m1 : BufferPoolMetadata) (page page' : BM_PageHandle) (p : Z) (v : nat) (victim : DLNode)
    (c : list byte) (k : Z) :
  files fs !! pageFile bm = Some c -> Z.of_nat (length c) = k * PAGE_SIZE ->
  k * PAGE_SIZE <= INT_MAX + 1 -> 0 <= pageNum victim < k -> write_error fs = false ->
  length (data victim) = PAGE_LEN -> isDirty victim = true ->
  pin_replace fs bm m1 page p v victim = (RC_OK, fs', bm', page') ->
  exists c', files fs' !! pageFile bm = Some c' /\
             page_of c' (pageNum victim) = data victim.
Proof.
  intros Hfile Haligned Hsmall Hp Hdev Hdata Hdirty.
  assert (Hps : PAGE_SIZE = 4096) by reflexivity.
  unfold pin_replace. rewrite Hdirty.
  rewrite (openPageFile_aligned fs (pageFile bm) c k Hfile Haligned).
  set (fh := {| fileName := pageFile bm; totalNumPages := k; curPagePos := 0;
                mgmtInfo := Some (pageFile bm) |}).
  destruct (writeBlock_success fs fh (data victim) (pageFile bm) c eq_refl Hfile Hdata
              (pageNum victim) Hp) as (c1 & Hw & Hlen & Hwin & _);
    [rewrite Hps in *; lia | unfold INT_MAX in *; rewrite Hps in *; lia | done |].
  cbv beta iota zeta. rewrite Hw. cbn [fst snd].
  assert (Hfile1 : files (set_file fs (pageFile bm) c1) !! pageFile bm = Some c1)
    by (cbn [files set_file]; by rewrite lookup_insert_eq).
  assert (Haligned1 : Z.of_nat (length c1) = k * PAGE_SIZE) by (by rewrite Hlen).
  rewrite (openPageFile_aligned _ (pageFile bm) c1 k Hfile1 Haligned1). fold fh.
  destruct (load_page _ fh p _) as [[rc2 fs2] buf] eqn:Hload.
  destruct (load_page_extends _ _ fh (pageFile bm) c1 _ _ _ _ eq_refl Hfile1 Hload)
    as (z & Hfs2).
  destruct (is_ok rc2) eqn:Hok; cbn [negb]; [| intros [= -> _ _ _]; done].
  intros [= <- _ _]. exists (c1 ++ z). split; [exact Hfs2 |].
  rewrite page_of_app by (rewrite Hps in *; lia). exact Hwin.
Qed.

End WriteBack.

(** X29.  When a successful [pinPage] takes the frame of a dirty page
    for another page, the content of that frame is in the file afterwards:
    on a device that takes writes and a page file of whole pages (less than
    2 GiB) that holds the victim's page, that page of the file equals what
    the frame held. *)
Theorem pinPage_writes_back_victim (fuel : nat) (fs fs' : FileSystem) (bm bm' : BM_BufferPool)
    (m : BufferPoolMetadata) (page : BM_PageHandle) (p : Z) (v : nat) (victim : DLNode)
    (c : list byte) (k : Z) :
  mgmtData bm = Some m -> findPage m p = None -> totalFrames m <= numFramesUsed m ->
  pinPage fuel fs bm page p = Some (RC_OK, fs', bm', mkPageHandle p (Some v)) ->
  head m !! v = Some victim -> isDirty victim = true -> length (data victim) = PAGE_LEN ->
  files fs !! pageFile bm = Some c -> Z.of_nat (length c) = k * PAGE_SIZE ->
  k * PAGE_SIZE <= INT_MAX + 1 -> 0 <= pageNum victim < k -> write_error fs = false ->
  exists c', files fs' !! pageFile bm = Some c' /\
             page_of c' (pageNum victim) = data victim.
Proof.
  intros Hlive Habsent Hfull Hpin Hv Hdirty Hdata Hfile Haligned Hsmall Hp Hdev.
  unfold pinPage in Hpin. rewrite Hlive, Habsent in Hpin.
  destruct (Z.ltb_spec (numFramesUsed m) (totalFrames m)) as [? | _]; [lia |].
  destruct (select_victim fuel (strategy bm) m) as [[m1 [v1 |]] |] eqn:Hsel; [| done | done].
  destruct (head m1 !! v1) as [victim1 |] eqn:Hv1; [| done].
  destruct (pinCount victim1 >? 0); [done |].
  injection Hpin as Hpin.
  pose proof (pin_replace_ok_handle _ _ _ _ _ _ _ _ _ _ Hpin) as Hh.
  injection Hh as <-.
  destruct (select_victim_spec _ _ _ _ _ Hsel) as (_ & Hsame & _).
  destruct (Forall2_lookup_l _ _ _ _ _ Hsame Hv) as (g & Hg & Hd & Hpn & Hdi & _).
  rewrite Hv1 in Hg. injection Hg as <-.
  rewrite <- Hd, <- Hpn. rewrite <- Hd in Hdata. rewrite <- Hpn in Hp. rewrite <- Hdi in Hdirty.
  by eapply pin_replace_writes_back.
Qed.


(** A FIFO pool of one frame on the one-page file whose frame holds page 0,
    marked dirty and released. *)
Definition dirty_pool : option (FileSystem * BM_BufferPool) :=
  match Examples.load_and_hold 0 (Examples.fresh_pool 1 RS_FIFO) 0 with
  | Some (fs, bm) =>
      match markDirty bm (mkPageHandle 0 (Some 0%nat)) with
      | Some (RC_OK, bm1) =>
          match unpinPage bm1 (mkPageHandle 0 (Some 0%nat)) with
          | Some (RC_OK, bm2) => Some (fs, bm2)
          | _ => None
          end
      | _ => None
      end
  | None => None
  end.

(** The theorem above on that pool when page 1 is pinned. *)
Lemma pinPage_writes_back_victim_witness :
  let st := dirty_pool in
  let fs := Examples.fs_of st in
  let bm := Examples.pool_of st in
  let m := Examples.meta_of st in
  exists fs' bm' victim c,
    mgmtData bm = Some m /\ findPage m 1 = None /\ totalFrames m <= numFramesUsed m /\
    pinPage 0 fs bm Examples.no_handle 1 = Some (RC_OK, fs', bm', mkPageHandle 1 (Some 0%nat)) /\
    head m !! 0%nat = Some victim /\ isDirty victim = true /\
    length (data victim) = PAGE_LEN /\
    files fs !! pageFile bm = Some c /\ Z.of_nat (length c) = 1 * PAGE_SIZE /\
    1 * PAGE_SIZE <= INT_MAX + 1 /\ 0 <= pageNum victim < 1 /\ write_error fs = false /\
    exists c', files fs' !! pageFile bm = Some c' /\
               page_of c' (pageNum victim) = data victim.
Proof.
  intros st fs bm m.
  assert (H1 : mgmtData bm = Some m) by (vm_compute; reflexivity).
  assert (H2 : findPage m 1 = None) by (vm_compute; reflexivity).
  assert (H3 : totalFrames m <= numFramesUsed m) by (vm_compute; discriminate).
  destruct (pinPage 0 fs bm Examples.no_handle 1) as [[[[rc fs'] bm'] page'] |] eqn:Hpin.
  2: { exfalso.
       assert (H : (fun _ => true) <$> pinPage 0 fs bm Examples.no_handle 1 = Some true)
         by (vm_compute; reflexivity).
       rewrite Hpin in H. discriminate H. }
  assert (Hout : (fun t => (t.1.1.1, t.2)) <$> pinPage 0 fs bm Examples.no_handle 1
                 = Some (RC_OK, mkPageHandle 1 (Some 0%nat))) by (vm_compute; reflexivity).
  rewrite Hpin in Hout. injection Hout as Hrc Hpage. simpl in Hrc, Hpage. subst rc page'.
  destruct (head m !! 0%nat) as [victim |] eqn:Hv.
  2: { exfalso.
       assert (H : (fun _ => true) <$> head m !! 0%nat = Some true) by (vm_compute; reflexivity).
       rewrite Hv in H. discriminate H. }
  assert (Hfacts : (fun f => (isDirty f, length (data f), pageNum f)) <$> head m !! 0%nat
                   = Some (true, PAGE_LEN, 0)) by (vm_compute; reflexivity).
  rewrite Hv in Hfacts. injection Hfacts as Hdirty Hdata Hpn.
  destruct (files fs !! pageFile bm) as [c |] eqn:Hc.
  2: { exfalso.
       assert (H : (fun _ => true) <$> files fs !! pageFile bm = Some true)
         by (vm_compute; reflexivity).
       rewrite Hc in H. discriminate H. }
  assert (Hlen : length <$> files fs !! pageFile bm = Some PAGE_LEN)
    by (vm_compute; reflexivity).
  rewrite Hc in Hlen. injection Hlen as Hlen.
  assert (H9 : Z.of_nat (length c) = 1 * PAGE_SIZE) by (rewrite Hlen; reflexivity).
  assert (H10 : 1 * PAGE_SIZE <= INT_MAX + 1) by (vm_compute; discriminate).
  assert (H11 : 0 <= pageNum victim < 1) by (rewrite Hpn; lia).
  assert (H12 : write_error fs = false) by (vm_compute; reflexivity).
  exists fs', bm', victim, c.
  split; [exact H1 |]. split; [exact H2 |]. split; [exact H3 |]. split; [reflexivity |].
  split; [reflexivity |]. split; [exact Hdirty |]. split; [exact Hdata |].
  split; [reflexivity |]. split; [exact H9 |]. split; [exact H10 |]. split; [exact H11 |].
  split; [exact H12 |].
  exact (pinPage_writes_back_victim 0 fs fs' bm bm' m Examples.no_handle 1 0 victim c 1
           H1 H2 H3 Hpin Hv Hdirty Hdata Hc H9 H10 H11 H12).
Defined.


(** * The CLOCK sweep ends *)

Section ClockEnds.

(** Steps of the hand from frame [c] to frame [i] in a list of [n] frames. *)
Definition hand_distance (n c i : nat) : nat :=
  if bool_decide (c <= i)%nat then (i - c)%nat else (n - c + i)%nat.

(** Turns of the loop after which frame [i] is taken at the latest. *)
Definition turns_left (m : BufferPoolMetadata) (current i : nat) : nat :=
  match head m !! i with
  | Some f =>
      (hand_distance (length (head m)) current i
       + (if (accessCount f =? 0)%Z then 0 else length (head m)))%nat
  | None => 0%nat
  end.

Lemma next_wrap_inside (l : list DLNode) (c : nat) :
  (c < length l)%nat -> (next_wrap l c < length l)%nat.
Proof. intros Hc. unfold next_wrap. case_bool_decide; lia. Qed.

Lemma clock_walk_inside (l : list DLNode) (c steps : nat) :
  (c < length l)%nat -> (clock_walk l c steps < length l)%nat.
Proof.
  revert c. induction steps as [| k IH]; intros c Hc; simpl; [done |].
  by apply IH, next_wrap_inside.
Qed.

Lemma clock_loop_ends (fuel : nat) (m : BufferPoolMetadata) (current i : nat) (f : DLNode) :
  head m !! i = Some f -> pinCount f = 0 -> 0 <= accessCount f ->
  (current < length (head m))%nat -> (turns_left m current i < fuel)%nat ->
  exists m1 v, clock_loop fuel m current = Some (m1, Some v).
Proof.
  revert m current f. induction fuel as [| k IH]; intros m current f Hi Hpin Hacc Hc Hfuel;
    [lia |].
  cbn [clock_loop].
  destruct (lookup_lt_is_Some_2 _ _ Hc) as [g Hg]. rewrite Hg. cbv zeta.
  destruct ((pinCount g =? 0) && (accessCount g =? 0)) eqn:Htest; [by eexists _, _ |].
  pose proof (lookup_lt_Some _ _ _ Hi) as Hin.
  unfold turns_left in Hfuel. rewrite Hi in Hfuel.
  destruct (decide (current = i)) as [-> | Hne].
  - rewrite Hi in Hg. injection Hg as <-. rewrite Hpin in Htest. cbn [Z.eqb andb] in Htest.
    apply Z.eqb_neq in Htest.
    destruct (Z.gtb_spec (accessCount f) 0) as [_ | ?]; [| lia].
    eapply (IH _ _ (set_accessCount f 0)).
    + cbn [head set_clockHand set_head]. by apply list_lookup_insert_eq.
    + done.
    + done.
    + cbn [head set_clockHand set_head]. apply next_wrap_inside. by rewrite length_insert.
    + unfold turns_left. cbn [head set_clockHand set_head].
      rewrite list_lookup_insert_eq by done. cbn [accessCount set_accessCount Z.eqb].
      rewrite length_insert. unfold next_wrap, hand_distance in *. rewrite length_insert.
      apply Z.eqb_neq in Htest. rewrite Htest in Hfuel.
      repeat case_bool_decide; lia.
  - set (l1 := if accessCount g >? 0 then <[current := set_accessCount g 0]> (head m)
               else head m).
    assert (Hlen : length l1 = length (head m))
      by (unfold l1; destruct (accessCount g >? 0); [by rewrite length_insert | done]).
    assert (Hi1 : l1 !! i = Some f).
    { unfold l1. destruct (accessCount g >? 0); [| done].
      by rewrite list_lookup_insert_ne. }
    eapply (IH _ _ f).
    + exact Hi1.
    + done.
    + done.
    + cbn [head set_clockHand set_head]. apply next_wrap_inside. by rewrite Hlen.
    + unfold turns_left. cbn [head set_clockHand set_head]. rewrite Hi1, Hlen.
      unfold next_wrap, hand_distance in *. rewrite Hlen.
      destruct (accessCount f =? 0); repeat case_bool_decide; lia.
Qed.

End ClockEnds.

(** X30.  [replaceCLOCK] returns a victim, and one that is not pinned,
    within twice as many turns of its loop as the pool has frames, when some
    frame of the pool is unpinned and has an access count that is not
    negative. *)
Theorem replaceCLOCK_finds_victim (fuel : nat) (m : BufferPoolMetadata) (i : nat) (f : DLNode) :
  head m !! i = Some f -> pinCount f = 0 -> 0 <= accessCount f ->
  (2 * length (head m) <= fuel)%nat ->
  exists m1 v g, replaceCLOCK fuel m = Some (m1, Some v) /\
                 head m1 !! v = Some g /\ pinCount g = 0.
Proof.
  intros Hi Hpin Hacc Hfuel. unfold replaceCLOCK.
  pose proof (lookup_lt_Some _ _ _ Hi) as Hin.
  set (current := clock_walk (head m) 0 (Z.to_nat (clockHand m))).
  assert (Hc : (current < length (head m))%nat) by (apply clock_walk_inside; lia).
  destruct (clock_loop_ends fuel m current i f Hi Hpin Hacc Hc) as (m1 & v & Hloop).
  { unfold turns_left. rewrite Hi. unfold hand_distance.
    destruct (accessCount f =? 0); case_bool_decide; lia. }
  destruct (clock_loop_spec _ _ _ _ _ Hloop) as ((g & Hg & Hpg) & _).
  by exists m1, v, g.
Qed.

(** The theorem above on the CLOCK pool of three frames that holds the
    pages 1, 2 and 3, each released with access count 1. *)
Lemma replaceCLOCK_finds_victim_witness :
  let m := Examples.meta_of Examples.clock_pool in
  exists f,
    head m !! 2%nat = Some f /\ pinCount f = 0 /\ 0 <= accessCount f /\
    (2 * length (head m) <= 6)%nat /\
    exists m1 v g, replaceCLOCK 6 m = Some (m1, Some v) /\
                   head m1 !! v = Some g /\ pinCount g = 0.
Proof.
  intros m.
  destruct (head m !! 2%nat) as [f |] eqn:Hf.
  2: { exfalso.
       assert (H : (fun _ => true) <$> head m !! 2%nat = Some true) by (vm_compute; reflexivity).
       rewrite Hf in H. discriminate H. }
  assert (Hfacts : (fun f => (pinCount f, accessCount f)) <$> head m !! 2%nat = Some (0, 1))
    by (vm_compute; reflexivity).
  rewrite Hf in Hfacts. injection Hfacts as Hpin Hacc.
  assert (Hlen : length (head m) = 3%nat) by (vm_compute; reflexivity).
  assert (H3 : 0 <= accessCount f) by (rewrite Hacc; lia).
  assert (H4 : (2 * length (head m) <= 6)%nat) by (rewrite Hlen; lia).
  exists f. split; [reflexivity |]. split; [exact Hpin |]. split; [exact H3 |].
  split; [exact H4 |].
  exact (replaceCLOCK_finds_victim 6 m 2 f Hf Hpin H3 H4).
Defined.

(** * Shutdown with pinned frames *)

Section ShutdownFlush.






End ShutdownFlush.



